(** * The news pipeline of bloomberg-news-scraper

    A shallow embedding of the three sentiment analysers of the repository
    ([sentiment_analyzer.py], [sentiment_analyzer_correct.py],
    [sentiment_analyzer_fixed.py]) and of [BERT/BERT_main.py], followed by
    the properties of the text normaliser, the item splitter, the scorer,
    the aggregator and the row processor; and of the steps before them:
    the search for addresses ([bloomberg_scraper_class.py],
    [csv_url_extractor.py], [bloomberg_scraper_main.py]), the download
    and the parsing of the articles ([article_parser.py],
    [url_to_text_converter.py]) and the bundles of headlines that
    [url_to_text_converter.py] writes for the analysers.

    Modelling choices.
    - A Python [str] is a list of Unicode code points ([N]).
    - A Python [float] (binary64) and an entry of a [torch] tensor
      (binary32) are the rationals ([Q]) they hold.  Every operation
      rounds its exact result to the format of its operands, to the
      nearest number of the format with ties to even and with gradual
      underflow ([IEEE754.round]); the literal [0.1] is the double
      nearest to one tenth.  Infinities and NaN are left out: the
      probabilities are taken to be finite, and on probabilities none
      of the operations of the analysers overflows.  Python [int]s
      are [Z].  The built-in [sum] adds [float]s as the interpreter
      does, which changed with CPython 3.12 ([Run.Interpreter]).
    - The pretrained model (tokenizer, network, softmax) is the External
      Scorer: an interface with a state of its own, which either returns
      a probability vector or raises.
    - Exceptions and the scorer's state are threaded through a state and
      error monad; the monad also records every text handed to the
      External Scorer.
    - The site, the random number generator, [datetime.strptime] and
      BeautifulSoup are interfaces as well, each with the log of what
      was asked of it; a page or a sitemap is what the code reads off
      it.  The [while] loop of the scraper takes fuel, and is shown to
      end within it. *)

From Stdlib Require Import List Bool NArith ZArith QArith Lia Lqa.
From Stdlib Require Import Qround Qabs Qpower.
From Stdlib Require Import Ascii String DecimalString.
Import ListNotations.

Set Implicit Arguments.

(** ** Python values *)

Module Py.

(** A [str]: the sequence of its code points. *)
Definition pystr := list N.

(** An ASCII literal as a [str]. *)
Definition lit (s : string) : pystr :=
  map N_of_ascii (list_ascii_of_string s).

Definition str_eqb (a b : pystr) : bool :=
  if list_eq_dec N.eq_dec a b then true else false.

(** [bool(s)] of a [str]: true when the string is not empty. *)
Definition truthy (s : pystr) : bool :=
  match s with [] => false | _ :: _ => true end.

Definition in_range (lo hi c : N) : bool :=
  ((lo <=? c) && (c <=? hi))%N.

(** [str.isspace] on one code point, which is also what [\s] matches in
    a [str] pattern of [re]. *)
Definition isspace (c : N) : bool :=
  in_range 9 13 c || in_range 28 32 c || (c =? 133)%N || (c =? 160)%N
  || (c =? 5760)%N || in_range 8192 8202 c || (c =? 8232)%N
  || (c =? 8233)%N || (c =? 8239)%N || (c =? 8287)%N || (c =? 12288)%N.

Definition SPACE : N := 32.
Definition PIPE : N := 124.

(** [str.isalnum] outside ASCII comes from the Unicode database of the
    interpreter, which is no part of the repository. *)
Class UnicodeData := { isalnum_nonascii : N -> bool }.

(** [\w] in a [str] pattern: alphanumeric, or the underscore. *)
Definition isword {U : UnicodeData} (c : N) : bool :=
  if (c <? 128)%N then
    in_range 48 57 c || in_range 65 90 c || in_range 97 122 c
    || (c =? 95)%N
  else isalnum_nonascii c.

(** The ranges U+3040-309F, U+30A0-30FF and U+4E00-9FAF (hiragana,
    katakana, ideographs) of both cleaning patterns. *)
Definition japanese (c : N) : bool :=
  in_range 12352 12447 c || in_range 12448 12543 c
  || in_range 19968 40879 c.

(** U+3000-303F, the punctuation range of one of the patterns. *)
Definition cjk_punctuation (c : N) : bool := in_range 12288 12351 c.

(** [s.lstrip()]. *)
Fixpoint lstrip (s : pystr) : pystr :=
  match s with
  | [] => []
  | c :: s' => if isspace c then lstrip s' else s
  end.

(** [s.rstrip()]. *)
Fixpoint rstrip (s : pystr) : pystr :=
  match s with
  | [] => []
  | c :: s' =>
      match rstrip s' with
      | [] => if isspace c then [] else [c]
      | r => c :: r
      end
  end.

(** [s.strip()]. *)
Definition strip (s : pystr) : pystr := rstrip (lstrip s).

(** [s.split(sep)] for a one-character separator: never an empty list,
    and an empty piece between two adjacent separators. *)
Fixpoint split (sep : N) (s : pystr) : list pystr :=
  match s with
  | [] => [[]]
  | c :: s' =>
      if (c =? sep)%N then [] :: split sep s'
      else match split sep s' with
           | [] => [[c]]
           | p :: ps => (c :: p) :: ps
           end
  end.

(** [s.startswith(prefix)]. *)
Fixpoint startswith (s prefix : pystr) {struct prefix} : bool :=
  match prefix, s with
  | [], _ => true
  | p :: prefix', c :: s' => (c =? p)%N && startswith s' prefix'
  | _ :: _, [] => false
  end.

(** [needle in s]. *)
Fixpoint contains (needle s : pystr) {struct s} : bool :=
  startswith s needle
  || match s with
     | [] => false
     | _ :: s' => contains needle s'
     end.

(** [str(z)] of an [int]. *)
Definition str_of_int (z : Z) : pystr :=
  map N_of_ascii
    (list_ascii_of_string (NilZero.string_of_int (Z.to_int z))).

(** [re.sub(r'\s+', ' ', s)]: every maximal run of whitespace becomes
    one space. *)
Fixpoint sub_spaces (s : pystr) : pystr :=
  match s with
  | [] => []
  | c :: s' =>
      if isspace c then
        match s' with
        | [] => [SPACE]
        | c' :: _ => if isspace c' then sub_spaces s'
                     else SPACE :: sub_spaces s'
        end
      else c :: sub_spaces s'
  end.

(** A value found in a cell of a DataFrame read by [pd.read_csv], or
    written into one. *)
Inductive value :=
| NaN                 (* a missing cell *)
| Str (s : pystr)
| Int (z : Z)
| Float (q : Q).

(** [pd.isna(v)]. *)
Definition isna (v : value) : bool :=
  match v with NaN => true | _ => false end.

(** [v == ""]. *)
Definition eq_empty (v : value) : bool :=
  match v with Str [] => true | _ => false end.

(** The exceptions of the pipeline, all subclasses of [Exception]. *)
Inductive exn :=
| AttributeError      (* a [str] method on a value that is no [str] *)
| KeyError            (* a column that the row does not have *)
| IndexError          (* an index past the end of a tensor *)
| TypeError           (* a subscript or a format on the wrong type *)
| ValueError          (* a format code that the value does not take *)
| ScorerError.        (* anything the tokenizer or the model raises *)

(** [bool(l)] of a list. *)
Definition truthy_list {A} (l : list A) : bool :=
  match l with [] => false | _ :: _ => true end.

Inductive res (A : Type) :=
| Ok (a : A)
| Raise (e : exn).
Arguments Raise {A} e.

End Py.
Import Py.

(** ** Floating-point numbers

    The finite numbers of a binary format, each taken as the rational
    it holds, and the rounding that every operation ends with. *)

Module IEEE754.

(** The number of bits of the significand, and the exponent of the
    smallest positive number. *)
Record format := Format {
  precision : Z;
  emin : Z
}.

(** [torch.float32], the type of the tensors. *)
Definition binary32 : format := Format 24 (-149).

(** The [float] of Python. *)
Definition binary64 : format := Format 53 (-1074).

Definition pow2 (e : Z) : Q := 2 ^ e.

(** The exponent of the highest bit of a positive [q]: the [e] with
    [2 ^ e <= q < 2 ^ (e + 1)]. *)
Definition ilog2 (q : Q) : Z :=
  let e := (Z.log2 (Qnum q) - Z.log2 (Z.pos (Qden q)))%Z in
  if Qle_bool (pow2 e) q then e else (e - 1)%Z.

(** The nearest integer, the even one of two that are equally near. *)
Definition rne (q : Q) : Z :=
  let f := Qfloor q in
  match Qcompare (q - inject_Z f) (1 # 2) with
  | Lt => f
  | Eq => if Z.even f then f else (f + 1)%Z
  | Gt => (f + 1)%Z
  end.

(** The exponent of the unit in the last place of a positive [q]:
    [precision] bits below its highest bit, and never below [emin]. *)
Definition cexp (fmt : format) (q : Q) : Z :=
  Z.max (ilog2 q - precision fmt + 1) (emin fmt).

(** The number of the format nearest to a positive [q]. *)
Definition nearest (fmt : format) (q : Q) : Q :=
  let e := cexp fmt q in
  inject_Z (rne (q / pow2 e)) * pow2 e.

(** Rounding to nearest, ties to even. *)
Definition round (fmt : format) (q : Q) : Q :=
  match Qcompare q 0 with
  | Eq => 0
  | Gt => nearest fmt q
  | Lt => - nearest fmt (- q)
  end.

(** The four operations, each correctly rounded; no division of the
    analysers is by zero. *)
Definition add (fmt : format) (a b : Q) : Q := round fmt (a + b).
Definition sub (fmt : format) (a b : Q) : Q := round fmt (a - b).
Definition mul (fmt : format) (a b : Q) : Q := round fmt (a * b).
Definition div (fmt : format) (a b : Q) : Q := round fmt (a / b).

(** The conversion of an [int]. *)
Definition of_int (fmt : format) (z : Z) : Q := round fmt (inject_Z z).

End IEEE754.
Import IEEE754.

(** ** Effects: the External Scorer, its call log and exceptions *)

Module Run.

(** The pretrained classifier behind [tokenizer], [model] and
    [torch.softmax]: given a text it returns the tensor [prob] (a
    vector of probabilities) or raises, and it may change a state of
    its own (a stub that counts its calls, a remote service). *)
Class ExternalScorer := {
  model_state : Type;
  classify : model_state -> pystr -> res (list Q) * model_state
}.

Section Monad.
Context {scorer : ExternalScorer}.

(** What a run can observe and change: the scorer's state and the
    texts submitted to it so far, oldest first. *)
Record world := World {
  state : model_state;
  calls : list pystr
}.

Definition M (A : Type) : Type := world -> res A * world.

Definition ret {A} (a : A) : M A := fun w => (Ok a, w).

Definition raise {A} (e : exn) : M A := fun w => (Raise e, w).

Definition bind {A B} (m : M A) (k : A -> M B) : M B :=
  fun w =>
    match m w with
    | (Ok a, w') => k a w'
    | (Raise e, w') => (Raise e, w')
    end.

(** [try: body / except Exception: handler]. *)
Definition try_except {A} (body : M A) (handler : exn -> M A) : M A :=
  fun w =>
    match body w with
    | (Ok a, w') => (Ok a, w')
    | (Raise e, w') => handler e w'
    end.

(** One invocation of the External Scorer, recorded in the log. *)
Definition invoke (text : pystr) : M (list Q) :=
  fun w =>
    let (r, s') := classify (state w) text in
    (r, World s' (calls w ++ [text])).

(** [prob[i]] on the returned tensor. *)
Definition item (prob : list Q) (i : nat) : M Q :=
  match nth_error prob i with
  | Some p => ret p
  | None => raise IndexError
  end.

(** [v.split('|')]: only a [str] has the method. *)
Definition split_pipe (v : value) : M (list pystr) :=
  match v with
  | Str s => ret (split PIPE s)
  | _ => raise AttributeError
  end.

(** [v.strip()]. *)
Definition strip_value (v : value) : M pystr :=
  match v with
  | Str s => ret (strip s)
  | _ => raise AttributeError
  end.

End Monad.

Declare Scope run_scope.
Delimit Scope run_scope with run.
Notation "x <- m ;; k" := (bind m (fun x => k))
  (at level 100, m at next level, right associativity) : run_scope.

(** The literal [0.1]: the [float] nearest to one tenth,
    3602879701896397 / 2 ^ 55. *)
Definition POINT_ONE : Q := Eval vm_compute in round binary64 (1 # 10).

(** [a - b], [a / n] and [a * b] on [float]s; an [int] is converted
    first. *)
Definition float_sub (a b : Q) : Q := sub binary64 a b.
Definition float_mul (a b : Q) : Q := mul binary64 a b.
Definition float_div (a : Q) (n : Z) : Q := div binary64 a (of_int binary64 n).

(** What [sum] does with [float]s depends on the interpreter.  CPython
    up to version 3.11 adds them from left to right, every addition
    rounded.  From 3.12 on it keeps, beside the running sum, a
    compensation: the rounding error of every addition, as far as
    [float]s can tell it (Neumaier's summation), which is added to the
    sum at the end unless it is zero. *)
Class Interpreter := {
  sum_compensates : bool
}.

(** One item added to the running sum [f_result] and the
    compensation [c]. *)
Definition compensate (acc : Q * Q) (x : Q) : Q * Q :=
  let (f_result, c) := acc in
  let t := add binary64 f_result x in
  if Qle_bool (Qabs x) (Qabs f_result)
  then (t, add binary64 c (add binary64 (sub binary64 f_result t) x))
  else (t, add binary64 c (add binary64 (sub binary64 x t) f_result)).

Definition compensated_sum (scores : list Q) : Q :=
  let (f_result, c) := fold_left compensate scores (0, 0) in
  if Qeq_bool c 0 then f_result else add binary64 f_result c.

(** [sum(scores)] over [float]s, from 0. *)
Definition py_sum {python : Interpreter} (scores : list Q) : Q :=
  if sum_compensates then compensated_sum scores
  else fold_left (add binary64) scores 0.

(** [sum(1 for s in scores if p(s))]. *)
Definition sum_ones (p : Q -> bool) (scores : list Q) : Z :=
  fold_left (fun n s => if p s then (n + 1)%Z else n) scores 0%Z.

(** [len(l)] as a Python [int]. *)
Definition len {A} (l : list A) : Z := Z.of_nat (List.length l).

(** [s > 0.1] and [s < -0.1] on a [float]. *)
Definition above (s : Q) : bool := negb (Qle_bool s POINT_ONE).
Definition below (s : Q) : bool := negb (Qle_bool (- POINT_ONE) s).

(** The five fields written back on a row. *)
Record bundle_result := BundleResult {
  avg_sentiment_score : Q;
  positive_count : Z;
  negative_count : Z;
  neutral_count : Z;
  total_titles : Z
}.

Definition zero_result : bundle_result := BundleResult 0 0 0 0 0.

End Run.
Import Run.
Local Open Scope run_scope.

(** ** Tensors

    The entries of [prob] and the tensors without dimension computed
    from them are [torch.float32].  In an operation of a tensor with a
    Python number the number is converted to the type of the tensor,
    and the result is a tensor of that type. *)

Module Torch.

(** A Python number as an operand of a tensor. *)
Definition scalar (x : Q) : Q := round binary32 x.

Definition tensor_sub (a b : Q) : Q := sub binary32 a b.
Definition tensor_add (a b : Q) : Q := add binary32 a b.
Definition tensor_mul (a b : Q) : Q := mul binary32 a (scalar b).

(** [t / n] for a tensor and an [int]. *)
Definition tensor_div (a : Q) (n : Z) : Q :=
  div binary32 a (scalar (inject_Z n)).

(** [sum(scores)] over tensors: [0 + s] is [s], and a score [0.0] that
    is a [float] adds nothing. *)
Definition tensor_sum (scores : list Q) : Q := fold_left tensor_add scores 0.

(** The literal [0.1] as an operand of a tensor, 13421773 / 2 ^ 27. *)
Definition TENSOR_POINT_ONE : Q := Eval vm_compute in scalar POINT_ONE.

(** [s > 0.1] and [s < -0.1] on a tensor, and on the [float] [0.0]. *)
Definition tensor_above (s : Q) : bool :=
  negb (Qle_bool s TENSOR_POINT_ONE).
Definition tensor_below (s : Q) : bool :=
  negb (Qle_bool (- TENSOR_POINT_ONE) s).

End Torch.
Import Torch.

(** ** DataFrames *)

Module Frame.

(** A DataFrame with the default [RangeIndex]: the column labels and
    the rows, each holding one cell per column. *)
Record dataframe := DataFrame {
  columns : list string;
  data : list (list value)
}.

(** A row as [iterrows] yields it: the cells under their labels. *)
Definition row := list (string * value).

Definition iterrows (df : dataframe) : list row :=
  map (combine (columns df)) (data df).

Fixpoint lookup (r : row) (col : string) : option value :=
  match r with
  | [] => None
  | (c, v) :: r' => if String.eqb c col then Some v else lookup r' col
  end.

(** [row[col]]. *)
Definition getitem {scorer : ExternalScorer} (r : row) (col : string)
  : M value :=
  match lookup r col with
  | Some v => ret v
  | None => raise KeyError
  end.

(** [row.get(col, default)]. *)
Definition get (r : row) (col : string) (default : value) : value :=
  match lookup r col with
  | Some v => v
  | None => default
  end.

Definition result_columns : list string :=
  [ "avg_sentiment_score"; "positive_count"; "negative_count";
    "neutral_count"; "total_titles" ]%string.

Definition result_values (b : bundle_result) : list value :=
  [ Float (avg_sentiment_score b); Int (positive_count b);
    Int (negative_count b); Int (neutral_count b);
    Int (total_titles b) ].

(** [pd.DataFrame(records)] for dictionaries with the five result
    keys: the empty list gives a frame that has no column at all. *)
Definition of_records (records : list bundle_result) : dataframe :=
  match records with
  | [] => DataFrame [] []
  | _ :: _ => DataFrame result_columns (map result_values records)
  end.

(** [pd.concat([a, b], axis=1)] for two frames on the same
    [RangeIndex]. *)
Definition concat_axis1 (a b : dataframe) : dataframe :=
  DataFrame (columns a ++ columns b)
    (map (fun ab => fst ab ++ snd ab) (combine (data a) (data b))).

(** The position of a label among the columns. *)
Fixpoint index_of (col : string) (cols : list string) : option nat :=
  match cols with
  | [] => None
  | c :: cols' =>
      if String.eqb c col then Some O
      else option_map S (index_of col cols')
  end.

(** An indexed store into a list; nothing happens out of range. *)
Fixpoint set_nth {A} (l : list A) (i : nat) (a : A) : list A :=
  match l, i with
  | [], _ => []
  | _ :: l', O => a :: l'
  | x :: l', S i' => x :: set_nth l' i' a
  end.

(** [df[col] = v] with a scalar: the column is overwritten when the
    frame has it and appended otherwise. *)
Definition set_column (df : dataframe) (col : string) (v : value)
  : dataframe :=
  match index_of col (columns df) with
  | Some j => DataFrame (columns df) (map (fun r => set_nth r j v) (data df))
  | None => DataFrame (columns df ++ [col]) (map (fun r => r ++ [v]) (data df))
  end.

(** [df.at[i, col] = v]; the loop only stores into rows and columns
    that exist. *)
Definition set_at (df : dataframe) (i : nat) (col : string) (v : value)
  : dataframe :=
  match index_of col (columns df), nth_error (data df) i with
  | Some j, Some r => DataFrame (columns df) (set_nth (data df) i (set_nth r j v))
  | _, _ => df
  end.

(** [df.head(n)]. *)
Definition head (n : nat) (df : dataframe) : dataframe :=
  DataFrame (columns df) (firstn n (data df)).

(** The cells of the columns that bear a label. *)
Fixpoint labelled (col : string) (r : row) : list value :=
  match r with
  | [] => []
  | (c, v) :: r' =>
      if String.eqb c col then v :: labelled col r' else labelled col r'
  end.

(** The number of columns that bear a label. *)
Definition bearing (col : string) (df : dataframe) : nat :=
  List.length (filter (String.eqb col) (columns df)).

(** A cell that a mean over a column takes: a number or a missing
    value. *)
Definition numeric (v : value) : bool :=
  match v with
  | Str _ => false
  | NaN | Int _ | Float _ => true
  end.

End Frame.
Import Frame.

(** ** sentiment_analyzer.py *)

Module SentimentAnalyzer.
Section WithScorer.
Context {scorer : ExternalScorer}.
Context {python : Interpreter}.

(** [clean_text] on a [str] ([pd.isna] is false on every [str]). *)
Definition clean_text (text : pystr) : pystr :=
  if str_eqb text [] then []
  else
    let text := sub_spaces text in
    let text := strip text in
    text.

Record score_data := ScoreData {
  sentiment_score : Q;
  positive_prob : Q;
  negative_prob : Q;
  neutral_prob : Q
}.

Definition zero_reading : score_data := ScoreData 0 0 0 0.

Definition get_sentiment_score (text : pystr) : M score_data :=
  if negb (truthy text) || str_eqb (strip text) [] then ret zero_reading
  else
    try_except
      (prob <- invoke text ;;
       neutral_prob <- item prob 0 ;;
       negative_prob <- item prob 1 ;;
       positive_prob <- item prob 2 ;;
       let sentiment_score := float_sub positive_prob negative_prob in
       ret (ScoreData sentiment_score positive_prob negative_prob
              neutral_prob))
      (fun _ => ret zero_reading).

(** The dictionary returned by [analyze_news_titles]. *)
Record analysis := Analysis {
  fields : bundle_result;
  individual_scores : list Q
}.

Definition zero_analysis : analysis := Analysis zero_result [].

(** The loop [for title in titles: ... individual_scores.append(...)]. *)
Fixpoint score_titles (titles : list pystr) (individual_scores : list Q)
  : M (list Q) :=
  match titles with
  | [] => ret individual_scores
  | title :: rest =>
      score_data <- get_sentiment_score title ;;
      score_titles rest (individual_scores ++ [sentiment_score score_data])
  end.

(** The two comprehensions that build [titles]. *)
Definition split_titles (pieces : list pystr) : list pystr :=
  let titles := map clean_text pieces in
  filter truthy titles.

Definition analyze_news_titles (news_titles : value) : M analysis :=
  if isna news_titles || eq_empty news_titles then ret zero_analysis
  else
    pieces <- split_pipe news_titles ;;
    let titles := split_titles pieces in
    if negb (truthy_list titles) then ret zero_analysis
    else
      individual_scores <- score_titles titles [] ;;
      let avg_sentiment_score :=
        float_div (py_sum individual_scores) (len individual_scores) in
      let positive_count := sum_ones above individual_scores in
      let negative_count := sum_ones below individual_scores in
      let neutral_count :=
        (len individual_scores - positive_count - negative_count)%Z in
      ret (Analysis
             (BundleResult avg_sentiment_score positive_count
                negative_count neutral_count (len titles))
             individual_scores).

(** The loop over [df.iterrows()], up to the [append] of the row's
    five fields; the line printed first reads [row['date']]. *)
Fixpoint analyze_rows (rows : list row)
  (sentiment_results : list bundle_result) : M (list bundle_result) :=
  match rows with
  | [] => ret sentiment_results
  | row :: rest =>
      _ <- getitem row "date" ;;
      let news_titles := get row "news_titles" (Str []) in
      result <- analyze_news_titles news_titles ;;
      analyze_rows rest (sentiment_results ++ [fields result])
  end.

(** [f"{result_df[col].mean():.4f}"].  Without a column of that label
    the subscript raises; with several of them it gives a frame, whose
    means are a Series, which takes no format [.4f]; and the mean of
    one column is a number unless the column holds text. *)
Definition format_mean (result_df : dataframe) (col : string) : M unit :=
  match bearing col result_df with
  | O => raise KeyError
  | S O =>
      if forallb (fun r => forallb numeric (labelled col r))
           (iterrows result_df)
      then ret tt
      else raise TypeError
  | S (S _) => raise TypeError
  end.

(** [f"{result_df[col].sum()}"] on a column of counts. *)
Definition format_sum (result_df : dataframe) (col : string) : M unit :=
  match bearing col result_df with
  | O => raise KeyError
  | S _ => ret tt
  end.

(** [f"{v:.4f}"] on a cell. *)
Definition format_4f (v : value) : M unit :=
  match v with
  | Str _ => raise ValueError
  | NaN | Int _ | Float _ => ret tt
  end.

(** [v[:100]]: only text has a slice. *)
Definition slice_100 (v : value) : M pystr :=
  match v with
  | Str s => ret (firstn 100 s)
  | NaN | Int _ | Float _ => raise TypeError
  end.

(** The loop over [result_df.head().iterrows()] that prints the
    samples. *)
Fixpoint print_samples (rows : list row) : M unit :=
  match rows with
  | [] => ret tt
  | row :: rest =>
      _ <- getitem row "date" ;;
      avg <- getitem row "avg_sentiment_score" ;;
      _ <- format_4f avg ;;
      _ <- getitem row "positive_count" ;;
      _ <- getitem row "negative_count" ;;
      _ <- getitem row "neutral_count" ;;
      news_titles <- getitem row "news_titles" ;;
      _ <- slice_100 news_titles ;;
      print_samples rest
  end.

(** What is printed once the file is written: the statistics of the
    result columns, then the first five rows. *)
Definition print_summary (result_df : dataframe) : M unit :=
  _ <- format_mean result_df "avg_sentiment_score" ;;
  _ <- format_sum result_df "positive_count" ;;
  _ <- format_sum result_df "negative_count" ;;
  _ <- format_sum result_df "neutral_count" ;;
  _ <- format_sum result_df "total_titles" ;;
  print_samples (iterrows (head 5 result_df)).

(** [process_csv_with_sentiment] from the frame that [read_csv]
    returned.  The function returns nothing: what it leaves is the
    file that [to_csv] writes, given here beside the way the call
    ends; there is no file when the loop over the rows raises. *)
Definition process_csv_with_sentiment (df : dataframe) (w : world)
  : res unit * world * option dataframe :=
  match analyze_rows (iterrows df) [] w with
  | (Raise e, w') => (Raise e, w', None)
  | (Ok sentiment_results, w') =>
      let sentiment_df := of_records sentiment_results in
      let result_df := concat_axis1 df sentiment_df in
      let (ending, w'') := print_summary result_df w' in
      (ending, w'', Some result_df)
  end.

End WithScorer.
End SentimentAnalyzer.

(** ** sentiment_analyzer_correct.py *)

Module CorrectSentimentAnalyzer.
Section WithScorer.
Context {scorer : ExternalScorer} {U : UnicodeData}.
Context {python : Interpreter}.

(** The characters that the second [re.sub] keeps: word characters,
    whitespace, U+3040-309F, U+30A0-30FF, U+4E00-9FAF, U+3000-303F. *)
Definition kept (c : N) : bool :=
  isword c || isspace c || japanese c || cjk_punctuation c.

Definition clean_text (text : pystr) : pystr :=
  if str_eqb text [] then []
  else
    let text := strip text in
    let text := sub_spaces text in
    let text := filter kept text in
    strip text.

(** [get_sentiment_score]; [verbose] only prints.  The score is a
    tensor, or the [float] [0.0]. *)
Definition get_sentiment_score (text : pystr) : M Q :=
  if negb (truthy text) || str_eqb (strip text) [] then ret 0
  else
    try_except
      (prob <- invoke text ;;
       pos <- item prob 2 ;;
       neg <- item prob 1 ;;
       ret (tensor_sub pos neg))
      (fun _ => ret 0).

Fixpoint score_titles (titles : list pystr) (scores : list Q)
  : M (list Q) :=
  match titles with
  | [] => ret scores
  | title :: rest =>
      score <- get_sentiment_score title ;;
      score_titles rest (scores ++ [score])
  end.

(** [[title.strip() for title in pieces if title.strip()]]. *)
Definition split_titles (pieces : list pystr) : list pystr :=
  map strip (filter (fun title => truthy (strip title)) pieces).

Definition analyze_news_titles (news_titles : value) : M bundle_result :=
  if isna news_titles then ret zero_result
  else
    stripped <- strip_value news_titles ;;
    if str_eqb stripped [] then ret zero_result
    else
      pieces <- split_pipe news_titles ;;
      let titles := split_titles pieces in
      if negb (truthy_list titles) then ret zero_result
      else
        scores <- score_titles titles [] ;;
        if truthy_list scores then
          let average_score := tensor_div (tensor_sum scores) (len scores) in
          let positive_count := sum_ones tensor_above scores in
          let negative_count := sum_ones tensor_below scores in
          let neutral_count :=
            (len scores - positive_count - negative_count)%Z in
          ret (BundleResult average_score positive_count negative_count
                 neutral_count (len titles))
        else ret zero_result.

(** [df.at[i, ...] = ...], five times. *)
Definition store_result (df : dataframe) (i : nat) (b : bundle_result)
  : dataframe :=
  let df := set_at df i "avg_sentiment_score" (Float (avg_sentiment_score b)) in
  let df := set_at df i "positive_count" (Int (positive_count b)) in
  let df := set_at df i "negative_count" (Int (negative_count b)) in
  let df := set_at df i "neutral_count" (Int (neutral_count b)) in
  set_at df i "total_titles" (Int (total_titles b)).

(** The loop over [df.iterrows()]: [i] is the label of [row], and
    [df] the frame the loop writes into. *)
Fixpoint process_rows (rows : list row) (i : nat) (df : dataframe)
  : M dataframe :=
  match rows with
  | [] => ret df
  | row :: rest =>
      news_titles <- getitem row "news_titles" ;;
      result <- analyze_news_titles news_titles ;;
      process_rows rest (S i) (store_result df i result)
  end.

(** [process_csv] up to the frame that [to_csv] writes and the method
    returns; [print_statistics] is left out. *)
Definition process_csv (df : dataframe) (test_mode : bool) : M dataframe :=
  let df := if test_mode then head 5 df else df in
  let df := set_column df "avg_sentiment_score" (Float 0) in
  let df := set_column df "positive_count" (Int 0) in
  let df := set_column df "negative_count" (Int 0) in
  let df := set_column df "neutral_count" (Int 0) in
  let df := set_column df "total_titles" (Int 0) in
  process_rows (iterrows df) 0 df.

End WithScorer.
End CorrectSentimentAnalyzer.

(** ** sentiment_analyzer_fixed.py *)

Module FixedSentimentAnalyzer.
Section WithScorer.
Context {scorer : ExternalScorer} {U : UnicodeData}.
Context {python : Interpreter}.

(** The characters that the first [re.sub] keeps: word characters,
    whitespace, U+3040-309F, U+30A0-30FF, U+4E00-9FAF. *)
Definition kept (c : N) : bool :=
  isword c || isspace c || japanese c.

Definition clean_text (text : pystr) : pystr :=
  if str_eqb text [] then []
  else
    let text := strip text in
    let text := map (fun c => if kept c then c else SPACE) text in
    let text := sub_spaces text in
    strip text.

(** The weighted sum of the five entries, a tensor: the products from
    left to right, every product and every sum rounded. *)
Definition weighted (s0 s1 s2 s3 s4 : Q) : Q :=
  tensor_add
    (tensor_add
       (tensor_add
          (tensor_add (tensor_mul s0 (- (1))) (tensor_mul s1 (- (1 # 2))))
          (tensor_mul s2 0))
       (tensor_mul s3 (1 # 2)))
    (tensor_mul s4 1).

(** [analyze_sentiment]: the five-star model, weighted; [.item()]
    turns the tensor into the [float] of the same value. *)
Definition analyze_sentiment (text : pystr) : M Q :=
  if negb (truthy text) || str_eqb (strip text) [] then ret 0
  else
    try_except
      (scores <- invoke text ;;
       s0 <- item scores 0 ;;
       s1 <- item scores 1 ;;
       s2 <- item scores 2 ;;
       s3 <- item scores 3 ;;
       s4 <- item scores 4 ;;
       let weighted_score := weighted s0 s1 s2 s3 s4 in
       ret weighted_score)
      (fun _ => ret 0).

(** The state of the loop of [analyze_news_titles]. *)
Record tally := Tally {
  sentiment_scores : list Q;
  positive_count : Z;
  negative_count : Z;
  neutral_count : Z
}.

(** The classification of one score, as the loop body does it. *)
Definition count_score (t : tally) (score : Q) : tally :=
  let sentiment_scores := sentiment_scores t ++ [score] in
  if above score then
    Tally sentiment_scores (positive_count t + 1) (negative_count t)
      (neutral_count t)
  else if below score then
    Tally sentiment_scores (positive_count t) (negative_count t + 1)
      (neutral_count t)
  else
    Tally sentiment_scores (positive_count t) (negative_count t)
      (neutral_count t + 1).

Fixpoint score_titles (titles : list pystr) (t : tally) : M tally :=
  match titles with
  | [] => ret t
  | title :: rest =>
      score <- analyze_sentiment title ;;
      score_titles rest (count_score t score)
  end.

Definition split_titles (pieces : list pystr) : list pystr :=
  map strip (filter (fun title => truthy (strip title)) pieces).

Definition analyze_news_titles (news_titles : value) : M bundle_result :=
  if isna news_titles then ret zero_result
  else
    stripped <- strip_value news_titles ;;
    if str_eqb stripped [] then ret zero_result
    else
      pieces <- split_pipe news_titles ;;
      let titles := split_titles pieces in
      if negb (truthy_list titles) then ret zero_result
      else
        t <- score_titles titles (Tally [] 0 0 0) ;;
        let avg_score :=
          if truthy_list (sentiment_scores t)
          then float_div (py_sum (sentiment_scores t))
                 (len (sentiment_scores t))
          else 0 in
        ret (BundleResult avg_score (positive_count t) (negative_count t)
               (neutral_count t) (len titles)).

(** [df.at[i, ...] = ...], five times. *)
Definition store_result (df : dataframe) (i : nat) (b : bundle_result)
  : dataframe :=
  let df := set_at df i "avg_sentiment_score"
              (Float (Run.avg_sentiment_score b)) in
  let df := set_at df i "positive_count" (Int (Run.positive_count b)) in
  let df := set_at df i "negative_count" (Int (Run.negative_count b)) in
  let df := set_at df i "neutral_count" (Int (Run.neutral_count b)) in
  set_at df i "total_titles" (Int (Run.total_titles b)).

(** The loop over [df.iterrows()]: [i] is the label of [row], and
    [df] the frame the loop writes into. *)
Fixpoint process_rows (rows : list row) (i : nat) (df : dataframe)
  : M dataframe :=
  match rows with
  | [] => ret df
  | row :: rest =>
      news_titles <- getitem row "news_titles" ;;
      result <- analyze_news_titles news_titles ;;
      process_rows rest (S i) (store_result df i result)
  end.

(** [process_csv] up to the frame that [to_csv] writes and the method
    returns; [print_statistics] is left out. *)
Definition process_csv (df : dataframe) : M dataframe :=
  let df := set_column df "avg_sentiment_score" (Float 0) in
  let df := set_column df "positive_count" (Int 0) in
  let df := set_column df "negative_count" (Int 0) in
  let df := set_column df "neutral_count" (Int 0) in
  let df := set_column df "total_titles" (Int 0) in
  process_rows (iterrows df) 0 df.

End WithScorer.
End FixedSentimentAnalyzer.

(** ** BERT/BERT_main.py *)

Module BERT_main.
Section WithScorer.
Context {scorer : ExternalScorer}.
Context {python : Interpreter}.

(** [get_sentiment_score]: no guard and no handler here. *)
Definition get_sentiment_score (text : pystr) : M Q :=
  prob <- invoke text ;;
  pos <- item prob 2 ;;
  neg <- item prob 1 ;;
  ret (tensor_sub pos neg).

(** The characters at which [str.splitlines] ends a line: LF, VT, FF,
    CR, FS, GS, RS, NEL, LS and PS. *)
Definition is_line_boundary (c : N) : bool :=
  in_range 10 13 c || in_range 28 30 c || (c =? 133)%N || (c =? 8232)%N
  || (c =? 8233)%N.

(** [s.splitlines()]: CR LF ends a line once, and a text that ends
    with a line boundary has no empty line after it. *)
Fixpoint splitlines (s : pystr) : list pystr :=
  match s with
  | [] => []
  | c :: s' =>
      if is_line_boundary c then
        [] :: match s' with
              | d :: s'' =>
                  if ((c =? 13) && (d =? 10))%N then splitlines s''
                  else splitlines s'
              | [] => splitlines s'
              end
      else
        match splitlines s' with
        | [] => [[c]]
        | line :: lines => (c :: line) :: lines
        end
  end.

(** [line.split("  ")], on two spaces. *)
Fixpoint split_two_spaces (s : pystr) : list pystr :=
  match s with
  | [] => [[]]
  | c :: s' =>
      match s' with
      | d :: s'' =>
          if ((c =? SPACE) && (d =? SPACE))%N then [] :: split_two_spaces s''
          else
            match split_two_spaces s' with
            | [] => [[c]]
            | phrase :: phrases => (c :: phrase) :: phrases
            end
      | [] => [[c]]
      end
  end.

(** [' '.join(chunks)]. *)
Fixpoint join_space (chunks : list pystr) : pystr :=
  match chunks with
  | [] => []
  | [chunk] => chunk
  | chunk :: rest => chunk ++ [SPACE] ++ join_space rest
  end.

(** The characters that the second [re.sub] keeps, as in
    sentiment_analyzer_correct.py. *)
Definition kept {U : UnicodeData} (c : N) : bool :=
  isword c || isspace c || japanese c || cjk_punctuation c.

(** [extract_text_from_html] from the text that [soup.get_text()]
    returned, the scripts and the styles removed. *)
Definition extract_text_from_html {U : UnicodeData} (text : pystr) : pystr :=
  let lines := map strip (splitlines text) in
  let chunks :=
    flat_map (fun line => map strip (split_two_spaces line)) lines in
  let text := join_space (filter truthy chunks) in
  let text := sub_spaces text in
  let text := filter kept text in
  text.

(** The dictionary returned by [analyze_html_sentiment]. *)
Record html_result := HtmlResult {
  average_score : Q;
  positive_count : Z;
  negative_count : Z;
  neutral_count : Z;
  total_sentences : Z
}.

(** The ideographic full stop that ends a sentence. *)
Definition FULL_STOP : N := 12290.

(** The comprehension [[get_sentiment_score(s) for s in sentences]]. *)
Fixpoint score_sentences (sentences : list pystr) : M (list Q) :=
  match sentences with
  | [] => ret []
  | s :: rest =>
      score <- get_sentiment_score s ;;
      scores <- score_sentences rest ;;
      ret (score :: scores)
  end.

(** [analyze_html_sentiment] from the text that [extract_text_from_html]
    returned, which is BeautifulSoup's work. *)
Definition analyze_html_sentiment (text_data : pystr)
  : M (option html_result) :=
  if negb (truthy (strip text_data)) then ret None
  else
    let sentences := split FULL_STOP text_data in
    let sentences :=
      map strip (filter (fun s => truthy (strip s)) sentences) in
    scores <- score_sentences sentences ;;
    if truthy_list scores then
      let average_score := tensor_div (tensor_sum scores) (len scores) in
      let positive_count := sum_ones tensor_above scores in
      let negative_count := sum_ones tensor_below scores in
      let neutral_count :=
        (len scores - positive_count - negative_count)%Z in
      ret (Some (HtmlResult average_score positive_count negative_count
                   neutral_count (len sentences)))
    else ret None.

End WithScorer.
End BERT_main.

(** ** bert_test.py *)

Module BertTest.
Section WithScorer.
Context {scorer : ExternalScorer}.
Context {python : Interpreter}.

(** [SentimentAnalyzer.analyze_sentiment] of the test script, which
    loads the same three-class model as sentiment_analyzer.py. *)
Definition analyze_sentiment (text : pystr) : M Q :=
  if negb (truthy text) || str_eqb (strip text) [] then ret 0
  else
    try_except
      (predictions <- invoke text ;;
       positive_prob <- item predictions 1 ;;
       negative_prob <- item predictions 0 ;;
       let sentiment_score := float_sub positive_prob negative_prob in
       ret sentiment_score)
      (fun _ => ret 0).

End WithScorer.
End BertTest.

(** ** print_statistics

    The method has the same code in sentiment_analyzer_correct.py and
    in sentiment_analyzer_fixed.py. *)

Module Statistics.

(** The figures of the block [感情分布]. *)
Record distribution := Distribution {
  positive_rows : Z;
  negative_rows : Z;
  neutral_rows : Z;
  positive_percent : Q;
  negative_percent : Q;
  neutral_percent : Q
}.

(** What is printed: the two row counts and, when a row has news, the
    distribution.  The mean, median, standard deviation, minimum and
    maximum of the score, printed in between, are left out. *)
Record printed := Printed {
  total_rows : Z;
  rows_with_news : Z;
  sentiment_distribution : option distribution
}.

(** [rows / rows_with_news * 100]: the quotient of two [int]s is the
    [float] nearest to it. *)
Definition percent (rows rows_with_news : Z) : Q :=
  float_mul (div binary64 (inject_Z rows) (inject_Z rows_with_news)) 100.

(** [len(df[mask])] for a mask computed row by row. *)
Definition count_rows (mask : bundle_result -> bool)
  (df : list bundle_result) : Z :=
  len (filter mask df).

(** [print_statistics] on the result columns of the frame, row by
    row. *)
Definition print_statistics (df : list bundle_result) : printed :=
  let total_rows := len df in
  let rows_with_news := count_rows (fun r => (total_titles r >? 0)%Z) df in
  if (rows_with_news >? 0)%Z then
    let positive_rows :=
      count_rows (fun r => (Run.positive_count r >? Run.negative_count r)%Z)
        df in
    let negative_rows :=
      count_rows (fun r => (Run.negative_count r >? Run.positive_count r)%Z)
        df in
    let neutral_rows :=
      count_rows (fun r => (Run.positive_count r =? Run.negative_count r)%Z)
        df in
    Printed total_rows rows_with_news
      (Some (Distribution positive_rows negative_rows neutral_rows
               (percent positive_rows rows_with_news)
               (percent negative_rows rows_with_news)
               (percent neutral_rows rows_with_news)))
  else Printed total_rows rows_with_news None.

End Statistics.

(** ** Parsed pages *)

Module Bs4.

(** An element that [select_one] found: its text as
    [get_text(strip=True)] returns it, and the texts of the paragraphs
    that [find_all("p")] finds in it, taken the same way.  An element
    is true whatever it holds. *)
Record tag := Tag {
  get_text : pystr;
  find_all_p : list pystr
}.

(** A parsed page, as far as the parsers look at it: [select_one]. *)
Definition soup : Type := pystr -> option tag.

(** [BeautifulSoup(html, "html.parser")], which is no part of the
    repository; [None] when it raises. *)
Class HtmlParser := { BeautifulSoup : pystr -> option soup }.

(** ["\n".join(parts)] on texts. *)
Fixpoint join_lines (parts : list pystr) : pystr :=
  match parts with
  | [] => []
  | [part] => part
  | part :: rest => part ++ [10%N] ++ join_lines rest
  end.

(** The dictionary of an article. *)
Record article := Article {
  title : pystr;
  date : pystr;
  author : pystr;
  content : pystr
}.

End Bs4.

(** ** article_parser.py *)

Module ArticleParser.
Import Bs4.

Definition NO_TITLE : pystr :=
  [12479; 12452; 12488; 12523; 12394; 12375]%N.
Definition NO_DATE : pystr := [26085; 20184; 12394; 12375]%N.
Definition NO_AUTHOR : pystr :=
  [33879; 32773; 24773; 22577; 12394; 12375]%N.

(** The loop [for selector in selectors: ... if tag: field = ...; break]
    from the value that the field has before it. *)
Fixpoint first_match (page : soup) (selectors : list pystr)
  (field : pystr) : pystr :=
  match selectors with
  | [] => field
  | selector :: rest =>
      match page selector with
      | Some tag => get_text tag
      | None => first_match page rest field
      end
  end.

(** The loop over the content selectors, which keeps the paragraphs
    that [keep] accepts and stops at the first element that has one. *)
Fixpoint first_content (keep : pystr -> bool) (page : soup)
  (selectors : list pystr) (content : pystr) : pystr :=
  match selectors with
  | [] => content
  | selector :: rest =>
      match page selector with
      | Some content_div =>
          let content_parts := filter keep (find_all_p content_div) in
          if truthy_list content_parts then join_lines content_parts
          else first_content keep page rest content
      | None => first_content keep page rest content
      end
  end.

Definition title_selectors : list pystr :=
  [ lit "h1"; lit ".headline"; lit ".story-headline"; lit "title" ].
Definition date_selectors : list pystr :=
  [ lit "time"; lit ".timestamp"; lit ".story-timestamp"; lit ".date";
    lit "[data-testid='timestamp']" ].
Definition content_selectors : list pystr :=
  [ lit ".body-copy"; lit ".story-body"; lit "article"; lit ".content";
    lit "[data-module='ArticleBody']"; lit ".article-body" ].
Definition author_selectors : list pystr :=
  [ lit ".byline__name"; lit ".author-link"; lit ".story-byline";
    lit ".byline"; lit "[data-testid='byline']" ].

(** [text and len(text) > n]. *)
Definition longer_than (n : nat) (text : pystr) : bool :=
  truthy text && (n <? List.length text)%nat.

(** [parse_bloomberg_article] on the parsed page. *)
Definition parse_bloomberg_article (page : soup) : article :=
  let title := first_match page title_selectors NO_TITLE in
  let date := first_match page date_selectors NO_DATE in
  let content :=
    first_content (longer_than 10) page content_selectors [] in
  let author := first_match page author_selectors NO_AUTHOR in
  Article title date author content.

End ArticleParser.

(** ** url_to_text_converter.py *)

Module UrlToText.

(** [fetch_bloomberg_article] of the scraper template: the site answers
    a request with the page or raises, and what it answers next is its
    own business. *)
Inductive reply :=
| Page (html : pystr)
| Failure.            (* any exception of [requests] *)

Class Site := {
  site_state : Type;
  fetch_bloomberg_article : site_state -> pystr -> reply * site_state
}.

(** What the retry loop does to the outside: requests and pauses. *)
Inductive event :=
| Fetch (url : pystr)
| Sleep (seconds : Q).

Section WithSite.
Context {site : Site}.

Record session := Session {
  server : site_state;
  log : list event
}.

(** [range(n)]. *)
Definition range (n : Z) : list Z := map Z.of_nat (seq 0 (Z.to_nat n)).

(** The [for] loop of [fetch_article_with_retry] over the attempts that
    are left; a loop that runs out returns [None]. *)
Fixpoint attempts_loop (url : pystr) (max_retries : Z)
  (attempts : list Z) (s : session) : option pystr * session :=
  match attempts with
  | [] => (None, s)
  | attempt :: rest =>
      let (r, st) := fetch_bloomberg_article (server s) url in
      let s := Session st (log s ++ [Fetch url]) in
      match r with
      | Page html => (Some html, s)
      | Failure =>
          if (attempt <? max_retries - 1)%Z
          then attempts_loop url max_retries rest
                 (Session (server s) (log s ++ [Sleep 2]))
          else (None, s)
      end
  end.

Definition fetch_article_with_retry (url : pystr) (max_retries : Z)
  (s : session) : option pystr * session :=
  attempts_loop url max_retries (range max_retries) s.

End WithSite.

(** ['取得失敗'] and ['解析失敗']. *)
Definition FETCH_FAILED : pystr := [21462; 24471; 22833; 25943]%N.
Definition PARSE_FAILED : pystr := [35299; 26512; 22833; 25943]%N.

(** The loops of [parse_article_enhanced] over the selectors of a
    field: the text of an element that matches is taken, and the loop
    only stops at a text longer than [n]. *)
Fixpoint long_match (n : nat) (page : Bs4.soup) (selectors : list pystr)
  (field : pystr) : pystr :=
  match selectors with
  | [] => field
  | selector :: rest =>
      match page selector with
      | Some tag =>
          let field := Bs4.get_text tag in
          if ArticleParser.longer_than n field then field
          else long_match n page rest field
      | None => long_match n page rest field
      end
  end.

Definition title_selectors : list pystr :=
  [ lit "h1"; lit ".headline"; lit ".story-headline"; lit "title";
    lit "[data-testid='headline']" ].

(** [parse_article_enhanced]; [html] is [None] when the download gave
    nothing.  The URL, which is copied into the result, is left out. *)
Definition parse_article_enhanced {parser : Bs4.HtmlParser}
  (html : option pystr) : Bs4.article :=
  match html with
  | None => Bs4.Article FETCH_FAILED FETCH_FAILED FETCH_FAILED FETCH_FAILED
  | Some html =>
      if negb (truthy html)
      then Bs4.Article FETCH_FAILED FETCH_FAILED FETCH_FAILED FETCH_FAILED
      else
        match Bs4.BeautifulSoup html with
        | None =>
            Bs4.Article PARSE_FAILED PARSE_FAILED PARSE_FAILED PARSE_FAILED
        | Some page =>
            let title :=
              long_match 5 page title_selectors ArticleParser.NO_TITLE in
            let date :=
              long_match 5 page ArticleParser.date_selectors
                ArticleParser.NO_DATE in
            let content :=
              ArticleParser.first_content (ArticleParser.longer_than 10)
                page ArticleParser.content_selectors [] in
            let author :=
              long_match 2 page ArticleParser.author_selectors
                ArticleParser.NO_AUTHOR in
            Bs4.Article title date author content
        end
  end.

(** A row of the article file. *)
Record article_row := ArticleRow {
  row_date : pystr;
  bloomberg_url : pystr;
  row_article : Bs4.article
}.

(** [urls[:n]]. *)
Definition slice_to {A} (n : Z) (l : list A) : list A :=
  if (n <? 0)%Z then firstn (Z.to_nat (len l + n)) l
  else firstn (Z.to_nat n) l.

Section WithSiteAndParser.
Context {site : Site} {parser : Bs4.HtmlParser}.

(** The loop over the addresses of one date.  Neither the download
    nor the parser lets an exception through, so the handler in the
    loop is never reached. *)
Fixpoint process_date (date_str : pystr) (urls_to_process : list pystr)
  (results : list article_row) (s : session)
  : list article_row * session :=
  match urls_to_process with
  | [] => (results, s)
  | url :: rest =>
      let (html, s) := fetch_article_with_retry url 3 s in
      let article_data := parse_article_enhanced html in
      let results := results ++ [ArticleRow date_str url article_data] in
      let s := Session (server s) (log s ++ [Sleep 1]) in
      process_date date_str rest results s
  end.

(** The loop over the groups that [df.groupby('date')] made, each with
    the list of its addresses. *)
Fixpoint process_groups (date_groups : list (pystr * list pystr))
  (max_articles_per_date : Z) (results : list article_row) (s : session)
  : list article_row * session :=
  match date_groups with
  | [] => (results, s)
  | (date_str, urls) :: rest =>
      let urls_to_process := slice_to max_articles_per_date urls in
      let (results, s) := process_date date_str urls_to_process results s in
      process_groups rest max_articles_per_date results s
  end.

(** [process_urls_to_articles] from the groups to the rows that are
    written when there is one. *)
Definition process_urls_to_articles
  (date_groups : list (pystr * list pystr)) (max_articles_per_date : Z)
  (s : session) : list article_row * session :=
  process_groups date_groups max_articles_per_date [] s.

End WithSiteAndParser.

(** [sep.join(items)], which raises [TypeError] on an item that is no
    [str]: [None] here. *)
Fixpoint join (sep : pystr) (items : list value) : option pystr :=
  match items with
  | [] => Some []
  | Str s :: rest =>
      match rest with
      | [] => Some s
      | _ :: _ => option_map (fun r => s ++ sep ++ r) (join sep rest)
      end
  | _ :: _ => None
  end.

(** The dictionary [date_titles], in insertion order; the dates are the
    cells of a [date] column read as text. *)
Definition date_titles := list (pystr * list value).

(** [date_titles.get(date)]. *)
Fixpoint dict_get (d : date_titles) (date : pystr) : option (list value) :=
  match d with
  | [] => None
  | (k, titles) :: d' =>
      if str_eqb k date then Some titles else dict_get d' date
  end.

(** The body of the loop over the articles: a new date gets an empty
    list first, and the title is appended to the list of its date. *)
Fixpoint append_title (d : date_titles) (date : pystr) (title : value)
  : date_titles :=
  match d with
  | [] => [(date, [title])]
  | (k, titles) :: d' =>
      if str_eqb k date then (k, titles ++ [title]) :: d'
      else (k, titles) :: append_title d' date title
  end.

Definition collect (articles : list (pystr * value)) : date_titles :=
  fold_left (fun d a => append_title d (fst a) (snd a)) articles [].

(** [' | '] and ['記事なし']. *)
Definition SEPARATOR : pystr := [32; 124; 32]%N.
Definition NO_ARTICLE : pystr := [35352; 20107; 12394; 12375]%N.

(** [Series.map] of a function that may raise. *)
Fixpoint series_map {A B} (f : A -> option B) (l : list A)
  : option (list B) :=
  match l with
  | [] => Some []
  | a :: l' =>
      match f a with
      | Some b => option_map (cons b) (series_map f l')
      | None => None
      end
  end.

(** [add_titles_to_original_csv] from the [date] column of the original
    file and the [date] and [title] cells of the article rows to the
    [news_titles] column that it assigns; [None] when the handler
    around the whole body is reached, and no file is written. *)
Definition add_titles_to_original_csv (original_dates : list pystr)
  (articles : list (pystr * value)) : option (list pystr) :=
  let date_titles := collect articles in
  series_map
    (fun x =>
       join SEPARATOR
         (match dict_get date_titles x with
          | Some titles => titles
          | None => [Str NO_ARTICLE]
          end))
    original_dates.

End UrlToText.

(** ** bloomberg_scraper_class.py *)

Module BloombergScraper.

(** What a request of [self.session] comes back with: a response with
    its status code, a [requests.RequestException], or another
    exception. *)
Inductive response :=
| Status (code : Z)
| RequestException
| OtherException.

(** The site and the random number generator. *)
Class Outside := {
  outside_state : Type;
  session_head : outside_state -> pystr -> response * outside_state;
  session_get : outside_state -> pystr -> response * outside_state;
  random_choices : outside_state -> pystr -> nat -> pystr * outside_state;
  random_choice : outside_state -> pystr -> N * outside_state
}.

Inductive event :=
| Draw                      (* one call of [pattern_func] *)
| Head (url : pystr)
| Get (url : pystr)
| Sleep (seconds : Q).

(** A value, or an exception that [except Exception] catches. *)
Inductive outcome (A : Type) :=
| Returned (a : A)
| Raised.
Arguments Raised {A}.

Section WithOutside.
Context {outside : Outside}.

Record session := Session {
  state : outside_state;
  log : list event
}.

Definition pattern_func : Type :=
  outside_state -> outcome pystr * outside_state.

Definition base_url : pystr := lit "https://www.bloomberg.co.jp".

Definition ascii_uppercase : pystr := lit "ABCDEFGHIJKLMNOPQRSTUVWXYZ".
Definition digits : pystr := lit "0123456789".
Definition HYPHEN : pystr := lit "-".

(** The seven lambdas of [_get_bloomberg_id_patterns], in the order
    of the dictionary. *)
Definition alnum (k : nat) : pattern_func :=
  fun st =>
    let (id, st) := random_choices st (ascii_uppercase ++ digits) k in
    (Returned id, st).

Definition hyphenated (k1 k2 : nat) : pattern_func :=
  fun st =>
    let (a, st) := random_choices st (ascii_uppercase ++ digits) k1 in
    let (b, st) := random_choices st (ascii_uppercase ++ digits) k2 in
    (Returned (a ++ HYPHEN ++ b), st).

Definition starting_with (population : pystr) : pattern_func :=
  fun st =>
    let (c, st) := random_choice st population in
    let (rest, st) := random_choices st (ascii_uppercase ++ digits) 6 in
    (Returned (c :: rest), st).

Definition get_bloomberg_id_patterns : list pattern_func :=
  [ alnum 6; alnum 7; alnum 8; hyphenated 6 3; hyphenated 4 4;
    starting_with digits; starting_with ascii_uppercase ].

(** [_parse_article], whose lists of selectors are shorter than those
    of article_parser.py and which keeps every paragraph that is not
    empty. *)
Definition parse_article (page : Bs4.soup) : Bs4.article :=
  let title :=
    ArticleParser.first_match page
      [ lit "h1"; lit ".headline"; lit ".story-headline"; lit "title" ]
      ArticleParser.NO_TITLE in
  let date :=
    ArticleParser.first_match page
      [ lit "time"; lit ".timestamp"; lit ".story-timestamp"; lit ".date" ]
      ArticleParser.NO_DATE in
  let author :=
    ArticleParser.first_match page
      [ lit ".byline__name"; lit ".author-link"; lit ".story-byline";
        lit ".byline" ]
      ArticleParser.NO_AUTHOR in
  let content :=
    ArticleParser.first_content truthy page
      [ lit ".body-copy"; lit ".story-body"; lit "article"; lit ".content" ]
      [] in
  Bs4.Article title date author content.

(** [_check_url_exists]: only a [RequestException] is handled here. *)
Definition check_url_exists (url : pystr) (s : session)
  : outcome bool * session :=
  let (r, st) := session_head (state s) url in
  let s := Session st (log s ++ [Head url]) in
  match r with
  | Status code =>
      if (code =? 200)%Z then (Returned true, s)
      else if (code =? 404)%Z then (Returned false, s)
      else
        let (r', st') := session_get (state s) url in
        let s := Session st' (log s ++ [Get url]) in
        match r' with
        | Status code' => (Returned (code' =? 200)%Z, s)
        | RequestException => (Returned false, s)
        | OtherException => (Raised, s)
        end
  | RequestException => (Returned false, s)
  | OtherException => (Raised, s)
  end.

(** The [while] loop of [_try_pattern]; [None] when the fuel runs out
    before the loop ends. *)
Fixpoint try_loop (fuel : nat) (date_str : pystr) (pattern : pattern_func)
  (max_attempts : Z) (valid_urls : list pystr) (attempts : Z) (s : session)
  : option (list pystr * session) :=
  if ((len valid_urls <? max_attempts) && (attempts <? max_attempts))%Z
  then
    match fuel with
    | O => None
    | S fuel' =>
        let attempts := (attempts + 1)%Z in
        let (drawn, st) := pattern (state s) in
        let s := Session st (log s ++ [Draw]) in
        match drawn with
        | Raised =>
            try_loop fuel' date_str pattern max_attempts valid_urls attempts s
        | Returned article_id =>
            let url :=
              base_url ++ lit "/news/articles/" ++ date_str ++ lit "/"
              ++ article_id in
            let (found, s) := check_url_exists url s in
            match found with
            | Raised =>
                try_loop fuel' date_str pattern max_attempts valid_urls
                  attempts s
            | Returned b =>
                let valid_urls :=
                  if b then valid_urls ++ [url] else valid_urls in
                let s := Session (state s) (log s ++ [Sleep (3 # 10)]) in
                try_loop fuel' date_str pattern max_attempts valid_urls
                  attempts s
            end
        end
    end
  else Some (valid_urls, s).

Definition try_pattern (fuel : nat) (date_str : pystr)
  (pattern : pattern_func) (max_attempts : Z) (s : session)
  : option (list pystr * session) :=
  let max_attempts := Z.min (max_attempts * 10) 100 in
  try_loop fuel date_str pattern max_attempts [] 0 s.

(** The loop of [_generate_urls_by_pattern] over the patterns that are
    left. *)
Fixpoint patterns_loop (fuel : nat) (date_str : pystr)
  (patterns : list pattern_func) (max_articles : Z)
  (article_urls : list pystr) (s : session)
  : option (list pystr * session) :=
  match patterns with
  | [] => Some (article_urls, s)
  | pattern :: rest =>
      if (len article_urls >=? max_articles)%Z then Some (article_urls, s)
      else
        match try_pattern fuel date_str pattern
                (max_articles - len article_urls) s with
        | None => None
        | Some (pattern_urls, s) =>
            patterns_loop fuel date_str rest max_articles
              (article_urls ++ pattern_urls) s
        end
  end.

Definition generate_urls_by_pattern (fuel : nat) (date_str : pystr)
  (max_articles : Z) (s : session) : option (list pystr * session) :=
  patterns_loop fuel date_str get_bloomberg_id_patterns max_articles [] s.

(** [get_news_list_by_date]. *)
Definition get_news_list_by_date (fuel : nat) (date_str : pystr)
  (max_articles : Z) (s : session) : option (list pystr * session) :=
  generate_urls_by_pattern fuel date_str max_articles s.

End WithOutside.
End BloombergScraper.

(** ** csv_url_extractor.py and bloomberg_scraper_main.py *)

Module Sitemaps.

(** An entry [<url>] of a sitemap: the texts of its [lastmod] and of
    its [loc], where it has them. *)
Record url_tag := UrlTag {
  lastmod : option pystr;
  loc : option pystr
}.

(** A sitemap as the two functions look at it: the texts of
    [find_all('loc')] and the entries of [find_all('url')]. *)
Record xml := Xml {
  find_all_loc : list pystr;
  find_all_url : list url_tag
}.

(** The site and the clock.  [get_soup] gives [None] after a
    [RequestException]; [strptime] gives the year and the month of a
    date in the format [%Y-%m-%d], and [None] where
    [datetime.strptime] raises [ValueError]. *)
Class Feed := {
  feed_state : Type;
  get_soup : feed_state -> pystr -> option xml * feed_state;
  strptime : pystr -> option (Z * Z)
}.

Inductive event :=
| Request (url : pystr)
| Sleep (seconds : Q).

Inductive outcome :=
| Returned (urls : list pystr)
| ValueError            (* a date that [strptime] rejects *)
| AttributeError.       (* an entry without [loc] *)

Definition sitemap_index_url : pystr :=
  lit "https://www.bloomberg.co.jp/feeds/cojp/sitemap_index.xml".

(** Whether a sitemap of the index is read at all. *)
Definition wanted (target_year_month sitemap_url : pystr) : bool :=
  contains target_year_month sitemap_url
  || contains (lit "sitemap_recent") sitemap_url
  || contains (lit "sitemap_news") sitemap_url.

Section WithFeed.
Context {feed : Feed}.

Record session := Session {
  state : feed_state;
  log : list event
}.

End WithFeed.

End Sitemaps.

Module CsvUrlExtractor.
Import Sitemaps.
Section WithFeed.
Context {feed : Feed}.

(** The loop over the entries of one sitemap, which ends early once
    [max_urls] addresses are there. *)
Fixpoint scan_entries (target_date_str : pystr) (max_urls : Z)
  (entries : list url_tag) (urls : list pystr) : outcome :=
  match entries with
  | [] => Returned urls
  | url_tag :: rest =>
      match lastmod url_tag with
      | Some text =>
          if startswith text target_date_str then
            match loc url_tag with
            | None => AttributeError
            | Some article_url =>
                let urls := urls ++ [article_url] in
                if (len urls >=? max_urls)%Z then Returned urls
                else scan_entries target_date_str max_urls rest urls
            end
          else scan_entries target_date_str max_urls rest urls
      | None => scan_entries target_date_str max_urls rest urls
      end
  end.

(** The loop over the sitemaps of the index. *)
Fixpoint scan_sitemaps (target_date_str target_year_month : pystr)
  (max_urls : Z) (locs : list pystr) (urls : list pystr) (s : session)
  : outcome * session :=
  match locs with
  | [] => (Returned urls, s)
  | sitemap_url :: rest =>
      if wanted target_year_month sitemap_url then
        let (article_soup, st) := get_soup (state s) sitemap_url in
        let s := Session st (log s ++ [Request sitemap_url]) in
        match article_soup with
        | None =>
            scan_sitemaps target_date_str target_year_month max_urls rest
              urls s
        | Some article_soup =>
            match scan_entries target_date_str max_urls
                    (find_all_url article_soup) urls with
            | Returned urls =>
                let s := Session (state s) (log s ++ [Sleep (1 # 2)]) in
                if (len urls >=? max_urls)%Z then (Returned urls, s)
                else scan_sitemaps target_date_str target_year_month
                       max_urls rest urls s
            | failure => (failure, s)
            end
        end
      else
        scan_sitemaps target_date_str target_year_month max_urls rest urls s
  end.

(** [get_bloomberg_urls_for_date], whose list of indexes has one
    entry. *)
Definition get_bloomberg_urls_for_date (target_date_str : pystr)
  (max_urls : Z) (s : session) : outcome * session :=
  let (index_soup, st) := get_soup (state s) sitemap_index_url in
  let s := Session st (log s ++ [Request sitemap_index_url]) in
  match index_soup with
  | None => (Returned [], s)
  | Some index_soup =>
      match strptime target_date_str with
      | None => (ValueError, s)
      | Some (year, month) =>
          let target_year_month :=
            lit "sitemap_" ++ str_of_int year ++ lit "_"
            ++ str_of_int month in
          scan_sitemaps target_date_str target_year_month max_urls
            (find_all_loc index_soup) [] s
      end
  end.

(** [Series.unique()]: the values in the order of their first
    appearance. *)
Fixpoint unique (l : list pystr) : list pystr :=
  match l with
  | [] => []
  | x :: l' => x :: filter (fun y => negb (str_eqb y x)) (unique l')
  end.

(** The loop of [process_csv_with_urls] over the dates: a date that
    [strptime] rejects and a date whose search raises are skipped. *)
Fixpoint process_dates (unique_dates : list pystr) (max_urls_per_date : Z)
  (results : list (pystr * pystr)) (s : session)
  : list (pystr * pystr) * session :=
  match unique_dates with
  | [] => (results, s)
  | date_str :: rest =>
      match strptime date_str with
      | None => process_dates rest max_urls_per_date results s
      | Some _ =>
          let (found, s) :=
            get_bloomberg_urls_for_date date_str max_urls_per_date s in
          match found with
          | Returned urls =>
              let results := results ++ map (pair date_str) urls in
              let s := Session (state s) (log s ++ [Sleep 1]) in
              process_dates rest max_urls_per_date results s
          | _ => process_dates rest max_urls_per_date results s
          end
      end
  end.

(** [process_csv_with_urls] from the cells of the [date] column that
    are text to the rows [(date, bloomberg_url)] that are written when
    there is one. *)
Definition process_csv_with_urls (dates : list pystr)
  (max_urls_per_date : Z) (s : session) : list (pystr * pystr) * session :=
  let unique_dates := unique dates in
  process_dates unique_dates max_urls_per_date [] s.

End WithFeed.
End CsvUrlExtractor.

Module BloombergScraperMain.
Import Sitemaps.
Section WithFeed.
Context {feed : Feed}.

(** The loop over the entries of one sitemap, which has no [break]. *)
Fixpoint scan_entries (target_date_str : pystr) (entries : list url_tag)
  (urls : list pystr) : outcome :=
  match entries with
  | [] => Returned urls
  | url_tag :: rest =>
      match lastmod url_tag with
      | Some text =>
          if startswith text target_date_str then
            match loc url_tag with
            | None => AttributeError
            | Some article_url =>
                scan_entries target_date_str rest (urls ++ [article_url])
            end
          else scan_entries target_date_str rest urls
      | None => scan_entries target_date_str rest urls
      end
  end.

Fixpoint scan_sitemaps (target_date_str target_year_month : pystr)
  (locs : list pystr) (urls : list pystr) (s : session)
  : outcome * session :=
  match locs with
  | [] => (Returned urls, s)
  | sitemap_url :: rest =>
      if wanted target_year_month sitemap_url then
        let (article_soup, st) := get_soup (state s) sitemap_url in
        let s := Session st (log s ++ [Request sitemap_url]) in
        match article_soup with
        | None =>
            scan_sitemaps target_date_str target_year_month rest urls s
        | Some article_soup =>
            match scan_entries target_date_str (find_all_url article_soup)
                    urls with
            | Returned urls =>
                let s := Session (state s) (log s ++ [Sleep (1 # 2)]) in
                if (len urls >=? 20)%Z then (Returned urls, s)
                else scan_sitemaps target_date_str target_year_month rest
                       urls s
            | failure => (failure, s)
            end
        end
      else scan_sitemaps target_date_str target_year_month rest urls s
  end.

Definition get_bloomberg_urls_for_date (target_date_str : pystr)
  (s : session) : outcome * session :=
  let (index_soup, st) := get_soup (state s) sitemap_index_url in
  let s := Session st (log s ++ [Request sitemap_index_url]) in
  match index_soup with
  | None => (Returned [], s)
  | Some index_soup =>
      match strptime target_date_str with
      | None => (ValueError, s)
      | Some (year, month) =>
          let target_year_month :=
            lit "sitemap_" ++ str_of_int year ++ lit "_"
            ++ str_of_int month in
          scan_sitemaps target_date_str target_year_month
            (find_all_loc index_soup) [] s
      end
  end.

End WithFeed.
End BloombergScraperMain.

(** ** Stub scorers *)

Module Stub.

(** A scorer that plays a script: each call consumes the next answer,
    and raises once the script is over. *)
Definition scripted : ExternalScorer := {|
  model_state := list (res (list Q));
  classify := fun s _ =>
    match s with
    | [] => (Raise ScorerError, [])
    | r :: s' => (r, s')
    end
|}.

(** A scorer that answers every text alike. *)
Definition constant (answer : res (list Q)) : ExternalScorer := {|
  model_state := unit;
  classify := fun s _ => (answer, s)
|}.

(** A bundle of three titles and a scorer that raises on its second
    call. *)
Definition three_titles : value := Str (lit "x|y|z").

Definition second_call_raises : world (scorer := scripted) :=
  World (scorer := scripted)
    [ Ok [1 # 8; 1 # 8; 3 # 4]; Raise ScorerError;
      Ok [3 # 8; 5 # 16; 5 # 16] ]
    [].

(** A well-formed probability triple, [neutral; negative; positive]. *)
(** The interpreter of the examples, a CPython before 3.12, and one
    from 3.12 on. *)
#[global] Instance cpython_3_11 : Interpreter :=
  {| sum_compensates := false |}.

Definition cpython_3_12 : Interpreter := {| sum_compensates := true |}.

Definition mostly_positive : list Q := [1 # 8; 1 # 8; 3 # 4].

Definition always_positive : ExternalScorer := constant (Ok mostly_positive).

Definition fresh : world (scorer := always_positive) :=
  World (scorer := always_positive) tt [].

(** A scorer that answers with a vector that is no distribution. *)
Definition half : list Q := [0; 0; 1 # 2].

Definition malformed : ExternalScorer := constant (Ok half).

Definition fresh_malformed : world (scorer := malformed) :=
  World (scorer := malformed) tt [].

(** A model with four classes: its softmax adds up to 1, and the first
    three entries, which the analysers read, to 0.75. *)
Definition four_classes : list Q := [1 # 8; 1 # 8; 1 # 2; 1 # 4].

Definition four_class_model : ExternalScorer := constant (Ok four_classes).

Definition fresh_four : world (scorer := four_class_model) :=
  World (scorer := four_class_model) tt [].

(** A scorer that raises on every call. *)
Definition broken : ExternalScorer := constant (Raise ScorerError).

Definition fresh_broken : world (scorer := broken) :=
  World (scorer := broken) tt [].

(** Two rows of headlines by date. *)
Definition two_days : dataframe :=
  DataFrame [ "date"; "news_titles" ]%string
    [ [ Str (lit "2024-01-04"); Str (lit "x|y") ];
      [ Str (lit "2024-01-05"); NaN ] ].


(** A frame whose bundle column was read as numbers: the cells
    [(empty)], [2024] and [7] of a CSV file come back as NaN, 2024.0 and
    7.0. *)
Definition numbers_for_bundles : dataframe :=
  DataFrame [ "date"; "news_titles" ]%string
    [ [ Str (lit "2024-01-04"); NaN ];
      [ Str (lit "2024-01-05"); Float 2024 ];
      [ Str (lit "2024-01-06"); Float 7 ] ].


(** The same for the five-star model. *)
Definition five_stars : world (scorer := scripted) :=
  World (scorer := scripted)
    [ Ok [0; 0; 0; 0; 1]; Raise ScorerError; Ok [1; 0; 0; 0; 0] ]
    [].

(** A site that plays a script, and one that fails twice before it
    delivers a page. *)
Definition scripted_site : UrlToText.Site := {|
  UrlToText.site_state := list UrlToText.reply;
  UrlToText.fetch_bloomberg_article := fun s _ =>
    match s with
    | [] => (UrlToText.Failure, [])
    | r :: s' => (r, s')
    end
|}.

Definition third_time_lucky : UrlToText.session (site := scripted_site) :=
  UrlToText.Session (site := scripted_site)
    [ UrlToText.Failure; UrlToText.Failure; UrlToText.Page (lit "<h1>x</h1>") ]
    [].

(** A site on which every address exists, with a generator that
    always draws the first character of the population. *)
Definition everything_exists : BloombergScraper.Outside := {|
  BloombergScraper.outside_state := unit;
  BloombergScraper.session_head := fun st _ =>
    (BloombergScraper.Status 200, st);
  BloombergScraper.session_get := fun st _ =>
    (BloombergScraper.Status 200, st);
  BloombergScraper.random_choices := fun st population k =>
    (repeat (List.hd 0%N population) k, st);
  BloombergScraper.random_choice := fun st population =>
    (List.hd 0%N population, st)
|}.

Definition first_visit
  : BloombergScraper.session (outside := everything_exists) :=
  BloombergScraper.Session (outside := everything_exists) tt [].

(** A page whose [h1] is empty and whose headline is in an element of
    class [headline], and a parser that reads every text as that
    page. *)
Definition empty_h1 : Bs4.soup :=
  fun selector =>
    if str_eqb selector (lit "h1") then Some (Bs4.Tag [] [])
    else if str_eqb selector (lit ".headline")
    then Some (Bs4.Tag (lit "Stocks rise") [])
    else None.

Definition reads_empty_h1 : Bs4.HtmlParser :=
  {| Bs4.BeautifulSoup := fun _ => Some empty_h1 |}.

(** A site that never delivers. *)
Definition unreachable : UrlToText.Site := {|
  UrlToText.site_state := unit;
  UrlToText.fetch_bloomberg_article := fun st _ => (UrlToText.Failure, st)
|}.

(** A feed whose index names one sitemap of news, which holds the
    given entries; every date is taken as one of September 2025. *)
Definition single_sitemap (entries : list Sitemaps.url_tag)
  : Sitemaps.Feed := {|
  Sitemaps.feed_state := unit;
  Sitemaps.get_soup := fun st url =>
    if str_eqb url Sitemaps.sitemap_index_url
    then (Some (Sitemaps.Xml [lit "sitemap_news.xml"] []), st)
    else (Some (Sitemaps.Xml [] entries), st);
  Sitemaps.strptime := fun _ => Some (2025%Z, 9%Z)
|}.

(** Twenty-five entries of one day. *)
Definition busy_day : list Sitemaps.url_tag :=
  repeat
    (Sitemaps.UrlTag (Some (lit "2025-09-24T01:00:00Z"))
       (Some (lit "https://www.bloomberg.co.jp/news/articles/x")))
    25.

(** Two entries of consecutive days, the first without [loc]. *)
Definition loc_missing : list Sitemaps.url_tag :=
  [ Sitemaps.UrlTag (Some (lit "2025-09-24T01:00:00Z")) None;
    Sitemaps.UrlTag (Some (lit "2025-09-25T01:00:00Z"))
      (Some (lit "https://www.bloomberg.co.jp/news/articles/y")) ].

(** An article file with two titles for one date, and the dates of
    the original file, the second without article. *)
Definition two_articles : list (pystr * value) :=
  [ (lit "2024-01-04", Str (lit "Stocks rise"));
    (lit "2024-01-04", Str (lit " Yen falls ")) ].

Definition two_dates : list pystr := [ lit "2024-01-04"; lit "2024-01-05" ].

End Stub.

(** ** Reference notions

    What the properties below compare the code with. *)

Module Notions.

(** The exact total of a sequence of scores. *)
Fixpoint total (scores : list Q) : Q :=
  match scores with
  | [] => 0
  | s :: rest => s + total rest
  end.

(** A string that does not begin with whitespace. *)
Definition starts_clean (s : pystr) : bool :=
  match s with
  | [] => true
  | c :: _ => negb (isspace c)
  end.

(** A string whose only whitespace is single spaces: no whitespace
    character other than U+0020, and none followed by another. *)
Fixpoint collapsed (s : pystr) : bool :=
  match s with
  | [] => true
  | c :: s' =>
      (if isspace c then (c =? SPACE)%N && starts_clean s' else true)
      && collapsed s'
  end.

(** A string made of whitespace only (the empty one included). *)
Definition blank (s : pystr) : bool := forallb isspace s.

(** The three classes of a reading. *)
Inductive label := Positive | Negative | Neutral.

Definition label_eq_dec (a b : label) : {a = b} + {a <> b}.
Proof. decide equality. Defined.

(** The classification as the specification words it: Positive above
    0.1, Negative below -0.1, Neutral otherwise; 0.1 being the [float]
    of that name. *)
Definition classification (signedScore : Q) : label :=
  match POINT_ONE ?= signedScore with
  | Lt => Positive
  | _ =>
      match signedScore ?= - POINT_ONE with
      | Lt => Negative
      | _ => Neutral
      end
  end.

(** How many scores of a list fall in a class. *)
Definition occurrences (l : label) (scores : list Q) : Z :=
  Z.of_nat (count_occ label_eq_dec (map classification scores) l).

(** 1 for the class at hand and 0 for the other two. *)
Definition tick (l class : label) : Z :=
  if label_eq_dec l class then 1%Z else 0%Z.

(** The counts of a result are non-negative and add up to the total. *)
Definition counts_consistent (b : bundle_result) : Prop :=
  (positive_count b + negative_count b + neutral_count b
   = total_titles b)%Z
  /\ (0 <= positive_count b)%Z
  /\ (0 <= negative_count b)%Z
  /\ (0 <= neutral_count b)%Z.

(** [l1] is [l2] with some elements left out, the order kept. *)
Inductive subsequence {A : Type} : list A -> list A -> Prop :=
| sub_nil : subsequence [] []
| sub_skip x l1 l2 : subsequence l1 l2 -> subsequence l1 (x :: l2)
| sub_keep x l1 l2 : subsequence l1 l2 -> subsequence (x :: l1) (x :: l2).

(** A bundle cell that is text or missing. *)
Definition textual (v : value) : bool :=
  match v with
  | NaN | Str _ => true
  | Int _ | Float _ => false
  end.

(** A row that [process_csv_with_sentiment] can handle: it has the
    [date] that the progress line prints, and its bundle, taken as
    empty when the column is absent, is text or missing. *)
Definition readable (r : row) : bool :=
  match lookup r "date" with
  | Some _ => textual (get r "news_titles" (Str []))
  | None => false
  end.

(** A row that [process_csv] of sentiment_analyzer_correct.py can
    handle: it has a [news_titles] cell, text or missing. *)
Definition readable_strict (r : row) : bool :=
  match lookup r "news_titles" with
  | Some v => textual v
  | None => false
  end.

(** Every row has one cell per column. *)
Definition rectangular (df : dataframe) : Prop :=
  Forall (fun cells => List.length cells = List.length (columns df))
    (data df).

(** A label that no column bears. *)
Definition absent (col : string) (cols : list string) : bool :=
  negb (existsb (String.eqb col) cols).

(** A frame none of whose columns bears the label of a result
    column, as the files are that the analysers are run on. *)
Definition fresh (df : dataframe) : bool :=
  forallb (fun col => absent col (columns df)) result_columns.




(** The title cells of the articles of one date, in file order. *)
Definition titles_of (articles : list (pystr * value)) (date : pystr)
  : list value :=
  map snd (filter (fun a => str_eqb (fst a) date) articles).

(** Texts put one after the other with a separator between them. *)
Fixpoint intercalate (sep : pystr) (texts : list pystr) : pystr :=
  match texts with
  | [] => []
  | [t] => t
  | t :: rest => t ++ sep ++ intercalate sep rest
  end.

(** The texts of cells that all hold text. *)
Fixpoint texts_of (cells : list value) : option (list pystr) :=
  match cells with
  | [] => Some []
  | Str s :: rest => option_map (cons s) (texts_of rest)
  | _ :: _ => None
  end.

(** What [n] requests for [url] in a row are answered, from the state
    [st] of the site on. *)
Fixpoint answers {site : UrlToText.Site} (st : UrlToText.site_state)
  (url : pystr) (n : nat) : list UrlToText.reply :=
  match n with
  | O => []
  | S n' =>
      let (r, st') := UrlToText.fetch_bloomberg_article st url in
      r :: answers st' url n'
  end.

(** The state of the site after [n] requests for [url]. *)
Fixpoint after {site : UrlToText.Site} (st : UrlToText.site_state)
  (url : pystr) (n : nat) : UrlToText.site_state :=
  match n with
  | O => st
  | S n' => after (snd (UrlToText.fetch_bloomberg_article st url)) url n'
  end.

(** The first page among the answers. *)
Fixpoint first_page (l : list UrlToText.reply) : option pystr :=
  match l with
  | [] => None
  | UrlToText.Page html :: _ => Some html
  | UrlToText.Failure :: l' => first_page l'
  end.

(** The number of answers up to the first page, that page included. *)
Fixpoint tries (l : list UrlToText.reply) : nat :=
  match l with
  | [] => O
  | UrlToText.Page _ :: _ => 1
  | UrlToText.Failure :: l' => S (tries l')
  end.

(** [n] requests with a pause of two seconds between one and the
    next. *)
Fixpoint paced (url : pystr) (n : nat) : list UrlToText.event :=
  match n with
  | O => []
  | S O => [UrlToText.Fetch url]
  | S n' => UrlToText.Fetch url :: UrlToText.Sleep 2 :: paced url n'
  end.

(** An answer of the External Scorer that has the three entries
    which the scorers read. *)
Definition usable (r : res (list Q)) : bool :=
  match r with
  | Ok (_ :: _ :: _ :: _) => true
  | _ => false
  end.

(** The number of identifiers drawn in a log of the scraper. *)
Definition draws (l : list BloombergScraper.event) : nat :=
  List.length
    (filter (fun e => match e with BloombergScraper.Draw => true
                               | _ => false end) l).

(** The address of an article of the day. *)
Definition of_the_day (date_str url : pystr) : Prop :=
  startswith url
    (BloombergScraper.base_url ++ lit "/news/articles/" ++ date_str
     ++ lit "/")
  = true.

(** The texts of the elements that the selectors match, in the order of
    the selectors. *)
Definition matched (page : Bs4.soup) (selectors : list pystr) : list pystr :=
  flat_map
    (fun selector =>
       match page selector with
       | Some tag => [Bs4.get_text tag]
       | None => []
       end)
    selectors.

(** The number of requests in a log of the downloads. *)
Definition fetches (l : list UrlToText.event) : nat :=
  List.length
    (filter (fun e => match e with UrlToText.Fetch _ => true
                               | _ => false end) l).

(** The article of an address that could not be downloaded. *)
Definition failed_article : Bs4.article :=
  Bs4.Article UrlToText.FETCH_FAILED UrlToText.FETCH_FAILED
    UrlToText.FETCH_FAILED UrlToText.FETCH_FAILED.

(** An entry of a sitemap that is dated [target] and has an address,
    and the address of an entry. *)
Definition dated (target : pystr) (e : Sitemaps.url_tag) : bool :=
  match Sitemaps.lastmod e, Sitemaps.loc e with
  | Some text, Some _ => startswith text target
  | _, _ => false
  end.

Definition address (e : Sitemaps.url_tag) : pystr :=
  match Sitemaps.loc e with
  | Some url => url
  | None => []
  end.

(** An entry of a sitemap that is dated [target] and has no address. *)
Definition lacks_loc (target : pystr) (e : Sitemaps.url_tag) : bool :=
  match Sitemaps.lastmod e, Sitemaps.loc e with
  | Some text, None => startswith text target
  | _, _ => false
  end.

(** The name that the sitemaps of a month bear. *)
Definition sitemap_of_month (year month : Z) : pystr :=
  lit "sitemap_" ++ str_of_int year ++ lit "_" ++ str_of_int month.

(** The items of a bundle for a given splitter; a missing bundle has
    none. *)
Definition items_of (split_titles : list pystr -> list pystr) (v : value)
  : list pystr :=
  match v with
  | Str s => split_titles (split PIPE s)
  | _ => []
  end.

(** The rows of a date in the file of addresses. *)
Definition rows_of (date : pystr) (rows : list (pystr * pystr))
  : list (pystr * pystr) :=
  filter (fun r => str_eqb (fst r) date) rows.

(** A text with the whitespace at its ends removed and the runs of
    whitespace inside collapsed; and two such texts put together with
    one space between them, where both have a character. *)
Definition tidy (s : pystr) : pystr := sub_spaces (strip s).

Definition glue (a b : pystr) : pystr :=
  match a, b with
  | [], _ => b
  | _, [] => a
  | _, _ => a ++ [SPACE] ++ b
  end.

Definition glue_all (texts : list pystr) : pystr := fold_right glue [] texts.

(** The cell that [df.at[i, col]] reads, if the frame has it. *)
Definition cell (df : dataframe) (i : nat) (col : string) : option value :=
  match nth_error (data df) i with
  | Some cells => lookup (combine (columns df) cells) col
  | None => None
  end.

(** The bundles of a frame, row by row, taken as empty where the
    column is absent. *)
Definition bundles (df : dataframe) : list value :=
  map (fun r => get r "news_titles" (Str [])) (iterrows df).

(** [results] are the analyses of [bundles], made one after the other:
    the first from the world [w], each next one from the world that
    the one before left, the last leaving [w']. *)
Fixpoint analysed {scorer : ExternalScorer}
  (analyze : value -> M bundle_result) (bundles : list value) (w : world)
  (results : list bundle_result) (w' : world) : Prop :=
  match bundles, results with
  | [], [] => w' = w
  | v :: vs, b :: bs =>
      exists w1, analyze v w = (Ok b, w1) /\ analysed analyze vs w1 bs w'
  | _, _ => False
  end.

(** The five result cells of row [i] hold the fields of [b]. *)
Definition stored (df : dataframe) (i : nat) (b : bundle_result) : Prop :=
  cell df i "avg_sentiment_score" = Some (Float (avg_sentiment_score b))
  /\ cell df i "positive_count" = Some (Int (positive_count b))
  /\ cell df i "negative_count" = Some (Int (negative_count b))
  /\ cell df i "neutral_count" = Some (Int (neutral_count b))
  /\ cell df i "total_titles" = Some (Int (total_titles b)).

End Notions.
Import Notions.

(** * Properties *)

(** ** The monad *)

Ltac run :=
  unfold bind, ret, raise, try_except, item; simpl.

Section MonadFacts.
Context {scorer : ExternalScorer}.
Context {python : Interpreter}.

Lemma bind_ok {A B} (m : M A) (k : A -> M B) w a w' :
  m w = (Ok a, w') -> bind m k w = k a w'.
Proof. intros H. unfold bind. now rewrite H. Qed.

Lemma bind_raise {A B} (m : M A) (k : A -> M B) w e w' :
  m w = (Raise e, w') -> bind m k w = (Raise e, w').
Proof. intros H. unfold bind. now rewrite H. Qed.

(** Every invocation is logged, whatever the scorer answers. *)
Lemma invoke_logs text w r w' :
  invoke text w = (r, w') -> calls w' = calls w ++ [text].
Proof.
  unfold invoke. destruct (classify (state w) text) as [r0 s0].
  intros H. inversion H. reflexivity.
Qed.

End MonadFacts.

(** ** Rounding

    Powers of two, the exponent of a number, the nearest integer and
    the rounding to a format: it is monotone, it leaves the numbers of
    the format alone, and its error is half a unit in the last place. *)

Section Pow2.

Lemma pow2_pos e : 0 < pow2 e.
Proof. apply Qpower_0_lt. reflexivity. Qed.

Lemma pow2_plus a b : pow2 (a + b) == pow2 a * pow2 b.
Proof. apply Qpower_plus. discriminate. Qed.

Lemma pow2_le a b : (a <= b)%Z -> pow2 a <= pow2 b.
Proof. intros H. apply Qpower_le_compat_l; [exact H|discriminate]. Qed.

Lemma pow2_lt a b : (a < b)%Z -> pow2 a < pow2 b.
Proof. intros H. apply Qpower_lt_compat_l; [exact H|reflexivity]. Qed.

Lemma pow2_lt_inv a b : pow2 a < pow2 b -> (a < b)%Z.
Proof. intros H. apply Qpower_lt_compat_l_inv with (q := 2); [exact H|reflexivity]. Qed.

Lemma pow2_Z e : (0 <= e)%Z -> pow2 e == inject_Z (2 ^ e).
Proof. intros H. unfold pow2. now rewrite Zpower_Qpower. Qed.

Lemma pow2_0 : pow2 0 == 1.
Proof. reflexivity. Qed.

Lemma pow2_succ e : pow2 (e + 1) == 2 * pow2 e.
Proof. rewrite pow2_plus. change (pow2 1) with 2. ring. Qed.

Lemma pow2_minus a b : pow2 (a - b) == pow2 a / pow2 b.
Proof.
  assert (H : pow2 a == pow2 (a - b) * pow2 b).
  { rewrite <- pow2_plus. now replace (a - b + b)%Z with a by lia. }
  rewrite H. field. pose proof (pow2_pos b). lra.
Qed.

End Pow2.

Section Log2.

Lemma inject_Z_log2 n :
  (0 < n)%Z -> pow2 (Z.log2 n) <= inject_Z n < pow2 (Z.log2 n + 1).
Proof.
  intros H. destruct (Z.log2_spec n H) as [H1 H2].
  pose proof (Z.log2_nonneg n) as H0.
  rewrite !pow2_Z by lia. rewrite <- Zle_Qle, <- Zlt_Qlt.
  split; [exact H1|]. now rewrite <- Z.add_1_r in H2.
Qed.

Lemma ilog2_spec q : 0 < q -> pow2 (ilog2 q) <= q < pow2 (ilog2 q + 1).
Proof.
  intros Hq. unfold ilog2.
  set (a := Z.log2 (Qnum q)). set (b := Z.log2 (Z.pos (Qden q))).
  assert (Hn : (0 < Qnum q)%Z).
  { destruct q as [n d]. unfold Qlt in Hq. simpl in *. lia. }
  destruct (inject_Z_log2 Hn) as [N1 N2]. fold a in N1, N2.
  destruct (@inject_Z_log2 (Z.pos (Qden q)) eq_refl) as [D1 D2].
  fold b in D1, D2.
  assert (E : q * inject_Z (Z.pos (Qden q)) == inject_Z (Qnum q)).
  { destruct q as [n d]. unfold Qeq. simpl. lia. }
  set (N := inject_Z (Qnum q)) in *. set (D := inject_Z (Z.pos (Qden q))) in *.
  pose proof (pow2_pos b) as Pb. pose proof (pow2_pos (a - b)) as Pe.
  pose proof (pow2_pos (a - b - 1)) as Pe'.
  assert (Hup : q < pow2 (a - b + 1)).
  { assert (X : pow2 (a - b + 1) * pow2 b == pow2 (a + 1)).
    { rewrite <- pow2_plus. now replace (a - b + 1 + b)%Z with (a + 1)%Z by lia. }
    pose proof (pow2_pos (a - b + 1)). nra. }
  assert (Hlo : pow2 (a - b - 1) <= q).
  { assert (X : pow2 (a - b - 1) * pow2 (b + 1) == pow2 a).
    { rewrite <- pow2_plus. now replace (a - b - 1 + (b + 1))%Z with a by lia. }
    pose proof (pow2_pos (b + 1)). nra. }
  destruct (Qle_bool (pow2 (a - b)) q) eqn:B.
  - apply Qle_bool_iff in B. split; [exact B|exact Hup].
  - split; [exact Hlo|].
    replace (a - b - 1 + 1)%Z with (a - b)%Z by lia.
    apply Qnot_le_lt. intros H. apply Qle_bool_iff in H. congruence.
Qed.

Lemma ilog2_unique q l : pow2 l <= q < pow2 (l + 1) -> ilog2 q = l.
Proof.
  intros [H1 H2].
  assert (Hq : 0 < q) by (pose proof (pow2_pos l); lra).
  destruct (ilog2_spec Hq) as [S1 S2].
  assert (A : (ilog2 q < l + 1)%Z) by (apply pow2_lt_inv; lra).
  assert (B : (l < ilog2 q + 1)%Z) by (apply pow2_lt_inv; lra).
  lia.
Qed.

Lemma ilog2_comp x y : 0 < x -> x == y -> ilog2 x = ilog2 y.
Proof.
  intros Hx E. symmetry. apply ilog2_unique. rewrite <- E.
  now apply ilog2_spec.
Qed.

Lemma ilog2_le x y : 0 < x -> x <= y -> (ilog2 x <= ilog2 y)%Z.
Proof.
  intros Hx H. assert (Hy : 0 < y) by lra.
  destruct (ilog2_spec Hx) as [X1 X2]. destruct (ilog2_spec Hy) as [Y1 Y2].
  assert (A : (ilog2 x < ilog2 y + 1)%Z) by (apply pow2_lt_inv; lra).
  lia.
Qed.

Lemma ilog2_lt_pow2 x k : 0 < x -> x < pow2 k -> (ilog2 x < k)%Z.
Proof.
  intros Hx H. destruct (ilog2_spec Hx) as [X1 _].
  apply pow2_lt_inv. lra.
Qed.

Lemma ilog2_ge_pow2 x k : pow2 k <= x -> (k <= ilog2 x)%Z.
Proof.
  intros H. assert (Hx : 0 < x) by (pose proof (pow2_pos k); lra).
  destruct (ilog2_spec Hx) as [_ X2].
  assert (A : (k < ilog2 x + 1)%Z) by (apply pow2_lt_inv; lra). lia.
Qed.

End Log2.

Section NearestInteger.

Lemma rne_comp x y : x == y -> rne x = rne y.
Proof.
  intros E. unfold rne. rewrite (Qfloor_comp _ _ E).
  assert (H : x - inject_Z (Qfloor y) == y - inject_Z (Qfloor y))
    by now rewrite E.
  now rewrite H.
Qed.

Lemma rne_bounds x :
  (Qfloor x <= rne x <= Qfloor x + 1)%Z.
Proof.
  unfold rne. destruct (x - inject_Z (Qfloor x) ?= 1 # 2);
    [destruct (Z.even (Qfloor x))| |]; lia.
Qed.

Lemma rne_inject z : rne (inject_Z z) = z.
Proof.
  unfold rne. rewrite Qfloor_Z.
  destruct (Qcompare_spec (inject_Z z - inject_Z z) (1 # 2)) as [X|X|X];
    [exfalso; lra|reflexivity|exfalso; lra].
Qed.

Lemma rne_le x y : x <= y -> (rne x <= rne y)%Z.
Proof.
  intros H. pose proof (Qfloor_resp_le _ _ H) as F.
  pose proof (rne_bounds x) as Bx. pose proof (rne_bounds y) as By.
  destruct (Z.eq_dec (Qfloor x) (Qfloor y)) as [E|E]; [|lia].
  unfold rne. rewrite <- E.
  destruct (Qcompare_spec (x - inject_Z (Qfloor x)) (1 # 2)) as [X|X|X];
    destruct (Qcompare_spec (y - inject_Z (Qfloor x)) (1 # 2)) as [Y|Y|Y];
    try destruct (Z.even (Qfloor x)); try lia; lra.
Qed.

Lemma rne_error x : Qabs (inject_Z (rne x) - x) <= 1 # 2.
Proof.
  pose proof (Qfloor_le x) as F1. pose proof (Qlt_floor x) as F2.
  rewrite inject_Z_plus in F2. change (inject_Z 1) with 1 in F2.
  apply Qabs_Qle_condition. unfold rne.
  destruct (Qcompare_spec (x - inject_Z (Qfloor x)) (1 # 2)) as [X|X|X];
    [destruct (Z.even (Qfloor x))| |];
    rewrite ?inject_Z_plus; change (inject_Z 1) with 1; split; lra.
Qed.

Lemma rne_nonneg x : 0 <= x -> (0 <= rne x)%Z.
Proof. intros H. rewrite <- (rne_inject 0). now apply rne_le. Qed.

End NearestInteger.

Section Rounding.
Variable fmt : format.
Hypothesis precision_pos : (1 <= precision fmt)%Z.

Lemma cexp_comp x y : 0 < x -> x == y -> cexp fmt x = cexp fmt y.
Proof. intros Hx E. unfold cexp. now rewrite (ilog2_comp Hx E). Qed.

Lemma cexp_le_ilog2 x : (emin fmt <= ilog2 x -> cexp fmt x <= ilog2 x)%Z.
Proof. unfold cexp. lia. Qed.

Lemma cexp_mono x y : 0 < x -> x <= y -> (cexp fmt x <= cexp fmt y)%Z.
Proof. intros Hx H. pose proof (ilog2_le Hx H). unfold cexp. lia. Qed.

Lemma nearest_comp x y : 0 < x -> x == y -> nearest fmt x == nearest fmt y.
Proof.
  intros Hx E. unfold nearest. rewrite <- (cexp_comp Hx E).
  generalize (pow2 (cexp fmt x)). intros p.
  assert (H : x / p == y / p) by now rewrite E.
  now rewrite (rne_comp H).
Qed.

Lemma round_comp x y : x == y -> round fmt x == round fmt y.
Proof.
  intros E. unfold round.
  assert (C : (x ?= 0) = (y ?= 0)) by now rewrite E.
  rewrite <- C. destruct (Qcompare_spec x 0) as [H|H|H]; [reflexivity| |].
  - apply Qopp_comp. apply nearest_comp; [lra|now rewrite E].
  - now apply nearest_comp.
Qed.

Lemma nearest_nonneg x : 0 < x -> 0 <= nearest fmt x.
Proof.
  intros Hx. unfold nearest. pose proof (pow2_pos (cexp fmt x)) as P.
  assert (H : (0 <= rne (x / pow2 (cexp fmt x)))%Z).
  { apply rne_nonneg. apply Qle_shift_div_l; [exact P|lra]. }
  rewrite Zle_Qle in H. change (inject_Z 0) with 0 in H. nra.
Qed.

(** A multiple of the unit in the last place of [x] that bounds [x]
    bounds the nearest number too. *)
Lemma nearest_le_multiple x z :
  0 < x -> x <= inject_Z z * pow2 (cexp fmt x) ->
  nearest fmt x <= inject_Z z * pow2 (cexp fmt x).
Proof.
  intros Hx H. unfold nearest. pose proof (pow2_pos (cexp fmt x)) as P.
  assert (R : (rne (x / pow2 (cexp fmt x)) <= z)%Z).
  { rewrite <- (rne_inject z). apply rne_le.
    apply Qle_shift_div_r; [exact P|exact H]. }
  rewrite Zle_Qle in R. nra.
Qed.

Lemma nearest_ge_multiple x z :
  0 < x -> inject_Z z * pow2 (cexp fmt x) <= x ->
  inject_Z z * pow2 (cexp fmt x) <= nearest fmt x.
Proof.
  intros Hx H. unfold nearest. pose proof (pow2_pos (cexp fmt x)) as P.
  assert (R : (z <= rne (x / pow2 (cexp fmt x)))%Z).
  { rewrite <- (rne_inject z) at 1. apply rne_le.
    apply Qle_shift_div_l; [exact P|exact H]. }
  rewrite Zle_Qle in R. nra.
Qed.

(** A power of two above the exponent of [x] is a multiple of its unit
    in the last place. *)
Lemma pow2_multiple k e :
  (e <= k)%Z -> pow2 k == inject_Z (2 ^ (k - e)) * pow2 e.
Proof.
  intros H. rewrite <- pow2_Z by lia. rewrite <- pow2_plus.
  now replace (k - e + e)%Z with k by lia.
Qed.

Lemma nearest_le_pow2 x k :
  0 < x -> x <= pow2 k -> (emin fmt <= k)%Z -> nearest fmt x <= pow2 k.
Proof.
  intros Hx H Hk.
  assert (L : (ilog2 x <= k)%Z).
  { destruct (ilog2_spec Hx) as [X1 _].
    destruct (Z_le_gt_dec (ilog2 x) k) as [G|G]; [exact G|].
    assert (pow2 k < pow2 (ilog2 x)) by (apply pow2_lt; lia). lra. }
  assert (E : (cexp fmt x <= k)%Z) by (unfold cexp; lia).
  rewrite (pow2_multiple E) in *. now apply nearest_le_multiple.
Qed.

Lemma nearest_ge_pow2 x k :
  pow2 k <= x -> (emin fmt <= k)%Z -> pow2 k <= nearest fmt x.
Proof.
  intros H Hk.
  assert (Hx : 0 < x) by (pose proof (pow2_pos k); lra).
  pose proof (@ilog2_ge_pow2 x k H) as L.
  destruct (ilog2_spec Hx) as [X1 _].
  assert (E : (cexp fmt x <= ilog2 x)%Z) by (unfold cexp; lia).
  apply Qle_trans with (pow2 (ilog2 x)); [now apply pow2_le|].
  rewrite (pow2_multiple E) in *. now apply nearest_ge_multiple.
Qed.

(** Below the smallest positive number of the format. *)
Lemma nearest_le_tiny x :
  0 < x -> x <= pow2 (emin fmt) -> nearest fmt x <= pow2 (emin fmt).
Proof. intros Hx H. apply nearest_le_pow2; [exact Hx|exact H|lia]. Qed.

Lemma nearest_le x y : 0 < x -> x <= y -> nearest fmt x <= nearest fmt y.
Proof.
  intros Hx H. assert (Hy : 0 < y) by lra.
  pose proof (cexp_mono Hx H) as C.
  destruct (Z.eq_dec (cexp fmt x) (cexp fmt y)) as [E|E].
  - unfold nearest. rewrite <- E. pose proof (pow2_pos (cexp fmt x)) as P.
    assert (R : (rne (x / pow2 (cexp fmt x)) <= rne (y / pow2 (cexp fmt x)))%Z).
    { apply rne_le. apply Qle_shift_div_r; [exact P|].
      setoid_replace (y / pow2 (cexp fmt x) * pow2 (cexp fmt x)) with y
        by (field; lra).
      exact H. }
    rewrite Zle_Qle in R. nra.
  - (* [y] is in a higher binade *)
    assert (Ly : cexp fmt y = (ilog2 y - precision fmt + 1)%Z)
      by (unfold cexp in *; lia).
    assert (Lxy : (ilog2 x < ilog2 y)%Z) by (unfold cexp in *; lia).
    assert (Ey : (emin fmt < cexp fmt y)%Z) by (unfold cexp in *; lia).
    destruct (ilog2_spec Hx) as [_ X2]. destruct (ilog2_spec Hy) as [Y1 _].
    set (u := Z.max (ilog2 x + 1) (emin fmt)).
    assert (U : (u <= ilog2 y)%Z) by (unfold u; lia).
    apply Qle_trans with (pow2 u).
    + apply nearest_le_pow2; [exact Hx| |unfold u; lia].
      apply Qle_trans with (pow2 (ilog2 x + 1)); [lra|].
      apply pow2_le. unfold u. lia.
    + apply Qle_trans with (pow2 (ilog2 y)); [now apply pow2_le|].
      apply nearest_ge_pow2; [exact Y1|lia].
Qed.

(** Rounding is monotone. *)
Lemma round_le x y : x <= y -> round fmt x <= round fmt y.
Proof.
  intros H. unfold round.
  destruct (Qcompare_spec x 0) as [X|X|X];
    destruct (Qcompare_spec y 0) as [Y|Y|Y]; try lra.
  - apply nearest_nonneg. exact Y.
  - assert (0 <= nearest fmt (- x)) by (apply nearest_nonneg; lra). lra.
  - assert (nearest fmt (- y) <= nearest fmt (- x))
      by (apply nearest_le; lra). lra.
  - assert (0 <= nearest fmt (- x)) by (apply nearest_nonneg; lra).
    assert (0 <= nearest fmt y) by (apply nearest_nonneg; lra). lra.
  - now apply nearest_le.
Qed.

Lemma round_opp x : round fmt (- x) == - round fmt x.
Proof.
  unfold round.
  destruct (Qcompare_spec x 0) as [X|X|X];
    destruct (Qcompare_spec (- x) 0) as [Y|Y|Y]; try lra.
  apply Qopp_comp. apply nearest_comp; [lra|ring].
Qed.

Lemma round_0 : round fmt 0 == 0.
Proof. reflexivity. Qed.

(** A number that is a multiple of its own unit in the last place is
    left as it is. *)
Lemma nearest_multiple x z :
  0 < x -> x == inject_Z z * pow2 (cexp fmt x) -> nearest fmt x == x.
Proof.
  intros Hx E. apply Qle_antisym.
  - rewrite E at 2. apply nearest_le_multiple; [exact Hx|]. rewrite <- E. lra.
  - rewrite E at 1. apply nearest_ge_multiple; [exact Hx|]. rewrite <- E. lra.
Qed.

Hypothesis emin_neg : (emin fmt <= 0)%Z.

(** The integers up to [2 ^ precision] are numbers of the format. *)
Lemma nearest_int n :
  (0 < n <= 2 ^ precision fmt)%Z -> nearest fmt (inject_Z n) == inject_Z n.
Proof.
  intros [H0 Hn].
  assert (Hx : 0 < inject_Z n).
  { change 0 with (inject_Z 0). now rewrite <- Zlt_Qlt. }
  destruct (Z.eq_dec n (2 ^ precision fmt)) as [E|E].
  - subst n.
    assert (P : inject_Z (2 ^ precision fmt) == pow2 (precision fmt))
      by (symmetry; apply pow2_Z; lia).
    rewrite (nearest_comp Hx P), P.
    apply Qle_antisym.
    + apply nearest_le_pow2; [apply pow2_pos|lra|lia].
    + apply nearest_ge_pow2; [lra|lia].
  - assert (L : (ilog2 (inject_Z n) < precision fmt)%Z).
    { apply ilog2_lt_pow2; [exact Hx|]. rewrite pow2_Z by lia.
      rewrite <- Zlt_Qlt. lia. }
    assert (C : (cexp fmt (inject_Z n) <= 0)%Z) by (unfold cexp; lia).
    apply nearest_multiple with (z := (n * 2 ^ (- cexp fmt (inject_Z n)))%Z);
      [exact Hx|].
    rewrite inject_Z_mult, <- pow2_Z by lia.
    rewrite <- Qmult_assoc, <- pow2_plus.
    replace (- cexp fmt (inject_Z n) + cexp fmt (inject_Z n))%Z with 0%Z by lia.
    rewrite pow2_0. ring.
Qed.

Lemma round_int n :
  (Z.abs n <= 2 ^ precision fmt)%Z -> round fmt (inject_Z n) == inject_Z n.
Proof.
  intros H. unfold round.
  destruct (Qcompare_spec (inject_Z n) 0) as [X|X|X].
  - now rewrite X.
  - change 0 with (inject_Z 0) in X. rewrite <- Zlt_Qlt in X.
    rewrite <- inject_Z_opp, nearest_int by lia.
    rewrite inject_Z_opp. ring.
  - change 0 with (inject_Z 0) in X. rewrite <- Zlt_Qlt in X.
    apply nearest_int. lia.
Qed.

(** What is within [-n, n] stays there. *)
Lemma round_in_range n x :
  (0 <= n <= 2 ^ precision fmt)%Z ->
  - inject_Z n <= x <= inject_Z n ->
  - inject_Z n <= round fmt x <= inject_Z n.
Proof.
  intros Hn [H1 H2]. split.
  - rewrite <- (@round_int (- n)) by lia. rewrite inject_Z_opp.
    now apply round_le.
  - rewrite <- (@round_int n) by lia. now apply round_le.
Qed.

End Rounding.

Section Errors.
Variable fmt : format.
Hypothesis precision_pos : (1 <= precision fmt)%Z.

Lemma nearest_error x :
  0 < x -> Qabs (nearest fmt x - x) <= pow2 (cexp fmt x - 1).
Proof.
  intros Hx. unfold nearest. set (e := cexp fmt x).
  pose proof (pow2_pos e) as P.
  pose proof (rne_error (x / pow2 e)) as R.
  apply Qabs_Qle_condition in R. destruct R as [R1 R2].
  assert (X : x == x / pow2 e * pow2 e) by (field; lra).
  assert (H : pow2 (e - 1) == pow2 e * (1 # 2)).
  { rewrite pow2_minus. change (pow2 1) with 2. field. }
  rewrite H. apply Qabs_Qle_condition.
  set (m := x / pow2 e) in *. set (r := inject_Z (rne m)) in *.
  split; nra.
Qed.

Lemma round_error x k :
  Qabs x < pow2 k -> (emin fmt <= k - precision fmt)%Z ->
  Qabs (round fmt x - x) <= pow2 (k - precision fmt - 1).
Proof.
  intros H Hk. unfold round.
  assert (B : forall y, 0 < y -> y < pow2 k ->
              Qabs (nearest fmt y - y) <= pow2 (k - precision fmt - 1)).
  { intros y Hy Hyk. eapply Qle_trans; [now apply nearest_error|].
    apply pow2_le. pose proof (@ilog2_lt_pow2 y k Hy Hyk). unfold cexp. lia. }
  destruct (Qcompare_spec x 0) as [X|X|X].
  - rewrite X. setoid_replace (0 - 0) with 0 by ring.
    simpl. apply Qlt_le_weak, pow2_pos.
  - rewrite Qabs_neg in H by lra.
    specialize (B (- x)).
    setoid_replace (- nearest fmt (- x) - x) with (- (nearest fmt (- x) - - x))
      by ring.
    rewrite Qabs_opp. apply B; lra.
  - rewrite Qabs_pos in H by lra. now apply B.
Qed.

End Errors.

(** ** Sums and means of rounded numbers *)

Section Sums.
Variable fmt : format.
Hypothesis precision_pos : (1 <= precision fmt)%Z.
Hypothesis emin_low : (emin fmt <= - precision fmt + 1)%Z.

Lemma emin_nonpos : (emin fmt <= 0)%Z.
Proof. lia. Qed.

(** The error of one rounding, against a bound of the number. *)
Lemma round_error_bound y N :
  1 <= N -> Qabs y <= N ->
  Qabs (round fmt y - y) <= N * pow2 (- precision fmt).
Proof.
  intros HN Hy. pose proof (pow2_pos (- precision fmt)) as U.
  assert (B : forall z, 0 < z -> z <= N ->
              Qabs (nearest fmt z - z) <= N * pow2 (- precision fmt)).
  { intros z Hz HzN. eapply Qle_trans; [now apply nearest_error|].
    destruct (ilog2_spec Hz) as [L _].
    destruct (Z_le_gt_dec (emin fmt) (ilog2 z - precision fmt + 1)) as [C|C].
    - replace (cexp fmt z - 1)%Z with (ilog2 z + - precision fmt)%Z
        by (unfold cexp; lia).
      rewrite pow2_plus. nra.
    - apply Qle_trans with (pow2 (- precision fmt)).
      + apply pow2_le. unfold cexp. lia.
      + nra. }
  unfold round. destruct (Qcompare_spec y 0) as [X|X|X].
  - rewrite X. setoid_replace (0 - 0) with 0 by ring. simpl. nra.
  - rewrite Qabs_neg in Hy by lra.
    setoid_replace (- nearest fmt (- y) - y) with (- (nearest fmt (- y) - - y))
      by ring.
    rewrite Qabs_opp. apply B; lra.
  - rewrite Qabs_pos in Hy by lra. now apply B.
Qed.

Lemma total_app l x : total (l ++ [x]) == total l + x.
Proof. induction l as [|y l IH]; simpl; [ring|]. rewrite IH. ring. Qed.

(** The sum accumulated from [acc], each addition rounded: it stays
    within the number of terms, and near the exact sum. *)
Lemma fold_add_bound l : forall acc m,
  (0 <= m)%Z -> Qabs acc <= inject_Z m ->
  Forall (fun x => - (1) <= x <= 1) l ->
  (m + len l <= 2 ^ precision fmt)%Z ->
  Qabs (fold_left (add fmt) l acc) <= inject_Z (m + len l)
  /\ Qabs (fold_left (add fmt) l acc - (acc + total l))
     <= inject_Z (len l) * inject_Z (m + len l) * pow2 (- precision fmt).
Proof.
  pose proof (pow2_pos (- precision fmt)) as U.
  induction l as [|x l IH]; intros acc m Hm Hacc Hl Hn.
  - cbn [fold_left total]. change (len (@nil Q)) with 0%Z.
    rewrite Z.add_0_r. split; [exact Hacc|].
    apply Qabs_Qle_condition. change (inject_Z 0) with 0. split; lra.
  - inversion Hl as [|? ? Hx Hl']; subst.
    assert (E : len (x :: l) = (1 + len l)%Z)
      by (unfold len; cbn [List.length]; lia).
    rewrite E in *.
    assert (Ln : (0 <= len l)%Z) by (unfold len; lia).
    apply Qabs_Qle_condition in Hacc.
    assert (B1 : - inject_Z (m + 1) <= acc + x <= inject_Z (m + 1)).
    { rewrite inject_Z_plus. change (inject_Z 1) with 1. split; lra. }
    assert (A1 : Qabs (add fmt acc x) <= inject_Z (m + 1)).
    { apply Qabs_Qle_condition. unfold add.
      apply round_in_range; [exact precision_pos|apply emin_nonpos|lia|exact B1]. }
    destruct (IH (add fmt acc x) (m + 1)%Z) as [I1 I2];
      [lia|exact A1|exact Hl'|lia|].
    replace (m + 1 + len l)%Z with (m + (1 + len l))%Z in I1, I2 by lia.
    cbn [fold_left total]. split; [exact I1|].
    assert (R : Qabs (add fmt acc x - (acc + x))
                <= inject_Z (m + (1 + len l)) * pow2 (- precision fmt)).
    { unfold add. apply round_error_bound.
      - rewrite !inject_Z_plus. change (inject_Z 1) with 1.
        rewrite Zle_Qle in Hm, Ln. change (inject_Z 0) with 0 in *. lra.
      - apply Qabs_Qle_condition.
        rewrite !inject_Z_plus in *. change (inject_Z 1) with 1 in *.
        rewrite Zle_Qle in Ln. change (inject_Z 0) with 0 in *.
        split; lra. }
    apply Qabs_Qle_condition in I2. apply Qabs_Qle_condition in R.
    apply Qabs_Qle_condition.
    rewrite (inject_Z_plus 1 (len l)). change (inject_Z 1) with 1.
    set (N := inject_Z (m + (1 + len l))) in *.
    set (u := pow2 (- precision fmt)) in *.
    set (F := fold_left (add fmt) l (add fmt acc x)) in *.
    set (a := add fmt acc x) in *. set (L := inject_Z (len l)) in *.
    split; nra.
Qed.

(** The quotient of the accumulated sum by the number of terms. *)
Lemma mean_bound l :
  l <> [] ->
  Forall (fun x => - (1) <= x <= 1) l ->
  (len l <= 2 ^ precision fmt)%Z ->
  let avg := div fmt (fold_left (add fmt) l 0) (of_int fmt (len l)) in
  - (1) <= avg <= 1
  /\ Qabs (avg - total l / inject_Z (len l))
     <= inject_Z (len l + 1) * pow2 (- precision fmt).
Proof.
  intros Hne Hl Hn avg.
  pose proof (pow2_pos (- precision fmt)) as U.
  assert (Ln : (0 < len l)%Z).
  { unfold len. destruct l; [congruence|]. cbn [List.length]. lia. }
  assert (Ln' : 0 < inject_Z (len l)).
  { change 0 with (inject_Z 0). now rewrite <- Zlt_Qlt. }
  destruct (@fold_add_bound l 0 0%Z) as [B1 B2];
    [lia|discriminate|exact Hl|lia|].
  rewrite Z.add_0_l in B1, B2.
  apply Qabs_Qle_condition in B1. apply Qabs_Qle_condition in B2.
  set (S := fold_left (add fmt) l 0) in *.
  assert (E : avg == round fmt (S / inject_Z (len l))).
  { unfold avg, div, of_int. apply round_comp.
    rewrite (@round_int fmt precision_pos emin_nonpos (len l)) by lia.
    reflexivity. }
  set (n := inject_Z (len l)) in *.
  assert (Q1 : S / n * n == S) by (field; lra).
  assert (Q2 : total l / n * n == total l) by (field; lra).
  assert (R1 : - (1) <= S / n <= 1).
  { split.
    - apply Qle_shift_div_l; [exact Ln'|lra].
    - apply Qle_shift_div_r; [exact Ln'|lra]. }
  assert (R2 : - inject_Z 1 <= round fmt (S / n) <= inject_Z 1).
  { apply round_in_range; [exact precision_pos|apply emin_nonpos| |exact R1].
    split; [lia|]. apply Z.pow_le_mono_r with (b := 0%Z) (c := precision fmt) (a := 2%Z); lia. }
  change (inject_Z 1) with 1 in R2.
  assert (R3 : Qabs (round fmt (S / n) - S / n) <= 1 * pow2 (- precision fmt)).
  { apply round_error_bound; [lra|]. apply Qabs_Qle_condition. exact R1. }
  apply Qabs_Qle_condition in R3.
  rewrite E. split; [exact R2|].
  apply Qabs_Qle_condition.
  rewrite inject_Z_plus. change (inject_Z 1) with 1. fold n.
  set (u := pow2 (- precision fmt)) in *.
  set (q := S / n) in *. set (t := total l / n) in *.
  set (r := round fmt q) in *.
  split; nra.
Qed.

End Sums.

(** ** The compensated sum *)

Section CompensatedSum.

Let u : Q := pow2 (- 53).
Let K : Q := 16777221 * u.

Lemma float_error y N :
  1 <= N -> - N <= y <= N ->
  - (N * pow2 (- 53)) <= round binary64 y - y <= N * pow2 (- 53).
Proof.
  intros HN Hy. apply Qabs_Qle_condition.
  apply (@round_error_bound binary64); [cbn; lia|exact HN|].
  now apply Qabs_Qle_condition.
Qed.

(** One item: the running sum stays within the number of items, the
    compensation stays small, and the two together move by the item,
    up to four roundings of numbers below 2. *)
Lemma compensate_step hi c x m :
  (0 <= m)%Z -> (m + 1 <= 16777216)%Z ->
  - inject_Z m <= hi <= inject_Z m ->
  - (inject_Z m * K) <= c <= inject_Z m * K ->
  - (1) <= x <= 1 ->
  - inject_Z (m + 1) <= fst (compensate (hi, c) x) <= inject_Z (m + 1)
  /\ - (inject_Z (m + 1) * K) <= snd (compensate (hi, c) x)
     <= inject_Z (m + 1) * K
  /\ - (4 * u) <= fst (compensate (hi, c) x) + snd (compensate (hi, c) x)
                  - (hi + c + x) <= 4 * u.
Proof.
  intros Hm Hn Hhi Hc Hx.
  assert (Up : 0 < u) by apply pow2_pos.
  assert (U53 : u * 9007199254740992 == 1) by reflexivity.
  assert (Mq : 0 <= inject_Z m <= 16777215).
  { change 0 with (inject_Z 0). change 16777215 with (inject_Z 16777215).
    rewrite <- !Zle_Qle. lia. }
  rewrite inject_Z_plus. change (inject_Z 1) with 1.
  set (M := inject_Z m) in *.
  unfold compensate.
  assert (T : - (M + 1) <= add binary64 hi x <= M + 1).
  { unfold add.
    assert (E : M + 1 == inject_Z (m + 1))
      by (rewrite inject_Z_plus; reflexivity).
    rewrite E. apply round_in_range; [cbn; lia|cbn; lia| |].
    - change (2 ^ precision binary64)%Z with 9007199254740992%Z. lia.
    - rewrite <- E. split; lra. }
  assert (E0 : - ((M + 1) * u) <= add binary64 hi x - (hi + x)
               <= (M + 1) * u).
  { unfold add. apply float_error; [lra|split; lra]. }
  set (t := add binary64 hi x) in *.
  assert (Eu : (M + 1) * u <= 1) by nra.
  destruct (Qle_bool (Qabs x) (Qabs hi)) eqn:B; cbn [fst snd].
  - assert (E1 : - (2 * u) <= sub binary64 hi t - (hi - t) <= 2 * u).
    { unfold sub. apply float_error; [lra|split; lra]. }
    set (r := sub binary64 hi t) in *.
    assert (E2 : - (1 * u) <= add binary64 r x - (r + x) <= 1 * u).
    { unfold add. apply float_error; [lra|]. split; nra. }
    set (dd := add binary64 r x) in *.
    assert (E3 : - (1 * u) <= add binary64 c dd - (c + dd) <= 1 * u).
    { unfold add. apply float_error; [lra|]. unfold K in *. split; nra. }
    set (c' := add binary64 c dd) in *.
    unfold K in *. clearbody t r dd c' u M. repeat split; nra.
  - assert (Hlt : Qabs hi < Qabs x).
    { apply Qnot_le_lt. intros H. apply Qle_bool_iff in H. congruence. }
    assert (Hx1 : Qabs x <= 1) by (apply Qabs_Qle_condition; exact Hx).
    assert (Hh1 : - (1) <= hi <= 1).
    { apply Qabs_Qle_condition. lra. }
    assert (E1 : - (2 * u) <= sub binary64 x t - (x - t) <= 2 * u).
    { unfold sub. apply float_error; [lra|split; lra]. }
    set (r := sub binary64 x t) in *.
    assert (E2 : - (1 * u) <= add binary64 r hi - (r + hi) <= 1 * u).
    { unfold add. apply float_error; [lra|]. split; nra. }
    set (dd := add binary64 r hi) in *.
    assert (E3 : - (1 * u) <= add binary64 c dd - (c + dd) <= 1 * u).
    { unfold add. apply float_error; [lra|]. unfold K in *. split; nra. }
    set (c' := add binary64 c dd) in *.
    unfold K in *. clear Hlt Hx1. clearbody t r dd c' u M. repeat split; nra.
Qed.

Lemma compensate_fold l : forall hi c m,
  (0 <= m)%Z -> (m + len l <= 16777216)%Z ->
  - inject_Z m <= hi <= inject_Z m ->
  - (inject_Z m * K) <= c <= inject_Z m * K ->
  Forall (fun x => - (1) <= x <= 1) l ->
  let out := fold_left compensate l (hi, c) in
  - inject_Z (m + len l) <= fst out <= inject_Z (m + len l)
  /\ - (inject_Z (m + len l) * K) <= snd out <= inject_Z (m + len l) * K
  /\ - (inject_Z (len l) * (4 * u)) <= fst out + snd out - (hi + c + total l)
     <= inject_Z (len l) * (4 * u).
Proof.
  induction l as [|x l IH]; intros hi c m Hm Hn Hhi Hc Hl out.
  - unfold out. cbn [fold_left fst snd total]. change (len (@nil Q)) with 0%Z.
    rewrite Z.add_0_r. change (inject_Z 0) with 0.
    split; [exact Hhi|]. split; [exact Hc|]. split; lra.
  - inversion Hl as [|? ? Hx Hl']; subst.
    assert (E : len (x :: l) = (1 + len l)%Z)
      by (unfold len; cbn [List.length]; lia).
    assert (Ln : (0 <= len l)%Z) by (unfold len; lia).
    rewrite E in *.
    destruct (@compensate_step hi c x m) as (S1 & S2 & S3);
      [lia|lia|exact Hhi|exact Hc|exact Hx|].
    unfold out. cbn [fold_left].
    destruct (compensate (hi, c) x) as [hi1 c1]. cbn [fst snd] in *.
    destruct (IH hi1 c1 (m + 1)%Z) as (I1 & I2 & I3);
      [lia|lia|exact S1|exact S2|exact Hl'|].
    cbv zeta in I1, I2, I3.
    replace (m + 1 + len l)%Z with (m + (1 + len l))%Z in I1, I2 by lia.
    split; [exact I1|]. split; [exact I2|].
    cbn [total]. rewrite (inject_Z_plus 1 (len l)).
    change (inject_Z 1) with 1.
    set (F := fold_left compensate l (hi1, c1)) in *.
    set (L := inject_Z (len l)) in *.
    assert (Up : 0 < u) by apply pow2_pos.
    clearbody F L u. split; lra.
Qed.

(** The compensated sum of scores within [-1, 1]. *)
Lemma compensated_sum_bound l :
  Forall (fun x => - (1) <= x <= 1) l ->
  (len l <= 16777216)%Z ->
  - ((5 * inject_Z (len l) + 1) * u) <= compensated_sum l - total l
  <= (5 * inject_Z (len l) + 1) * u.
Proof.
  intros Hl Hn.
  assert (Up : 0 < u) by apply pow2_pos.
  assert (U53 : u * 9007199254740992 == 1) by reflexivity.
  assert (Ln : (0 <= len l)%Z) by (unfold len; lia).
  destruct (@compensate_fold l 0 0 0%Z) as (I1 & I2 & I3);
    [lia|lia|split; discriminate|split; discriminate|exact Hl|].
  cbv zeta in I1, I2, I3. rewrite Z.add_0_l in I1, I2.
  unfold compensated_sum.
  destruct (fold_left compensate l (0, 0)) as [hi c]. cbn [fst snd] in *.
  assert (Lq : 0 <= inject_Z (len l) <= 16777216).
  { change 0 with (inject_Z 0). change 16777216 with (inject_Z 16777216).
    rewrite <- !Zle_Qle. lia. }
  set (L := inject_Z (len l)) in *.
  destruct (Qeq_bool c 0) eqn:C.
  - apply Qeq_bool_iff in C. rewrite C in I3. clearbody L u. split; lra.
  - assert (E : - ((L + 1) * u) <= add binary64 hi c - (hi + c)
                <= (L + 1) * u).
    { unfold add. apply float_error; [lra|]. unfold K in *. split; nra. }
    set (s := add binary64 hi c) in *. clearbody s L u. split; lra.
Qed.

Lemma total_in_range l :
  Forall (fun x => - (1) <= x <= 1) l ->
  - inject_Z (len l) <= total l <= inject_Z (len l).
Proof.
  intros Hl. induction Hl as [|x l Hx Hl IH].
  - simpl. split; discriminate.
  - assert (E : len (x :: l) = (1 + len l)%Z)
      by (unfold len; cbn [List.length]; lia).
    rewrite E, inject_Z_plus. change (inject_Z 1) with 1.
    cbn [total]. split; lra.
Qed.

(** The quotient of the compensated sum by the number of terms. *)
Lemma compensated_mean_bound l :
  l <> [] ->
  Forall (fun x => - (1) <= x <= 1) l ->
  (len l <= 16777216)%Z ->
  let avg := float_div (compensated_sum l) (len l) in
  - (1) - pow2 (- 50) <= avg <= 1 + pow2 (- 50)
  /\ Qabs (avg - total l / inject_Z (len l)) <= pow2 (- 50).
Proof.
  intros Hne Hl Hn avg.
  assert (Up : 0 < u) by apply pow2_pos.
  assert (U53 : u * 9007199254740992 == 1) by reflexivity.
  assert (U50 : pow2 (- 50) == 8 * u) by reflexivity.
  assert (Ln : (0 < len l)%Z).
  { unfold len. destruct l; [congruence|]. cbn [List.length]. lia. }
  assert (Lq : 1 <= inject_Z (len l) <= 16777216).
  { change 1 with (inject_Z 1). change 16777216 with (inject_Z 16777216).
    rewrite <- !Zle_Qle. lia. }
  pose proof (@compensated_sum_bound l Hl Hn) as B.
  pose proof (@total_in_range l Hl) as T.
  assert (E : avg == round binary64 (compensated_sum l / inject_Z (len l))).
  { unfold avg, float_div, div, of_int. apply round_comp.
    rewrite (@round_int binary64); [reflexivity|cbn; lia|cbn; lia|].
    change (2 ^ precision binary64)%Z with 9007199254740992%Z. lia. }
  set (n := inject_Z (len l)) in *. set (S := compensated_sum l) in *.
  assert (Q1 : S / n * n == S) by (field; lra).
  assert (Q2 : total l / n * n == total l) by (field; lra).
  set (q := S / n) in *. set (t := total l / n) in *.
  assert (R0 : - (1) <= t <= 1) by (split; nra).
  assert (R1 : - (6 * u) <= q - t <= 6 * u) by (split; nra).
  assert (R3 : - (2 * u) <= round binary64 q - q <= 2 * u).
  { apply float_error; [lra|]. split; lra. }
  rewrite E. set (r := round binary64 q) in *.
  rewrite U50. split; [split; lra|].
  apply Qabs_Qle_condition. split; lra.
Qed.

Lemma compensate_zeros n :
  fold_left compensate (repeat 0 n) (0, 0) = (0, 0).
Proof.
  induction n as [|n IH]; [reflexivity|]. cbn [repeat fold_left]. exact IH.
Qed.

Lemma compensated_sum_zeros n : compensated_sum (repeat 0 n) = 0.
Proof. unfold compensated_sum. now rewrite compensate_zeros. Qed.

End CompensatedSum.

(** ** Counting and summing *)

Section Counting.

Lemma sum_ones_from (p : Q -> bool) (l : list Q) (n : Z) :
  fold_left (fun n s => if p s then (n + 1)%Z else n) l n
  = (n + sum_ones p l)%Z.
Proof.
  unfold sum_ones. revert n.
  induction l as [|s l IH]; intros n; simpl.
  - lia.
  - rewrite IH. rewrite (IH (if p s then 1%Z else 0%Z)).
    destruct (p s); lia.
Qed.

Lemma sum_ones_cons p s l :
  sum_ones p (s :: l) = ((if p s then 1 else 0) + sum_ones p l)%Z.
Proof.
  unfold sum_ones at 1. simpl. rewrite sum_ones_from.
  destruct (p s); lia.
Qed.

Lemma sum_ones_nil p : sum_ones p [] = 0%Z.
Proof. reflexivity. Qed.

Lemma sum_ones_nonneg p l : (0 <= sum_ones p l)%Z.
Proof.
  induction l as [|s l IH].
  - rewrite sum_ones_nil. lia.
  - rewrite sum_ones_cons. destruct (p s); lia.
Qed.

Lemma len_cons {A} (a : A) l : len (a :: l) = (1 + len l)%Z.
Proof. unfold len. cbn [List.length]. lia. Qed.

Lemma len_nonneg {A} (l : list A) : (0 <= len l)%Z.
Proof. unfold len. lia. Qed.

Lemma not_le_iff s t : negb (Qle_bool s t) = true <-> t < s.
Proof.
  rewrite negb_true_iff. destruct (Qle_bool s t) eqn:E.
  - apply Qle_bool_iff in E. split; [discriminate | intros H; lra].
  - split; [intros _ | reflexivity].
    apply Qnot_le_lt. intros H. apply Qle_bool_iff in H. congruence.
Qed.

Lemma POINT_ONE_pos : 0 < POINT_ONE.
Proof. reflexivity. Qed.

Lemma TENSOR_POINT_ONE_pos : 0 < TENSOR_POINT_ONE.
Proof. reflexivity. Qed.

Lemma above_iff s : above s = true <-> POINT_ONE < s.
Proof. apply not_le_iff. Qed.

Lemma below_iff s : below s = true <-> s < - POINT_ONE.
Proof. apply not_le_iff. Qed.

Lemma tensor_above_iff s : tensor_above s = true <-> TENSOR_POINT_ONE < s.
Proof. apply not_le_iff. Qed.

Lemma tensor_below_iff s : tensor_below s = true <-> s < - TENSOR_POINT_ONE.
Proof. apply not_le_iff. Qed.

(** No score is both above 0.1 and below -0.1. *)
Lemma above_below_exclusive s : above s = true -> below s = false.
Proof.
  intros Ha. destruct (below s) eqn:Hb; [|reflexivity].
  apply above_iff in Ha. apply below_iff in Hb.
  pose proof POINT_ONE_pos. lra.
Qed.

Lemma tensor_above_below_exclusive s :
  tensor_above s = true -> tensor_below s = false.
Proof.
  intros Ha. destruct (tensor_below s) eqn:Hb; [|reflexivity].
  apply tensor_above_iff in Ha. apply tensor_below_iff in Hb.
  pose proof TENSOR_POINT_ONE_pos. lra.
Qed.

(** Two tests of which at most one holds count at most every score. *)
Lemma exclusive_le_len (p q : Q -> bool) l :
  (forall s, p s = true -> q s = false) ->
  (sum_ones p l + sum_ones q l <= len l)%Z.
Proof.
  intros X. induction l as [|s l IH].
  - rewrite !sum_ones_nil. unfold len. simpl. lia.
  - rewrite !sum_ones_cons, len_cons.
    destruct (p s) eqn:Ha.
    + rewrite (X _ Ha). lia.
    + destruct (q s); lia.
Qed.

Lemma above_below_le_len l :
  (sum_ones above l + sum_ones below l <= len l)%Z.
Proof. apply exclusive_le_len, above_below_exclusive. Qed.

Lemma tensor_above_below_le_len l :
  (sum_ones tensor_above l + sum_ones tensor_below l <= len l)%Z.
Proof. apply exclusive_le_len, tensor_above_below_exclusive. Qed.

End Counting.

(** ** Strings *)

Section Strings.

Lemma str_eqb_nil s : str_eqb s [] = negb (truthy s).
Proof. destruct s; reflexivity. Qed.

Lemma str_eqb_true a b : str_eqb a b = true <-> a = b.
Proof.
  unfold str_eqb. destruct (list_eq_dec N.eq_dec a b); split; congruence.
Qed.

Lemma truthy_false s : truthy s = false <-> s = [].
Proof. destruct s; split; simpl; congruence. Qed.

Lemma isspace_SPACE : isspace SPACE = true.
Proof. reflexivity. Qed.

Lemma lstrip_starts_clean s : starts_clean (lstrip s) = true.
Proof.
  induction s as [|c s IH]; simpl; [reflexivity|].
  destruct (isspace c) eqn:E; [exact IH|]. simpl. now rewrite E.
Qed.

Lemma lstrip_clean s : starts_clean s = true -> lstrip s = s.
Proof.
  destruct s as [|c s]; simpl; [reflexivity|].
  intros H. apply negb_true_iff in H. now rewrite H.
Qed.

Lemma rstrip_cons_clean c s :
  isspace c = false -> rstrip (c :: s) = c :: rstrip s.
Proof. intros H. simpl. rewrite H. now destruct (rstrip s). Qed.

Lemma rstrip_starts_clean s :
  starts_clean s = true -> starts_clean (rstrip s) = true.
Proof.
  destruct s as [|c s]; [reflexivity|].
  intros H. simpl in H. apply negb_true_iff in H.
  rewrite rstrip_cons_clean by assumption. simpl. now rewrite H.
Qed.

Lemma rstrip_idem s : rstrip (rstrip s) = rstrip s.
Proof.
  induction s as [|c s IH]; [reflexivity|].
  simpl. destruct (rstrip s) as [|d r] eqn:E.
  - destruct (isspace c) eqn:Ec; [reflexivity|].
    simpl. now rewrite Ec.
  - change (rstrip (c :: d :: r) = c :: d :: r).
    simpl. simpl in IH.
    destruct (rstrip r) as [|d' r'] eqn:Er.
    + destruct (isspace d) eqn:Ed; [discriminate|].
      inversion IH; subst. reflexivity.
    + now inversion IH.
Qed.

Lemma strip_idem s : strip (strip s) = strip s.
Proof.
  unfold strip.
  rewrite (lstrip_clean (rstrip (lstrip s))).
  - apply rstrip_idem.
  - apply rstrip_starts_clean, lstrip_starts_clean.
Qed.

Lemma strip_starts_clean s : starts_clean (strip s) = true.
Proof. apply rstrip_starts_clean, lstrip_starts_clean. Qed.

Lemma blank_lstrip s : blank (lstrip s) = blank s.
Proof.
  induction s as [|c s IH]; [reflexivity|].
  simpl. destruct (isspace c) eqn:E; [exact IH|].
  simpl. now rewrite E.
Qed.

Lemma rstrip_nil_iff s : rstrip s = [] <-> blank s = true.
Proof.
  induction s as [|c s IH]; simpl; [tauto|].
  destruct (rstrip s) as [|d r].
  - destruct (isspace c); simpl.
    + rewrite <- IH. tauto.
    + split; discriminate.
  - split; [discriminate|].
    rewrite andb_true_iff. intros [_ H]. apply IH in H. discriminate.
Qed.

Lemma strip_nil_iff s : strip s = [] <-> blank s = true.
Proof. unfold strip. now rewrite rstrip_nil_iff, blank_lstrip. Qed.

Lemma blank_sub_spaces s : blank (sub_spaces s) = blank s.
Proof.
  induction s as [|c s IH]; [reflexivity|].
  cbn [sub_spaces]. destruct (isspace c) eqn:E.
  - destruct s as [|d s]; [simpl; now rewrite E|].
    destruct (isspace d) eqn:Ed.
    + rewrite IH. simpl. now rewrite E, Ed.
    + change (blank (SPACE :: sub_spaces (d :: s)) = blank (c :: d :: s)).
      simpl blank at 2. rewrite E, Ed. simpl.
      cbn [sub_spaces] in *. rewrite Ed in *. simpl. now rewrite Ed.
  - simpl. now rewrite E.
Qed.

Lemma sub_spaces_collapsed s : collapsed (sub_spaces s) = true.
Proof.
  induction s as [|c s IH]; [reflexivity|].
  cbn [sub_spaces]. destruct (isspace c) eqn:E.
  - destruct s as [|d s]; [reflexivity|].
    destruct (isspace d) eqn:Ed; [exact IH|].
    cbn [collapsed]. rewrite isspace_SPACE, IH, N.eqb_refl.
    cbn [sub_spaces]. rewrite Ed. simpl. now rewrite Ed.
  - cbn [collapsed]. now rewrite E, IH.
Qed.

Lemma sub_spaces_fixed s : collapsed s = true -> sub_spaces s = s.
Proof.
  induction s as [|c s IH]; [reflexivity|].
  cbn [collapsed sub_spaces]. rewrite andb_true_iff. intros [Hc Hs].
  rewrite (IH Hs). destruct (isspace c) eqn:E; [|reflexivity].
  apply andb_true_iff in Hc. destruct Hc as [Hc Hn].
  apply N.eqb_eq in Hc. subst c.
  destruct s as [|d s]; [reflexivity|].
  simpl in Hn. apply negb_true_iff in Hn. now rewrite Hn.
Qed.

Lemma lstrip_collapsed s : collapsed s = true -> collapsed (lstrip s) = true.
Proof.
  induction s as [|c s IH]; [reflexivity|].
  intros H. simpl. destruct (isspace c) eqn:E; [|exact H].
  apply IH. cbn [collapsed] in H. now apply andb_true_iff in H.
Qed.

Lemma rstrip_collapsed s : collapsed s = true -> collapsed (rstrip s) = true.
Proof.
  induction s as [|c s IH]; [reflexivity|].
  cbn [collapsed]. rewrite andb_true_iff. intros [Hc Hs].
  specialize (IH Hs). simpl.
  destruct (rstrip s) as [|d r] eqn:Er.
  - destruct (isspace c) eqn:E; [reflexivity|].
    cbn [collapsed]. now rewrite E.
  - cbn [collapsed] in *. rewrite IH, andb_true_r.
    destruct (isspace c) eqn:E; [|reflexivity].
    apply andb_true_iff in Hc. destruct Hc as [Hc Hn]. rewrite Hc.
    apply rstrip_starts_clean in Hn. now rewrite Er in Hn.
Qed.

Lemma strip_collapsed s : collapsed s = true -> collapsed (strip s) = true.
Proof. intros H. now apply rstrip_collapsed, lstrip_collapsed. Qed.

End Strings.

(** ** The normaliser and the splitter of sentiment_analyzer.py *)

Section BaseText.
Import SentimentAnalyzer.

Lemma clean_text_unfold text :
  clean_text text = strip (sub_spaces text).
Proof.
  unfold clean_text. destruct text; reflexivity.
Qed.

Lemma clean_text_nil_iff text : clean_text text = [] <-> blank text = true.
Proof.
  now rewrite clean_text_unfold, strip_nil_iff, blank_sub_spaces.
Qed.

Lemma clean_text_collapsed text : collapsed (clean_text text) = true.
Proof.
  rewrite clean_text_unfold. apply strip_collapsed, sub_spaces_collapsed.
Qed.

Lemma clean_text_stripped text : strip (clean_text text) = clean_text text.
Proof. rewrite clean_text_unfold. apply strip_idem. Qed.

(** X1: [clean_text] of sentiment_analyzer.py is idempotent: normalising
    a normalised string changes nothing. *)
Lemma clean_text_idempotent text :
  clean_text (clean_text text) = clean_text text.
Proof.
  rewrite (clean_text_unfold (clean_text text)).
  rewrite sub_spaces_fixed by apply clean_text_collapsed.
  apply clean_text_stripped.
Qed.

(** Every title that the splitter keeps passes the guard of the scorer. *)
Lemma split_titles_guard pieces title :
  In title (split_titles pieces) ->
  negb (truthy title) || str_eqb (strip title) [] = false.
Proof.
  unfold split_titles. rewrite filter_In, in_map_iff.
  intros [[piece [<- _]] Ht].
  rewrite clean_text_stripped, str_eqb_nil, Ht. reflexivity.
Qed.

Lemma split_titles_nil_iff pieces :
  split_titles pieces = [] <-> Forall (fun p => clean_text p = []) pieces.
Proof.
  unfold split_titles. induction pieces as [|p ps IH]; simpl.
  - split; auto.
  - destruct (truthy (clean_text p)) eqn:E.
    + split; [discriminate|]. intros H. inversion H as [|? ? Hp _]; subst.
      rewrite Hp in E. discriminate.
    + rewrite IH. apply truthy_false in E. split.
      * now constructor.
      * intros H. now inversion H.
Qed.

End BaseText.

(** ** The scorer and the aggregator of sentiment_analyzer.py *)

Section BaseScorer.
Import SentimentAnalyzer.
Context {scorer : ExternalScorer}.
Context {python : Interpreter}.

Lemma get_sentiment_score_blank text w :
  negb (truthy text) || str_eqb (strip text) [] = true ->
  get_sentiment_score text w = (Ok zero_reading, w).
Proof. intros H. unfold get_sentiment_score. now rewrite H. Qed.

Lemma get_sentiment_score_raise text w e s' :
  negb (truthy text) || str_eqb (strip text) [] = false ->
  classify (state w) text = (Raise e, s') ->
  get_sentiment_score text w
  = (Ok zero_reading, World s' (calls w ++ [text])).
Proof.
  intros Hg Hc. unfold get_sentiment_score. rewrite Hg.
  unfold try_except, bind, invoke. now rewrite Hc.
Qed.

Lemma get_sentiment_score_probs text w neu neg pos rest s' :
  negb (truthy text) || str_eqb (strip text) [] = false ->
  classify (state w) text = (Ok (neu :: neg :: pos :: rest), s') ->
  get_sentiment_score text w
  = (Ok (ScoreData (float_sub pos neg) pos neg neu),
     World s' (calls w ++ [text])).
Proof.
  intros Hg Hc. unfold get_sentiment_score. rewrite Hg.
  unfold try_except, bind, invoke. now rewrite Hc.
Qed.

(** The scorer never lets an exception through. *)
Lemma get_sentiment_score_total text w :
  exists sd w', get_sentiment_score text w = (Ok sd, w').
Proof.
  unfold get_sentiment_score.
  destruct (negb (truthy text) || str_eqb (strip text) []).
  - now exists zero_reading, w.
  - unfold try_except, bind, invoke.
    destruct (classify (state w) text) as [[prob|e] s'].
    + destruct prob as [|neu [|neg [|pos rest]]]; run; eauto.
    + run. eauto.
Qed.

Lemma score_titles_cons title rest acc w sd w1 :
  get_sentiment_score title w = (Ok sd, w1) ->
  score_titles (title :: rest) acc w
  = score_titles rest (acc ++ [sentiment_score sd]) w1.
Proof. intros H. cbn [score_titles]. now erewrite bind_ok by exact H. Qed.

(** The loop scores every title and raises nothing. *)
Lemma score_titles_total titles acc w :
  exists scores w',
    score_titles titles acc w = (Ok (acc ++ scores), w')
    /\ List.length scores = List.length titles.
Proof.
  revert acc w. induction titles as [|title rest IH]; intros acc w.
  - exists [], w. rewrite app_nil_r. now split.
  - destruct (get_sentiment_score_total title w) as (sd & w1 & H1).
    erewrite score_titles_cons by exact H1.
    destruct (IH (acc ++ [sentiment_score sd]) w1) as (scores & w' & H & Hl).
    exists (sentiment_score sd :: scores), w'.
    rewrite H, <- app_assoc. simpl. now rewrite Hl.
Qed.

Lemma analyze_news_titles_nan w :
  analyze_news_titles NaN w = (Ok zero_analysis, w).
Proof. reflexivity. Qed.

Lemma analyze_news_titles_no_title s w :
  split_titles (split PIPE s) = [] ->
  analyze_news_titles (Str s) w = (Ok zero_analysis, w).
Proof.
  intros H. unfold analyze_news_titles.
  destruct s as [|c s]; [reflexivity|].
  cbn [isna eq_empty orb split_pipe]. unfold bind, ret. now rewrite H.
Qed.

(** What the aggregator returns once at least one title is left. *)
Lemma analyze_news_titles_scored s w :
  let titles := split_titles (split PIPE s) in
  titles <> [] ->
  exists scores w',
    score_titles titles [] w = (Ok scores, w')
    /\ List.length scores = List.length titles
    /\ analyze_news_titles (Str s) w
       = (Ok (Analysis
                (BundleResult
                   (float_div (py_sum scores) (len scores))
                   (sum_ones above scores) (sum_ones below scores)
                   (len scores - sum_ones above scores
                    - sum_ones below scores)%Z
                   (len titles))
                scores), w').
Proof.
  intros titles Hne.
  destruct (score_titles_total titles [] w) as (scores & w' & H & Hl).
  simpl in H. exists scores, w'. repeat split; try assumption.
  unfold analyze_news_titles.
  destruct s as [|c s]; [now contradiction Hne|].
  cbn [isna eq_empty orb split_pipe]. unfold bind at 1, ret at 1.
  fold titles. destruct titles as [|t ts] eqn:Et; [congruence|].
  cbn [truthy_list negb]. now erewrite bind_ok by exact H.
Qed.

Lemma analyze_news_titles_number v w :
  (exists z, v = Int z) \/ (exists q, v = Float q) ->
  analyze_news_titles v w = (Raise AttributeError, w).
Proof. intros [[z ->]|[q ->]]; reflexivity. Qed.

(** Every analysis is either the zero one or carries the statistics
    of its own list of scores, one score per title. *)
Lemma analyze_news_titles_fields v w a w' :
  analyze_news_titles v w = (Ok a, w') ->
  a = zero_analysis
  \/ (individual_scores a <> []
      /\ fields a
         = BundleResult
             (float_div (py_sum (individual_scores a))
                (len (individual_scores a)))
             (sum_ones above (individual_scores a))
             (sum_ones below (individual_scores a))
             (len (individual_scores a)
              - sum_ones above (individual_scores a)
              - sum_ones below (individual_scores a))%Z
             (len (individual_scores a))).
Proof.
  destruct v as [|s|z|q]; intros H.
  - left. rewrite analyze_news_titles_nan in H. congruence.
  - destruct (split_titles (split PIPE s)) as [|t ts] eqn:Et.
    + left. rewrite (analyze_news_titles_no_title _ _ Et) in H. congruence.
    + right.
      destruct (analyze_news_titles_scored s w) as (scores & w1 & _ & Hl & Ha).
      { rewrite Et. discriminate. }
      rewrite Ha in H. inversion H; subst a w'. simpl.
      rewrite Et in *. split.
      * destruct scores; [discriminate|discriminate].
      * unfold len. now rewrite Hl.
  - rewrite analyze_news_titles_number in H by eauto. discriminate.
  - rewrite analyze_news_titles_number in H by eauto. discriminate.
Qed.

End BaseScorer.

(** ** The splitter shared by the other two analysers *)

Section StripSplitter.

Lemma isspace_PIPE : isspace PIPE = false.
Proof. reflexivity. Qed.

(** A bundle of whitespace has no separator in it. *)
Lemma split_blank s : blank s = true -> split PIPE s = [s].
Proof.
  induction s as [|c s IH]; [reflexivity|].
  simpl. rewrite andb_true_iff. intros [Hc Hs].
  destruct (N.eqb_spec c PIPE) as [->|_].
  - rewrite isspace_PIPE in Hc. discriminate.
  - now rewrite (IH Hs).
Qed.

Lemma strip_split_titles_nil_iff pieces :
  CorrectSentimentAnalyzer.split_titles pieces = []
  <-> Forall (fun p => blank p = true) pieces.
Proof.
  unfold CorrectSentimentAnalyzer.split_titles.
  induction pieces as [|p ps IH]; simpl.
  - split; auto.
  - destruct (truthy (strip p)) eqn:E; simpl.
    + split; [discriminate|]. intros H. inversion H as [|? ? Hp _]; subst.
      apply strip_nil_iff in Hp. rewrite Hp in E. discriminate.
    + rewrite IH. apply truthy_false, strip_nil_iff in E. split.
      * now constructor.
      * intros H. now inversion H.
Qed.

Lemma strip_split_titles_blank s :
  blank s = true -> CorrectSentimentAnalyzer.split_titles (split PIPE s) = [].
Proof.
  intros H. rewrite (split_blank _ H). apply strip_split_titles_nil_iff.
  now constructor.
Qed.

Lemma strip_split_titles_guard pieces title :
  In title (CorrectSentimentAnalyzer.split_titles pieces) ->
  negb (truthy title) || str_eqb (strip title) [] = false.
Proof.
  unfold CorrectSentimentAnalyzer.split_titles.
  rewrite in_map_iff. intros [piece [<- Hp]].
  apply filter_In in Hp. destruct Hp as [_ Ht].
  rewrite strip_idem, str_eqb_nil, Ht. reflexivity.
Qed.

End StripSplitter.

(** ** The scorer and the aggregator of sentiment_analyzer_correct.py *)

Section CorrectScorer.
Import CorrectSentimentAnalyzer.
Context {scorer : ExternalScorer}.
Context {python : Interpreter}.

Lemma correct_score_total text w :
  exists score w', get_sentiment_score text w = (Ok score, w').
Proof.
  unfold get_sentiment_score.
  destruct (negb (truthy text) || str_eqb (strip text) []).
  - now exists 0, w.
  - unfold try_except, bind, invoke.
    destruct (classify (state w) text) as [[prob|e] s'].
    + destruct prob as [|neu [|neg [|pos rest]]]; run; eauto.
    + run. eauto.
Qed.

Lemma correct_score_titles_total titles acc w :
  exists scores w',
    score_titles titles acc w = (Ok (acc ++ scores), w')
    /\ List.length scores = List.length titles.
Proof.
  revert acc w. induction titles as [|title rest IH]; intros acc w.
  - exists [], w. rewrite app_nil_r. now split.
  - destruct (correct_score_total title w) as (score & w1 & H1).
    cbn [score_titles]. erewrite bind_ok by exact H1.
    destruct (IH (acc ++ [score]) w1) as (scores & w' & H & Hl).
    exists (score :: scores), w'.
    rewrite H, <- app_assoc. simpl. now rewrite Hl.
Qed.

Lemma correct_analyze_nan w :
  analyze_news_titles NaN w = (Ok zero_result, w).
Proof. reflexivity. Qed.

Lemma correct_analyze_no_title s w :
  split_titles (split PIPE s) = [] ->
  analyze_news_titles (Str s) w = (Ok zero_result, w).
Proof.
  intros H. unfold analyze_news_titles.
  cbn [isna strip_value split_pipe]. unfold bind, ret.
  destruct (str_eqb (strip s) []); [reflexivity|]. now rewrite H.
Qed.

Lemma correct_analyze_scored s w :
  let titles := split_titles (split PIPE s) in
  titles <> [] ->
  exists scores w',
    score_titles titles [] w = (Ok scores, w')
    /\ List.length scores = List.length titles
    /\ analyze_news_titles (Str s) w
       = (Ok (BundleResult
                (tensor_div (tensor_sum scores) (len scores))
                (sum_ones tensor_above scores)
                (sum_ones tensor_below scores)
                (len scores - sum_ones tensor_above scores
                 - sum_ones tensor_below scores)%Z
                (len titles)), w').
Proof.
  intros titles Hne.
  destruct (correct_score_titles_total titles [] w) as (scores & w' & H & Hl).
  simpl in H. exists scores, w'. repeat split; try assumption.
  unfold analyze_news_titles.
  cbn [isna strip_value split_pipe]. unfold bind at 1, ret at 1.
  destruct (str_eqb (strip s) []) eqn:Es.
  - exfalso. apply Hne. apply strip_split_titles_blank.
    apply strip_nil_iff. now apply str_eqb_true.
  - unfold bind at 1, ret at 1. fold titles.
    destruct titles as [|t ts] eqn:Et; [congruence|].
    cbn [truthy_list negb]. erewrite bind_ok by exact H.
    destruct scores; [discriminate|reflexivity].
Qed.

Lemma correct_analyze_number v w :
  (exists z, v = Int z) \/ (exists q, v = Float q) ->
  analyze_news_titles v w = (Raise AttributeError, w).
Proof. intros [[z ->]|[q ->]]; reflexivity. Qed.

End CorrectScorer.

(** ** The scorer and the aggregator of sentiment_analyzer_fixed.py *)

Section FixedScorer.
Import FixedSentimentAnalyzer.
Context {scorer : ExternalScorer}.
Context {python : Interpreter}.

Lemma fixed_split_titles pieces :
  split_titles pieces = CorrectSentimentAnalyzer.split_titles pieces.
Proof. reflexivity. Qed.

Lemma analyze_sentiment_total text w :
  exists score w', analyze_sentiment text w = (Ok score, w').
Proof.
  unfold analyze_sentiment.
  destruct (negb (truthy text) || str_eqb (strip text) []).
  - now exists 0, w.
  - unfold try_except, bind, invoke.
    destruct (classify (state w) text) as [[prob|e] s'].
    + destruct prob as [|s0 [|s1 [|s2 [|s3 [|s4 rest]]]]]; run; eauto.
    + run. eauto.
Qed.

(** One turn of the loop: the score is appended and exactly one of the
    three counters moves. *)
Lemma count_score_spec t score :
  sentiment_scores (count_score t score) = sentiment_scores t ++ [score]
  /\ positive_count (count_score t score)
     = (positive_count t + (if above score then 1 else 0))%Z
  /\ negative_count (count_score t score)
     = (negative_count t + (if below score then 1 else 0))%Z
  /\ neutral_count (count_score t score)
     = (neutral_count t
        + (if above score then 0 else if below score then 0 else 1))%Z.
Proof.
  unfold count_score. destruct (above score) eqn:Ha.
  - rewrite (above_below_exclusive _ Ha). simpl. repeat split; lia.
  - destruct (below score); simpl; repeat split; lia.
Qed.

Lemma fixed_score_titles_total titles t w :
  exists scores t' w',
    score_titles titles t w = (Ok t', w')
    /\ List.length scores = List.length titles
    /\ sentiment_scores t' = sentiment_scores t ++ scores
    /\ positive_count t' = (positive_count t + sum_ones above scores)%Z
    /\ negative_count t' = (negative_count t + sum_ones below scores)%Z
    /\ neutral_count t'
       = (neutral_count t + (len scores - sum_ones above scores
                             - sum_ones below scores))%Z.
Proof.
  revert t w. induction titles as [|title rest IH]; intros t w.
  - exists [], t, w. rewrite app_nil_r, !sum_ones_nil.
    unfold len. simpl. repeat split; lia.
  - destruct (analyze_sentiment_total title w) as (score & w1 & H1).
    cbn [score_titles]. erewrite bind_ok by exact H1.
    destruct (IH (count_score t score) w1)
      as (scores & t' & w' & H & Hl & Hs & Hp & Hn & Hu).
    destruct (count_score_spec t score) as (Cs & Cp & Cn & Cu).
    exists (score :: scores), t', w'.
    rewrite H, Hs, Hp, Hn, Hu, Cs, Cp, Cn, Cu, <- app_assoc.
    rewrite !sum_ones_cons, len_cons. simpl List.length. rewrite Hl.
    destruct (above score) eqn:Ha;
      [rewrite (above_below_exclusive _ Ha) in *|destruct (below score)];
      repeat split; try reflexivity; lia.
Qed.

Lemma fixed_analyze_nan w :
  analyze_news_titles NaN w = (Ok zero_result, w).
Proof. reflexivity. Qed.

Lemma fixed_analyze_no_title s w :
  split_titles (split PIPE s) = [] ->
  analyze_news_titles (Str s) w = (Ok zero_result, w).
Proof.
  intros H. unfold analyze_news_titles.
  cbn [isna strip_value split_pipe]. unfold bind, ret.
  destruct (str_eqb (strip s) []); [reflexivity|]. now rewrite H.
Qed.

Lemma fixed_analyze_scored s w :
  let titles := split_titles (split PIPE s) in
  titles <> [] ->
  exists scores w',
    List.length scores = List.length titles
    /\ analyze_news_titles (Str s) w
       = (Ok (BundleResult
                (float_div (py_sum scores) (len scores))
                (sum_ones above scores) (sum_ones below scores)
                (len scores - sum_ones above scores
                 - sum_ones below scores)%Z
                (len titles)), w').
Proof.
  intros titles Hne.
  destruct (fixed_score_titles_total titles (Tally [] 0 0 0) w)
    as (scores & t' & w' & H & Hl & Hs & Hp & Hn & Hu).
  simpl in Hs, Hp, Hn, Hu. exists scores, w'. split; [assumption|].
  unfold analyze_news_titles.
  cbn [isna strip_value split_pipe]. unfold bind at 1, ret at 1.
  destruct (str_eqb (strip s) []) eqn:Es.
  - exfalso. apply Hne. unfold titles. rewrite fixed_split_titles.
    apply strip_split_titles_blank.
    apply strip_nil_iff. now apply str_eqb_true.
  - unfold bind at 1, ret at 1. fold titles.
    destruct titles as [|t ts] eqn:Et; [congruence|].
    cbn [truthy_list negb]. erewrite bind_ok by exact H.
    rewrite Hs, Hp, Hn, Hu.
    destruct scores; [discriminate|reflexivity].
Qed.

Lemma fixed_analyze_number v w :
  (exists z, v = Int z) \/ (exists q, v = Float q) ->
  analyze_news_titles v w = (Raise AttributeError, w).
Proof. intros [[z ->]|[q ->]]; reflexivity. Qed.

End FixedScorer.

(** ** The counts of a result *)

Section Counts.
Context {scorer : ExternalScorer}.
Context {python : Interpreter}.

Lemma zero_result_consistent : counts_consistent zero_result.
Proof. unfold counts_consistent. simpl. lia. Qed.

Lemma statistics_consistent avg (scores : list Q) n :
  n = len scores ->
  counts_consistent
    (BundleResult avg (sum_ones above scores) (sum_ones below scores)
       (len scores - sum_ones above scores - sum_ones below scores) n).
Proof.
  intros ->. unfold counts_consistent. simpl.
  pose proof (sum_ones_nonneg above scores).
  pose proof (sum_ones_nonneg below scores).
  pose proof (above_below_le_len scores). lia.
Qed.

(** C3: every result of [analyze_news_titles], in sentiment_analyzer.py
    and in sentiment_analyzer_fixed.py alike, has non-negative counts
    with [positive_count + negative_count + neutral_count =
    total_titles]; the zero result of an empty bundle included. *)
Theorem counts_sum_to_total v1 w1 a w1' v2 w2 b w2' :
  SentimentAnalyzer.analyze_news_titles v1 w1 = (Ok a, w1') ->
  FixedSentimentAnalyzer.analyze_news_titles v2 w2 = (Ok b, w2') ->
  counts_consistent (SentimentAnalyzer.fields a) /\ counts_consistent b.
Proof.
  intros Ha Hb. split.
  - destruct (analyze_news_titles_fields _ _ Ha) as [->|[_ ->]].
    + apply zero_result_consistent.
    + now apply statistics_consistent.
  - destruct v2 as [|s|z|q].
    + rewrite fixed_analyze_nan in Hb. inversion Hb.
      apply zero_result_consistent.
    + destruct (FixedSentimentAnalyzer.split_titles (split PIPE s))
        as [|t ts] eqn:Et.
      * rewrite (fixed_analyze_no_title _ _ Et) in Hb. inversion Hb.
        apply zero_result_consistent.
      * destruct (fixed_analyze_scored s w2) as (scores & w' & Hl & H).
        { rewrite Et. discriminate. }
        rewrite H in Hb. inversion Hb. apply statistics_consistent.
        unfold len. now rewrite Hl.
    + rewrite fixed_analyze_number in Hb by eauto. discriminate.
    + rewrite fixed_analyze_number in Hb by eauto. discriminate.
Qed.

End Counts.

Lemma counts_sum_to_total_witness :
  exists a b,
    fst (SentimentAnalyzer.analyze_news_titles Stub.three_titles
           Stub.second_call_raises) = Ok a
    /\ fst (FixedSentimentAnalyzer.analyze_news_titles Stub.three_titles
              Stub.five_stars) = Ok b
    /\ total_titles b = 3%Z
    /\ counts_consistent (SentimentAnalyzer.fields a)
    /\ counts_consistent b.
Proof.
  eexists. eexists.
  split; [reflexivity|]. split; [reflexivity|]. split; [reflexivity|].
  eapply (counts_sum_to_total (scorer := Stub.scripted)
            Stub.three_titles Stub.second_call_raises
            Stub.three_titles Stub.five_stars); vm_compute; reflexivity.
Defined.

(** ** Classification *)

Section Classification.
Import FixedSentimentAnalyzer.

(** The thresholds are the literal [0.1] and its opposite. *)
Lemma POINT_ONE_literal : POINT_ONE = round binary64 (1 # 10).
Proof. vm_compute. reflexivity. Qed.

Lemma classification_positive s :
  classification s = Positive <-> POINT_ONE < s.
Proof.
  unfold classification.
  destruct (Qcompare_spec POINT_ONE s) as [E|E|E].
  - split; [|intros H; lra].
    destruct (s ?= - POINT_ONE); discriminate.
  - tauto.
  - split; [|intros H; lra].
    destruct (s ?= - POINT_ONE); discriminate.
Qed.

Lemma classification_negative s :
  classification s = Negative <-> s < - POINT_ONE.
Proof.
  pose proof POINT_ONE_pos as P. unfold classification.
  destruct (Qcompare_spec POINT_ONE s) as [E|E|E].
  - split; [|intros H; lra].
    destruct (Qcompare_spec s (- POINT_ONE)); try discriminate. lra.
  - split; [discriminate|intros H; lra].
  - destruct (Qcompare_spec s (- POINT_ONE)) as [F|F|F]; split;
      try discriminate; try tauto; intros H; lra.
Qed.

Lemma classification_neutral s :
  classification s = Neutral <-> - POINT_ONE <= s <= POINT_ONE.
Proof.
  pose proof (classification_positive s) as P.
  pose proof (classification_negative s) as G.
  destruct (classification s).
  - split; [discriminate|]. intros H. assert (POINT_ONE < s) by tauto. lra.
  - split; [discriminate|]. intros H. assert (s < - POINT_ONE) by tauto. lra.
  - split; [intros _ | reflexivity]. split.
    + apply Qnot_lt_le. intros H. apply G in H. discriminate.
    + apply Qnot_lt_le. intros H. apply P in H. discriminate.
Qed.

Lemma classification_comp s s' :
  s == s' -> classification s = classification s'.
Proof.
  intros E. unfold classification.
  assert (H1 : (s ?= - POINT_ONE) = (s' ?= - POINT_ONE)) by now rewrite E.
  assert (H2 : (POINT_ONE ?= s) = (POINT_ONE ?= s')) by now rewrite E.
  now rewrite H1, H2.
Qed.

Lemma above_classification s :
  above s = true <-> classification s = Positive.
Proof. now rewrite above_iff, classification_positive. Qed.

Lemma below_classification s :
  below s = true <-> classification s = Negative.
Proof. now rewrite below_iff, classification_negative. Qed.

Lemma above_tick s : (if above s then 1 else 0)%Z = tick Positive (classification s).
Proof.
  pose proof (above_classification s) as H. unfold tick.
  destruct (above s), (label_eq_dec Positive (classification s)) as [E|E];
    try reflexivity.
  - exfalso. apply E. symmetry. now apply H.
  - symmetry in E. apply H in E. discriminate.
Qed.

Lemma below_tick s : (if below s then 1 else 0)%Z = tick Negative (classification s).
Proof.
  pose proof (below_classification s) as H. unfold tick.
  destruct (below s), (label_eq_dec Negative (classification s)) as [E|E];
    try reflexivity.
  - exfalso. apply E. symmetry. now apply H.
  - symmetry in E. apply H in E. discriminate.
Qed.

Lemma occurrences_cons l s scores :
  occurrences l (s :: scores)
  = (tick l (classification s) + occurrences l scores)%Z.
Proof.
  unfold occurrences, tick. simpl.
  destruct (label_eq_dec (classification s) l) as [E|E];
    destruct (label_eq_dec l (classification s)) as [E'|E'];
    try congruence; lia.
Qed.

Lemma ticks_add_up c :
  (tick Positive c + tick Negative c + tick Neutral c = 1)%Z.
Proof. destruct c; reflexivity. Qed.

Lemma sum_ones_above_occurrences scores :
  sum_ones above scores = occurrences Positive scores.
Proof.
  induction scores as [|s scores IH]; [reflexivity|].
  now rewrite sum_ones_cons, occurrences_cons, IH, above_tick.
Qed.

Lemma sum_ones_below_occurrences scores :
  sum_ones below scores = occurrences Negative scores.
Proof.
  induction scores as [|s scores IH]; [reflexivity|].
  now rewrite sum_ones_cons, occurrences_cons, IH, below_tick.
Qed.

Lemma occurrences_add_up scores :
  (occurrences Positive scores + occurrences Negative scores
   + occurrences Neutral scores = len scores)%Z.
Proof.
  induction scores as [|s scores IH]; [reflexivity|].
  rewrite !occurrences_cons, len_cons.
  pose proof (ticks_add_up (classification s)). lia.
Qed.

(** One turn of the loop of sentiment_analyzer_fixed.py moves the
    counter of the class of the score. *)
Lemma count_score_class t s :
  count_score t s
  = Tally (sentiment_scores t ++ [s])
      (positive_count t + tick Positive (classification s))
      (negative_count t + tick Negative (classification s))
      (neutral_count t + tick Neutral (classification s)).
Proof.
  unfold count_score.
  pose proof (above_classification s) as Ha.
  pose proof (below_classification s) as Hb.
  destruct (above s).
  - destruct Ha as [Ha _]. rewrite (Ha eq_refl). unfold tick. simpl.
    f_equal; lia.
  - destruct (below s).
    + destruct Hb as [Hb _]. rewrite (Hb eq_refl). unfold tick. simpl.
      f_equal; lia.
    + destruct (classification s).
      * destruct Ha as [_ Ha]. discriminate (Ha eq_refl).
      * destruct Hb as [_ Hb]. discriminate (Hb eq_refl).
      * unfold tick. simpl. f_equal; lia.
Qed.

End Classification.

Section ClassCounts.
Context {scorer : ExternalScorer}.
Context {python : Interpreter}.

(** The counts of an analysis are the numbers of its scores in each
    class. *)
Lemma analysis_counts_by_class v w a w' :
  SentimentAnalyzer.analyze_news_titles v w = (Ok a, w') ->
  positive_count (SentimentAnalyzer.fields a)
  = occurrences Positive (SentimentAnalyzer.individual_scores a)
  /\ negative_count (SentimentAnalyzer.fields a)
     = occurrences Negative (SentimentAnalyzer.individual_scores a)
  /\ neutral_count (SentimentAnalyzer.fields a)
     = occurrences Neutral (SentimentAnalyzer.individual_scores a).
Proof.
  intros H. destruct (analyze_news_titles_fields _ _ H) as [->|[_ ->]].
  - repeat split.
  - simpl. split; [apply sum_ones_above_occurrences|].
    split; [apply sum_ones_below_occurrences|].
    rewrite sum_ones_above_occurrences, sum_ones_below_occurrences.
    pose proof (occurrences_add_up (SentimentAnalyzer.individual_scores a)).
    lia.
Qed.

(** The scores of an analysis are those that the loop over the items
    of the bundle collects. *)
Lemma analysis_scores v w a w' :
  SentimentAnalyzer.analyze_news_titles v w = (Ok a, w') ->
  SentimentAnalyzer.score_titles
    (items_of SentimentAnalyzer.split_titles v) [] w
  = (Ok (SentimentAnalyzer.individual_scores a), w').
Proof.
  destruct v as [|s|z|q]; intros H.
  - rewrite analyze_news_titles_nan in H. now inversion H.
  - cbn [items_of].
    destruct (SentimentAnalyzer.split_titles (split PIPE s))
      as [|t ts] eqn:Et.
    + rewrite (analyze_news_titles_no_title _ _ Et) in H. now inversion H.
    + destruct (analyze_news_titles_scored s w) as (scores & w1 & Hs & _ & Ha).
      { rewrite Et. discriminate. }
      rewrite Ha in H. inversion H; subst.
      cbn [SentimentAnalyzer.individual_scores]. now rewrite <- Et.
  - rewrite analyze_news_titles_number in H by eauto. discriminate.
  - rewrite analyze_news_titles_number in H by eauto. discriminate.
Qed.

(** The same for the loop of sentiment_analyzer_fixed.py, which counts
    while it scores. *)
Lemma fixed_counts_by_class v w b w' :
  FixedSentimentAnalyzer.analyze_news_titles v w = (Ok b, w') ->
  exists t,
    FixedSentimentAnalyzer.score_titles
      (items_of FixedSentimentAnalyzer.split_titles v)
      (FixedSentimentAnalyzer.Tally [] 0 0 0) w
    = (Ok t, w')
    /\ positive_count b
       = occurrences Positive (FixedSentimentAnalyzer.sentiment_scores t)
    /\ negative_count b
       = occurrences Negative (FixedSentimentAnalyzer.sentiment_scores t)
    /\ neutral_count b
       = occurrences Neutral (FixedSentimentAnalyzer.sentiment_scores t)
    /\ total_titles b = len (FixedSentimentAnalyzer.sentiment_scores t).
Proof.
  destruct v as [|s|z|q]; intros H.
  - rewrite fixed_analyze_nan in H. inversion H; subst.
    eexists. split; [reflexivity|]. repeat split.
  - cbn [items_of].
    destruct (FixedSentimentAnalyzer.split_titles (split PIPE s))
      as [|x ts] eqn:Et.
    + rewrite (fixed_analyze_no_title _ _ Et) in H. inversion H; subst.
      eexists. split; [reflexivity|]. repeat split.
    + destruct (fixed_score_titles_total (x :: ts)
                  (FixedSentimentAnalyzer.Tally [] 0 0 0) w)
        as (scores & t' & w1 & Hs & Hl & Hsc & Hp & Hn & Hu).
      simpl in Hsc, Hp, Hn, Hu.
      unfold FixedSentimentAnalyzer.analyze_news_titles in H.
      cbn [isna strip_value split_pipe] in H.
      unfold bind at 1, ret at 1 in H.
      destruct (str_eqb (strip s) []) eqn:Es.
      { exfalso. apply str_eqb_true, strip_nil_iff in Es.
        pose proof (strip_split_titles_blank _ Es) as Z.
        rewrite <- fixed_split_titles, Et in Z. discriminate. }
      unfold bind at 1, ret at 1 in H. rewrite Et in H.
      cbn [truthy_list negb] in H.
      erewrite bind_ok in H by exact Hs. unfold ret in H.
      inversion H; subst. exists t'. split; [exact Hs|].
      cbn [positive_count negative_count neutral_count total_titles].
      rewrite Hp, Hn, Hu.
      rewrite sum_ones_above_occurrences, sum_ones_below_occurrences.
      pose proof (occurrences_add_up
                    (FixedSentimentAnalyzer.sentiment_scores t')).
      repeat split; try lia. unfold len. now rewrite Hl.
  - rewrite fixed_analyze_number in H by eauto. discriminate.
  - rewrite fixed_analyze_number in H by eauto. discriminate.
Qed.

(** C4: an item counts as Positive exactly when its score is above
    0.1, as Negative exactly when it is below -0.1 and as Neutral
    otherwise, the two thresholds themselves being Neutral; 0.1 is the
    literal of the sources, the [float] nearest to one tenth, with which
    the scores are compared, and the class depends on the value of the
    score alone.  In every result of [analyze_news_titles] of
    sentiment_analyzer.py the three counts are the numbers of scores of
    each class among the scores that the loop over the items of the
    bundle collected; and in sentiment_analyzer_fixed.py, whose loop
    counts while it scores, likewise. *)
Theorem classification_thresholds (s : Q) v1 w1 a w1' v2 w2 b w2' :
  SentimentAnalyzer.analyze_news_titles v1 w1 = (Ok a, w1') ->
  FixedSentimentAnalyzer.analyze_news_titles v2 w2 = (Ok b, w2') ->
  ((classification s = Positive <-> POINT_ONE < s)
   /\ (classification s = Negative <-> s < - POINT_ONE)
   /\ (classification s = Neutral <-> - POINT_ONE <= s <= POINT_ONE))
  /\ POINT_ONE = round binary64 (1 # 10)
  /\ classification POINT_ONE = Neutral
  /\ classification (- POINT_ONE) = Neutral
  /\ (forall s', s == s' -> classification s = classification s')
  /\ (SentimentAnalyzer.score_titles
        (items_of SentimentAnalyzer.split_titles v1) [] w1
      = (Ok (SentimentAnalyzer.individual_scores a), w1')
      /\ positive_count (SentimentAnalyzer.fields a)
         = occurrences Positive (SentimentAnalyzer.individual_scores a)
      /\ negative_count (SentimentAnalyzer.fields a)
         = occurrences Negative (SentimentAnalyzer.individual_scores a)
      /\ neutral_count (SentimentAnalyzer.fields a)
         = occurrences Neutral (SentimentAnalyzer.individual_scores a))
  /\ (exists t,
         FixedSentimentAnalyzer.score_titles
           (items_of FixedSentimentAnalyzer.split_titles v2)
           (FixedSentimentAnalyzer.Tally [] 0 0 0) w2
         = (Ok t, w2')
         /\ positive_count b
            = occurrences Positive (FixedSentimentAnalyzer.sentiment_scores t)
         /\ negative_count b
            = occurrences Negative (FixedSentimentAnalyzer.sentiment_scores t)
         /\ neutral_count b
            = occurrences Neutral (FixedSentimentAnalyzer.sentiment_scores t)
         /\ total_titles b
            = len (FixedSentimentAnalyzer.sentiment_scores t))
  /\ FixedSentimentAnalyzer.count_score
       (FixedSentimentAnalyzer.Tally [] 0 0 0) POINT_ONE
     = FixedSentimentAnalyzer.Tally [POINT_ONE] 0 0 1
  /\ FixedSentimentAnalyzer.count_score
       (FixedSentimentAnalyzer.Tally [] 0 0 0) (- POINT_ONE)
     = FixedSentimentAnalyzer.Tally [- POINT_ONE] 0 0 1
  /\ sum_ones above [POINT_ONE; - POINT_ONE] = 0%Z
  /\ sum_ones below [POINT_ONE; - POINT_ONE] = 0%Z.
Proof.
  intros Ha Hb.
  split; [|split; [|split; [|split; [|split; [|split; [|split]]]]]].
  - auto using classification_positive, classification_negative,
      classification_neutral.
  - apply POINT_ONE_literal.
  - reflexivity.
  - reflexivity.
  - intros s'. apply classification_comp.
  - split; [now apply analysis_scores|].
    now apply analysis_counts_by_class with (v := v1) (w := w1) (w' := w1').
  - now apply fixed_counts_by_class.
  - repeat split.
Qed.

End ClassCounts.

Lemma classification_thresholds_witness :
  exists a w1' b w2',
    SentimentAnalyzer.analyze_news_titles Stub.three_titles
      Stub.second_call_raises = (Ok a, w1')
    /\ FixedSentimentAnalyzer.analyze_news_titles Stub.three_titles
         Stub.five_stars = (Ok b, w2')
    /\ positive_count (SentimentAnalyzer.fields a)
       = occurrences Positive (SentimentAnalyzer.individual_scores a)
    /\ positive_count b = 1%Z /\ negative_count b = 1%Z
    /\ neutral_count b = 1%Z.
Proof.
  destruct (SentimentAnalyzer.analyze_news_titles (scorer := Stub.scripted)
              Stub.three_titles Stub.second_call_raises)
    as [[a|e] w1'] eqn:Ha; [|vm_compute in Ha; discriminate].
  destruct (FixedSentimentAnalyzer.analyze_news_titles
              (scorer := Stub.scripted) Stub.three_titles Stub.five_stars)
    as [[b|e] w2'] eqn:Hb; [|vm_compute in Hb; discriminate].
  exists a, w1', b, w2'. split; [reflexivity|]. split; [reflexivity|].
  destruct (classification_thresholds 0 _ _ _ _ Ha Hb)
    as (_ & _ & _ & _ & _ & (_ & Hp & _) & _).
  split; [exact Hp|].
  vm_compute in Hb. inversion Hb. repeat split.
Defined.

(** ** The average *)

Section Average.
Context {scorer : ExternalScorer}.
Context {python : Interpreter}.

Lemma some_title_iff s :
  SentimentAnalyzer.split_titles (split PIPE s) <> []
  <-> CorrectSentimentAnalyzer.split_titles (split PIPE s) <> [].
Proof.
  rewrite split_titles_nil_iff, strip_split_titles_nil_iff.
  assert (E : Forall (fun p => SentimentAnalyzer.clean_text p = [])
                (split PIPE s)
              <-> Forall (fun p => blank p = true) (split PIPE s)).
  { rewrite !Forall_forall. split; intros H p Hp.
    - apply clean_text_nil_iff. auto.
    - apply clean_text_nil_iff. auto. }
  now rewrite E.
Qed.

(** C8, as the code has it: when the bundle holds at least one item,
    the average is the quotient of the sum of the scores of the items,
    each scored once and in order by the loop, by their number, which
    is [total_titles]; the sum and the division round their results:
    to [float]s in sentiment_analyzer.py, where [sum] adds as the
    interpreter does, and to tensors of [torch.float32] in
    sentiment_analyzer_correct.py, added from left to right.  So the
    average is not the exact total over the count, but near it when
    the scores are within [-1, 1].  With a [sum] that adds from left
    to right and at most [2 ^ 53] items (at most [2 ^ 24] for
    tensors), the average is within [-1, 1] itself and differs from
    the exact total over the count by at most
    [(total_titles + 1) / 2 ^ 53] (by at most
    [(total_titles + 1) / 2 ^ 24]); with a [sum] that compensates
    and at most [2 ^ 24] items, it differs from it by at most
    [2 ^ -50]. *)
Theorem average_is_rounded_mean s w :
  SentimentAnalyzer.split_titles (split PIPE s) <> [] ->
  (exists a w',
      SentimentAnalyzer.analyze_news_titles (Str s) w = (Ok a, w')
      /\ SentimentAnalyzer.score_titles
           (SentimentAnalyzer.split_titles (split PIPE s)) [] w
         = (Ok (SentimentAnalyzer.individual_scores a), w')
      /\ total_titles (SentimentAnalyzer.fields a)
         = len (SentimentAnalyzer.individual_scores a)
      /\ (0 < total_titles (SentimentAnalyzer.fields a))%Z
      /\ avg_sentiment_score (SentimentAnalyzer.fields a)
         = float_div (py_sum (SentimentAnalyzer.individual_scores a))
             (total_titles (SentimentAnalyzer.fields a))
      /\ (sum_compensates = false ->
          Forall (fun score => - (1) <= score <= 1)
            (SentimentAnalyzer.individual_scores a) ->
          (total_titles (SentimentAnalyzer.fields a) <= 2 ^ 53)%Z ->
          - (1) <= avg_sentiment_score (SentimentAnalyzer.fields a) <= 1
          /\ Qabs (avg_sentiment_score (SentimentAnalyzer.fields a)
                   - total (SentimentAnalyzer.individual_scores a)
                     / inject_Z (total_titles (SentimentAnalyzer.fields a)))
             <= inject_Z (total_titles (SentimentAnalyzer.fields a) + 1)
                * pow2 (- 53))
      /\ (sum_compensates = true ->
          Forall (fun score => - (1) <= score <= 1)
            (SentimentAnalyzer.individual_scores a) ->
          (total_titles (SentimentAnalyzer.fields a) <= 2 ^ 24)%Z ->
          - (1) - pow2 (- 50)
          <= avg_sentiment_score (SentimentAnalyzer.fields a)
          <= 1 + pow2 (- 50)
          /\ Qabs (avg_sentiment_score (SentimentAnalyzer.fields a)
                   - total (SentimentAnalyzer.individual_scores a)
                     / inject_Z (total_titles (SentimentAnalyzer.fields a)))
             <= pow2 (- 50)))
  /\ (exists b scores w',
         CorrectSentimentAnalyzer.analyze_news_titles (Str s) w = (Ok b, w')
         /\ CorrectSentimentAnalyzer.score_titles
              (CorrectSentimentAnalyzer.split_titles (split PIPE s)) [] w
            = (Ok scores, w')
         /\ total_titles b = len scores
         /\ (0 < total_titles b)%Z
         /\ avg_sentiment_score b
            = tensor_div (tensor_sum scores) (total_titles b)
         /\ (Forall (fun score => - (1) <= score <= 1) scores ->
             (total_titles b <= 2 ^ 24)%Z ->
             - (1) <= avg_sentiment_score b <= 1
             /\ Qabs (avg_sentiment_score b
                      - total scores / inject_Z (total_titles b))
                <= inject_Z (total_titles b + 1) * pow2 (- 24))).
Proof.
  intros Hne. split.
  - destruct (analyze_news_titles_scored s w Hne)
      as (scores & w' & Hs & Hl & Ha).
    eexists. exists w'. split; [exact Ha|]. simpl.
    assert (El : len (SentimentAnalyzer.split_titles (split PIPE s))
                 = len scores) by (unfold len; now rewrite Hl).
    rewrite El.
    assert (Hs0 : scores <> []).
    { intros ->. simpl in Hl. symmetry in Hl.
      apply length_zero_iff_nil in Hl. contradiction. }
    split; [exact Hs|]. split; [reflexivity|]. split.
    { destruct scores; [congruence|].
      rewrite len_cons. pose proof (len_nonneg scores). lia. }
    split; [reflexivity|]. split.
    + intros Hv Hr Hn. unfold py_sum. rewrite Hv.
      apply (@mean_bound binary64); [cbn; lia|cbn; lia| | |]; assumption.
    + intros Hv Hr Hn. unfold py_sum. rewrite Hv.
      apply compensated_mean_bound; assumption.
  - apply some_title_iff in Hne.
    destruct (correct_analyze_scored s w Hne)
      as (scores & w' & Hs & Hl & Ha).
    eexists. exists scores, w'. split; [exact Ha|]. simpl.
    assert (El : len (CorrectSentimentAnalyzer.split_titles (split PIPE s))
                 = len scores) by (unfold len; now rewrite Hl).
    rewrite El.
    assert (Hs0 : scores <> []).
    { intros ->. simpl in Hl. symmetry in Hl.
      apply length_zero_iff_nil in Hl. contradiction. }
    split; [exact Hs|]. split; [reflexivity|]. split.
    { destruct scores; [congruence|].
      rewrite len_cons. pose proof (len_nonneg scores). lia. }
    split; [reflexivity|]. intros Hr Hn.
    apply (@mean_bound binary32); [cbn; lia|cbn; lia| | |]; assumption.
Qed.

End Average.

Lemma average_is_rounded_mean_witness :
  SentimentAnalyzer.split_titles (split PIPE (lit "x|y|z")) <> []
  /\ (exists a w',
         SentimentAnalyzer.analyze_news_titles (python := Stub.cpython_3_11)
           (Str (lit "x|y|z")) Stub.second_call_raises = (Ok a, w')
         /\ total_titles (SentimentAnalyzer.fields a) = 3%Z
         /\ - (1) <= avg_sentiment_score (SentimentAnalyzer.fields a) <= 1
         /\ Qabs (avg_sentiment_score (SentimentAnalyzer.fields a)
                  - total (SentimentAnalyzer.individual_scores a)
                    / inject_Z (total_titles (SentimentAnalyzer.fields a)))
            <= inject_Z (total_titles (SentimentAnalyzer.fields a) + 1)
               * pow2 (- 53))
  /\ (exists a w',
         SentimentAnalyzer.analyze_news_titles (python := Stub.cpython_3_12)
           (Str (lit "x|y|z")) Stub.second_call_raises = (Ok a, w')
         /\ total_titles (SentimentAnalyzer.fields a) = 3%Z
         /\ Qabs (avg_sentiment_score (SentimentAnalyzer.fields a)
                  - total (SentimentAnalyzer.individual_scores a)
                    / inject_Z (total_titles (SentimentAnalyzer.fields a)))
            <= pow2 (- 50)).
Proof.
  assert (H : SentimentAnalyzer.split_titles (split PIPE (lit "x|y|z")) <> [])
    by (vm_compute; discriminate).
  split; [exact H|]. split.
  - destruct (average_is_rounded_mean (scorer := Stub.scripted)
                (python := Stub.cpython_3_11)
                (lit "x|y|z") Stub.second_call_raises H)
      as [(a & w' & Ha & _ & _ & _ & _ & Hb & _) _].
    exists a, w'. split; [exact Ha|].
    pose proof Ha as Ha'. vm_compute in Ha'. injection Ha' as Ea Ew.
    split; [now rewrite <- Ea|].
    apply Hb; [reflexivity| |]; rewrite <- Ea.
    + repeat constructor; intros X; vm_compute in X; discriminate X.
    + intros X; vm_compute in X; discriminate X.
  - destruct (average_is_rounded_mean (scorer := Stub.scripted)
                (python := Stub.cpython_3_12)
                (lit "x|y|z") Stub.second_call_raises H)
      as [(a & w' & Ha & _ & _ & _ & _ & _ & Hb) _].
    exists a, w'. split; [exact Ha|].
    pose proof Ha as Ha'. vm_compute in Ha'. injection Ha' as Ea Ew.
    split; [now rewrite <- Ea|].
    apply Hb; [reflexivity| |]; rewrite <- Ea.
    + repeat constructor; intros X; vm_compute in X; discriminate X.
    + intros X; vm_compute in X; discriminate X.
Defined.

(** The counterexample to C8 as stated: three items scored 0.625, 0
    (the External Scorer raises) and 0 have the total 0.625, and their
    average is the [float] nearest to 0.625 / 3, which is not
    0.625 / 3, with either [sum]; in sentiment_analyzer_correct.py it
    is the number of [torch.float32] nearest to it. *)
Lemma average_is_not_exact :
  exists a w' a' b w'',
    SentimentAnalyzer.analyze_news_titles (python := Stub.cpython_3_11)
      Stub.three_titles Stub.second_call_raises = (Ok a, w')
    /\ SentimentAnalyzer.individual_scores a
       = [float_sub (3 # 4) (1 # 8); 0; float_sub (5 # 16) (5 # 16)]
    /\ total (SentimentAnalyzer.individual_scores a) == 5 # 8
    /\ total_titles (SentimentAnalyzer.fields a) = 3%Z
    /\ avg_sentiment_score (SentimentAnalyzer.fields a)
       == 7505999378950827 # 36028797018963968
    /\ ~ avg_sentiment_score (SentimentAnalyzer.fields a)
         == total (SentimentAnalyzer.individual_scores a)
            / inject_Z (total_titles (SentimentAnalyzer.fields a))
    /\ SentimentAnalyzer.analyze_news_titles (python := Stub.cpython_3_12)
         Stub.three_titles Stub.second_call_raises = (Ok a', w')
    /\ SentimentAnalyzer.individual_scores a'
       = SentimentAnalyzer.individual_scores a
    /\ total_titles (SentimentAnalyzer.fields a') = 3%Z
    /\ avg_sentiment_score (SentimentAnalyzer.fields a')
       == 7505999378950827 # 36028797018963968
    /\ ~ avg_sentiment_score (SentimentAnalyzer.fields a')
         == total (SentimentAnalyzer.individual_scores a')
            / inject_Z (total_titles (SentimentAnalyzer.fields a'))
    /\ CorrectSentimentAnalyzer.analyze_news_titles Stub.three_titles
         Stub.second_call_raises = (Ok b, w'')
    /\ total_titles b = 3%Z
    /\ avg_sentiment_score b == 13981013 # 67108864
    /\ ~ avg_sentiment_score b == (5 # 8) / 3.
Proof.
  eexists. eexists. eexists. eexists. eexists.
  split; [vm_compute; reflexivity|]. split; [vm_compute; reflexivity|].
  split; [vm_compute; reflexivity|]. split; [vm_compute; reflexivity|].
  split; [vm_compute; reflexivity|].
  split; [intros X; vm_compute in X; discriminate X|].
  split; [vm_compute; reflexivity|]. split; [vm_compute; reflexivity|].
  split; [vm_compute; reflexivity|]. split; [vm_compute; reflexivity|].
  split; [intros X; vm_compute in X; discriminate X|].
  split; [vm_compute; reflexivity|]. split; [vm_compute; reflexivity|].
  split; [vm_compute; reflexivity|].
  intros X; vm_compute in X; discriminate X.
Qed.

(** ** The signed score *)

Section SignedScore.
Context {scorer : ExternalScorer}.
Context {python : Interpreter}.

(** The difference of two numbers of [0, 1], rounded, is within
    [-1, 1]. *)
Lemma rounded_difference_in_range fmt neg pos :
  (1 <= precision fmt)%Z -> (emin fmt <= 0)%Z ->
  0 <= neg <= 1 -> 0 <= pos <= 1 ->
  - (1) <= sub fmt pos neg <= 1.
Proof.
  intros Hp He Hneg Hpos. unfold sub.
  apply (@round_in_range fmt Hp He 1%Z);
    [|change (inject_Z 1) with 1; split; lra].
  split; [lia|]. apply Z.pow_le_mono_r with (a := 2%Z) (b := 0%Z); lia.
Qed.

(** C9: when the External Scorer answers with three non-negative
    probabilities that add up to 1, or that are at most 1 each as
    those are whose sum is 1 once it is rounded, the signed score that
    [get_sentiment_score] returns lies in [-1, 1]: it is
    [positive - negative] rounded, to a [float] in
    sentiment_analyzer.py, where a blank text scores 0 without a call,
    and to a tensor of [torch.float32] in BERT_main.py. *)
Theorem signed_score_in_range text w neu neg pos s' :
  0 <= neu -> 0 <= neg -> 0 <= pos ->
  neu + neg + pos == 1 \/ (neg <= 1 /\ pos <= 1) ->
  classify (state w) text = (Ok [neu; neg; pos], s') ->
  (exists sd w',
      SentimentAnalyzer.get_sentiment_score text w = (Ok sd, w')
      /\ - (1) <= SentimentAnalyzer.sentiment_score sd <= 1
      /\ (negb (truthy text) || str_eqb (strip text) [] = false ->
          SentimentAnalyzer.sentiment_score sd = float_sub pos neg))
  /\ BERT_main.get_sentiment_score text w
     = (Ok (tensor_sub pos neg), World s' (calls w ++ [text]))
  /\ - (1) <= tensor_sub pos neg <= 1.
Proof.
  intros Hneu Hneg Hpos Hsum Hc.
  assert (Rn : 0 <= neg <= 1) by (destruct Hsum as [H|[H _]]; split; lra).
  assert (Rp : 0 <= pos <= 1) by (destruct Hsum as [H|[_ H]]; split; lra).
  split; [|split].
  - destruct (negb (truthy text) || str_eqb (strip text) []) eqn:G.
    + exists SentimentAnalyzer.zero_reading, w.
      rewrite (get_sentiment_score_blank _ _ G). simpl.
      split; [reflexivity|]. split; [split; lra|discriminate].
    + eexists. eexists.
      rewrite (get_sentiment_score_probs _ _ G Hc). simpl.
      split; [reflexivity|]. split; [|reflexivity].
      apply rounded_difference_in_range; [cbn; lia|cbn; lia| |];
        assumption.
  - unfold BERT_main.get_sentiment_score, bind, invoke. rewrite Hc.
    reflexivity.
  - apply rounded_difference_in_range; [cbn; lia|cbn; lia| |]; assumption.
Qed.

End SignedScore.

Lemma signed_score_in_range_witness :
  BERT_main.get_sentiment_score (lit "x") Stub.fresh
  = (Ok (tensor_sub (3 # 4) (1 # 8)),
     World (scorer := Stub.always_positive) tt ([] ++ [lit "x"]))
  /\ - (1) <= tensor_sub (3 # 4) (1 # 8) <= 1.
Proof.
  apply (signed_score_in_range (scorer := Stub.always_positive)
           (lit "x") Stub.fresh (neu := 1 # 8) (neg := 1 # 8)
           (pos := 3 # 4) (s' := tt)).
  - discriminate.
  - discriminate.
  - discriminate.
  - left. reflexivity.
  - reflexivity.
Defined.

(** ** Empty bundles *)

Section EmptyBundle.
Context {scorer : ExternalScorer}.
Context {python : Interpreter}.

(** C5: for a missing bundle, for the empty string, and for a bundle
    whose pieces all normalise to the empty string (under [clean_text]
    or under [strip], which is the same), [analyze_news_titles] of
    sentiment_analyzer.py and of sentiment_analyzer_correct.py returns
    the zero result and leaves the world as it was: the call log is
    unchanged, so the External Scorer was not invoked. *)
Theorem empty_bundle_zero_result v w :
  v = NaN
  \/ v = Str []
  \/ (exists s,
        v = Str s
        /\ (Forall (fun piece => SentimentAnalyzer.clean_text piece = [])
              (split PIPE s)
            \/ Forall (fun piece => strip piece = []) (split PIPE s))) ->
  SentimentAnalyzer.analyze_news_titles v w
  = (Ok SentimentAnalyzer.zero_analysis, w)
  /\ SentimentAnalyzer.fields SentimentAnalyzer.zero_analysis
     = BundleResult 0 0 0 0 0
  /\ CorrectSentimentAnalyzer.analyze_news_titles v w = (Ok zero_result, w)
  /\ zero_result = BundleResult 0 0 0 0 0.
Proof.
  intros [->|[->|(s & -> & H)]].
  - repeat split.
  - repeat split.
  - assert (B : Forall (fun p => blank p = true) (split PIPE s)).
    { rewrite Forall_forall. destruct H as [H|H];
        rewrite Forall_forall in H; intros p Hp.
      - apply clean_text_nil_iff. auto.
      - apply strip_nil_iff. auto. }
    split; [|split; [reflexivity|split; [|reflexivity]]].
    + apply analyze_news_titles_no_title, split_titles_nil_iff.
      rewrite Forall_forall in *. intros p Hp.
      apply clean_text_nil_iff. auto.
    + apply correct_analyze_no_title, strip_split_titles_nil_iff. exact B.
Qed.

End EmptyBundle.

Lemma empty_bundle_zero_result_witness :
  SentimentAnalyzer.analyze_news_titles (Str (lit " | |  ")) Stub.fresh
  = (Ok SentimentAnalyzer.zero_analysis, Stub.fresh)
  /\ SentimentAnalyzer.fields SentimentAnalyzer.zero_analysis
     = BundleResult 0 0 0 0 0
  /\ CorrectSentimentAnalyzer.analyze_news_titles (Str (lit " | |  "))
       Stub.fresh
     = (Ok zero_result, Stub.fresh)
  /\ zero_result = BundleResult 0 0 0 0 0.
Proof.
  apply (empty_bundle_zero_result (scorer := Stub.always_positive)).
  right. right. exists (lit " | |  "). split; [reflexivity|].
  left. vm_compute. repeat constructor.
Defined.

(** ** The item splitter *)

Section Splitter.

Lemma filter_subsequence {A} (f : A -> bool) (l : list A) :
  subsequence (filter f l) l.
Proof.
  induction l as [|x l IH]; simpl.
  - constructor.
  - destruct (f x); now constructor.
Qed.

Lemma map_subsequence {A B} (f : A -> B) (l1 l2 : list A) :
  subsequence l1 l2 -> subsequence (map f l1) (map f l2).
Proof. induction 1; simpl; now constructor. Qed.

Lemma strip_not_blank s : strip s <> [] -> blank (strip s) = false.
Proof.
  intros H. destruct (blank (strip s)) eqn:E; [|reflexivity].
  apply strip_nil_iff in E. rewrite strip_idem in E. contradiction.
Qed.

(** C7: the bundle ["a|b||  |c"] splits into exactly ["a"], ["b"],
    ["c"], in sentiment_analyzer.py as in sentiment_analyzer_correct.py;
    and for every bundle the items are the normalised pieces in their
    order, those that are empty after normalisation left out, so that
    no item is empty or made of whitespace. *)
Theorem split_items_example (bundle : pystr) :
  SentimentAnalyzer.split_titles (split PIPE (lit "a|b||  |c"))
  = [lit "a"; lit "b"; lit "c"]
  /\ CorrectSentimentAnalyzer.split_titles (split PIPE (lit "a|b||  |c"))
     = [lit "a"; lit "b"; lit "c"]
  /\ subsequence (SentimentAnalyzer.split_titles (split PIPE bundle))
       (map SentimentAnalyzer.clean_text (split PIPE bundle))
  /\ Forall (fun item => item <> [] /\ blank item = false)
       (SentimentAnalyzer.split_titles (split PIPE bundle))
  /\ subsequence (CorrectSentimentAnalyzer.split_titles (split PIPE bundle))
       (map strip (split PIPE bundle))
  /\ Forall (fun item => item <> [] /\ blank item = false)
       (CorrectSentimentAnalyzer.split_titles (split PIPE bundle)).
Proof.
  split; [reflexivity|]. split; [reflexivity|].
  split; [|split; [|split]].
  - apply filter_subsequence.
  - rewrite Forall_forall. intros item Hi.
    unfold SentimentAnalyzer.split_titles in Hi.
    apply filter_In in Hi. destruct Hi as [Hi Ht].
    apply in_map_iff in Hi. destruct Hi as [piece [<- _]].
    assert (Hne : SentimentAnalyzer.clean_text piece <> []).
    { intros E. rewrite E in Ht. discriminate. }
    split; [exact Hne|].
    rewrite clean_text_unfold in *. now apply strip_not_blank.
  - apply map_subsequence, filter_subsequence.
  - rewrite Forall_forall. intros item Hi.
    unfold CorrectSentimentAnalyzer.split_titles in Hi.
    apply in_map_iff in Hi. destruct Hi as [piece [<- Hp]].
    apply filter_In in Hp. destruct Hp as [_ Ht].
    assert (Hne : strip piece <> []).
    { intros E. rewrite E in Ht. discriminate. }
    split; [exact Hne|]. now apply strip_not_blank.
Qed.

End Splitter.

(** ** Failures of the External Scorer *)

Section ScorerFailure.
Import SentimentAnalyzer.
Context {scorer : ExternalScorer}.
Context {python : Interpreter}.

(** A text that passes the guard is submitted, whatever comes back. *)
Lemma get_sentiment_score_invokes text w r s' :
  negb (truthy text) || str_eqb (strip text) [] = false ->
  classify (state w) text = (r, s') ->
  exists sd,
    get_sentiment_score text w = (Ok sd, World s' (calls w ++ [text])).
Proof.
  intros Hg Hc. unfold get_sentiment_score. rewrite Hg.
  unfold try_except, bind, invoke. rewrite Hc.
  destruct r as [prob|e]; [|run; eauto].
  destruct prob as [|neu [|neg [|pos rest]]]; run; eauto.
Qed.

(** C2, as the code has it: whenever the External Scorer raises on a
    text, [get_sentiment_score] returns the zero reading instead of
    the exception (a blank text is not even submitted); consequently
    every bundle of three items whose second call is such a call is
    analysed to a result with [total_titles = 3], a score 0 for the
    second item and [neutral_count >= 1].  Nothing checks that the
    probabilities add up to 1: a vector that comes back for a text that
    is not blank is scored as [positive - negative] whatever its
    entries are. *)
Theorem scorer_exception_is_neutral text st e st' :
  classify st text = (Raise e, st') ->
  (forall log, exists w',
      get_sentiment_score text (World st log) = (Ok zero_reading, w'))
  /\ (forall s w t1 t3 r1,
         split_titles (split PIPE s) = [t1; text; t3] ->
         classify (state w) t1 = (r1, st) ->
         exists a w',
           analyze_news_titles (Str s) w = (Ok a, w')
           /\ total_titles (fields a) = 3%Z
           /\ nth_error (individual_scores a) 1 = Some 0
           /\ (1 <= neutral_count (fields a))%Z)
  /\ (forall text' w neu neg pos rest s',
         negb (truthy text') || str_eqb (strip text') [] = false ->
         classify (state w) text' = (Ok (neu :: neg :: pos :: rest), s') ->
         get_sentiment_score text' w
         = (Ok (ScoreData (float_sub pos neg) pos neg neu),
            World s' (calls w ++ [text']))).
Proof.
  intros Hc. split; [|split; [|apply get_sentiment_score_probs]].
  - intros log.
    destruct (negb (truthy text) || str_eqb (strip text) []) eqn:G.
    + exists (World st log). now apply get_sentiment_score_blank.
    + exists (World st' (log ++ [text])).
      apply (get_sentiment_score_raise text (World st log) G Hc).
  - intros s w t1 t3 r1 Ht H1.
    assert (G1 : negb (truthy t1) || str_eqb (strip t1) [] = false).
    { apply split_titles_guard with (pieces := split PIPE s).
      rewrite Ht. simpl. auto. }
    assert (G2 : negb (truthy text) || str_eqb (strip text) [] = false).
    { apply split_titles_guard with (pieces := split PIPE s).
      rewrite Ht. simpl. auto. }
    destruct (analyze_news_titles_scored s w) as (scores & w' & Hs & Hl & Ha).
    { rewrite Ht. discriminate. }
    rewrite Ht in Hs, Hl, Ha.
    destruct (get_sentiment_score_invokes t1 w G1 H1) as (sd1 & E1).
    erewrite score_titles_cons in Hs by exact E1.
    erewrite score_titles_cons in Hs
      by (apply get_sentiment_score_raise with (e := e); [exact G2|exact Hc]).
    destruct (get_sentiment_score_total t3
                (World st' ((calls w ++ [t1]) ++ [text]))) as (sd3 & w3 & E3).
    erewrite score_titles_cons in Hs by exact E3.
    simpl in Hs. inversion Hs; subst scores w3.
    eexists. exists w'.
    split; [exact Ha|]. simpl. split; [reflexivity|]. split; [reflexivity|].
    rewrite !sum_ones_cons, !sum_ones_nil, len_cons, len_cons, len_cons.
    change (above 0) with false. change (below 0) with false.
    unfold len. simpl List.length.
    pose proof (above_below_exclusive (sentiment_score sd1)).
    pose proof (above_below_exclusive (sentiment_score sd3)).
    destruct (above (sentiment_score sd1)), (below (sentiment_score sd1)),
      (above (sentiment_score sd3)), (below (sentiment_score sd3));
      try lia; intuition discriminate.
Qed.

End ScorerFailure.

Lemma scorer_exception_is_neutral_witness :
  (exists w',
      SentimentAnalyzer.get_sentiment_score (lit "y")
        (World (scorer := Stub.scripted)
           [Raise ScorerError; Ok [3 # 8; 5 # 16; 5 # 16]] [lit "x"])
      = (Ok SentimentAnalyzer.zero_reading, w'))
  /\ exists a w',
      SentimentAnalyzer.analyze_news_titles Stub.three_titles
        Stub.second_call_raises = (Ok a, w')
      /\ total_titles (SentimentAnalyzer.fields a) = 3%Z
      /\ nth_error (SentimentAnalyzer.individual_scores a) 1 = Some 0
      /\ (1 <= neutral_count (SentimentAnalyzer.fields a))%Z.
Proof.
  destruct (scorer_exception_is_neutral (scorer := Stub.scripted)
              (lit "y")
              [Raise ScorerError; Ok [3 # 8; 5 # 16; 5 # 16]]
              (e := ScorerError)
              (st' := [Ok [3 # 8; 5 # 16; 5 # 16]]) eq_refl)
    as (A & B & _).
  split.
  - apply A.
  - apply (B (lit "x|y|z") Stub.second_call_raises (lit "x") (lit "z")
             (Ok [1 # 8; 1 # 8; 3 # 4])); reflexivity.
Defined.

(** The counterexample to C2 as stated.  The External Scorer answers
    with [0, 0, 0.5], which adds up to 0.5, and the reading is 0.5, not
    the zero reading.  Likewise with a model of four classes, whose
    softmax [0.125, 0.125, 0.5, 0.25] adds up to 1: the three
    probabilities that are read add up to 0.75 and the reading is
    0.375. *)
Lemma malformed_probabilities_are_scored :
  (exists w',
      SentimentAnalyzer.get_sentiment_score (lit "x") Stub.fresh_malformed
      = (Ok (SentimentAnalyzer.ScoreData (float_sub (1 # 2) 0) (1 # 2) 0 0),
         w')
      /\ classify (state Stub.fresh_malformed) (lit "x")
         = (Ok [0; 0; 1 # 2], tt)
      /\ 0 + 0 + (1 # 2) == 1 # 2
      /\ float_sub (1 # 2) 0 == 1 # 2
      /\ ~ float_sub (1 # 2) 0 == 0)
  /\ (exists w',
         SentimentAnalyzer.get_sentiment_score (lit "x") Stub.fresh_four
         = (Ok (SentimentAnalyzer.ScoreData (float_sub (1 # 2) (1 # 8))
                  (1 # 2) (1 # 8) (1 # 8)), w')
         /\ classify (state Stub.fresh_four) (lit "x")
            = (Ok [1 # 8; 1 # 8; 1 # 2; 1 # 4], tt)
         /\ (1 # 8) + (1 # 8) + (1 # 2) == 3 # 4
         /\ float_sub (1 # 2) (1 # 8) == 3 # 8
         /\ ~ float_sub (1 # 2) (1 # 8) == 0).
Proof.
  split; eexists; (split; [reflexivity|]); (split; [reflexivity|]);
    (split; [reflexivity|]); (split; [vm_compute; reflexivity|]);
    intros X; vm_compute in X; discriminate X.
Qed.

(** ** Frames *)

Section Frames.

Lemma of_records_data records :
  data (of_records records) = map result_values records.
Proof. now destruct records. Qed.


Lemma iterrows_length df : List.length (iterrows df) = List.length (data df).
Proof. unfold iterrows. apply length_map. Qed.



Lemma joined_length (l1 l2 : list (list value)) :
  List.length l1 = List.length l2 ->
  List.length (map (fun ab => fst ab ++ snd ab) (combine l1 l2))
  = List.length l1.
Proof. intros H. rewrite length_map, length_combine. lia. Qed.

End Frames.

(** ** The row processor of sentiment_analyzer.py *)

Section BaseRows.
Import SentimentAnalyzer.
Context {scorer : ExternalScorer}.
Context {python : Interpreter}.

(** On text and on a missing value the aggregator returns, whatever
    the External Scorer does. *)
Lemma analyze_news_titles_textual v w :
  textual v = true -> exists a w', analyze_news_titles v w = (Ok a, w').
Proof.
  destruct v as [|s|z|q]; try discriminate; intros _.
  - now exists zero_analysis, w.
  - destruct (split_titles (split PIPE s)) as [|t ts] eqn:Et.
    + exists zero_analysis, w. now apply analyze_news_titles_no_title.
    + destruct (analyze_news_titles_scored s w) as (scores & w' & _ & _ & H).
      { rewrite Et. discriminate. }
      eauto.
Qed.


Lemma analyze_rows_cons_ok row rest acc w d a w1 :
  lookup row "date" = Some d ->
  analyze_news_titles (get row "news_titles" (Str [])) w = (Ok a, w1) ->
  analyze_rows (row :: rest) acc w = analyze_rows rest (acc ++ [fields a]) w1.
Proof.
  intros Hd Ha. cbn [analyze_rows]. unfold getitem. rewrite Hd.
  unfold bind at 1, ret at 1. now erewrite bind_ok by exact Ha.
Qed.

(** When every row is readable the loop returns one result per row,
    the k-th being an analysis of the bundle of the k-th row. *)
Lemma analyze_rows_readable rows acc w :
  forallb readable rows = true ->
  exists results w',
    analyze_rows rows acc w = (Ok (acc ++ results), w')
    /\ List.length results = List.length rows
    /\ forall k row,
        nth_error rows k = Some row ->
        exists a wk wk',
          analyze_news_titles (get row "news_titles" (Str [])) wk
          = (Ok a, wk')
          /\ nth_error results k = Some (fields a).
Proof.
  revert acc w. induction rows as [|row rest IH]; intros acc w Hr.
  - exists [], w. rewrite app_nil_r. repeat split.
    intros k row Hk. now destruct k.
  - simpl in Hr. apply andb_true_iff in Hr. destruct Hr as [Hrow Hrest].
    unfold readable in Hrow.
    destruct (lookup row "date") as [d|] eqn:Hd; [|discriminate].
    destruct (analyze_news_titles_textual _ w Hrow) as (a & w1 & Ha).
    erewrite analyze_rows_cons_ok; [|exact Hd|exact Ha].
    destruct (IH (acc ++ [fields a]) w1 Hrest) as (results & w' & H & Hl & Hk).
    exists (fields a :: results), w'. rewrite H, <- app_assoc.
    split; [reflexivity|]. split; [simpl; now rewrite Hl|].
    intros k r Hnth. destruct k as [|k].
    + inversion Hnth; subst r. now exists a, w, w1.
    + now apply Hk.
Qed.



End BaseRows.

(** ** What is printed after the file is written *)

Section Summary.
Import SentimentAnalyzer.
Context {scorer : ExternalScorer}.
Context {python : Interpreter}.







Lemma filter_absent col cols :
  absent col cols = true -> filter (String.eqb col) cols = [].
Proof.
  unfold absent. rewrite negb_true_iff.
  induction cols as [|c cols IH]; intros H; [reflexivity|].
  simpl in *. apply orb_false_iff in H. destruct H as [H1 H2].
  rewrite H1. now apply IH.
Qed.













End Summary.

Section PassThrough.
Import SentimentAnalyzer.
Context {scorer : ExternalScorer}.
Context {python : Interpreter}.


End PassThrough.



(** X3: on a frame without rows and without a column
    [avg_sentiment_score], [process_csv_with_sentiment] writes a frame
    without rows that has the columns of the input only, none of the
    five result columns being added; and it raises [KeyError] after
    that, on the first of the statistics. *)
Lemma empty_frame_gets_no_column {scorer : ExternalScorer}
  {python : Interpreter} cols w :
  absent "avg_sentiment_score" cols = true ->
  SentimentAnalyzer.process_csv_with_sentiment (DataFrame cols []) w
  = (Raise KeyError, w, Some (DataFrame cols [])).
Proof.
  intros A. unfold SentimentAnalyzer.process_csv_with_sentiment.
  cbn [iterrows data map SentimentAnalyzer.analyze_rows]. unfold ret at 1.
  unfold concat_axis1. cbn [of_records columns data combine map].
  rewrite app_nil_r.
  unfold SentimentAnalyzer.print_summary, SentimentAnalyzer.format_mean,
    bearing.
  cbn [columns]. now rewrite filter_absent.
Qed.

Lemma empty_frame_gets_no_column_witness :
  SentimentAnalyzer.process_csv_with_sentiment
    (DataFrame [ "date"; "news_titles" ]%string []) Stub.fresh
  = (Raise KeyError, Stub.fresh,
     Some (DataFrame [ "date"; "news_titles" ]%string [])).
Proof.
  apply (empty_frame_gets_no_column (scorer := Stub.always_positive)).
  reflexivity.
Defined.

(** ** The row processor of sentiment_analyzer_correct.py *)

Section FrameUpdates.

Lemma set_nth_length {A} (l : list A) i a :
  List.length (set_nth l i a) = List.length l.
Proof.
  revert i. induction l as [|x l IH]; intros i; [reflexivity|].
  destruct i; simpl; [reflexivity|]. now rewrite IH.
Qed.

(** Overwriting one column leaves the cells of the others alone. *)
Lemma lookup_set_nth cols cells j col' col v :
  index_of col' cols = Some j -> col' <> col ->
  lookup (combine cols (set_nth cells j v)) col
  = lookup (combine cols cells) col.
Proof.
  revert cells j. induction cols as [|c cols IH]; intros cells j Hi Hne.
  - discriminate.
  - simpl in Hi. destruct cells as [|x cells]; [reflexivity|].
    destruct (String.eqb_spec c col') as [->|Hc].
    + inversion Hi; subst j. simpl.
      destruct (String.eqb_spec col' col); [contradiction|reflexivity].
    + destruct (index_of col' cols) as [j'|] eqn:Ej; [|discriminate].
      inversion Hi; subst j. simpl.
      destruct (String.eqb c col); [reflexivity|]. now apply IH.
Qed.

(** So does a new column at the end of a full row. *)
Lemma lookup_appended cols cells c v col :
  List.length cells = List.length cols -> c <> col ->
  lookup (combine (cols ++ [c]) (cells ++ [v])) col
  = lookup (combine cols cells) col.
Proof.
  revert cells. induction cols as [|d cols IH]; intros cells Hl Hne.
  - destruct cells; [|discriminate]. simpl.
    destruct (String.eqb_spec c col); [contradiction|reflexivity].
  - destruct cells as [|x cells]; [discriminate|]. simpl.
    destruct (String.eqb d col); [reflexivity|].
    apply IH; [|assumption]. simpl in Hl. lia.
Qed.

Lemma set_column_rows df col v :
  List.length (data (set_column df col v)) = List.length (data df).
Proof.
  unfold set_column. destruct (index_of col (columns df));
    simpl; apply length_map.
Qed.

Lemma set_column_rectangular df col v :
  rectangular df -> rectangular (set_column df col v).
Proof.
  unfold rectangular, set_column. intros H.
  destruct (index_of col (columns df)) as [j|]; simpl;
    rewrite Forall_map; eapply Forall_impl; try exact H;
    simpl; intros cells Hc.
  - now rewrite set_nth_length.
  - rewrite !length_app, Hc. reflexivity.
Qed.

(** A scalar assigned to another column does not touch the bundles. *)
Lemma set_column_bundles df col v :
  rectangular df -> col <> "news_titles"%string ->
  map (fun r => lookup r "news_titles") (iterrows (set_column df col v))
  = map (fun r => lookup r "news_titles") (iterrows df).
Proof.
  unfold rectangular, iterrows, set_column. intros H Hne.
  destruct (index_of col (columns df)) as [j|] eqn:Ej; simpl;
    rewrite !map_map; apply map_ext_in; intros cells Hc.
  - now apply lookup_set_nth with (col' := col).
  - apply lookup_appended; [|assumption].
    rewrite Forall_forall in H. now apply H.
Qed.

Lemma head_rectangular n df : rectangular df -> rectangular (head n df).
Proof.
  unfold rectangular, head. simpl. rewrite !Forall_forall.
  intros H cells Hc. apply H.
  rewrite <- (firstn_skipn n (data df)). apply in_or_app. now left.
Qed.

Lemma readable_strict_bundles rows :
  forallb readable_strict rows
  = forallb (fun o => match o with Some v => textual v | None => false end)
      (map (fun r => lookup r "news_titles") rows).
Proof.
  induction rows as [|r rows IH]; [reflexivity|].
  simpl. now rewrite IH.
Qed.

Lemma set_at_rows df i col v :
  List.length (data (set_at df i col v)) = List.length (data df).
Proof.
  unfold set_at. destruct (index_of col (columns df)); [|reflexivity].
  destruct (nth_error (data df) i); [|reflexivity].
  simpl. apply set_nth_length.
Qed.


End FrameUpdates.

Section CorrectRows.
Import CorrectSentimentAnalyzer.
Context {scorer : ExternalScorer}.
Context {python : Interpreter}.

Lemma correct_analyze_textual v w :
  textual v = true -> exists b w', analyze_news_titles v w = (Ok b, w').
Proof.
  destruct v as [|s|z|q]; try discriminate; intros _.
  - now exists zero_result, w.
  - destruct (split_titles (split PIPE s)) as [|t ts] eqn:Et.
    + exists zero_result, w. now apply correct_analyze_no_title.
    + destruct (correct_analyze_scored s w) as (scores & w' & _ & _ & H).
      { rewrite Et. discriminate. }
      eauto.
Qed.




(** The five assignments of a scalar before the loop keep the rows,
    and the bundles in them. *)
Lemma initialised_frame df :
  rectangular df ->
  let df' :=
    set_column
      (set_column
         (set_column
            (set_column (set_column df "avg_sentiment_score" (Float 0))
               "positive_count" (Int 0))
            "negative_count" (Int 0))
         "neutral_count" (Int 0))
      "total_titles" (Int 0) in
  List.length (data df') = List.length (data df)
  /\ forallb readable_strict (iterrows df')
     = forallb readable_strict (iterrows df).
Proof.
  intros R df'. unfold df'. split.
  - now rewrite !set_column_rows.
  - rewrite !readable_strict_bundles.
    repeat (rewrite set_column_bundles;
            [|repeat apply set_column_rectangular; exact R|discriminate]).
    reflexivity.
Qed.



End CorrectRows.

(** ** Failure isolation in the row processors *)

Section Isolation.
Context {scorer : ExternalScorer}.
Context {python : Interpreter}.


End Isolation.



(** ** Idempotence of the normalisers *)

Section Normalisers.
Context {U : UnicodeData}.

Lemma forallb_lstrip (p : N -> bool) s :
  forallb p s = true -> forallb p (lstrip s) = true.
Proof.
  induction s as [|c s IH]; [reflexivity|].
  intros H. simpl. destruct (isspace c); [|exact H].
  apply IH. simpl in H. now apply andb_true_iff in H.
Qed.

Lemma forallb_rstrip (p : N -> bool) s :
  forallb p s = true -> forallb p (rstrip s) = true.
Proof.
  induction s as [|c s IH]; [reflexivity|].
  simpl. rewrite andb_true_iff. intros [Hc Hs]. specialize (IH Hs).
  destruct (rstrip s) as [|d r].
  - destruct (isspace c); [reflexivity|]. simpl. now rewrite Hc.
  - change (p c && forallb p (d :: r) = true). now rewrite Hc, IH.
Qed.

Lemma forallb_strip (p : N -> bool) s :
  forallb p s = true -> forallb p (strip s) = true.
Proof. intros H. now apply forallb_rstrip, forallb_lstrip. Qed.

Lemma forallb_sub_spaces (p : N -> bool) s :
  p SPACE = true -> forallb p s = true -> forallb p (sub_spaces s) = true.
Proof.
  intros Hp. induction s as [|c s IH]; [reflexivity|].
  cbn [forallb sub_spaces]. rewrite andb_true_iff. intros [Hc Hs].
  specialize (IH Hs). destruct (isspace c).
  - destruct s as [|d s]; [simpl; now rewrite Hp|].
    destruct (isspace d); [exact IH|].
    cbn [forallb]. now rewrite Hp, IH.
  - cbn [forallb]. now rewrite Hc, IH.
Qed.

Lemma fixed_kept_SPACE : FixedSentimentAnalyzer.kept SPACE = true.
Proof. reflexivity. Qed.

Lemma fixed_replace_kept s :
  forallb FixedSentimentAnalyzer.kept
    (map (fun c => if FixedSentimentAnalyzer.kept c then c else SPACE) s)
  = true.
Proof.
  induction s as [|c s IH]; [reflexivity|].
  simpl. rewrite IH, andb_true_r.
  destruct (FixedSentimentAnalyzer.kept c) eqn:E; [exact E|].
  apply fixed_kept_SPACE.
Qed.

Lemma fixed_replace_fixed s :
  forallb FixedSentimentAnalyzer.kept s = true ->
  map (fun c => if FixedSentimentAnalyzer.kept c then c else SPACE) s = s.
Proof.
  induction s as [|c s IH]; [reflexivity|].
  simpl. rewrite andb_true_iff. intros [Hc Hs]. now rewrite Hc, IH.
Qed.

Lemma fixed_clean_text_unfold text :
  FixedSentimentAnalyzer.clean_text text
  = strip (sub_spaces
             (map (fun c => if FixedSentimentAnalyzer.kept c then c else SPACE)
                (strip text))).
Proof. unfold FixedSentimentAnalyzer.clean_text. now destruct text. Qed.

(** X2: [clean_text] of sentiment_analyzer_fixed.py, which replaces
    the symbols by spaces before it collapses the whitespace, is
    idempotent. *)
Lemma fixed_clean_text_idempotent text :
  FixedSentimentAnalyzer.clean_text (FixedSentimentAnalyzer.clean_text text)
  = FixedSentimentAnalyzer.clean_text text.
Proof.
  rewrite (fixed_clean_text_unfold (FixedSentimentAnalyzer.clean_text text)).
  rewrite fixed_clean_text_unfold.
  set (t := sub_spaces (map _ (strip text))).
  assert (Hk : forallb FixedSentimentAnalyzer.kept t = true).
  { apply forallb_sub_spaces; [apply fixed_kept_SPACE|].
    apply fixed_replace_kept. }
  assert (Hc : collapsed t = true) by apply sub_spaces_collapsed.
  rewrite strip_idem.
  rewrite fixed_replace_fixed by now apply forallb_strip.
  rewrite sub_spaces_fixed by now apply strip_collapsed.
  apply strip_idem.
Qed.

(** C10 on sentiment_analyzer_correct.py: ["a . b"] is normalised to
    ["a  b"], with two spaces where the full stop was removed after
    the runs of whitespace had been collapsed, and normalising that
    again gives ["a b"]. *)
Theorem correct_clean_text_twice :
  CorrectSentimentAnalyzer.clean_text (lit "a . b") = lit "a  b"
  /\ CorrectSentimentAnalyzer.clean_text
       (CorrectSentimentAnalyzer.clean_text (lit "a . b")) = lit "a b"
  /\ lit "a b" <> lit "a  b".
Proof. split; [reflexivity|]. split; [reflexivity|discriminate]. Qed.

End Normalisers.

(** * Further properties *)

(** ** What reaches the External Scorer *)

Section Submissions.
Context {scorer : ExternalScorer}.
Context {python : Interpreter}.

(** The guard of the three scorers, [not text or text.strip() == ""],
    holds exactly on the texts made of whitespace. *)
Lemma guard_blank text :
  negb (truthy text) || str_eqb (strip text) [] = blank text.
Proof.
  destruct text as [|c text]; [reflexivity|].
  cbn [truthy negb orb]. rewrite str_eqb_nil.
  destruct (blank (c :: text)) eqn:B.
  - apply strip_nil_iff in B. now rewrite B.
  - destruct (truthy (strip (c :: text))) eqn:T; [reflexivity|].
    apply truthy_false, strip_nil_iff in T. congruence.
Qed.

(** The world after one submission of [text]. *)
Lemma correct_score_invokes text w r s' :
  blank text = false ->
  classify (state w) text = (r, s') ->
  exists score,
    CorrectSentimentAnalyzer.get_sentiment_score text w
    = (Ok score, World s' (calls w ++ [text])).
Proof.
  intros Hb Hc. unfold CorrectSentimentAnalyzer.get_sentiment_score.
  rewrite guard_blank, Hb.
  unfold try_except, bind, invoke. rewrite Hc.
  destruct r as [prob|e]; [|run; eauto].
  destruct prob as [|neu [|neg [|pos rest]]]; run; eauto.
Qed.

Lemma analyze_sentiment_invokes text w r s' :
  blank text = false ->
  classify (state w) text = (r, s') ->
  exists score,
    FixedSentimentAnalyzer.analyze_sentiment text w
    = (Ok score, World s' (calls w ++ [text])).
Proof.
  intros Hb Hc. unfold FixedSentimentAnalyzer.analyze_sentiment.
  rewrite guard_blank, Hb.
  unfold try_except, bind, invoke. rewrite Hc.
  destruct r as [prob|e]; [|run; eauto].
  destruct prob as [|s0 [|s1 [|s2 [|s3 [|s4 rest]]]]]; run; eauto.
Qed.

(** X4: none of the three scorers ([get_sentiment_score] of
    sentiment_analyzer.py and of sentiment_analyzer_correct.py,
    [analyze_sentiment] of sentiment_analyzer_fixed.py) ever raises.  A
    text made of whitespace, the empty text included, scores 0 and is
    not submitted to the External Scorer; any other text is submitted
    exactly once, whatever the External Scorer answers. *)
Theorem scorers_submit_once text w :
  let submitted :=
    World (snd (classify (state w) text)) (calls w ++ [text]) in
  if blank text then
    SentimentAnalyzer.get_sentiment_score text w
    = (Ok SentimentAnalyzer.zero_reading, w)
    /\ CorrectSentimentAnalyzer.get_sentiment_score text w = (Ok 0, w)
    /\ FixedSentimentAnalyzer.analyze_sentiment text w = (Ok 0, w)
  else
    (exists sd,
        SentimentAnalyzer.get_sentiment_score text w = (Ok sd, submitted))
    /\ (exists score,
           CorrectSentimentAnalyzer.get_sentiment_score text w
           = (Ok score, submitted))
    /\ (exists score,
           FixedSentimentAnalyzer.analyze_sentiment text w
           = (Ok score, submitted)).
Proof.
  intros submitted. destruct (blank text) eqn:B.
  - unfold SentimentAnalyzer.get_sentiment_score,
      CorrectSentimentAnalyzer.get_sentiment_score,
      FixedSentimentAnalyzer.analyze_sentiment.
    rewrite guard_blank, B. repeat split.
  - unfold submitted.
    destruct (classify (state w) text) as [r s'] eqn:Hc. simpl.
    split; [|split].
    + apply get_sentiment_score_invokes with (r := r);
        [now rewrite guard_blank|exact Hc].
    + now apply correct_score_invokes with (r := r).
    + now apply analyze_sentiment_invokes with (r := r).
Qed.

(** Every item that a splitter keeps is submitted. *)
Lemma item_not_blank item :
  item <> [] -> strip item = item -> blank item = false.
Proof.
  intros Hne Hs. destruct (blank item) eqn:B; [|reflexivity].
  apply strip_nil_iff in B. congruence.
Qed.

Lemma base_items_not_blank pieces :
  Forall (fun item => blank item = false)
    (SentimentAnalyzer.split_titles pieces).
Proof.
  rewrite Forall_forall. intros item Hi.
  pose proof (split_titles_guard _ _ Hi) as G.
  now rewrite guard_blank in G.
Qed.

Lemma strip_items_not_blank pieces :
  Forall (fun item => blank item = false)
    (CorrectSentimentAnalyzer.split_titles pieces).
Proof.
  rewrite Forall_forall. intros item Hi.
  pose proof (strip_split_titles_guard _ _ Hi) as G.
  now rewrite guard_blank in G.
Qed.

Lemma base_loop_log titles acc w scores w' :
  Forall (fun item => blank item = false) titles ->
  SentimentAnalyzer.score_titles titles acc w = (Ok scores, w') ->
  calls w' = calls w ++ titles.
Proof.
  revert acc w. induction titles as [|t ts IH]; intros acc w Hb H.
  - simpl in H. inversion H. now rewrite app_nil_r.
  - inversion Hb as [|? ? Ht Hts]; subst.
    destruct (classify (state w) t) as [r s'] eqn:Hc.
    destruct (get_sentiment_score_invokes t w) with (r := r) (s' := s')
      as (sd & E); [now rewrite guard_blank|exact Hc|].
    erewrite score_titles_cons in H by exact E.
    apply IH in H; [|assumption]. rewrite H. simpl.
    now rewrite <- app_assoc.
Qed.

Lemma correct_loop_log titles acc w scores w' :
  Forall (fun item => blank item = false) titles ->
  CorrectSentimentAnalyzer.score_titles titles acc w = (Ok scores, w') ->
  calls w' = calls w ++ titles.
Proof.
  revert acc w. induction titles as [|t ts IH]; intros acc w Hb H.
  - simpl in H. inversion H. now rewrite app_nil_r.
  - inversion Hb as [|? ? Ht Hts]; subst.
    destruct (classify (state w) t) as [r s'] eqn:Hc.
    destruct (correct_score_invokes t w Ht Hc) as (sc & E).
    cbn [CorrectSentimentAnalyzer.score_titles] in H.
    erewrite bind_ok in H by exact E.
    apply IH in H; [|assumption]. rewrite H. simpl.
    now rewrite <- app_assoc.
Qed.

Lemma fixed_loop_log titles t w t' w' :
  Forall (fun item => blank item = false) titles ->
  FixedSentimentAnalyzer.score_titles titles t w = (Ok t', w') ->
  calls w' = calls w ++ titles.
Proof.
  revert t w. induction titles as [|x ts IH]; intros t w Hb H.
  - simpl in H. inversion H. now rewrite app_nil_r.
  - inversion Hb as [|? ? Ht Hts]; subst.
    destruct (classify (state w) x) as [r s'] eqn:Hc.
    destruct (analyze_sentiment_invokes x w Ht Hc) as (sc & E).
    cbn [FixedSentimentAnalyzer.score_titles] in H.
    erewrite bind_ok in H by exact E.
    apply IH in H; [|assumption]. rewrite H. simpl.
    now rewrite <- app_assoc.
Qed.

End Submissions.

Section CallLog.
Context {scorer : ExternalScorer}.
Context {python : Interpreter}.

(** X5: on every text bundle the three aggregators return a result and
    submit to the External Scorer exactly the items of the bundle, each
    once and in the order of the bundle, and nothing else;
    [total_titles] is the number of those submissions. *)
Theorem one_call_per_item s w :
  (exists a w',
      SentimentAnalyzer.analyze_news_titles (Str s) w = (Ok a, w')
      /\ calls w' = calls w ++ SentimentAnalyzer.split_titles (split PIPE s)
      /\ total_titles (SentimentAnalyzer.fields a)
         = len (SentimentAnalyzer.split_titles (split PIPE s)))
  /\ (exists b w',
         CorrectSentimentAnalyzer.analyze_news_titles (Str s) w = (Ok b, w')
         /\ calls w'
            = calls w ++ CorrectSentimentAnalyzer.split_titles (split PIPE s)
         /\ total_titles b
            = len (CorrectSentimentAnalyzer.split_titles (split PIPE s)))
  /\ (exists b w',
         FixedSentimentAnalyzer.analyze_news_titles (Str s) w = (Ok b, w')
         /\ calls w'
            = calls w ++ FixedSentimentAnalyzer.split_titles (split PIPE s)
         /\ total_titles b
            = len (FixedSentimentAnalyzer.split_titles (split PIPE s))).
Proof.
  split; [|split].
  - destruct (SentimentAnalyzer.split_titles (split PIPE s)) as [|t ts] eqn:Et.
    + exists SentimentAnalyzer.zero_analysis, w.
      rewrite (analyze_news_titles_no_title _ _ Et), app_nil_r. repeat split.
    + destruct (analyze_news_titles_scored s w) as (scores & w' & Hs & _ & Ha).
      { rewrite Et. discriminate. }
      eexists. exists w'. split; [exact Ha|]. rewrite Et in *. split.
      * eapply base_loop_log; [|exact Hs].
        rewrite <- Et. apply base_items_not_blank.
      * reflexivity.
  - destruct (CorrectSentimentAnalyzer.split_titles (split PIPE s))
      as [|t ts] eqn:Et.
    + exists zero_result, w.
      rewrite (correct_analyze_no_title _ _ Et), app_nil_r. repeat split.
    + destruct (correct_analyze_scored s w) as (scores & w' & Hs & _ & Ha).
      { rewrite Et. discriminate. }
      eexists. exists w'. split; [exact Ha|]. rewrite Et in *. split.
      * eapply correct_loop_log; [|exact Hs].
        rewrite <- Et. apply strip_items_not_blank.
      * reflexivity.
  - destruct (FixedSentimentAnalyzer.split_titles (split PIPE s))
      as [|t ts] eqn:Et.
    + exists zero_result, w.
      rewrite (fixed_analyze_no_title _ _ Et), app_nil_r. repeat split.
    + destruct (fixed_score_titles_total (t :: ts)
                  (FixedSentimentAnalyzer.Tally [] 0 0 0) w)
        as (scores & t' & w' & Hs & _).
      destruct (fixed_analyze_scored s w) as (scores' & w'' & _ & Ha).
      { rewrite Et. discriminate. }
      assert (Hw : w'' = w').
      { unfold FixedSentimentAnalyzer.analyze_news_titles in Ha.
        cbn [isna strip_value split_pipe] in Ha.
        unfold bind at 1, ret at 1 in Ha.
        destruct (str_eqb (strip s) []) eqn:Es.
        - unfold ret in Ha. inversion Ha; subst.
          exfalso. apply str_eqb_true, strip_nil_iff in Es.
          pose proof (strip_split_titles_blank _ Es) as Z.
          rewrite <- fixed_split_titles, Et in Z. discriminate.
        - unfold bind at 1, ret at 1 in Ha. rewrite Et in Ha.
          cbn [truthy_list negb] in Ha.
          erewrite bind_ok in Ha by exact Hs. unfold ret in Ha.
          now inversion Ha. }
      subst w''. eexists. exists w'. split; [exact Ha|]. rewrite Et in *.
      split; [|reflexivity].
      eapply fixed_loop_log; [|exact Hs].
      rewrite <- Et, fixed_split_titles. apply strip_items_not_blank.
Qed.

End CallLog.

(** ** A scorer that is down *)

Section ScorerDown.
Context {scorer : ExternalScorer}.
Context {python : Interpreter}.

Lemma sum_ones_zeros (p : Q -> bool) n :
  p 0 = false -> sum_ones p (repeat 0 n) = 0%Z.
Proof.
  intros Hp. induction n as [|n IH]; [reflexivity|].
  simpl repeat. now rewrite sum_ones_cons, Hp, IH.
Qed.

Lemma total_zeros n : total (repeat 0 n) == 0.
Proof. induction n as [|n IH]; simpl; [reflexivity|]. rewrite IH. ring. Qed.

(** Zeros add up to zero, and zero divided is zero: nothing is
    rounded. *)
Lemma fold_add_zeros fmt n : fold_left (add fmt) (repeat 0 n) 0 = 0.
Proof. induction n as [|n IH]; [reflexivity|]. simpl. exact IH. Qed.

Lemma average_zeros n :
  float_div (py_sum (repeat 0 n)) (len (repeat 0 n)) == 0.
Proof.
  unfold py_sum. rewrite fold_add_zeros, compensated_sum_zeros.
  now destruct sum_compensates.
Qed.

Lemma tensor_average_zeros n :
  tensor_div (tensor_sum (repeat 0 n)) (len (repeat 0 n)) == 0.
Proof.
  unfold tensor_sum, tensor_add. rewrite fold_add_zeros. reflexivity.
Qed.

Lemma repeat_snoc {A} (a : A) n : repeat a n ++ [a] = a :: repeat a n.
Proof. induction n as [|n IH]; simpl; [reflexivity|]. now rewrite IH. Qed.

Lemma len_repeat {A} (a : A) n : len (repeat a n) = Z.of_nat n.
Proof. unfold len. now rewrite repeat_length. Qed.

(** What the loop of sentiment_analyzer_fixed.py makes of the result. *)
Lemma fixed_analyze_loop s w t w' :
  FixedSentimentAnalyzer.split_titles (split PIPE s) <> [] ->
  FixedSentimentAnalyzer.score_titles
    (FixedSentimentAnalyzer.split_titles (split PIPE s))
    (FixedSentimentAnalyzer.Tally [] 0 0 0) w = (Ok t, w') ->
  FixedSentimentAnalyzer.analyze_news_titles (Str s) w
  = (Ok (BundleResult
           (if truthy_list (FixedSentimentAnalyzer.sentiment_scores t)
            then float_div (py_sum (FixedSentimentAnalyzer.sentiment_scores t))
                   (len (FixedSentimentAnalyzer.sentiment_scores t))
            else 0)
           (FixedSentimentAnalyzer.positive_count t)
           (FixedSentimentAnalyzer.negative_count t)
           (FixedSentimentAnalyzer.neutral_count t)
           (len (FixedSentimentAnalyzer.split_titles (split PIPE s)))), w').
Proof.
  intros Hne Hs. unfold FixedSentimentAnalyzer.analyze_news_titles.
  cbn [isna strip_value split_pipe]. unfold bind at 1, ret at 1.
  destruct (str_eqb (strip s) []) eqn:Es.
  - exfalso. apply Hne. rewrite fixed_split_titles.
    apply strip_split_titles_blank, strip_nil_iff. now apply str_eqb_true.
  - unfold bind at 1, ret at 1.
    destruct (FixedSentimentAnalyzer.split_titles (split PIPE s))
      as [|x xs] eqn:Et; [congruence|].
    cbn [truthy_list negb]. now erewrite bind_ok by exact Hs.
Qed.

Section AlwaysRaises.
Hypothesis down : forall st text, exists e st', classify st text = (Raise e, st').

Lemma base_score_down text w :
  exists w',
    SentimentAnalyzer.get_sentiment_score text w
    = (Ok SentimentAnalyzer.zero_reading, w').
Proof.
  destruct (negb (truthy text) || str_eqb (strip text) []) eqn:G.
  - exists w. now apply get_sentiment_score_blank.
  - destruct (down (state w) text) as (e & st' & Hc).
    eexists. apply (get_sentiment_score_raise text w G Hc).
Qed.

Lemma correct_score_down text w :
  exists w', CorrectSentimentAnalyzer.get_sentiment_score text w = (Ok 0, w').
Proof.
  unfold CorrectSentimentAnalyzer.get_sentiment_score.
  destruct (negb (truthy text) || str_eqb (strip text) []).
  - now exists w.
  - destruct (down (state w) text) as (e & st' & Hc).
    unfold try_except, bind, invoke. rewrite Hc. run. eauto.
Qed.

Lemma fixed_score_down text w :
  exists w', FixedSentimentAnalyzer.analyze_sentiment text w = (Ok 0, w').
Proof.
  unfold FixedSentimentAnalyzer.analyze_sentiment.
  destruct (negb (truthy text) || str_eqb (strip text) []).
  - now exists w.
  - destruct (down (state w) text) as (e & st' & Hc).
    unfold try_except, bind, invoke. rewrite Hc. run. eauto.
Qed.

Lemma base_loop_down titles acc w :
  exists w',
    SentimentAnalyzer.score_titles titles acc w
    = (Ok (acc ++ repeat 0 (List.length titles)), w').
Proof.
  revert acc w. induction titles as [|t ts IH]; intros acc w.
  - exists w. simpl. now rewrite app_nil_r.
  - destruct (base_score_down t w) as (w1 & E).
    erewrite score_titles_cons by exact E.
    change (SentimentAnalyzer.sentiment_score SentimentAnalyzer.zero_reading)
      with 0.
    destruct (IH (acc ++ [0]) w1) as (w' & H). exists w'.
    rewrite H. simpl. now rewrite <- app_assoc.
Qed.

Lemma correct_loop_down titles acc w :
  exists w',
    CorrectSentimentAnalyzer.score_titles titles acc w
    = (Ok (acc ++ repeat 0 (List.length titles)), w').
Proof.
  revert acc w. induction titles as [|t ts IH]; intros acc w.
  - exists w. simpl. now rewrite app_nil_r.
  - destruct (correct_score_down t w) as (w1 & E).
    cbn [CorrectSentimentAnalyzer.score_titles].
    erewrite bind_ok by exact E.
    destruct (IH (acc ++ [0]) w1) as (w' & H). exists w'.
    rewrite H. simpl. now rewrite <- app_assoc.
Qed.

Lemma fixed_loop_down titles t w :
  exists w',
    FixedSentimentAnalyzer.score_titles titles t w
    = (Ok (FixedSentimentAnalyzer.Tally
             (FixedSentimentAnalyzer.sentiment_scores t
              ++ repeat 0 (List.length titles))
             (FixedSentimentAnalyzer.positive_count t)
             (FixedSentimentAnalyzer.negative_count t)
             (FixedSentimentAnalyzer.neutral_count t
              + Z.of_nat (List.length titles))), w').
Proof.
  revert t w. induction titles as [|x ts IH]; intros t w.
  - exists w. simpl. rewrite app_nil_r, Z.add_0_r. now destruct t.
  - destruct (fixed_score_down x w) as (w1 & E).
    cbn [FixedSentimentAnalyzer.score_titles].
    erewrite bind_ok by exact E.
    destruct (IH (FixedSentimentAnalyzer.count_score t 0) w1) as (w' & H).
    exists w'. rewrite H. unfold FixedSentimentAnalyzer.count_score.
    change (above 0) with false. change (below 0) with false.
    cbn [FixedSentimentAnalyzer.sentiment_scores
           FixedSentimentAnalyzer.positive_count
           FixedSentimentAnalyzer.negative_count
           FixedSentimentAnalyzer.neutral_count].
    rewrite <- app_assoc. simpl List.length. simpl app.
    rewrite Nat2Z.inj_succ, <- Z.add_1_l, Z.add_assoc. reflexivity.
Qed.

(** X6: when the External Scorer raises on every call, the three
    aggregators still return on every text bundle, and the result is
    not the zero result: with n items in the bundle it has an average of
    0, no positive and no negative item, and [neutral_count] and
    [total_titles] both n. *)
Theorem scorer_down_all_neutral s w :
  (exists a w',
      SentimentAnalyzer.analyze_news_titles (Str s) w = (Ok a, w')
      /\ SentimentAnalyzer.individual_scores a
         = repeat 0 (List.length
                       (SentimentAnalyzer.split_titles (split PIPE s)))
      /\ avg_sentiment_score (SentimentAnalyzer.fields a) == 0
      /\ positive_count (SentimentAnalyzer.fields a) = 0%Z
      /\ negative_count (SentimentAnalyzer.fields a) = 0%Z
      /\ neutral_count (SentimentAnalyzer.fields a)
         = len (SentimentAnalyzer.split_titles (split PIPE s))
      /\ total_titles (SentimentAnalyzer.fields a)
         = len (SentimentAnalyzer.split_titles (split PIPE s)))
  /\ (exists b w',
         CorrectSentimentAnalyzer.analyze_news_titles (Str s) w = (Ok b, w')
         /\ avg_sentiment_score b == 0
         /\ positive_count b = 0%Z /\ negative_count b = 0%Z
         /\ neutral_count b
            = len (CorrectSentimentAnalyzer.split_titles (split PIPE s))
         /\ total_titles b
            = len (CorrectSentimentAnalyzer.split_titles (split PIPE s)))
  /\ (exists b w',
         FixedSentimentAnalyzer.analyze_news_titles (Str s) w = (Ok b, w')
         /\ avg_sentiment_score b == 0
         /\ positive_count b = 0%Z /\ negative_count b = 0%Z
         /\ neutral_count b
            = len (FixedSentimentAnalyzer.split_titles (split PIPE s))
         /\ total_titles b
            = len (FixedSentimentAnalyzer.split_titles (split PIPE s))).
Proof.
  split; [|split].
  - destruct (SentimentAnalyzer.split_titles (split PIPE s)) as [|t ts] eqn:Et.
    + exists SentimentAnalyzer.zero_analysis, w.
      rewrite (analyze_news_titles_no_title _ _ Et). repeat split.
    + destruct (analyze_news_titles_scored s w) as (scores & w' & Hs & _ & Ha).
      { rewrite Et. discriminate. }
      rewrite Et in Hs, Ha.
      destruct (base_loop_down (t :: ts) [] w) as (w1 & Hd).
      rewrite Hd in Hs. cbn [app] in Hs.
      injection Hs as Hsc Hw. subst scores w1.
      eexists. exists w'. split; [exact Ha|].
      cbn [SentimentAnalyzer.individual_scores SentimentAnalyzer.fields
             avg_sentiment_score positive_count negative_count
             neutral_count total_titles app].
      change (0 :: repeat 0 (List.length ts))
        with (repeat 0 (S (List.length ts))).
      rewrite !sum_ones_zeros by reflexivity.
      split; [reflexivity|]. split; [apply average_zeros|].
      split; [reflexivity|]. split; [reflexivity|].
      split; [|reflexivity].
      rewrite len_repeat. unfold len. cbn [List.length]. lia.
  - destruct (CorrectSentimentAnalyzer.split_titles (split PIPE s))
      as [|t ts] eqn:Et.
    + exists zero_result, w.
      rewrite (correct_analyze_no_title _ _ Et). repeat split.
    + destruct (correct_analyze_scored s w) as (scores & w' & Hs & _ & Ha).
      { rewrite Et. discriminate. }
      rewrite Et in Hs, Ha.
      destruct (correct_loop_down (t :: ts) [] w) as (w1 & Hd).
      rewrite Hd in Hs. cbn [app] in Hs.
      injection Hs as Hsc Hw. subst scores w1.
      eexists. exists w'. split; [exact Ha|].
      cbn [avg_sentiment_score positive_count negative_count
             neutral_count total_titles app].
      change (0 :: repeat 0 (List.length ts))
        with (repeat 0 (S (List.length ts))).
      rewrite !sum_ones_zeros by reflexivity.
      split; [apply tensor_average_zeros|].
      split; [reflexivity|]. split; [reflexivity|].
      split; [|reflexivity].
      rewrite len_repeat. unfold len. cbn [List.length]. lia.
  - destruct (FixedSentimentAnalyzer.split_titles (split PIPE s))
      as [|t ts] eqn:Et.
    + exists zero_result, w.
      rewrite (fixed_analyze_no_title _ _ Et). repeat split.
    + destruct (fixed_loop_down (t :: ts)
                  (FixedSentimentAnalyzer.Tally [] 0 0 0) w) as (w' & Hd).
      assert (Hne : FixedSentimentAnalyzer.split_titles (split PIPE s) <> [])
        by (rewrite Et; discriminate).
      rewrite <- Et in Hd at 1.
      pose proof (fixed_analyze_loop s w Hne Hd) as Ha.
      eexists. exists w'. split; [exact Ha|].
      cbn [FixedSentimentAnalyzer.sentiment_scores
             FixedSentimentAnalyzer.positive_count
             FixedSentimentAnalyzer.negative_count
             FixedSentimentAnalyzer.neutral_count
             avg_sentiment_score positive_count negative_count
             neutral_count total_titles app List.length repeat truthy_list].
      split; [apply (average_zeros (S (List.length ts)))|].
      rewrite Et. unfold len. cbn [List.length]. repeat split; lia.
Qed.

End AlwaysRaises.
End ScorerDown.

Lemma scorer_down_all_neutral_witness :
  exists a w',
    SentimentAnalyzer.analyze_news_titles Stub.three_titles Stub.fresh_broken
    = (Ok a, w')
    /\ SentimentAnalyzer.individual_scores a = [0; 0; 0]
    /\ neutral_count (SentimentAnalyzer.fields a) = 3%Z
    /\ total_titles (SentimentAnalyzer.fields a) = 3%Z.
Proof.
  assert (D : forall st text, exists e st',
               classify (ExternalScorer := Stub.broken) st text
               = (Raise e, st')).
  { intros st text. now exists ScorerError, st. }
  destruct (scorer_down_all_neutral (scorer := Stub.broken) D
              (lit "x|y|z") Stub.fresh_broken)
    as [(a & w' & Ha & Hs & _ & _ & _ & Hn & Ht) _].
  exists a, w'. repeat split; assumption.
Defined.

(** ** The five-star score *)

Section FiveStars.
Context {scorer : ExternalScorer}.
Context {python : Interpreter}.

(** One operation on tensors: a result within [-n, n] before it is
    rounded stays there, and moves by at most [n / 2 ^ 24]. *)
Lemma tensor_step x n :
  (1 <= n <= 4)%Z ->
  - inject_Z n <= x <= inject_Z n ->
  - inject_Z n <= round binary32 x <= inject_Z n
  /\ - (inject_Z n * pow2 (- 24)) <= round binary32 x - x
     <= inject_Z n * pow2 (- 24).
Proof.
  intros Hn Hx. split.
  - apply round_in_range; [cbn; lia|cbn; lia| |exact Hx].
    change (2 ^ precision binary32)%Z with 16777216%Z. lia.
  - apply Qabs_Qle_condition.
    apply (@round_error_bound binary32); [cbn; lia| |].
    + change 1 with (inject_Z 1). rewrite <- Zle_Qle. lia.
    + now apply Qabs_Qle_condition.
Qed.

Lemma tensor_mul_weight p c :
  scalar c == c -> tensor_mul p c == round binary32 (p * c).
Proof.
  intros E. unfold tensor_mul, mul. apply round_comp. now rewrite E.
Qed.

Lemma analyze_sentiment_weighted text w p1 p2 p3 p4 p5 s' :
  blank text = false ->
  classify (state w) text = (Ok [p1; p2; p3; p4; p5], s') ->
  FixedSentimentAnalyzer.analyze_sentiment text w
  = (Ok (FixedSentimentAnalyzer.weighted p1 p2 p3 p4 p5),
     World s' (calls w ++ [text])).
Proof.
  intros Hb Hc. unfold FixedSentimentAnalyzer.analyze_sentiment.
  rewrite guard_blank, Hb. unfold try_except, bind, invoke. rewrite Hc.
  reflexivity.
Qed.

(** Rounding to a tensor keeps the order, and leaves -1, 0 and 1 as
    they are. *)
Lemma tensor_round_le x y : x <= y -> round binary32 x <= round binary32 y.
Proof. apply round_le; cbn; lia. Qed.

Lemma tensor_round_between x lo hi :
  scalar lo == lo -> scalar hi == hi -> lo <= x <= hi ->
  lo <= round binary32 x <= hi.
Proof.
  unfold scalar. intros El Eh [H1 H2]. split.
  - rewrite <- El. now apply tensor_round_le.
  - rewrite <- Eh. now apply tensor_round_le.
Qed.

(** On entries of a tensor that are probabilities adding up to 1 the
    weighted sum stays within [-1, 1] at every step. *)
Lemma weighted_in_range p1 p2 p3 p4 p5 :
  0 <= p1 -> 0 <= p2 -> 0 <= p3 -> 0 <= p4 -> 0 <= p5 ->
  scalar p1 == p1 -> scalar p2 == p2 -> scalar p4 == p4 ->
  scalar p5 == p5 ->
  p1 + p2 + p3 + p4 + p5 == 1 ->
  - (1) <= FixedSentimentAnalyzer.weighted p1 p2 p3 p4 p5 <= 1.
Proof.
  intros H1 H2 H3 H4 H5 R1 R2 R4 R5 Hs.
  assert (Z0 : scalar 0 == 0) by reflexivity.
  assert (Zm : scalar (- (1)) == - (1)) by reflexivity.
  assert (Z1 : scalar 1 == 1) by reflexivity.
  assert (Rm1 : scalar (- p1) == - p1).
  { unfold scalar in *. now rewrite round_opp, R1. }
  assert (Rm2 : scalar (- p2) == - p2).
  { unfold scalar in *. now rewrite round_opp, R2. }
  unfold FixedSentimentAnalyzer.weighted.
  pose proof (@tensor_mul_weight p1 (- (1)) eq_refl) as E0.
  pose proof (@tensor_mul_weight p2 (- (1 # 2)) eq_refl) as E1.
  pose proof (@tensor_mul_weight p3 0 eq_refl) as E2.
  pose proof (@tensor_mul_weight p4 (1 # 2) eq_refl) as E3.
  pose proof (@tensor_mul_weight p5 1 eq_refl) as E4.
  assert (M0 : - p1 <= round binary32 (p1 * - (1)) <= - p1)
    by (apply tensor_round_between; [exact Rm1|exact Rm1|split; lra]).
  assert (M1 : - p2 <= round binary32 (p2 * - (1 # 2)) <= 0)
    by (apply tensor_round_between; [exact Rm2|exact Z0|split; lra]).
  assert (M2 : 0 <= round binary32 (p3 * 0) <= 0)
    by (apply tensor_round_between; [exact Z0|exact Z0|split; lra]).
  assert (M3 : 0 <= round binary32 (p4 * (1 # 2)) <= p4)
    by (apply tensor_round_between; [exact Z0|exact R4|split; lra]).
  assert (M4 : p5 <= round binary32 (p5 * 1) <= p5)
    by (apply tensor_round_between; [exact R5|exact R5|split; lra]).
  rewrite <- E0 in M0. rewrite <- E1 in M1. rewrite <- E2 in M2.
  rewrite <- E3 in M3. rewrite <- E4 in M4.
  set (m0 := tensor_mul p1 (- (1))) in *.
  set (m1 := tensor_mul p2 (- (1 # 2))) in *.
  set (m2 := tensor_mul p3 0) in *.
  set (m3 := tensor_mul p4 (1 # 2)) in *.
  set (m4 := tensor_mul p5 1) in *.
  unfold tensor_add, add.
  assert (A1 : - (1) <= round binary32 (m0 + m1) <= 0)
    by (apply tensor_round_between; [exact Zm|exact Z0|split; lra]).
  set (a1 := round binary32 (m0 + m1)) in *.
  assert (A2 : - (1) <= round binary32 (a1 + m2) <= 0)
    by (apply tensor_round_between; [exact Zm|exact Z0|split; lra]).
  set (a2 := round binary32 (a1 + m2)) in *.
  assert (A3 : - (1) <= round binary32 (a2 + m3) <= p4)
    by (apply tensor_round_between; [exact Zm|exact R4|split; lra]).
  set (a3 := round binary32 (a2 + m3)) in *.
  apply tensor_round_between; [exact Zm|exact Z1|split; lra].
Qed.

(** X7: when the five-star model answers a text that is not blank with
    five probabilities, [analyze_sentiment] of
    sentiment_analyzer_fixed.py returns the weighted sum of them
    computed on tensors, every product and every sum rounded to
    [torch.float32].  It is therefore not the exact weighted sum, but
    within [2 ^ -20] of it; and when the probabilities add up to 1,
    twice the exact sum is the mean star rating minus 3, which is
    within [-2, 2], so that the score is within [2 ^ -20] of
    [-1, 1], and within [-1, 1] itself when the probabilities are
    numbers of [torch.float32], as the entries of a tensor are. *)
Theorem weighted_score_in_range text w p1 p2 p3 p4 p5 s' :
  0 <= p1 <= 1 -> 0 <= p2 <= 1 -> 0 <= p3 <= 1 -> 0 <= p4 <= 1 ->
  0 <= p5 <= 1 ->
  blank text = false ->
  classify (state w) text = (Ok [p1; p2; p3; p4; p5], s') ->
  let exact := p1 * - (1) + p2 * - (1 # 2) + p3 * 0 + p4 * (1 # 2) + p5 * 1 in
  exists score,
    FixedSentimentAnalyzer.analyze_sentiment text w
    = (Ok score, World s' (calls w ++ [text]))
    /\ score = FixedSentimentAnalyzer.weighted p1 p2 p3 p4 p5
    /\ Qabs (score - exact) <= pow2 (- 20)
    /\ (p1 + p2 + p3 + p4 + p5 == 1 ->
        2 * exact == 1 * p1 + 2 * p2 + 3 * p3 + 4 * p4 + 5 * p5 - 3
        /\ - (1) <= exact <= 1
        /\ - (1) - pow2 (- 20) <= score <= 1 + pow2 (- 20)
        /\ (scalar p1 == p1 -> scalar p2 == p2 -> scalar p3 == p3 ->
            scalar p4 == p4 -> scalar p5 == p5 ->
            - (1) <= score <= 1)).
Proof.
  intros H1 H2 H3 H4 H5 Hb Hc exact.
  exists (FixedSentimentAnalyzer.weighted p1 p2 p3 p4 p5).
  split; [now apply analyze_sentiment_weighted|]. split; [reflexivity|].
  assert (B : Qabs (FixedSentimentAnalyzer.weighted p1 p2 p3 p4 p5 - exact)
              <= pow2 (- 20)).
  { unfold FixedSentimentAnalyzer.weighted, exact.
    pose proof (@tensor_mul_weight p1 (- (1)) eq_refl) as E0.
    pose proof (@tensor_mul_weight p2 (- (1 # 2)) eq_refl) as E1.
    pose proof (@tensor_mul_weight p3 0 eq_refl) as E2.
    pose proof (@tensor_mul_weight p4 (1 # 2) eq_refl) as E3.
    pose proof (@tensor_mul_weight p5 1 eq_refl) as E4.
    destruct (@tensor_step (p1 * - (1)) 1) as [M0 R0];
      [lia|change (inject_Z 1) with 1; split; lra|].
    destruct (@tensor_step (p2 * - (1 # 2)) 1) as [M1 R1];
      [lia|change (inject_Z 1) with 1; split; lra|].
    destruct (@tensor_step (p3 * 0) 1) as [M2 R2];
      [lia|change (inject_Z 1) with 1; split; lra|].
    destruct (@tensor_step (p4 * (1 # 2)) 1) as [M3 R3];
      [lia|change (inject_Z 1) with 1; split; lra|].
    destruct (@tensor_step (p5 * 1) 1) as [M4 R4];
      [lia|change (inject_Z 1) with 1; split; lra|].
    assert (Z2 : round binary32 (p3 * 0) == 0).
    { rewrite (round_comp binary32 (x := p3 * 0) (y := 0)) by ring.
      reflexivity. }
    change (inject_Z 1) with 1 in *.
    set (u := pow2 (- 24)) in *.
    set (m0 := tensor_mul p1 (- (1))) in *.
    set (m1 := tensor_mul p2 (- (1 # 2))) in *.
    set (m2 := tensor_mul p3 0) in *.
    set (m3 := tensor_mul p4 (1 # 2)) in *.
    set (m4 := tensor_mul p5 1) in *.
    unfold tensor_add, add.
    destruct (@tensor_step (m0 + m1) 2) as [A1 S1];
      [lia|change (inject_Z 2) with 2; split; lra|].
    set (a1 := round binary32 (m0 + m1)) in *.
    destruct (@tensor_step (a1 + m2) 2) as [A2 S2];
      [lia|change (inject_Z 2) with 2 in *; split; lra|].
    set (a2 := round binary32 (a1 + m2)) in *.
    destruct (@tensor_step (a2 + m3) 3) as [A3 S3];
      [lia|change (inject_Z 2) with 2 in *; change (inject_Z 3) with 3;
           split; lra|].
    set (a3 := round binary32 (a2 + m3)) in *.
    destruct (@tensor_step (a3 + m4) 4) as [A4 S4];
      [lia|change (inject_Z 3) with 3 in *; change (inject_Z 4) with 4;
           split; lra|].
    set (a4 := round binary32 (a3 + m4)) in *.
    change (inject_Z 2) with 2 in *. change (inject_Z 3) with 3 in *.
    change (inject_Z 4) with 4 in *.
    assert (U : pow2 (- 20) == 16 * u) by reflexivity.
    assert (Up : 0 < u) by apply pow2_pos.
    fold u in S1, S2, S3, S4.
    rewrite U. apply Qabs_Qle_condition.
    clearbody m0 m1 m2 m3 m4 a1 a2 a3 a4 u. split; lra. }
  split; [exact B|]. intros Hs.
  assert (X : - (1) <= exact <= 1) by (unfold exact; split; lra).
  split; [unfold exact; lra|]. split; [exact X|]. split.
  - apply Qabs_Qle_condition in B. clearbody exact. split; lra.
  - intros R1 R2 R3 R4 R5.
    apply weighted_in_range; try assumption; tauto.
Qed.

End FiveStars.

Lemma weighted_score_in_range_witness :
  exists score,
    FixedSentimentAnalyzer.analyze_sentiment (lit "x") Stub.five_stars
    = (Ok score,
       World (scorer := Stub.scripted)
         [Raise ScorerError; Ok [1; 0; 0; 0; 0]] ([] ++ [lit "x"]))
    /\ score = FixedSentimentAnalyzer.weighted 0 0 0 0 1
    /\ Qabs (score - (0 * - (1) + 0 * - (1 # 2) + 0 * 0 + 0 * (1 # 2) + 1 * 1))
       <= pow2 (- 20).
Proof.
  destruct (weighted_score_in_range (scorer := Stub.scripted)
              (lit "x") Stub.five_stars (p1 := 0) (p2 := 0) (p3 := 0)
              (p4 := 0) (p5 := 1) (s' := [Raise ScorerError;
                                           Ok [1; 0; 0; 0; 0]]))
    as (score & H & E & B & _);
    try (split; discriminate); try reflexivity.
  exists score. repeat split; assumption.
Defined.

(** ** More on strings *)

Section StripAndCollapse.

Lemma lstrip_sub_spaces s : lstrip (sub_spaces s) = sub_spaces (lstrip s).
Proof.
  induction s as [|c s IH]; [reflexivity|].
  cbn [sub_spaces lstrip]. destruct (isspace c) eqn:E.
  - destruct s as [|d s]; [reflexivity|].
    destruct (isspace d) eqn:Ed.
    + exact IH.
    + cbn [lstrip]. rewrite isspace_SPACE. exact IH.
  - cbn [lstrip sub_spaces]. now rewrite E.
Qed.

Lemma sub_spaces_nil_iff s : sub_spaces s = [] <-> s = [].
Proof.
  split; [|now intros ->].
  induction s as [|c s IH]; [reflexivity|].
  cbn [sub_spaces]. destruct (isspace c); [|discriminate].
  destruct s as [|d s]; [discriminate|].
  destruct (isspace d); [|discriminate].
  intros H. apply IH in H. discriminate.
Qed.

Lemma sub_spaces_cons_space c d s :
  isspace c = true ->
  sub_spaces (c :: d :: s)
  = if isspace d then sub_spaces (d :: s) else SPACE :: sub_spaces (d :: s).
Proof. intros E. cbn [sub_spaces]. now rewrite E. Qed.

Lemma sub_spaces_cons_clean c s :
  isspace c = false -> sub_spaces (c :: s) = c :: sub_spaces s.
Proof. intros E. cbn [sub_spaces]. now rewrite E. Qed.

(** A collapsed run of whitespace is one space. *)
Lemma sub_spaces_blank s :
  s <> [] -> blank s = true -> sub_spaces s = [SPACE].
Proof.
  induction s as [|c s IH]; [congruence|].
  intros _ B. simpl in B. apply andb_true_iff in B. destruct B as [Ec Bs].
  destruct s as [|d s]; [cbn [sub_spaces]; now rewrite Ec|].
  rewrite sub_spaces_cons_space by assumption.
  assert (Ed : isspace d = true) by (simpl in Bs; now apply andb_true_iff in Bs).
  rewrite Ed. apply IH; [discriminate|assumption].
Qed.

Lemma rstrip_blank s : blank s = true -> rstrip s = [].
Proof. apply rstrip_nil_iff. Qed.

Lemma rstrip_cons_not_blank c s :
  blank s = false -> rstrip (c :: s) = c :: rstrip s.
Proof.
  intros B. simpl. destruct (rstrip s) eqn:E; [|reflexivity].
  apply rstrip_nil_iff in E. congruence.
Qed.

Lemma rstrip_cons_blank c s :
  blank s = true ->
  rstrip (c :: s) = if isspace c then [] else [c].
Proof. intros B. simpl. now rewrite (rstrip_blank _ B). Qed.

Lemma rstrip_sub_spaces s : rstrip (sub_spaces s) = sub_spaces (rstrip s).
Proof.
  induction s as [|c s IH]; [reflexivity|].
  destruct (blank s) eqn:B.
  - rewrite rstrip_cons_blank by assumption.
    destruct (isspace c) eqn:E.
    + rewrite sub_spaces_blank; [reflexivity|discriminate|].
      simpl. now rewrite E.
    + rewrite sub_spaces_cons_clean by assumption.
      rewrite rstrip_cons_blank by now rewrite blank_sub_spaces.
      rewrite E. cbn [sub_spaces]. now rewrite E.
  - rewrite rstrip_cons_not_blank by assumption.
    destruct s as [|d s]; [discriminate|].
    assert (Hr : exists r, rstrip (d :: s) = d :: r).
    { destruct (rstrip (d :: s)) as [|d' r] eqn:Er.
      - apply rstrip_nil_iff in Er. congruence.
      - exists r. simpl in Er.
        destruct (rstrip s); [destruct (isspace d)|];
          inversion Er; reflexivity. }
    destruct Hr as (r & Er).
    destruct (isspace c) eqn:E.
    + rewrite (@sub_spaces_cons_space c d s E).
      rewrite Er. rewrite (@sub_spaces_cons_space c d r E).
      rewrite <- Er, <- IH.
      destruct (isspace d); [reflexivity|].
      apply rstrip_cons_not_blank. now rewrite blank_sub_spaces.
    + rewrite (@sub_spaces_cons_clean c (d :: s) E).
      rewrite (@sub_spaces_cons_clean c (rstrip (d :: s)) E).
      rewrite <- IH. apply rstrip_cons_not_blank.
      now rewrite blank_sub_spaces.
Qed.

(** Collapsing and stripping commute. *)
Lemma strip_sub_spaces s : strip (sub_spaces s) = sub_spaces (strip s).
Proof. unfold strip. now rewrite lstrip_sub_spaces, rstrip_sub_spaces. Qed.

Lemma clean_text_strip text :
  SentimentAnalyzer.clean_text (strip text) = SentimentAnalyzer.clean_text text.
Proof.
  rewrite !clean_text_unfold, strip_sub_spaces, strip_idem.
  now rewrite <- strip_sub_spaces.
Qed.

(** The characters that are no whitespace. *)
Lemma visible_lstrip s :
  filter (fun c => negb (isspace c)) (lstrip s)
  = filter (fun c => negb (isspace c)) s.
Proof.
  induction s as [|c s IH]; [reflexivity|].
  simpl. destruct (isspace c) eqn:E; simpl; [exact IH|].
  now rewrite E.
Qed.

Lemma visible_rstrip s :
  filter (fun c => negb (isspace c)) (rstrip s)
  = filter (fun c => negb (isspace c)) s.
Proof.
  induction s as [|c s IH]; [reflexivity|].
  simpl. destruct (rstrip s) as [|d r].
  - rewrite <- IH. destruct (isspace c) eqn:E; simpl; now rewrite ?E.
  - cbn [filter]. rewrite <- IH. reflexivity.
Qed.

Lemma visible_sub_spaces s :
  filter (fun c => negb (isspace c)) (sub_spaces s)
  = filter (fun c => negb (isspace c)) s.
Proof.
  induction s as [|c s IH]; [reflexivity|].
  cbn [sub_spaces filter]. destruct (isspace c) eqn:E; simpl.
  - destruct s as [|d s]; [reflexivity|].
    destruct (isspace d); [exact IH|].
    cbn [filter]. rewrite isspace_SPACE. exact IH.
  - now rewrite E, IH.
Qed.

Lemma lstrip_shorter s : (List.length (lstrip s) <= List.length s)%nat.
Proof.
  induction s as [|c s IH]; [reflexivity|].
  simpl. destruct (isspace c); simpl; lia.
Qed.

Lemma rstrip_shorter s : (List.length (rstrip s) <= List.length s)%nat.
Proof.
  induction s as [|c s IH]; [reflexivity|].
  simpl. destruct (rstrip s); [destruct (isspace c)|]; simpl in *; lia.
Qed.

Lemma strip_shorter s : (List.length (strip s) <= List.length s)%nat.
Proof.
  unfold strip. pose proof (rstrip_shorter (lstrip s)).
  pose proof (lstrip_shorter s). lia.
Qed.

Lemma sub_spaces_shorter s :
  (List.length (sub_spaces s) <= List.length s)%nat.
Proof.
  induction s as [|c s IH]; [reflexivity|].
  cbn [sub_spaces]. destruct (isspace c).
  - destruct s as [|d s]; [reflexivity|].
    destruct (isspace d); simpl in *; lia.
  - simpl. lia.
Qed.

End StripAndCollapse.

(** ** The three splitters side by side *)

Section Splitters.

Lemma split_length s :
  List.length (split PIPE s) = S (count_occ N.eq_dec s PIPE).
Proof.
  induction s as [|c s IH]; [reflexivity|].
  cbn [split count_occ].
  destruct (N.eqb_spec c PIPE) as [->|Hne].
  - destruct (N.eq_dec PIPE PIPE); [|congruence]. simpl. now rewrite IH.
  - destruct (N.eq_dec c PIPE); [congruence|].
    destruct (split PIPE s); simpl in *; lia.
Qed.

Lemma truthy_clean_text p :
  truthy (SentimentAnalyzer.clean_text p) = truthy (strip p).
Proof.
  destruct (truthy (strip p)) eqn:T.
  - destruct (truthy (SentimentAnalyzer.clean_text p)) eqn:C; [reflexivity|].
    apply truthy_false, clean_text_nil_iff, strip_nil_iff in C.
    rewrite C in T. discriminate.
  - apply truthy_false, strip_nil_iff, clean_text_nil_iff in T.
    now rewrite T.
Qed.

Lemma base_items_of_strip_items pieces :
  SentimentAnalyzer.split_titles pieces
  = map SentimentAnalyzer.clean_text
      (CorrectSentimentAnalyzer.split_titles pieces).
Proof.
  unfold SentimentAnalyzer.split_titles, CorrectSentimentAnalyzer.split_titles.
  induction pieces as [|p ps IH]; [reflexivity|].
  cbn [map filter]. rewrite truthy_clean_text.
  destruct (truthy (strip p)); cbn [map]; rewrite IH; [|reflexivity].
  now rewrite clean_text_strip.
Qed.

(** X8: the three analysers find the same items in a bundle.  The
    items of sentiment_analyzer_correct.py and of
    sentiment_analyzer_fixed.py are the same stripped pieces, those of
    sentiment_analyzer.py are these with the inner runs of whitespace
    collapsed; so the three analysers count the same number of titles,
    which is at most the number of pipes in the bundle plus one. *)
Theorem splitters_agree (bundle : pystr) :
  SentimentAnalyzer.split_titles (split PIPE bundle)
  = map SentimentAnalyzer.clean_text
      (CorrectSentimentAnalyzer.split_titles (split PIPE bundle))
  /\ FixedSentimentAnalyzer.split_titles (split PIPE bundle)
     = CorrectSentimentAnalyzer.split_titles (split PIPE bundle)
  /\ List.length (SentimentAnalyzer.split_titles (split PIPE bundle))
     = List.length (CorrectSentimentAnalyzer.split_titles (split PIPE bundle))
  /\ (List.length (CorrectSentimentAnalyzer.split_titles (split PIPE bundle))
      <= S (count_occ N.eq_dec bundle PIPE))%nat.
Proof.
  split; [apply base_items_of_strip_items|]. split; [reflexivity|]. split.
  - now rewrite base_items_of_strip_items, length_map.
  - unfold CorrectSentimentAnalyzer.split_titles.
    rewrite length_map, <- split_length. apply filter_length_le.
Qed.

End Splitters.

(** ** What the normalisers do to a text *)

Section NormalForms.
Context {U : UnicodeData}.

(** X9: [clean_text] of sentiment_analyzer.py only touches whitespace:
    the characters that are no whitespace come out unchanged and in
    order, the result is never longer than the text, it has no
    whitespace at either end and none but single spaces inside, and
    the texts it leaves unchanged are exactly those of that form. *)
Theorem clean_text_touches_whitespace_only text :
  filter (fun c => negb (isspace c)) (SentimentAnalyzer.clean_text text)
  = filter (fun c => negb (isspace c)) text
  /\ (List.length (SentimentAnalyzer.clean_text text) <= List.length text)%nat
  /\ collapsed (SentimentAnalyzer.clean_text text) = true
  /\ strip (SentimentAnalyzer.clean_text text)
     = SentimentAnalyzer.clean_text text
  /\ (SentimentAnalyzer.clean_text text = text
      <-> collapsed text = true /\ strip text = text).
Proof.
  split; [|split; [|split; [|split]]].
  - rewrite clean_text_unfold. unfold strip.
    now rewrite visible_rstrip, visible_lstrip, visible_sub_spaces.
  - rewrite clean_text_unfold.
    pose proof (strip_shorter (sub_spaces text)).
    pose proof (sub_spaces_shorter text). lia.
  - apply clean_text_collapsed.
  - apply clean_text_stripped.
  - split.
    + intros E. rewrite <- E. split;
        [apply clean_text_collapsed | apply clean_text_stripped].
    + intros [Hc Hs]. rewrite clean_text_unfold.
      now rewrite sub_spaces_fixed.
Qed.

Lemma forallb_filter_same {A} (p : A -> bool) l :
  forallb p (filter p l) = true.
Proof.
  induction l as [|x l IH]; [reflexivity|].
  simpl. destruct (p x) eqn:E; [|exact IH]. simpl. now rewrite E.
Qed.

Lemma only_spaces_sub_spaces s :
  forallb (fun c => negb (isspace c) || (c =? SPACE)%N) (sub_spaces s) = true.
Proof.
  induction s as [|c s IH]; [reflexivity|].
  cbn [sub_spaces]. destruct (isspace c) eqn:E.
  - destruct s as [|d s]; [reflexivity|].
    destruct (isspace d); [exact IH|].
    cbn [forallb]. now rewrite IH.
  - cbn [forallb]. now rewrite E, IH.
Qed.

Lemma forallb_filter_keeps {A} (p q : A -> bool) l :
  forallb p l = true -> forallb p (filter q l) = true.
Proof.
  induction l as [|x l IH]; [reflexivity|].
  simpl. rewrite andb_true_iff. intros [Hx Hl].
  destruct (q x); [|auto]. simpl. now rewrite Hx, IH.
Qed.

Lemma correct_clean_text_unfold text :
  CorrectSentimentAnalyzer.clean_text text
  = strip (filter CorrectSentimentAnalyzer.kept (sub_spaces (strip text))).
Proof. unfold CorrectSentimentAnalyzer.clean_text. now destruct text. Qed.

Lemma filter_filter {A} (p q : A -> bool) l :
  filter p (filter q l) = filter (fun x => q x && p x) l.
Proof.
  induction l as [|x l IH]; [reflexivity|].
  simpl. destruct (q x); simpl; [destruct (p x)|]; now rewrite IH.
Qed.

Lemma filter_swap {A} (p q : A -> bool) l :
  filter p (filter q l) = filter q (filter p l).
Proof.
  induction l as [|x l IH]; [reflexivity|].
  simpl. destruct (q x) eqn:Q, (p x) eqn:P; simpl;
    rewrite ?Q, ?P, IH; reflexivity.
Qed.

(** X10: what [clean_text] of sentiment_analyzer_correct.py guarantees
    although it is not idempotent: the result holds only characters of
    the allow-list, it neither begins nor ends with whitespace, its only
    whitespace character is U+0020, it is never longer than the text,
    and its characters that are no whitespace are those of the text
    that the allow-list keeps, in order. *)
Theorem correct_clean_text_output text :
  forallb CorrectSentimentAnalyzer.kept (CorrectSentimentAnalyzer.clean_text text)
  = true
  /\ strip (CorrectSentimentAnalyzer.clean_text text)
     = CorrectSentimentAnalyzer.clean_text text
  /\ forallb (fun c => negb (isspace c) || (c =? SPACE)%N)
       (CorrectSentimentAnalyzer.clean_text text) = true
  /\ (List.length (CorrectSentimentAnalyzer.clean_text text)
      <= List.length text)%nat
  /\ filter (fun c => negb (isspace c))
       (CorrectSentimentAnalyzer.clean_text text)
     = filter (fun c => negb (isspace c) && CorrectSentimentAnalyzer.kept c)
         text.
Proof.
  rewrite correct_clean_text_unfold.
  split; [|split; [|split; [|split]]].
  - apply forallb_strip, forallb_filter_same.
  - apply strip_idem.
  - apply forallb_strip, forallb_filter_keeps, only_spaces_sub_spaces.
  - pose proof (strip_shorter
                  (filter CorrectSentimentAnalyzer.kept (sub_spaces (strip text)))).
    pose proof (filter_length_le CorrectSentimentAnalyzer.kept
                  (sub_spaces (strip text))).
    pose proof (sub_spaces_shorter (strip text)).
    pose proof (strip_shorter text). lia.
  - unfold strip at 1. rewrite visible_rstrip, visible_lstrip.
    rewrite filter_swap. unfold strip.
    rewrite visible_sub_spaces, visible_rstrip, visible_lstrip.
    apply filter_filter.
Qed.

Lemma filter_all {A} (p : A -> bool) l :
  forallb p l = true -> filter p l = l.
Proof.
  induction l as [|x l IH]; [reflexivity|].
  simpl. rewrite andb_true_iff. intros [Hx Hl]. now rewrite Hx, IH.
Qed.

Lemma correct_kept_SPACE : CorrectSentimentAnalyzer.kept SPACE = true.
Proof. reflexivity. Qed.

Lemma correct_clean_text_kept text :
  forallb CorrectSentimentAnalyzer.kept (CorrectSentimentAnalyzer.clean_text text)
  = true.
Proof.
  rewrite correct_clean_text_unfold. apply forallb_strip, forallb_filter_same.
Qed.

Lemma correct_clean_text_second text :
  CorrectSentimentAnalyzer.clean_text (CorrectSentimentAnalyzer.clean_text text)
  = sub_spaces (CorrectSentimentAnalyzer.clean_text text).
Proof.
  rewrite (correct_clean_text_unfold (CorrectSentimentAnalyzer.clean_text text)).
  assert (Hs : strip (CorrectSentimentAnalyzer.clean_text text)
               = CorrectSentimentAnalyzer.clean_text text)
    by (rewrite correct_clean_text_unfold; apply strip_idem).
  rewrite Hs, filter_all.
  - now rewrite strip_sub_spaces, Hs.
  - apply forallb_sub_spaces;
      [apply correct_kept_SPACE | apply correct_clean_text_kept].
Qed.

(** X11: although one pass of [clean_text] of
    sentiment_analyzer_correct.py can leave a run of spaces, a second
    pass only collapses those runs, and its result is a fixed point:
    a third pass changes nothing.  The second pass removes no
    character that is not whitespace. *)
Theorem correct_clean_text_settles text :
  let once := CorrectSentimentAnalyzer.clean_text text in
  let twice := CorrectSentimentAnalyzer.clean_text once in
  twice = sub_spaces once
  /\ CorrectSentimentAnalyzer.clean_text twice = twice
  /\ collapsed twice = true
  /\ filter (fun c => negb (isspace c)) twice
     = filter (fun c => negb (isspace c)) once.
Proof.
  cbv zeta. rewrite correct_clean_text_second.
  set (once := CorrectSentimentAnalyzer.clean_text text).
  assert (Hs : strip once = once)
    by (unfold once; rewrite correct_clean_text_unfold; apply strip_idem).
  assert (Hk : forallb CorrectSentimentAnalyzer.kept (sub_spaces once) = true)
    by (apply forallb_sub_spaces;
        [apply correct_kept_SPACE | apply correct_clean_text_kept]).
  split; [reflexivity|]. split; [|split].
  - rewrite correct_clean_text_unfold.
    rewrite strip_sub_spaces, Hs.
    rewrite (sub_spaces_fixed (sub_spaces once))
      by apply sub_spaces_collapsed.
    rewrite filter_all by exact Hk.
    now rewrite strip_sub_spaces, Hs.
  - apply sub_spaces_collapsed.
  - apply visible_sub_spaces.
Qed.

Lemma visible_replace s :
  filter (fun c => negb (isspace c))
    (map (fun c => if FixedSentimentAnalyzer.kept c then c else SPACE) s)
  = filter (fun c => negb (isspace c) && FixedSentimentAnalyzer.kept c) s.
Proof.
  induction s as [|c s IH]; [reflexivity|].
  cbn [map filter]. destruct (FixedSentimentAnalyzer.kept c) eqn:K.
  - rewrite andb_true_r. destruct (isspace c); cbn [negb]; now rewrite IH.
  - rewrite andb_false_r. exact IH.
Qed.

(** X12: what [clean_text] of sentiment_analyzer_fixed.py guarantees:
    the result holds only characters of its allow-list, has no
    whitespace at either end and none but single spaces inside, is
    never longer than the text, and its characters that are no
    whitespace are those of the text that the allow-list keeps, in
    order. *)
Theorem fixed_clean_text_output text :
  forallb FixedSentimentAnalyzer.kept (FixedSentimentAnalyzer.clean_text text)
  = true
  /\ strip (FixedSentimentAnalyzer.clean_text text)
     = FixedSentimentAnalyzer.clean_text text
  /\ collapsed (FixedSentimentAnalyzer.clean_text text) = true
  /\ (List.length (FixedSentimentAnalyzer.clean_text text)
      <= List.length text)%nat
  /\ filter (fun c => negb (isspace c))
       (FixedSentimentAnalyzer.clean_text text)
     = filter (fun c => negb (isspace c) && FixedSentimentAnalyzer.kept c)
         text.
Proof.
  rewrite fixed_clean_text_unfold.
  split; [|split; [|split; [|split]]].
  - apply forallb_strip, forallb_sub_spaces;
      [apply fixed_kept_SPACE | apply fixed_replace_kept].
  - apply strip_idem.
  - apply strip_collapsed, sub_spaces_collapsed.
  - pose proof (strip_shorter
                  (sub_spaces
                     (map (fun c => if FixedSentimentAnalyzer.kept c
                                    then c else SPACE) (strip text)))).
    pose proof (sub_spaces_shorter
                  (map (fun c => if FixedSentimentAnalyzer.kept c
                                 then c else SPACE) (strip text))).
    pose proof (strip_shorter text).
    rewrite length_map in *. lia.
  - unfold strip at 1.
    rewrite visible_rstrip, visible_lstrip, visible_sub_spaces, visible_replace.
    rewrite <- !filter_filter. unfold strip.
    now rewrite visible_rstrip, visible_lstrip.
Qed.

End NormalForms.

(** ** The cells of the frames that the row processors return *)

Section Cells.

Lemma index_of_lt col cols j :
  index_of col cols = Some j -> (j < List.length cols)%nat.
Proof.
  revert j. induction cols as [|c cols IH]; intros j H; [discriminate|].
  simpl in H. destruct (String.eqb c col).
  - inversion H. simpl. lia.
  - destruct (index_of col cols) as [j'|]; [|discriminate].
    inversion H. simpl. specialize (IH j' eq_refl). lia.
Qed.

Lemma index_of_in col cols :
  In col cols <-> index_of col cols <> None.
Proof.
  induction cols as [|c cols IH]; simpl; [tauto|].
  destruct (String.eqb_spec c col) as [->|Hne].
  - split; [discriminate|auto].
  - destruct (index_of col cols); simpl.
    + split; [discriminate|]. intros _. right. apply IH. discriminate.
    + split; [|congruence]. intros [H|H]; [contradiction|]. now apply IH.
Qed.

Lemma lookup_set_nth_same cols cells j col v :
  index_of col cols = Some j -> (j < List.length cells)%nat ->
  lookup (combine cols (set_nth cells j v)) col = Some v.
Proof.
  revert cells j. induction cols as [|c cols IH]; intros cells j Hi Hj.
  - discriminate.
  - destruct cells as [|x cells]; [simpl in Hj; lia|].
    simpl in Hi. destruct (String.eqb c col) eqn:E.
    + inversion Hi; subst j. simpl. now rewrite E.
    + destruct (index_of col cols) as [j'|] eqn:Ej; [|discriminate].
      inversion Hi; subst j. simpl. rewrite E.
      apply IH; [reflexivity|]. simpl in Hj. lia.
Qed.

Lemma nth_error_set_nth_same {A} (l : list A) i a :
  (i < List.length l)%nat -> nth_error (set_nth l i a) i = Some a.
Proof.
  revert i. induction l as [|x l IH]; intros i H; [simpl in H; lia|].
  destruct i; [reflexivity|]. simpl. apply IH. simpl in H. lia.
Qed.

Lemma nth_error_set_nth_other {A} (l : list A) i k a :
  k <> i -> nth_error (set_nth l i a) k = nth_error l k.
Proof.
  revert i k. induction l as [|x l IH]; intros i k H; [reflexivity|].
  destruct i, k; simpl; try reflexivity; [congruence|].
  apply IH. congruence.
Qed.

Lemma set_at_columns df i col v : columns (set_at df i col v) = columns df.
Proof.
  unfold set_at. destruct (index_of col (columns df)); [|reflexivity].
  now destruct (nth_error (data df) i).
Qed.

Lemma Forall_set_nth {A} (P : A -> Prop) l i a :
  Forall P l -> P a -> Forall P (set_nth l i a).
Proof.
  intros H Ha. revert i. induction H as [|x l Hx Hl IH]; intros i.
  - constructor.
  - destruct i; simpl; constructor; auto.
Qed.

Lemma set_at_rectangular df i col v :
  rectangular df -> rectangular (set_at df i col v).
Proof.
  unfold rectangular, set_at. intros R.
  destruct (index_of col (columns df)) as [j|]; [|exact R].
  destruct (nth_error (data df) i) as [r|] eqn:E; [|exact R].
  simpl. apply Forall_set_nth; [exact R|].
  rewrite set_nth_length. rewrite Forall_forall in R.
  apply R. eapply nth_error_In, E.
Qed.

Lemma cell_set_at_same df i col v :
  rectangular df -> In col (columns df) ->
  (i < List.length (data df))%nat ->
  cell (set_at df i col v) i col = Some v.
Proof.
  intros R Hc Hi. unfold cell, set_at.
  apply index_of_in in Hc.
  destruct (index_of col (columns df)) as [j|] eqn:Ej; [|congruence].
  destruct (nth_error (data df) i) as [r|] eqn:E.
  - simpl. rewrite nth_error_set_nth_same by exact Hi.
    apply lookup_set_nth_same; [exact Ej|].
    unfold rectangular in R. rewrite Forall_forall in R.
    rewrite (R r (nth_error_In _ _ E)). now apply index_of_lt with col.
  - apply nth_error_None in E. lia.
Qed.

Lemma cell_set_at_other df i col v k col' :
  k <> i \/ col' <> col ->
  cell (set_at df i col v) k col' = cell df k col'.
Proof.
  intros H. unfold cell, set_at.
  destruct (index_of col (columns df)) as [j|] eqn:Ej; [|reflexivity].
  destruct (nth_error (data df) i) as [r|] eqn:E; [|reflexivity].
  simpl. destruct (Nat.eq_dec k i) as [->|Hk].
  - destruct H as [H|H]; [congruence|].
    rewrite nth_error_set_nth_same
      by (apply nth_error_Some; congruence).
    rewrite E. apply lookup_set_nth with (col' := col); congruence.
  - now rewrite nth_error_set_nth_other.
Qed.

Lemma cell_set_column_other df col v k col' :
  rectangular df -> col' <> col ->
  cell (set_column df col v) k col' = cell df k col'.
Proof.
  intros R Hne. unfold cell, set_column.
  destruct (index_of col (columns df)) as [j|] eqn:Ej; simpl;
    rewrite nth_error_map;
    destruct (nth_error (data df) k) as [r|] eqn:E; simpl;
    try reflexivity.
  - apply lookup_set_nth with (col' := col); congruence.
  - apply lookup_appended; [|congruence].
    unfold rectangular in R. rewrite Forall_forall in R.
    apply R. eapply nth_error_In, E.
Qed.

Lemma set_column_in df col v c :
  In c (columns (set_column df col v)) <-> In c (columns df) \/ c = col.
Proof.
  unfold set_column.
  destruct (index_of col (columns df)) as [j|] eqn:Ej; simpl.
  - split; [auto|]. intros [H| ->]; [exact H|].
    apply index_of_in. congruence.
  - rewrite in_app_iff. simpl. intuition congruence.
Qed.

Lemma set_column_fresh df col v :
  ~ In col (columns df) ->
  columns (set_column df col v) = columns df ++ [col].
Proof.
  intros H. unfold set_column.
  destruct (index_of col (columns df)) as [j|] eqn:Ej; [|reflexivity].
  exfalso. apply H, index_of_in. congruence.
Qed.

Lemma analysed_length {scorer : ExternalScorer}
  (analyze : value -> M bundle_result) bundles w results w' :
  analysed analyze bundles w results w' ->
  List.length results = List.length bundles.
Proof.
  revert w results. induction bundles as [|v vs IH]; intros w results H.
  - destruct results; [reflexivity|contradiction].
  - destruct results as [|b bs]; [contradiction|].
    destruct H as (w1 & _ & H). simpl. f_equal. now apply IH with w1.
Qed.

End Cells.

(** The loop that [process_csv] of sentiment_analyzer_correct.py and
    of sentiment_analyzer_fixed.py share, over the analysis that each
    of them calls. *)
Section RowLoop.
Context {scorer : ExternalScorer}.
Context {python : Interpreter}.
Variable analyze : value -> M bundle_result.
Variable store : dataframe -> nat -> bundle_result -> dataframe.
Variable loop : list row -> nat -> dataframe -> M dataframe.

Hypothesis store_eq : forall df i b,
  store df i b
  = set_at
      (set_at
         (set_at
            (set_at
               (set_at df i "avg_sentiment_score"
                  (Float (avg_sentiment_score b)))
               i "positive_count" (Int (positive_count b)))
            i "negative_count" (Int (negative_count b)))
         i "neutral_count" (Int (neutral_count b)))
      i "total_titles" (Int (total_titles b)).
Hypothesis loop_nil : forall i df, loop [] i df = ret df.
Hypothesis loop_cons : forall row rest i df,
  loop (row :: rest) i df
  = bind (getitem row "news_titles")
      (fun news_titles =>
         bind (analyze news_titles)
           (fun result => loop rest (S i) (store df i result))).
Hypothesis analyze_textual : forall v w,
  textual v = true -> exists b w', analyze v w = (Ok b, w').
Hypothesis analyze_not_textual : forall v w,
  textual v = false -> analyze v w = (Raise AttributeError, w).

Lemma store_columns df i b : columns (store df i b) = columns df.
Proof. rewrite store_eq. now rewrite !set_at_columns. Qed.

Lemma store_rows df i b :
  List.length (data (store df i b)) = List.length (data df).
Proof. rewrite store_eq. now rewrite !set_at_rows. Qed.

Lemma store_rectangular df i b :
  rectangular df -> rectangular (store df i b).
Proof. intros R. rewrite store_eq. now repeat apply set_at_rectangular. Qed.

Lemma store_other df i b k col :
  k <> i \/ ~ In col result_columns ->
  cell (store df i b) k col = cell df k col.
Proof.
  intros H. rewrite store_eq.
  rewrite !cell_set_at_other; [reflexivity|..];
    (destruct H as [H|H]; [now left|right; intros ->; apply H; simpl; tauto]).
Qed.

Lemma store_stored df i b :
  rectangular df ->
  (forall c, In c result_columns -> In c (columns df)) ->
  (i < List.length (data df))%nat ->
  stored (store df i b) i b.
Proof.
  intros R Hc Hi. rewrite store_eq. unfold stored.
  repeat split;
    repeat (rewrite cell_set_at_other by (right; discriminate));
    (apply cell_set_at_same;
     [ now repeat apply set_at_rectangular
     | rewrite ?set_at_columns; apply Hc; simpl; tauto
     | now rewrite ?set_at_rows ]).
Qed.

Lemma loop_cells rows : forall i df w,
  rectangular df ->
  (forall c, In c result_columns -> In c (columns df)) ->
  forallb readable_strict rows = true ->
  (i + List.length rows <= List.length (data df))%nat ->
  exists out w' results,
    loop rows i df w = (Ok out, w')
    /\ columns out = columns df
    /\ List.length (data out) = List.length (data df)
    /\ analysed analyze
         (map (fun r => get r "news_titles" (Str [])) rows) w results w'
    /\ (forall n b, nth_error results n = Some b -> stored out (i + n) b)
    /\ (forall k col,
           (k < i)%nat \/ ~ In col result_columns ->
           cell out k col = cell df k col).
Proof.
  induction rows as [|row rest IH]; intros i df w R Hc Hr Hl.
  - exists df, w, []. rewrite loop_nil.
    split; [reflexivity|]. split; [reflexivity|]. split; [reflexivity|].
    split; [reflexivity|]. split; [|reflexivity].
    intros [|n] b H; discriminate.
  - simpl in Hr. apply andb_true_iff in Hr. destruct Hr as [Hrow Hrest].
    unfold readable_strict in Hrow. rewrite loop_cons. unfold getitem.
    destruct (lookup row "news_titles") as [v|] eqn:E; [|discriminate].
    unfold bind at 1, ret at 1.
    destruct (analyze_textual v w Hrow) as (b & w1 & Hb).
    erewrite bind_ok by exact Hb. simpl in Hl.
    destruct (IH (S i) (store df i b) w1) as
      (out & w' & results & H & Hcols & Hrows & Ha & Hs & Ho).
    { now apply store_rectangular. }
    { intros c Hin. rewrite store_columns. now apply Hc. }
    { exact Hrest. }
    { rewrite store_rows. lia. }
    exists out, w', (b :: results).
    split; [exact H|]. split; [now rewrite Hcols, store_columns|].
    split; [now rewrite Hrows, store_rows|]. split; [|split].
    + cbn [map analysed]. unfold get at 1. rewrite E. now exists w1.
    + intros [|n] b0 Hn.
      * inversion Hn; subst b0. rewrite Nat.add_0_r.
        assert (S : stored (store df i b) i b)
          by (apply store_stored; [exact R|exact Hc|lia]).
        unfold stored in *. rewrite !Ho by (left; lia). exact S.
      * replace (i + S n)%nat with (S i + n)%nat by lia. now apply Hs.
    + intros k col Hk. rewrite Ho by (destruct Hk; [left; lia|now right]).
      apply store_other. destruct Hk; [left; lia|now right].
Qed.

Lemma loop_unreadable rows : forall i df w,
  forallb readable_strict rows = false ->
  exists e w', loop rows i df w = (Raise e, w').
Proof.
  induction rows as [|row rest IH]; intros i df w Hr; [discriminate|].
  simpl in Hr. rewrite loop_cons. unfold readable_strict in Hr.
  unfold getitem. destruct (lookup row "news_titles") as [v|].
  - unfold bind at 1, ret at 1. destruct (textual v) eqn:Ht.
    + destruct (analyze_textual v w Ht) as (b & w1 & Hb).
      erewrite bind_ok by exact Hb. now apply IH.
    + erewrite bind_raise by (now apply analyze_not_textual). eauto.
  - run. eauto.
Qed.

End RowLoop.

Section InitialisedCells.

Lemma get_of_lookup rows :
  map (fun r => get r "news_titles" (Str [])) rows
  = map (fun o => match o with Some v => v | None => Str [] end)
      (map (fun r => lookup r "news_titles") rows).
Proof. rewrite map_map. reflexivity. Qed.

(** The five assignments of a scalar before the loop: the result
    columns are there afterwards, and every other cell is as before. *)
Lemma initialised_cells df :
  rectangular df ->
  let df' :=
    set_column
      (set_column
         (set_column
            (set_column (set_column df "avg_sentiment_score" (Float 0))
               "positive_count" (Int 0))
            "negative_count" (Int 0))
         "neutral_count" (Int 0))
      "total_titles" (Int 0) in
  rectangular df'
  /\ (forall c, In c (columns df') <-> In c (columns df) \/ In c result_columns)
  /\ (forall k col,
         ~ In col result_columns -> cell df' k col = cell df k col)
  /\ ((forall c, In c result_columns -> ~ In c (columns df)) ->
      columns df' = columns df ++ result_columns)
  /\ map (fun r => get r "news_titles" (Str [])) (iterrows df') = bundles df.
Proof.
  intros R df'. unfold df'. split; [|split; [|split; [|split]]].
  - now repeat apply set_column_rectangular.
  - intros c. rewrite !set_column_in. simpl. intuition auto.
  - intros k col H.
    rewrite !cell_set_column_other; [reflexivity|..];
      try (intros ->; apply H; simpl; tauto);
      now repeat apply set_column_rectangular.
  - intros F.
    assert (N : forall c cols, In c result_columns ->
                ~ In c cols -> index_of c cols = None).
    { intros c cols _ Hn. destruct (index_of c cols) eqn:Ei; [|reflexivity].
      exfalso. apply Hn, index_of_in. congruence. }
    rewrite !set_column_fresh.
    + rewrite <- !app_assoc. reflexivity.
    + apply F. simpl. tauto.
    + rewrite set_column_in. intros [H|H]; [|discriminate].
      revert H. apply F. simpl. tauto.
    + rewrite !set_column_in. intros [[H|H]|H]; try discriminate.
      revert H. apply F. simpl. tauto.
    + rewrite !set_column_in. intros [[[H|H]|H]|H]; try discriminate.
      revert H. apply F. simpl. tauto.
    + rewrite !set_column_in. intros [[[[H|H]|H]|H]|H]; try discriminate.
      revert H. apply F. simpl. tauto.
  - unfold bundles. rewrite !get_of_lookup. f_equal.
    repeat (rewrite set_column_bundles;
            [|repeat apply set_column_rectangular; exact R|discriminate]).
    reflexivity.
Qed.

End InitialisedCells.

Section ProcessedCells.
Context {scorer : ExternalScorer}.
Context {python : Interpreter}.

(** X13: what [process_csv] of sentiment_analyzer_correct.py returns
    for a frame whose rows (the first five in test mode) all have a
    bundle that is text or missing.  The bundles are analysed one
    after the other in the order of the rows, each from the state
    that the one before left behind; the five result cells of row k
    hold the fields of the k-th analysis; every cell of another
    column is as [read_csv] delivered it, a result column that the
    input already had being overwritten; and the columns are those of
    the input and the five result columns, appended in their order
    when the input has none of them. *)
Theorem correct_process_csv_cells df (test_mode : bool) w :
  rectangular df ->
  forallb readable_strict
    (iterrows (if test_mode then head 5 df else df)) = true ->
  let input := if test_mode then head 5 df else df in
  exists out w' results,
    CorrectSentimentAnalyzer.process_csv df test_mode w = (Ok out, w')
    /\ analysed CorrectSentimentAnalyzer.analyze_news_titles
         (bundles input) w results w'
    /\ List.length results = List.length (data input)
    /\ (forall k b, nth_error results k = Some b -> stored out k b)
    /\ (forall k col,
           ~ In col result_columns -> cell out k col = cell input k col)
    /\ (forall c,
           In c (columns out) <-> In c (columns input) \/ In c result_columns)
    /\ ((forall c, In c result_columns -> ~ In c (columns input)) ->
        columns out = columns input ++ result_columns).
Proof.
  intros R Hr input. fold input in Hr.
  assert (Ri : rectangular input).
  { unfold input. destruct test_mode; [now apply head_rectangular|exact R]. }
  destruct (initialised_cells Ri) as (R' & Hin & Hcell & Hfresh & Hb).
  destruct (initialised_frame Ri) as [Hl Hrs].
  unfold CorrectSentimentAnalyzer.process_csv. fold input.
  match goal with
  | |- context [CorrectSentimentAnalyzer.process_rows (iterrows ?d) 0 ?d w] =>
      set (df' := d) in *
  end.
  destruct (@loop_cells scorer CorrectSentimentAnalyzer.analyze_news_titles
              CorrectSentimentAnalyzer.store_result
              CorrectSentimentAnalyzer.process_rows
              (fun _ _ _ => eq_refl) (fun _ _ => eq_refl)
              (fun _ _ _ _ => eq_refl) correct_analyze_textual
              (iterrows df') 0%nat df' w)
    as (out & w' & results & H & Hcols & Hrows & Ha & Hs & Ho).
  { exact R'. }
  { intros c Hc. apply Hin. now right. }
  { now rewrite Hrs. }
  { rewrite iterrows_length. simpl. lia. }
  exists out, w', results. rewrite Hb in Ha.
  split; [exact H|]. split; [exact Ha|]. split; [|split; [|split; [|split]]].
  - rewrite (analysed_length _ _ _ _ _ Ha). unfold bundles.
    now rewrite length_map, iterrows_length.
  - intros k b Hk. now apply (Hs k b).
  - intros k col Hc. rewrite Ho by now right. now apply Hcell.
  - intros c. rewrite Hcols. apply Hin.
  - intros F. rewrite Hcols. now apply Hfresh.
Qed.

(** X14: [process_csv] of sentiment_analyzer_fixed.py.  On a frame
    whose rows all have a bundle that is text or missing it returns
    the frame with the bundles analysed in the order of the rows, the
    five result cells of row k holding the fields of the k-th
    analysis and every other cell unchanged; on a frame with another
    row (a bundle read as a number, no [news_titles] column) it
    raises and returns no frame, having no handler at the row. *)
Theorem fixed_process_csv_cells df w :
  rectangular df ->
  if forallb readable_strict (iterrows df)
  then
    exists out w' results,
      FixedSentimentAnalyzer.process_csv df w = (Ok out, w')
      /\ analysed FixedSentimentAnalyzer.analyze_news_titles
           (bundles df) w results w'
      /\ List.length results = List.length (data df)
      /\ (forall k b, nth_error results k = Some b -> stored out k b)
      /\ (forall k col,
             ~ In col result_columns -> cell out k col = cell df k col)
      /\ (forall c,
             In c (columns out) <-> In c (columns df) \/ In c result_columns)
      /\ ((forall c, In c result_columns -> ~ In c (columns df)) ->
          columns out = columns df ++ result_columns)
  else
    exists e w', FixedSentimentAnalyzer.process_csv df w = (Raise e, w').
Proof.
  intros R.
  assert (T : forall v w0, textual v = true ->
                exists b w1,
                  FixedSentimentAnalyzer.analyze_news_titles v w0 = (Ok b, w1)).
  { intros [|s|z|q] w0; try discriminate; intros _.
    - now exists zero_result, w0.
    - destruct (FixedSentimentAnalyzer.split_titles (split PIPE s))
        as [|t ts] eqn:Et.
      + exists zero_result, w0. now apply fixed_analyze_no_title.
      + destruct (fixed_analyze_scored s w0) as (scores & w1 & _ & H).
        { rewrite Et. discriminate. }
        eauto. }
  assert (NT : forall v w0, textual v = false ->
                 FixedSentimentAnalyzer.analyze_news_titles v w0
                 = (Raise AttributeError, w0)).
  { intros [|s|z|q] w0; try discriminate; reflexivity. }
  destruct (initialised_cells R) as (R' & Hin & Hcell & Hfresh & Hb).
  destruct (initialised_frame R) as [Hl Hrs].
  unfold FixedSentimentAnalyzer.process_csv.
  match goal with
  | |- context [FixedSentimentAnalyzer.process_rows (iterrows ?d) 0 ?d w] =>
      set (df' := d) in *
  end.
  destruct (forallb readable_strict (iterrows df)) eqn:Hr.
  - destruct (@loop_cells scorer FixedSentimentAnalyzer.analyze_news_titles
                FixedSentimentAnalyzer.store_result
                FixedSentimentAnalyzer.process_rows
                (fun _ _ _ => eq_refl) (fun _ _ => eq_refl)
                (fun _ _ _ _ => eq_refl) T
                (iterrows df') 0%nat df' w)
      as (out & w' & results & H & Hcols & Hrows & Ha & Hs & Ho).
    { exact R'. }
    { intros c Hc. apply Hin. now right. }
    { now rewrite Hrs. }
    { rewrite iterrows_length. simpl. lia. }
    exists out, w', results. rewrite Hb in Ha.
    split; [exact H|]. split; [exact Ha|]. split; [|split; [|split; [|split]]].
    + rewrite (analysed_length _ _ _ _ _ Ha). unfold bundles.
      now rewrite length_map, iterrows_length.
    + intros k b Hk. now apply (Hs k b).
    + intros k col Hc. rewrite Ho by now right. now apply Hcell.
    + intros c. rewrite Hcols. apply Hin.
    + intros F. rewrite Hcols. now apply Hfresh.
  - apply (@loop_unreadable scorer FixedSentimentAnalyzer.analyze_news_titles
             FixedSentimentAnalyzer.store_result
             FixedSentimentAnalyzer.process_rows
             (fun _ _ _ _ => eq_refl) T NT).
    now rewrite Hrs.
Qed.

End ProcessedCells.

Lemma correct_process_csv_cells_witness :
  exists out w' results,
    CorrectSentimentAnalyzer.process_csv Stub.two_days false Stub.fresh
    = (Ok out, w')
    /\ List.length results = 2%nat
    /\ (forall k b, nth_error results k = Some b -> stored out k b)
    /\ cell out 0 "date" = Some (Str (lit "2024-01-04"))
    /\ columns out = columns Stub.two_days ++ result_columns.
Proof.
  assert (R : rectangular Stub.two_days) by (repeat constructor).
  destruct (correct_process_csv_cells (scorer := Stub.always_positive)
              false Stub.fresh R eq_refl)
    as (out & w' & results & H & _ & Hl & Hs & Hc & _ & Hf).
  exists out, w', results. split; [exact H|]. split; [exact Hl|].
  split; [exact Hs|]. split.
  - rewrite Hc; [reflexivity|]. simpl. intuition discriminate.
  - apply Hf. simpl. intuition (subst; discriminate).
Defined.

Lemma fixed_process_csv_cells_witness :
  (exists out w' results,
      FixedSentimentAnalyzer.process_csv Stub.two_days Stub.fresh
      = (Ok out, w')
      /\ List.length results = 2%nat
      /\ (forall k b, nth_error results k = Some b -> stored out k b))
  /\ (exists e w',
         FixedSentimentAnalyzer.process_csv Stub.numbers_for_bundles
           Stub.fresh = (Raise e, w')).
Proof.
  split.
  - assert (R : rectangular Stub.two_days) by (repeat constructor).
    destruct (fixed_process_csv_cells (scorer := Stub.always_positive)
                Stub.fresh R)
      as (out & w' & results & H & _ & Hl & Hs & _).
    exists out, w', results. split; [exact H|]. split; [exact Hl|exact Hs].
  - assert (R : rectangular Stub.numbers_for_bundles) by (repeat constructor).
    exact (fixed_process_csv_cells (scorer := Stub.always_positive)
             Stub.fresh R).
Defined.

(** ** url_to_text_converter.py: the bundles of headlines *)

Section Bundles.
Import UrlToText.

Lemma join_texts sep items :
  join sep items = option_map (intercalate sep) (texts_of items).
Proof.
  induction items as [|v rest IH]; [reflexivity|].
  destruct v as [|s|z|q]; try reflexivity.
  cbn [join texts_of]. destruct rest as [|v' rest']; [reflexivity|].
  rewrite IH. destruct (texts_of (v' :: rest')) as [texts|] eqn:E;
    [|reflexivity].
  simpl. destruct texts as [|t ts]; [|reflexivity].
  destruct v'; try discriminate. simpl in E.
  destruct (texts_of rest'); discriminate.
Qed.

Lemma dict_get_append d date title k :
  dict_get (append_title d date title) k
  = if str_eqb date k
    then Some (match dict_get d date with
               | Some titles => titles ++ [title]
               | None => [title]
               end)
    else dict_get d k.
Proof.
  induction d as [|[k' titles] d IH]; simpl.
  - destruct (str_eqb date k); reflexivity.
  - destruct (str_eqb k' date) eqn:E; simpl.
    + apply str_eqb_true in E. subst k'.
      destruct (str_eqb date k); reflexivity.
    + rewrite IH. destruct (str_eqb k' k) eqn:E'; [|reflexivity].
      apply str_eqb_true in E'. subst k'.
      destruct (str_eqb date k) eqn:E''; [|reflexivity].
      apply str_eqb_true in E''. subst k.
      assert (str_eqb date date = true) by now apply str_eqb_true.
      congruence.
Qed.

Lemma titles_of_snoc articles a date :
  titles_of (articles ++ [a]) date
  = titles_of articles date
    ++ (if str_eqb (fst a) date then [snd a] else []).
Proof.
  unfold titles_of. rewrite filter_app, map_app. simpl.
  now destruct (str_eqb (fst a) date).
Qed.

(** The dictionary holds, under each date, the titles of its articles
    in file order. *)
Lemma collect_get articles date :
  dict_get (collect articles) date
  = match titles_of articles date with
    | [] => None
    | titles => Some titles
    end.
Proof.
  induction articles as [|a articles IH] using rev_ind; [reflexivity|].
  unfold collect in *. rewrite fold_left_app. cbn [fold_left].
  rewrite dict_get_append, titles_of_snoc.
  destruct (str_eqb (fst a) date) eqn:E.
  - apply str_eqb_true in E. subst date. rewrite IH.
    destruct (titles_of articles (fst a)); reflexivity.
  - now rewrite app_nil_r.
Qed.

Lemma series_map_some {A B} (f : A -> option B) l column :
  series_map f l = Some column ->
  List.length column = List.length l
  /\ forall k a, nth_error l k = Some a ->
       exists b, f a = Some b /\ nth_error column k = Some b.
Proof.
  revert column. induction l as [|x l IH]; intros column H.
  - inversion H. split; [reflexivity|]. intros [|k] a Hk; discriminate.
  - simpl in H. destruct (f x) as [b|] eqn:E; [|discriminate].
    destruct (series_map f l) as [rest|]; [|discriminate].
    inversion H; subst column. destruct (IH rest eq_refl) as [Hl Hn].
    split; [simpl; now rewrite Hl|].
    intros [|k] a Hk; simpl in Hk.
    + inversion Hk; subst a. now exists b.
    + now apply Hn.
Qed.

Lemma series_map_none {A B} (f : A -> option B) l :
  series_map f l = None -> exists a, In a l /\ f a = None.
Proof.
  induction l as [|x l IH]; [discriminate|].
  simpl. destruct (f x) as [b|] eqn:E.
  - destruct (series_map f l); [discriminate|].
    intros _. destruct (IH eq_refl) as (a & Ha & Hf).
    exists a. split; [now right|exact Hf].
  - intros _. exists x. split; [now left|exact E].
Qed.

(** The cells that are joined for one date. *)
Lemma joined_cells articles date :
  match dict_get (collect articles) date with
  | Some titles => titles
  | None => [Str NO_ARTICLE]
  end
  = match titles_of articles date with
    | [] => [Str NO_ARTICLE]
    | titles => titles
    end.
Proof.
  rewrite collect_get. now destruct (titles_of articles date).
Qed.

Lemma titles_by_date_cells originals articles :
  match add_titles_to_original_csv originals articles with
  | Some column =>
      List.length column = List.length originals
      /\ forall k date,
           nth_error originals k = Some date ->
           exists texts,
             texts_of (match titles_of articles date with
                       | [] => [Str NO_ARTICLE]
                       | titles => titles
                       end) = Some texts
             /\ nth_error column k = Some (intercalate SEPARATOR texts)
  | None => True
  end.
Proof.
  unfold add_titles_to_original_csv.
  destruct (series_map _ originals) as [column|] eqn:E; [|exact I].
  apply series_map_some in E. destruct E as [Hl Hn].
  split; [exact Hl|]. intros k date Hk.
  destruct (Hn k date Hk) as (bundle & Hj & Hc).
  rewrite joined_cells, join_texts in Hj.
  destruct (texts_of _) as [texts|]; [|discriminate].
  exists texts. split; [reflexivity|]. simpl in Hj. congruence.
Qed.

(** X15: the [news_titles] column that [add_titles_to_original_csv]
    assigns.  Row k gets the titles of the articles of its date, in
    the order of the article file, with [' | '] between them, and
    ['記事なし'] when the date has no article.  The step fails as a
    whole, writing no file, exactly when the article file holds, for
    a date of the original file, a title cell that is no text (an
    empty title is read back as a missing cell). *)
Theorem titles_by_date originals articles :
  match add_titles_to_original_csv originals articles with
  | Some column =>
      List.length column = List.length originals
      /\ forall k date,
           nth_error originals k = Some date ->
           exists texts,
             texts_of (match titles_of articles date with
                       | [] => [Str NO_ARTICLE]
                       | titles => titles
                       end) = Some texts
             /\ nth_error column k = Some (intercalate SEPARATOR texts)
  | None =>
      exists date,
        In date originals /\ texts_of (titles_of articles date) = None
  end.
Proof.
  unfold add_titles_to_original_csv.
  destruct (series_map _ originals) as [column|] eqn:E.
  - apply series_map_some in E. destruct E as [Hl Hn].
    split; [exact Hl|]. intros k date Hk.
    destruct (Hn k date Hk) as (bundle & Hj & Hc).
    rewrite joined_cells, join_texts in Hj.
    destruct (texts_of _) as [texts|]; [|discriminate].
    exists texts. split; [reflexivity|]. simpl in Hj. congruence.
  - apply series_map_none in E. destruct E as (date & Hin & Hj).
    exists date. split; [exact Hin|].
    rewrite joined_cells, join_texts in Hj.
    destruct (titles_of articles date) as [|t ts]; [discriminate|].
    destruct (texts_of (t :: ts)); [discriminate|reflexivity].
Qed.

Lemma blank_no_pipe s : blank s = true -> ~ In PIPE s.
Proof.
  induction s as [|c s IH]; [auto|].
  simpl. rewrite andb_true_iff. intros [Hc Hs] [->|H].
  - rewrite isspace_PIPE in Hc. discriminate.
  - now apply IH.
Qed.

Lemma split_no_sep s : ~ In PIPE s -> split PIPE s = [s].
Proof.
  induction s as [|c s IH]; [reflexivity|].
  intros H. simpl. destruct (N.eqb_spec c PIPE) as [->|_].
  - exfalso. apply H. now left.
  - rewrite IH; [reflexivity|]. intros Hs. apply H. now right.
Qed.

Lemma split_app_sep a b :
  ~ In PIPE a -> split PIPE (a ++ PIPE :: b) = a :: split PIPE b.
Proof.
  induction a as [|c a IH]; intros H.
  - reflexivity.
  - simpl. destruct (N.eqb_spec c PIPE) as [->|_].
    + exfalso. apply H. now left.
    + rewrite IH; [reflexivity|]. intros Hs. apply H. now right.
Qed.

Lemma lstrip_blank_prefix pre t :
  blank pre = true -> lstrip (pre ++ t) = lstrip t.
Proof.
  induction pre as [|c pre IH]; [reflexivity|].
  simpl. rewrite andb_true_iff. intros [Hc Hp]. rewrite Hc. now apply IH.
Qed.

Lemma rstrip_app_space x : rstrip (x ++ [SPACE]) = rstrip x.
Proof.
  induction x as [|c x IH]; [reflexivity|].
  cbn [app rstrip]. now rewrite IH.
Qed.

Lemma strip_app_space a : strip (a ++ [SPACE]) = strip a.
Proof.
  unfold strip. induction a as [|c a IH]; [reflexivity|].
  cbn [app lstrip]. destruct (isspace c); [exact IH|].
  apply (rstrip_app_space (c :: a)).
Qed.

Lemma truthy_strip s : truthy (strip s) = negb (blank s).
Proof.
  destruct (blank s) eqn:E.
  - apply strip_nil_iff in E. now rewrite E.
  - destruct (strip s) eqn:Es; [|reflexivity].
    apply strip_nil_iff in Es. congruence.
Qed.

Lemma blank_app a b : blank (a ++ b) = blank a && blank b.
Proof. apply forallb_app. Qed.

(** The pieces between the pipes of a bundle are its titles, up to the
    spaces around the pipes. *)
Lemma joined_items texts : forall pre,
  blank pre = true ->
  Forall (fun t => ~ In PIPE t) texts ->
  CorrectSentimentAnalyzer.split_titles
    (split PIPE (pre ++ intercalate SEPARATOR texts))
  = map strip (filter (fun t => negb (blank t)) texts).
Proof.
  unfold CorrectSentimentAnalyzer.split_titles.
  induction texts as [|t rest IH]; intros pre Hp Hf.
  - simpl. rewrite app_nil_r, (split_blank _ Hp). simpl.
    now rewrite truthy_strip, Hp.
  - inversion Hf as [|? ? Ht Hrest]; subst.
    destruct rest as [|t' rest'].
    + cbn [intercalate]. rewrite split_no_sep.
      * cbn [filter map]. rewrite truthy_strip, blank_app, Hp.
        cbn [andb]. unfold strip at 1.
        destruct (blank t); cbn [negb map]; [reflexivity|].
        now rewrite lstrip_blank_prefix.
      * rewrite in_app_iff. intros [H|H]; [|contradiction].
        now apply (blank_no_pipe _ Hp).
    + change (intercalate SEPARATOR (t :: t' :: rest'))
        with (t ++ SEPARATOR ++ intercalate SEPARATOR (t' :: rest')).
      change (pre ++ t ++ SEPARATOR ++ intercalate SEPARATOR (t' :: rest'))
        with (pre ++ t ++ [SPACE] ++ PIPE
                :: ([SPACE] ++ intercalate SEPARATOR (t' :: rest'))).
      rewrite !app_assoc. rewrite split_app_sep.
      * specialize (IH [SPACE] eq_refl Hrest).
        set (items := filter (fun t0 => negb (blank t0)) (t' :: rest')) in *.
        cbn [filter]. fold items. rewrite truthy_strip, !blank_app, Hp. cbn [andb].
        change (blank [SPACE]) with true. rewrite andb_true_r.
        destruct (blank t); cbn [negb map]; rewrite IH; [reflexivity|].
        f_equal. rewrite strip_app_space. unfold strip.
        now rewrite lstrip_blank_prefix.
      * rewrite !in_app_iff. intros [[H|H]|H].
        -- now apply (blank_no_pipe _ Hp).
        -- contradiction.
        -- destruct H as [H|[]]. discriminate.
Qed.

Lemma texts_of_in cells texts s :
  texts_of cells = Some texts -> In s texts -> In (Str s) cells.
Proof.
  revert texts. induction cells as [|v cells IH]; intros texts H Hin.
  - inversion H; subst. contradiction.
  - destruct v as [|s0|z|q]; try discriminate. simpl in H.
    destruct (texts_of cells) as [ts|]; [|discriminate].
    inversion H; subst texts. destruct Hin as [->|Hin]; [now left|].
    right. now apply (IH ts).
Qed.

(** X16: the second step and the analysers fit together on titles
    that hold no pipe.  When [add_titles_to_original_csv] has written
    the column, the items that the three analysers find in the bundle
    of a row are the titles of the articles of its date that hold a
    character other than whitespace, in file order and stripped
    (with the inner whitespace collapsed, for sentiment_analyzer.py);
    for a date without article they find one item, the placeholder
    ['記事なし'], which is scored like a headline. *)
Theorem bundle_items_are_titles originals articles column k date bundle :
  add_titles_to_original_csv originals articles = Some column ->
  nth_error originals k = Some date ->
  nth_error column k = Some bundle ->
  (forall s, In (Str s) (titles_of articles date) -> ~ In PIPE s) ->
  exists texts,
    texts_of (titles_of articles date) = Some texts
    /\ let titles :=
         match texts with
         | [] => [NO_ARTICLE]
         | _ => filter (fun t => negb (blank t)) texts
         end in
       CorrectSentimentAnalyzer.split_titles (split PIPE bundle)
       = map strip titles
       /\ FixedSentimentAnalyzer.split_titles (split PIPE bundle)
          = map strip titles
       /\ SentimentAnalyzer.split_titles (split PIPE bundle)
          = map SentimentAnalyzer.clean_text titles.
Proof.
  intros Ha Hk Hc Hp.
  pose proof (titles_by_date_cells originals articles) as T.
  rewrite Ha in T. destruct T as [_ T].
  destruct (T k date Hk) as (texts & Ht & Hn).
  rewrite Hc in Hn. inversion Hn; subst bundle. clear Hn.
  assert (I : forall texts0,
             Forall (fun t => ~ In PIPE t) texts0 ->
             CorrectSentimentAnalyzer.split_titles
               (split PIPE (intercalate SEPARATOR texts0))
             = map strip (filter (fun t => negb (blank t)) texts0)).
  { intros texts0 F. now apply joined_items with (pre := []). }
  destruct (titles_of articles date) as [|c cells] eqn:Ec.
  - exists []. split; [reflexivity|]. inversion Ht; subst texts.
    cbv zeta. rewrite base_items_of_strip_items.
    change (FixedSentimentAnalyzer.split_titles
              (split PIPE (intercalate SEPARATOR [NO_ARTICLE])))
      with (CorrectSentimentAnalyzer.split_titles
              (split PIPE (intercalate SEPARATOR [NO_ARTICLE]))).
    rewrite I.
    + repeat split.
    + constructor; [|constructor]. vm_compute. intuition discriminate.
  - exists texts. split; [exact Ht|].
    assert (F : Forall (fun t => ~ In PIPE t) texts).
    { apply Forall_forall. intros s Hs. apply Hp.
      now apply texts_of_in with texts. }
    assert (Hne : texts <> []).
    { intros ->. destruct c; try discriminate. simpl in Ht.
      destruct (texts_of cells); discriminate. }
    destruct texts as [|t ts]; [congruence|]. cbv zeta.
    rewrite base_items_of_strip_items.
    change (FixedSentimentAnalyzer.split_titles
              (split PIPE (intercalate SEPARATOR (t :: ts))))
      with (CorrectSentimentAnalyzer.split_titles
              (split PIPE (intercalate SEPARATOR (t :: ts)))).
    rewrite (I _ F). split; [reflexivity|]. split; [reflexivity|].
    rewrite map_map. apply map_ext. intros a. apply clean_text_strip.
Qed.

End Bundles.

Lemma bundle_items_are_titles_witness :
  exists texts,
    texts_of (titles_of Stub.two_articles (lit "2024-01-04")) = Some texts
    /\ let titles :=
         match texts with
         | [] => [UrlToText.NO_ARTICLE]
         | _ => filter (fun t => negb (blank t)) texts
         end in
       CorrectSentimentAnalyzer.split_titles
         (split PIPE (lit "Stocks rise |  Yen falls "))
       = map strip titles
       /\ FixedSentimentAnalyzer.split_titles
            (split PIPE (lit "Stocks rise |  Yen falls "))
          = map strip titles
       /\ SentimentAnalyzer.split_titles
            (split PIPE (lit "Stocks rise |  Yen falls "))
          = map SentimentAnalyzer.clean_text titles.
Proof.
  apply (@bundle_items_are_titles Stub.two_dates Stub.two_articles
           [lit "Stocks rise |  Yen falls "; UrlToText.NO_ARTICLE]
           0%nat (lit "2024-01-04") (lit "Stocks rise |  Yen falls ")).
  - reflexivity.
  - reflexivity.
  - reflexivity.
  - intros s [H|[H|[]]]; inversion H; subst s; vm_compute;
      intuition discriminate.
Defined.

(** ** url_to_text_converter.py: the retry loop *)

Section Retry.
Import UrlToText.
Context {site : Site}.

Lemma answers_length st url n : List.length (answers st url n) = n.
Proof.
  revert st. induction n as [|n IH]; intros st; [reflexivity|].
  simpl. destruct (fetch_bloomberg_article st url) as [r st'].
  simpl. now rewrite IH.
Qed.

Lemma tries_le l : (tries l <= List.length l)%nat.
Proof.
  induction l as [|r l IH]; [reflexivity|].
  destruct r; simpl; lia.
Qed.

Lemma tries_pos l : l <> [] -> (1 <= tries l)%nat.
Proof. destruct l as [|[html|] l]; [congruence| |]; simpl; lia. Qed.

Lemma paced_next url n :
  (1 <= n)%nat -> paced url (S n) = Fetch url :: Sleep 2 :: paced url n.
Proof. destruct n; [lia|reflexivity]. Qed.

Lemma first_page_none l : first_page l = None <-> Forall (eq Failure) l.
Proof.
  induction l as [|r l IH]; simpl.
  - split; auto.
  - destruct r as [html|].
    + split; [discriminate|]. intros H. inversion H; discriminate.
    + rewrite IH. split; [now constructor|]. intros H. now inversion H.
Qed.

Lemma attempts_loop_spec url m n : forall i s,
  (i + n = Z.to_nat m)%nat ->
  let outcomes := answers (server s) url n in
  attempts_loop url m (map Z.of_nat (seq i n)) s
  = (first_page outcomes,
     Session (after (server s) url (tries outcomes))
       (log s ++ paced url (tries outcomes))).
Proof.
  induction n as [|n IH]; intros i s Hm outcomes; unfold outcomes.
  - destruct s as [st l]. simpl. now rewrite app_nil_r.
  - cbn [seq map attempts_loop answers].
    destruct (fetch_bloomberg_article (server s) url) as [r st] eqn:E.
    destruct r as [html|].
    + cbn [first_page tries after paced]. now rewrite E.
    + cbn [first_page tries after]. rewrite E. cbn [snd].
      destruct n as [|n'].
      * destruct (Z.ltb_spec (Z.of_nat i) (m - 1)); [lia|]. reflexivity.
      * destruct (Z.ltb_spec (Z.of_nat i) (m - 1)); [|lia].
        cbn [server log]. rewrite (IH (S i)) by lia. cbn [server log].
        rewrite paced_next.
        -- now rewrite <- !app_assoc.
        -- apply tries_pos. simpl.
           destruct (fetch_bloomberg_article st url). discriminate.
Qed.

(** X17: [fetch_article_with_retry] asks the site for the page at most
    [max_retries] times, not at all when that is zero or less, and
    stops at the first answer that is a page, which it returns; it
    returns [None] exactly when every attempt failed.  It pauses two
    seconds between one attempt and the next, and not after the
    last; no exception of the site leaves it. *)
Theorem retry_returns_first_page url max_retries s :
  let outcomes := answers (server s) url (Z.to_nat max_retries) in
  fetch_article_with_retry url max_retries s
  = (first_page outcomes,
     Session (after (server s) url (tries outcomes))
       (log s ++ paced url (tries outcomes)))
  /\ (tries outcomes <= Z.to_nat max_retries)%nat
  /\ (first_page outcomes = None <-> Forall (eq Failure) outcomes).
Proof.
  intros outcomes. split; [|split].
  - unfold fetch_article_with_retry, range.
    now apply attempts_loop_spec.
  - unfold outcomes. rewrite <- (answers_length (server s) url
                                   (Z.to_nat max_retries)) at 2.
    apply tries_le.
  - apply first_page_none.
Qed.

End Retry.

Lemma retry_third_time_lucky :
  UrlToText.fetch_article_with_retry (lit "u") 3 Stub.third_time_lucky
  = (Some (lit "<h1>x</h1>"),
     UrlToText.Session (site := Stub.scripted_site) []
       [ UrlToText.Fetch (lit "u"); UrlToText.Sleep 2;
         UrlToText.Fetch (lit "u"); UrlToText.Sleep 2;
         UrlToText.Fetch (lit "u") ])
  /\ UrlToText.fetch_article_with_retry (lit "u") 2 Stub.third_time_lucky
     = (None,
        UrlToText.Session (site := Stub.scripted_site)
          [ UrlToText.Page (lit "<h1>x</h1>") ]
          [ UrlToText.Fetch (lit "u"); UrlToText.Sleep 2;
            UrlToText.Fetch (lit "u") ]).
Proof. split; reflexivity. Qed.

(** ** print_statistics *)

Section PrintedStatistics.
Import Statistics.

Lemma rows_partition (df : list bundle_result) :
  (count_rows (fun r => (positive_count r >? negative_count r)%Z) df
   + count_rows (fun r => (negative_count r >? positive_count r)%Z) df
   + count_rows (fun r => (positive_count r =? negative_count r)%Z) df
   = len df)%Z.
Proof.
  unfold count_rows, len.
  induction df as [|r df IH]; [reflexivity|].
  cbn [filter].
  destruct (Z.gtb_spec (positive_count r) (negative_count r));
    destruct (Z.gtb_spec (negative_count r) (positive_count r));
    destruct (Z.eqb_spec (positive_count r) (negative_count r));
    try lia; cbn [List.length]; lia.
Qed.

Lemma rows_with_news_le (df : list bundle_result) :
  (count_rows (fun r => (total_titles r >? 0)%Z) df <= len df)%Z.
Proof.
  unfold count_rows, len. apply inj_le, filter_length_le.
Qed.

(** A percentage is near the exact one: the quotient and the product
    are rounded once each. *)
Lemma percent_error rows news share :
  0 < inject_Z news -> 1 <= share ->
  0 <= inject_Z rows / inject_Z news <= share ->
  Qabs (percent rows news - 100 * (inject_Z rows / inject_Z news))
  <= 300 * share * pow2 (- 53).
Proof.
  intros Hn Hs Hq. unfold percent, float_mul, mul, div.
  set (q := inject_Z rows / inject_Z news) in *.
  assert (Up : 0 < pow2 (- 53)) by apply pow2_pos.
  assert (U1 : pow2 (- 53) <= 1).
  { change 1 with (pow2 0). apply pow2_le. lia. }
  assert (E1 : Qabs (round binary64 q - q) <= share * pow2 (- 53)).
  { apply (@round_error_bound binary64); [cbn; lia|exact Hs|].
    apply Qabs_Qle_condition. split; lra. }
  apply Qabs_Qle_condition in E1.
  set (u := pow2 (- 53)) in *. set (r := round binary64 q) in *.
  assert (Su : 0 <= share * u <= share) by (split; nra).
  assert (E2 : Qabs (round binary64 (r * 100) - r * 100)
               <= 200 * share * u).
  { apply (@round_error_bound binary64); [cbn; lia|lra|].
    apply Qabs_Qle_condition. split; lra. }
  apply Qabs_Qle_condition in E2. apply Qabs_Qle_condition.
  set (y := round binary64 (r * 100)) in *.
  clearbody y r q u. split; lra.
Qed.

(** X18: the distribution that [print_statistics] prints, in both
    analysers.  The rows with more positive than negative titles,
    those with more negative ones and those with as many of both
    are counted over all rows of the frame, and add up to the number
    of rows; the three percentages are taken of the rows that have
    news, each the quotient of two [int]s and its product by 100,
    rounded once each.  So the percentages add up, within the
    rounding, to 100 times the number of rows over the number of
    rows with news: that share is 1 exactly when every row has news,
    and more as soon as one row has none.  Nothing of the
    distribution is printed when no row has news. *)
Theorem distribution_covers_all_rows (df : list bundle_result) :
  let out := print_statistics df in
  match sentiment_distribution out with
  | Some d =>
      let share :=
        inject_Z (total_rows out) / inject_Z (rows_with_news out) in
      (0 < rows_with_news out <= total_rows out)%Z
      /\ (positive_rows d + negative_rows d + neutral_rows d
          = total_rows out)%Z
      /\ positive_percent d = percent (positive_rows d) (rows_with_news out)
      /\ negative_percent d = percent (negative_rows d) (rows_with_news out)
      /\ neutral_percent d = percent (neutral_rows d) (rows_with_news out)
      /\ 1 <= share
      /\ (share == 1 <-> rows_with_news out = total_rows out)
      /\ Qabs (positive_percent d + negative_percent d + neutral_percent d
               - 100 * share)
         <= share * pow2 (- 43)
  | None => rows_with_news out = 0%Z
  end.
Proof.
  intros out. unfold out, print_statistics.
  pose proof (rows_partition df) as P.
  pose proof (rows_with_news_le df) as L.
  set (news := count_rows (fun r => (total_titles r >? 0)%Z) df) in *.
  set (pos := count_rows
                (fun r => (positive_count r >? negative_count r)%Z) df) in *.
  set (neg := count_rows
                (fun r => (negative_count r >? positive_count r)%Z) df) in *.
  set (neu := count_rows
                (fun r => (positive_count r =? negative_count r)%Z) df) in *.
  assert (Hpos : (0 <= pos)%Z) by apply len_nonneg.
  assert (Hneg : (0 <= neg)%Z) by apply len_nonneg.
  assert (Hneu : (0 <= neu)%Z) by apply len_nonneg.
  destruct (Z.gtb_spec news 0) as [Hn|Hn].
  - cbn [sentiment_distribution rows_with_news total_rows positive_rows
           negative_rows neutral_rows positive_percent negative_percent
           neutral_percent].
    set (share := inject_Z (len df) / inject_Z news).
    assert (Hq : 0 < inject_Z news).
    { change 0 with (inject_Z 0). rewrite <- Zlt_Qlt. lia. }
    assert (Hne : ~ inject_Z news == 0) by (intros E; rewrite E in Hq; lra).
    assert (Ht : inject_Z news <= inject_Z (len df))
      by (rewrite <- Zle_Qle; lia).
    assert (Hs : 1 <= share).
    { unfold share. apply Qle_shift_div_l; [exact Hq|lra]. }
    assert (S : inject_Z pos / inject_Z news + inject_Z neg / inject_Z news
                + inject_Z neu / inject_Z news == share).
    { unfold share. rewrite <- P, !inject_Z_plus. field. exact Hne. }
    assert (Q0 : forall c, (0 <= c)%Z -> 0 <= inject_Z c / inject_Z news).
    { intros c Hc. apply Qle_shift_div_l; [exact Hq|].
      rewrite Zle_Qle in Hc. change (inject_Z 0) with 0 in Hc. lra. }
    pose proof (Q0 pos Hpos) as Qp. pose proof (Q0 neg Hneg) as Qn.
    pose proof (Q0 neu Hneu) as Qu.
    split; [lia|]. split; [exact P|].
    split; [reflexivity|]. split; [reflexivity|]. split; [reflexivity|].
    split; [exact Hs|]. split.
    + unfold share. split.
      * intros E.
        assert (E' : inject_Z (len df) == inject_Z news).
        { rewrite <- (Qmult_1_l (inject_Z news)), <- E. field. exact Hne. }
        rewrite inject_Z_injective in E'. lia.
      * intros ->. field. exact Hne.
    + assert (Ep : Qabs (percent pos news
                         - 100 * (inject_Z pos / inject_Z news))
                   <= 300 * share * pow2 (- 53))
        by (apply percent_error; [exact Hq|exact Hs|split; lra]).
      assert (En : Qabs (percent neg news
                         - 100 * (inject_Z neg / inject_Z news))
                   <= 300 * share * pow2 (- 53))
        by (apply percent_error; [exact Hq|exact Hs|split; lra]).
      assert (Eu : Qabs (percent neu news
                         - 100 * (inject_Z neu / inject_Z news))
                   <= 300 * share * pow2 (- 53))
        by (apply percent_error; [exact Hq|exact Hs|split; lra]).
      apply Qabs_Qle_condition in Ep. apply Qabs_Qle_condition in En.
      apply Qabs_Qle_condition in Eu. apply Qabs_Qle_condition.
      assert (U : pow2 (- 43) == 1024 * pow2 (- 53)) by reflexivity.
      assert (Up : 0 < pow2 (- 53)) by apply pow2_pos.
      rewrite U.
      set (u := pow2 (- 53)) in *.
      set (a := percent pos news) in *. set (b := percent neg news) in *.
      set (c := percent neu news) in *.
      set (qa := inject_Z pos / inject_Z news) in *.
      set (qb := inject_Z neg / inject_Z news) in *.
      set (qc := inject_Z neu / inject_Z news) in *.
      clearbody a b c qa qb qc u share. split; nra.
  - cbn [sentiment_distribution rows_with_news].
    unfold news, count_rows, len in *. lia.
Qed.

End PrintedStatistics.

(** ** bert_test.py *)

Section TestScript.
Context {scorer : ExternalScorer}.
Context {python : Interpreter}.

(** X19: the scorer of bert_test.py does not compute the score of
    the pipeline.  Both load the same model, whose answer
    sentiment_analyzer.py reads as [neutral, negative, positive];
    on an answer of that model to a text that is not blank the
    pipeline returns the rounded positive - negative (a [float] in
    sentiment_analyzer.py, an entry of a tensor in
    sentiment_analyzer_correct.py), while [analyze_sentiment] of
    bert_test.py returns the rounded negative - neutral: it never
    reads the positive class.  The exact differences agree only when
    positive + neutral = 2 * negative; the two [float]s agree when
    that holds, and on probabilities they agree only when it holds
    within the rounding. *)
Theorem bert_test_reads_other_classes
  text w neutral negative positive rest s' :
  blank text = false ->
  classify (state w) text
  = (Ok (neutral :: negative :: positive :: rest), s') ->
  let w' := World s' (calls w ++ [text]) in
  BertTest.analyze_sentiment text w
  = (Ok (float_sub negative neutral), w')
  /\ SentimentAnalyzer.get_sentiment_score text w
     = (Ok (SentimentAnalyzer.ScoreData (float_sub positive negative)
              positive negative neutral), w')
  /\ CorrectSentimentAnalyzer.get_sentiment_score text w
     = (Ok (tensor_sub positive negative), w')
  /\ (negative - neutral == positive - negative
      <-> positive + neutral == 2 * negative)
  /\ (positive + neutral == 2 * negative ->
      float_sub negative neutral == float_sub positive negative)
  /\ (0 <= neutral <= 1 -> 0 <= negative <= 1 -> 0 <= positive <= 1 ->
      float_sub negative neutral == float_sub positive negative ->
      Qabs (positive + neutral - 2 * negative) <= pow2 (- 52)).
Proof.
  intros Hb Hc w'. split; [|split; [|split; [|split; [|split]]]].
  - unfold BertTest.analyze_sentiment. rewrite guard_blank, Hb.
    unfold try_except, bind, invoke. now rewrite Hc.
  - eapply get_sentiment_score_probs; [now rewrite guard_blank|exact Hc].
  - unfold CorrectSentimentAnalyzer.get_sentiment_score.
    rewrite guard_blank, Hb.
    unfold try_except, bind, invoke. now rewrite Hc.
  - split; intros E; lra.
  - intros E. unfold float_sub, sub. apply round_comp. lra.
  - intros Hu Hn Hp E. unfold float_sub, sub in E.
    assert (E1 : Qabs (round binary64 (negative - neutral)
                       - (negative - neutral)) <= 1 * pow2 (- 53)).
    { apply (@round_error_bound binary64); [cbn; lia|lra|].
      apply Qabs_Qle_condition. split; lra. }
    assert (E2 : Qabs (round binary64 (positive - negative)
                       - (positive - negative)) <= 1 * pow2 (- 53)).
    { apply (@round_error_bound binary64); [cbn; lia|lra|].
      apply Qabs_Qle_condition. split; lra. }
    apply Qabs_Qle_condition in E1. apply Qabs_Qle_condition in E2.
    apply Qabs_Qle_condition.
    assert (U : pow2 (- 52) == 2 * pow2 (- 53)) by reflexivity.
    rewrite U.
    set (a := round binary64 (negative - neutral)) in *.
    set (b := round binary64 (positive - negative)) in *.
    set (u := pow2 (- 53)) in *.
    clearbody a b u. split; lra.
Qed.

End TestScript.

Lemma bert_test_reads_other_classes_witness :
  BertTest.analyze_sentiment (lit "x") Stub.fresh
  = (Ok (float_sub (1 # 8) (1 # 8)),
     World (scorer := Stub.always_positive) tt [lit "x"])
  /\ CorrectSentimentAnalyzer.get_sentiment_score (lit "x") Stub.fresh
     = (Ok (tensor_sub (3 # 4) (1 # 8)),
        World (scorer := Stub.always_positive) tt [lit "x"]).
Proof.
  destruct (@bert_test_reads_other_classes Stub.always_positive
              (lit "x") Stub.fresh (1 # 8) (1 # 8) (3 # 4) [] tt
              eq_refl eq_refl) as (H1 & _ & H3 & _).
  split; [exact H1|exact H3].
Defined.

(** ** BERT/BERT_main.py: the analysis of a page *)

Section PageAnalysis.
Import BERT_main.
Context {scorer : ExternalScorer}.
Context {python : Interpreter}.

Lemma split_absent sep s : ~ In sep s -> split sep s = [s].
Proof.
  induction s as [|c s IH]; [reflexivity|].
  intros H. simpl. destruct (N.eqb_spec c sep) as [->|_].
  - exfalso. apply H. now left.
  - rewrite IH; [reflexivity|]. intros Hs. apply H. now right.
Qed.

Lemma blank_no_full_stop s : blank s = true -> ~ In FULL_STOP s.
Proof.
  induction s as [|c s IH]; [auto|].
  simpl. rewrite andb_true_iff. intros [Hc Hs] [->|H].
  - discriminate.
  - now apply IH.
Qed.

(** What one unguarded call does: it submits the text, and returns
    exactly when the answer has the three entries that are read. *)
Lemma page_score_spec text w :
  let w' := World (snd (classify (state w) text)) (calls w ++ [text]) in
  match fst (classify (state w) text) with
  | Ok (neutral :: negative :: positive :: _) =>
      get_sentiment_score text w = (Ok (tensor_sub positive negative), w')
  | Ok _ => get_sentiment_score text w = (Raise IndexError, w')
  | Raise e => get_sentiment_score text w = (Raise e, w')
  end.
Proof.
  unfold get_sentiment_score, bind, invoke.
  destruct (classify (state w) text) as [[prob|e] s']; simpl;
    [|reflexivity].
  destruct prob as [|neu [|neg [|pos rest]]]; reflexivity.
Qed.

Lemma page_score_log text w r w' :
  get_sentiment_score text w = (r, w') -> calls w' = calls w ++ [text].
Proof.
  pose proof (page_score_spec text w) as H. cbv zeta in H.
  destruct (fst (classify (state w) text)) as [prob|e].
  - destruct prob as [|neu [|neg [|pos rest]]];
      rewrite H; intros E; inversion E; reflexivity.
  - rewrite H. intros E. inversion E. reflexivity.
Qed.

Lemma page_score_raises text w e w' :
  get_sentiment_score text w = (Raise e, w') ->
  usable (fst (classify (state w) text)) = false.
Proof.
  pose proof (page_score_spec text w) as H. cbv zeta in H.
  destruct (fst (classify (state w) text)) as [prob|e0]; [|reflexivity].
  destruct prob as [|neu [|neg [|pos rest]]]; try reflexivity.
  rewrite H. discriminate.
Qed.

Lemma page_score_returns text w :
  usable (fst (classify (state w) text)) = true ->
  exists score w', get_sentiment_score text w = (Ok score, w').
Proof.
  pose proof (page_score_spec text w) as H. cbv zeta in H.
  destruct (fst (classify (state w) text)) as [prob|e0]; [|discriminate].
  destruct prob as [|neu [|neg [|pos rest]]]; try discriminate. eauto.
Qed.

Lemma score_sentences_spec sentences : forall w,
  match score_sentences sentences w with
  | (Ok scores, w') =>
      List.length scores = List.length sentences
      /\ calls w' = calls w ++ sentences
  | (Raise e, w') =>
      exists j s st,
        nth_error sentences j = Some s
        /\ usable (fst (classify st s)) = false
        /\ calls w' = calls w ++ firstn (S j) sentences
  end.
Proof.
  induction sentences as [|s rest IH]; intros w.
  - simpl. split; [reflexivity|]. now rewrite app_nil_r.
  - cbn [score_sentences]. unfold bind at 1.
    destruct (get_sentiment_score s w) as [[score|e] w1] eqn:E.
    + apply page_score_log in E. specialize (IH w1).
      unfold bind at 1.
      destruct (score_sentences rest w1) as [[scores|e] w2].
      * destruct IH as [Hl Hc]. unfold ret. split; [simpl; now rewrite Hl|].
        rewrite Hc, E, <- app_assoc. reflexivity.
      * destruct IH as (j & s1 & st & Hj & Hu & Hc).
        exists (S j), s1, st. split; [exact Hj|]. split; [exact Hu|].
        rewrite Hc, E, <- app_assoc. reflexivity.
    + exists 0%nat, s, (state w). split; [reflexivity|].
      split; [now apply page_score_raises with e w1|].
      now apply page_score_log in E.
Qed.

Lemma score_sentences_returns sentences : forall w,
  (forall st s, usable (fst (classify st s)) = true) ->
  exists scores w', score_sentences sentences w = (Ok scores, w').
Proof.
  induction sentences as [|s rest IH]; intros w U.
  - now exists [], w.
  - cbn [score_sentences].
    destruct (page_score_returns s w (U _ _)) as (score & w1 & E).
    erewrite bind_ok by exact E.
    destruct (IH w1 U) as (scores & w2 & E2).
    erewrite bind_ok by exact E2. unfold ret. eauto.
Qed.

(** X20: [analyze_html_sentiment] on the text extracted from a page
    either scores every sentence or returns nothing.  The sentences
    are the stripped pieces between the full stops that hold a
    character other than whitespace.  Without a sentence the result
    is [None] and the scorer is not called.  Otherwise the sentences
    are submitted in order; when all are scored, the result counts
    each of them in exactly one class; and at the first sentence
    whose scoring fails (an exception of the scorer, an answer with
    fewer than three entries), the analysis raises as well, the
    sentences after it are never submitted and the scores obtained
    so far are lost: there is no handler, unlike in the analysers of
    the pipeline.  With a scorer whose answers always have three
    entries the analysis returns. *)
Theorem page_analysed_whole_or_not text_data w :
  let sentences :=
    map strip
      (filter (fun s => negb (blank s)) (split FULL_STOP text_data)) in
  match analyze_html_sentiment text_data w with
  | (Ok None, w') => sentences = [] /\ w' = w
  | (Ok (Some r), w') =>
      sentences <> []
      /\ total_sentences r = len sentences
      /\ (positive_count r + negative_count r + neutral_count r
          = total_sentences r)%Z
      /\ calls w' = calls w ++ sentences
  | (Raise e, w') =>
      exists j s st,
        nth_error sentences j = Some s
        /\ usable (fst (classify st s)) = false
        /\ calls w' = calls w ++ firstn (S j) sentences
  end
  /\ ((forall st s, usable (fst (classify st s)) = true) ->
      exists r w', analyze_html_sentiment text_data w = (Ok r, w')).
Proof.
  intros sentences. unfold analyze_html_sentiment.
  assert (Es : map strip
                 (filter (fun s => truthy (strip s))
                    (split FULL_STOP text_data)) = sentences).
  { unfold sentences. f_equal. apply filter_ext. intros s.
    apply truthy_strip. }
  rewrite Es. rewrite truthy_strip, negb_involutive.
  destruct (blank text_data) eqn:B.
  - unfold ret. split; [|eauto]. split; [|reflexivity].
    unfold sentences.
    rewrite split_absent by now apply blank_no_full_stop.
    simpl. now rewrite B.
  - destruct sentences as [|s0 rest] eqn:Ee.
    + simpl. split; [split; reflexivity|].
      intros _. exists None, w. reflexivity.
    + unfold bind. split.
      * pose proof (score_sentences_spec (s0 :: rest) w) as H.
        destruct (score_sentences (s0 :: rest) w) as [[scores|e] w'].
        -- destruct H as [Hl Hc].
           destruct scores as [|q scores]; [discriminate|].
           cbn [truthy_list]. unfold ret.
           cbn [total_sentences positive_count negative_count
                  neutral_count].
           split; [discriminate|]. split; [reflexivity|].
           split; [|exact Hc]. unfold len. rewrite Hl. lia.
        -- exact H.
      * intros U.
        destruct (score_sentences_returns (s0 :: rest) w U)
          as (scores & w' & E).
        rewrite E. destruct (truthy_list scores); unfold ret; eauto.
Qed.

End PageAnalysis.

(** ** bloomberg_scraper_class.py: the search for addresses *)

Section Scraper.
Import BloombergScraper.
Context {outside : Outside}.

Lemma draws_app l1 l2 : draws (l1 ++ l2) = (draws l1 + draws l2)%nat.
Proof. unfold draws. now rewrite filter_app, length_app. Qed.

Lemma draws_draw l : draws (l ++ [Draw]) = S (draws l).
Proof. rewrite draws_app. unfold draws. simpl. lia. Qed.

Lemma draws_other l e : e <> Draw -> draws (l ++ [e]) = draws l.
Proof.
  intros H. rewrite draws_app. unfold draws.
  destruct e; [congruence| | |]; simpl; lia.
Qed.

Lemma check_url_exists_draws url s r s' :
  check_url_exists url s = (r, s') -> draws (log s') = draws (log s).
Proof.
  unfold check_url_exists.
  destruct (session_head (state s) url) as [[code| |] st]; cbn [state log].
  - destruct (code =? 200)%Z.
    + intros E. inversion E. cbn [log]. now rewrite draws_other.
    + destruct (code =? 404)%Z.
      * intros E. inversion E. cbn [log]. now rewrite draws_other.
      * destruct (session_get st url) as [[code'| |] st'];
          intros E; inversion E; cbn [log];
          rewrite !draws_other; congruence.
  - intros E. inversion E. cbn [log]. now rewrite draws_other.
  - intros E. inversion E. cbn [log]. now rewrite draws_other.
Qed.

Lemma check_url_exists_found url s :
  (forall st u, fst (session_head st u) = Status 200) ->
  exists s', check_url_exists url s = (Returned true, s').
Proof.
  intros H. unfold check_url_exists. specialize (H (state s) url).
  destruct (session_head (state s) url) as [r st]. simpl in H. subst r.
  simpl. eauto.
Qed.

Lemma startswith_app p x : startswith (p ++ x) p = true.
Proof.
  induction p as [|c p IH]; [reflexivity|].
  simpl. now rewrite N.eqb_refl, IH.
Qed.

Lemma try_loop_spec date_str pattern M : forall fuel valid attempts s,
  (len valid <= attempts)%Z ->
  (Z.to_nat (M - attempts) <= fuel)%nat ->
  exists found s',
    try_loop fuel date_str pattern M valid attempts s
    = Some (valid ++ found, s')
    /\ (List.length found <= Z.to_nat (M - attempts))%nat
    /\ draws (log s') = (draws (log s) + Z.to_nat (M - attempts))%nat
    /\ Forall (of_the_day date_str) found
    /\ ((forall st u, fst (session_head st u) = Status 200) ->
        (forall st, exists id, fst (pattern st) = Returned id) ->
        List.length found = Z.to_nat (M - attempts)).
Proof.
  induction fuel as [|fuel IH]; intros valid attempts s Hv Hf.
  - assert (Hm : (M <= attempts)%Z) by lia.
    exists [], s. rewrite app_nil_r. cbn [try_loop].
    destruct (Z.ltb_spec attempts M); [lia|]. rewrite andb_false_r.
    replace (Z.to_nat (M - attempts)) with 0%nat by lia.
    repeat split; auto.
  - cbn [try_loop].
    destruct (Z.ltb_spec attempts M) as [Hlt|Hge].
    + destruct (Z.ltb_spec (len valid) M) as [_|]; [|lia]. cbn [andb].
      assert (Hn : Z.to_nat (M - attempts)
                   = S (Z.to_nat (M - (attempts + 1)))) by lia.
      destruct (pattern (state s)) as [drawn st] eqn:Ep.
      destruct drawn as [article_id|].
      * set (url := base_url ++ lit "/news/articles/" ++ date_str
                    ++ lit "/" ++ article_id).
        set (s0 := Session st (log s ++ [Draw])).
        destruct (check_url_exists url s0) as [res s1] eqn:Ec.
        assert (Hd : draws (log s1) = S (draws (log s))).
        { rewrite (check_url_exists_draws _ _ Ec). apply draws_draw. }
        assert (Hu : of_the_day date_str url).
        { unfold of_the_day, url.
          replace (base_url ++ lit "/news/articles/" ++ date_str
                   ++ lit "/" ++ article_id)
            with ((base_url ++ lit "/news/articles/" ++ date_str
                   ++ lit "/") ++ article_id)
            by now rewrite <- !app_assoc.
          apply startswith_app. }
        destruct res as [b|].
        -- destruct b.
           ++ destruct (IH (valid ++ [url]) (attempts + 1)%Z
                         (Session (state s1) (log s1 ++ [Sleep (3 # 10)])))
                as (found & s' & E & Hl & Hdr & Hw & Hall).
              { unfold len in *. rewrite length_app. simpl. lia. }
              { lia. }
              exists (url :: found), s'. rewrite <- app_assoc in E.
              split; [exact E|]. split; [simpl; lia|]. split.
              { rewrite Hdr. cbn [log].
                rewrite draws_other by discriminate. lia. }
              split; [now constructor|].
              intros H200 Ht. simpl. rewrite (Hall H200 Ht). lia.
           ++ destruct (IH valid (attempts + 1)%Z
                         (Session (state s1) (log s1 ++ [Sleep (3 # 10)])))
                as (found & s' & E & Hl & Hdr & Hw & Hall); [lia|lia|].
              exists found, s'. split; [exact E|]. split; [lia|]. split.
              { rewrite Hdr. cbn [log].
                rewrite draws_other by discriminate. lia. }
              split; [exact Hw|].
              intros H200 Ht. exfalso.
              destruct (check_url_exists_found url s0 H200) as (s2 & E2).
              rewrite E2 in Ec. discriminate.
        -- destruct (IH valid (attempts + 1)%Z s1)
             as (found & s' & E & Hl & Hdr & Hw & Hall); [lia|lia|].
           exists found, s'. split; [exact E|]. split; [lia|]. split.
           { rewrite Hdr. lia. }
           split; [exact Hw|].
           intros H200 Ht. exfalso.
           destruct (check_url_exists_found url s0 H200) as (s2 & E2).
           rewrite E2 in Ec. discriminate.
      * destruct (IH valid (attempts + 1)%Z (Session st (log s ++ [Draw])))
          as (found & s' & E & Hl & Hdr & Hw & Hall); [lia|lia|].
        exists found, s'. split; [exact E|]. split; [lia|]. split.
        { rewrite Hdr. cbn [log]. rewrite draws_draw. lia. }
        split; [exact Hw|].
        intros H200 Ht. exfalso. destruct (Ht (state s)) as (id & Hid).
        rewrite Ep in Hid. discriminate.
    + rewrite andb_false_r. exists [], s. rewrite app_nil_r.
      replace (Z.to_nat (M - attempts)) with 0%nat by lia.
      repeat split; auto.
Qed.

Lemma try_pattern_budget (fuel : nat) date_str pattern (n : Z) s :
  (100 <= fuel)%nat ->
  exists urls s',
    try_pattern fuel date_str pattern n s = Some (urls, s')
    /\ draws (log s')
       = (draws (log s) + Z.to_nat (Z.min (n * 10) 100))%nat
    /\ (List.length urls <= Z.to_nat (Z.min (n * 10) 100))%nat
    /\ Forall (of_the_day date_str) urls
    /\ ((forall st u, fst (session_head st u) = Status 200) ->
        (forall st, exists id, fst (pattern st) = Returned id) ->
        List.length urls = Z.to_nat (Z.min (n * 10) 100)).
Proof.
  intros Hf. unfold try_pattern.
  destruct (@try_loop_spec date_str pattern (Z.min (n * 10) 100)
              fuel [] 0%Z s)
    as (found & s' & E & Hl & Hd & Hw & Hall).
  { unfold len. simpl. lia. }
  { lia. }
  rewrite Z.sub_0_r in *. simpl in E.
  exists found, s'. repeat split; assumption.
Qed.

(** X21: [_try_pattern] always ends, and the number of identifiers
    it draws depends on the request alone: asked for [n] addresses
    it draws exactly min(10 n, 100) candidates (none when that is
    not positive), whether they exist or not, because the same
    bound limits the attempts and the addresses to return.  What it
    returns are addresses of articles of the day, at most as many
    as candidates; and on a site where every address exists it
    returns all of them, ten times what was asked for up to 100. *)
Theorem try_pattern_draws_ten_times
  (fuel : nat) date_str pattern (n : Z) s :
  (100 <= fuel)%nat ->
  let budget := Z.to_nat (Z.min (n * 10) 100) in
  exists urls s',
    try_pattern fuel date_str pattern n s = Some (urls, s')
    /\ draws (log s') = (draws (log s) + budget)%nat
    /\ (List.length urls <= budget)%nat
    /\ Forall (of_the_day date_str) urls
    /\ ((forall st u, fst (session_head st u) = Status 200) ->
        (forall st, exists id, fst (pattern st) = Returned id) ->
        List.length urls = budget).
Proof.
  intros Hf budget. unfold try_pattern.
  destruct (@try_loop_spec date_str pattern (Z.min (n * 10) 100)
              fuel [] 0%Z s)
    as (found & s' & E & Hl & Hd & Hw & Hall).
  { unfold len. simpl. lia. }
  { lia. }
  rewrite Z.sub_0_r in *. simpl in E.
  exists found, s'. repeat split; assumption.
Qed.

Lemma patterns_loop_done fuel date_str patterns n acc s :
  (n <= len acc)%Z ->
  patterns_loop fuel date_str patterns n acc s = Some (acc, s).
Proof.
  intros H. destruct patterns as [|p rest]; [reflexivity|].
  cbn [patterns_loop]. destruct (Z.geb_spec (len acc) n); [reflexivity|lia].
Qed.

Lemma patterns_loop_bound fuel date_str n :
  (100 <= fuel)%nat ->
  forall patterns acc s,
    (len acc <= Z.max 0 (Z.min (10 * n) (n + 90)))%Z ->
    Forall (of_the_day date_str) acc ->
    exists urls s',
      patterns_loop fuel date_str patterns n acc s = Some (urls, s')
      /\ (len urls <= Z.max 0 (Z.min (10 * n) (n + 90)))%Z
      /\ (draws (log s')
          <= draws (log s) + 100 * List.length patterns)%nat
      /\ Forall (of_the_day date_str) urls.
Proof.
  intros Hf. induction patterns as [|p rest IH]; intros acc s Hb Hw.
  - exists acc, s. repeat split; auto. simpl. lia.
  - cbn [patterns_loop]. destruct (Z.geb_spec (len acc) n) as [Hge|Hlt].
    + exists acc, s. repeat split; auto. lia.
    + destruct (@try_pattern_budget fuel date_str p (n - len acc) s Hf)
        as (found & s1 & E & Hd & Hl & Hwf & _).
      rewrite E.
      destruct (IH (acc ++ found) s1) as (urls & s' & E' & Hb' & Hd' & Hw').
      { unfold len in *. rewrite length_app. lia. }
      { apply Forall_app. now split. }
      exists urls, s'. split; [exact E'|]. split; [exact Hb'|].
      split; [|exact Hw']. cbn [List.length]. lia.
Qed.

Lemma alnum_returns k st : exists id, fst (alnum k st) = Returned id.
Proof.
  unfold alnum. destruct (random_choices st (ascii_uppercase ++ digits) k).
  simpl. eauto.
Qed.

(** X22: [max_articles] is no maximum of [get_news_list_by_date].
    The search always ends, having drawn at most 700 candidates, and
    returns addresses of articles of the day, none for a request
    that is not positive and at most min(10 n, n + 90) for a request
    of [n]: a pattern is only skipped once [n] addresses are there,
    and is asked for up to ten times what is missing.  On a site
    where every address exists a request of [n] from 1 to 100
    returns min(10 n, 100) addresses, found by the first pattern
    alone: more than the [n] asked for whenever n < 100. *)
Theorem news_list_exceeds_request (fuel : nat) date_str (n : Z) s :
  (100 <= fuel)%nat ->
  exists urls s',
    get_news_list_by_date fuel date_str n s = Some (urls, s')
    /\ (len urls <= Z.max 0 (Z.min (10 * n) (n + 90)))%Z
    /\ (draws (log s') <= draws (log s) + 700)%nat
    /\ Forall (of_the_day date_str) urls
    /\ ((forall st u, fst (session_head st u) = Status 200) ->
        (1 <= n <= 100)%Z -> len urls = Z.min (10 * n) 100).
Proof.
  intros Hf. unfold get_news_list_by_date, generate_urls_by_pattern.
  destruct (@patterns_loop_bound fuel date_str n Hf
              get_bloomberg_id_patterns [] s)
    as (urls & s' & E & Hb & Hd & Hw).
  { unfold len. simpl. lia. }
  { constructor. }
  exists urls, s'. split; [exact E|]. split; [exact Hb|].
  split; [exact Hd|]. split; [exact Hw|].
  intros H200 Hn. revert E. unfold get_bloomberg_id_patterns.
  set (rest := alnum 7 :: _).
  cbn [patterns_loop]. change (len []) with 0%Z.
  destruct (Z.geb_spec 0 n); [lia|].
  destruct (@try_pattern_budget fuel date_str (alnum 6) (n - 0) s Hf)
    as (found & s1 & E1 & _ & _ & _ & Hall).
  rewrite E1. cbn [app]. rewrite patterns_loop_done.
  - intros E. inversion E; subst. unfold len.
    rewrite (Hall H200 (alnum_returns 6)). lia.
  - unfold len. rewrite (Hall H200 (alnum_returns 6)). lia.
Qed.

End Scraper.

Lemma try_pattern_draws_ten_times_witness :
  exists urls s',
    BloombergScraper.try_pattern 100 (lit "2025-09-24")
      (BloombergScraper.alnum 6) 2 Stub.first_visit = Some (urls, s')
    /\ draws (BloombergScraper.log s') = 20%nat
    /\ List.length urls = 20%nat.
Proof.
  destruct (@try_pattern_draws_ten_times Stub.everything_exists 100
              (lit "2025-09-24") (BloombergScraper.alnum 6) 2
              Stub.first_visit (le_n 100))
    as (urls & s' & E & Hd & _ & _ & Hall).
  exists urls, s'. split; [exact E|]. split; [exact Hd|].
  apply Hall.
  - intros st u. reflexivity.
  - intros st. eexists. reflexivity.
Defined.

Lemma news_list_exceeds_request_witness :
  exists urls s',
    BloombergScraper.get_news_list_by_date 100 (lit "2025-09-24") 20
      Stub.first_visit = Some (urls, s')
    /\ len urls = 100%Z.
Proof.
  destruct (@news_list_exceeds_request Stub.everything_exists 100
              (lit "2025-09-24") 20 Stub.first_visit (le_n 100))
    as (urls & s' & E & _ & _ & _ & Hall).
  exists urls, s'. split; [exact E|].
  apply Hall; [intros st u; reflexivity|lia].
Defined.

(** ** The parsers of article_parser.py and url_to_text_converter.py *)

Section Parsers.
Import Bs4.

Lemma first_match_hd page selectors field :
  ArticleParser.first_match page selectors field
  = List.hd field (matched page selectors).
Proof.
  induction selectors as [|sel rest IH]; [reflexivity|].
  simpl. unfold matched in *. simpl.
  destruct (page sel); [reflexivity|exact IH].
Qed.

Lemma last_default {A} (x : A) l d1 d2 :
  List.last (x :: l) d1 = List.last (x :: l) d2.
Proof.
  revert x. induction l as [|y l IH]; intros x; [reflexivity|].
  change (List.last (y :: l) d1 = List.last (y :: l) d2). apply IH.
Qed.

Lemma long_match_find n page selectors : forall field,
  UrlToText.long_match n page selectors field
  = match find (ArticleParser.longer_than n) (matched page selectors) with
    | Some text => text
    | None => List.last (matched page selectors) field
    end.
Proof.
  induction selectors as [|sel rest IH]; intros field; [reflexivity|].
  cbn [UrlToText.long_match]. unfold matched in *. cbn [flat_map].
  destruct (page sel) as [tag|]; [|apply IH].
  cbn [app find].
  destruct (ArticleParser.longer_than n (get_text tag)); [reflexivity|].
  rewrite IH. destruct (find _ _); [reflexivity|].
  destruct (flat_map _ rest) as [|t l]; [reflexivity|].
  change (List.last (get_text tag :: t :: l) field)
    with (List.last (t :: l) field).
  apply last_default.
Qed.

Lemma matched_app page l1 l2 :
  matched page (l1 ++ l2) = matched page l1 ++ matched page l2.
Proof. apply flat_map_app. Qed.

(** X23: which title the parsers take.  [parse_bloomberg_article]
    takes the text of the first element that one of its four
    selectors matches, empty or not, and ['タイトルなし'] when none
    matches.  [parse_article_enhanced], on a page that was downloaded
    and parsed, takes among the texts that its five selectors match
    the first one longer than five characters; when there is none it
    keeps the last text matched, which may be short or empty, and
    only without any match ['タイトルなし'].  So the two agree
    whenever the first text matched is longer than five
    characters. *)
Theorem enhanced_title_choice {parser : HtmlParser} html page :
  truthy html = true ->
  BeautifulSoup html = Some page ->
  let texts := matched page UrlToText.title_selectors in
  title (UrlToText.parse_article_enhanced (Some html))
  = match find (ArticleParser.longer_than 5) texts with
    | Some text => text
    | None => List.last texts ArticleParser.NO_TITLE
    end
  /\ title (ArticleParser.parse_bloomberg_article page)
     = List.hd ArticleParser.NO_TITLE
         (matched page ArticleParser.title_selectors)
  /\ (forall text rest,
         matched page ArticleParser.title_selectors = text :: rest ->
         ArticleParser.longer_than 5 text = true ->
         title (UrlToText.parse_article_enhanced (Some html)) = text
         /\ title (ArticleParser.parse_bloomberg_article page) = text).
Proof.
  intros Hh Hp texts.
  assert (E : title (UrlToText.parse_article_enhanced (Some html))
              = UrlToText.long_match 5 page UrlToText.title_selectors
                  ArticleParser.NO_TITLE).
  { unfold UrlToText.parse_article_enhanced. now rewrite Hh, Hp. }
  assert (B : title (ArticleParser.parse_bloomberg_article page)
              = List.hd ArticleParser.NO_TITLE
                  (matched page ArticleParser.title_selectors)).
  { unfold ArticleParser.parse_bloomberg_article. cbn [title].
    apply first_match_hd. }
  split; [|split].
  - rewrite E. apply long_match_find.
  - exact B.
  - intros text rest Hm Hl. split.
    + rewrite E, long_match_find.
      change UrlToText.title_selectors
        with (ArticleParser.title_selectors
                ++ [lit "[data-testid='headline']"]).
      rewrite matched_app, Hm. cbn [app find]. now rewrite Hl.
    + now rewrite B, Hm.
Qed.

End Parsers.

Lemma enhanced_title_choice_witness :
  Bs4.title
    (UrlToText.parse_article_enhanced (parser := Stub.reads_empty_h1)
       (Some (lit "<html>")))
  = lit "Stocks rise"
  /\ Bs4.title (ArticleParser.parse_bloomberg_article Stub.empty_h1) = [].
Proof.
  destruct (@enhanced_title_choice Stub.reads_empty_h1 (lit "<html>")
              Stub.empty_h1 eq_refl eq_refl) as (H1 & H2 & _).
  split; [exact H1|exact H2].
Defined.

(** ** url_to_text_converter.py: one row for every address *)

Section ArticleRows.
Import UrlToText.
Context {site : Site} {parser : Bs4.HtmlParser}.

Lemma fetches_app l1 l2 :
  fetches (l1 ++ l2) = (fetches l1 + fetches l2)%nat.
Proof. unfold fetches. now rewrite filter_app, length_app. Qed.

(** The places of the rows: the dates, and for each the addresses
    taken. *)
Lemma process_date_rows date_str urls : forall results s,
  map (fun r => (row_date r, bloomberg_url r))
    (fst (process_date date_str urls results s))
  = map (fun r => (row_date r, bloomberg_url r)) results
    ++ map (pair date_str) urls.
Proof.
  induction urls as [|url rest IH]; intros results s.
  - simpl. now rewrite app_nil_r.
  - cbn [process_date].
    destruct (fetch_article_with_retry url 3 s) as [html s1].
    rewrite IH, map_app, <- app_assoc. reflexivity.
Qed.

Lemma process_groups_rows groups max : forall results s,
  map (fun r => (row_date r, bloomberg_url r))
    (fst (process_groups groups max results s))
  = map (fun r => (row_date r, bloomberg_url r)) results
    ++ flat_map (fun g => map (pair (fst g)) (slice_to max (snd g))) groups.
Proof.
  induction groups as [|[date_str urls] rest IH]; intros results s.
  - simpl. now rewrite app_nil_r.
  - cbn [process_groups flat_map fst snd].
    pose proof (process_date_rows date_str (slice_to max urls) results s)
      as H.
    destruct (process_date date_str (slice_to max urls) results s)
      as [results1 s1].
    cbn [fst] in H. rewrite IH, H, <- app_assoc. reflexivity.
Qed.

Lemma answers_unreachable st url n :
  (forall st u, fst (fetch_bloomberg_article st u) = Failure) ->
  answers st url n = repeat Failure n.
Proof.
  intros H. revert st. induction n as [|n IH]; intros st; [reflexivity|].
  simpl. specialize (H st url).
  destruct (fetch_bloomberg_article st url) as [r st']. simpl in H. subst r.
  now rewrite IH.
Qed.

Lemma first_page_failures n : first_page (repeat Failure n) = None.
Proof. induction n; [reflexivity|exact IHn]. Qed.

Lemma tries_failures n : tries (repeat Failure n) = n.
Proof. induction n; [reflexivity|simpl; now rewrite IHn]. Qed.

Lemma fetches_paced url n : fetches (paced url n) = n.
Proof.
  induction n as [|n IH]; [reflexivity|].
  destruct n as [|n]; [reflexivity|].
  change (paced url (S (S n)))
    with (Fetch url :: Sleep 2 :: paced url (S n)).
  unfold fetches in *. simpl in *. now rewrite IH.
Qed.

Lemma retry_unreachable url s :
  (forall st u, fst (fetch_bloomberg_article st u) = Failure) ->
  exists s',
    fetch_article_with_retry url 3 s = (None, s')
    /\ fetches (log s') = (fetches (log s) + 3)%nat.
Proof.
  intros H. unfold fetch_article_with_retry, range.
  rewrite attempts_loop_spec by reflexivity.
  rewrite (answers_unreachable _ _ _ H), first_page_failures, tries_failures.
  eexists. split; [reflexivity|]. cbn [log].
  now rewrite fetches_app, fetches_paced.
Qed.

Lemma process_date_unreachable date_str urls : forall results s,
  (forall st u, fst (fetch_bloomberg_article st u) = Failure) ->
  Forall (fun r => row_article r = failed_article) results ->
  let out := process_date date_str urls results s in
  Forall (fun r => row_article r = failed_article) (fst out)
  /\ fetches (log (snd out))
     = (fetches (log s) + 3 * List.length urls)%nat.
Proof.
  induction urls as [|url rest IH]; intros results s H F.
  - simpl. split; [exact F|lia].
  - cbn [process_date].
    destruct (retry_unreachable url s H) as (s1 & E & Hf). rewrite E.
    destruct (@IH (results ++ [ArticleRow date_str url
                                 (parse_article_enhanced None)])
                (Session (server s1) (log s1 ++ [Sleep 1])) H) as [F' Hf'].
    { apply Forall_app. split; [exact F|]. now repeat constructor. }
    cbv zeta. split; [exact F'|]. rewrite Hf'. cbn [log List.length].
    rewrite fetches_app, Hf. unfold fetches at 2. simpl. lia.
Qed.

Lemma process_groups_unreachable groups max : forall results s,
  (forall st u, fst (fetch_bloomberg_article st u) = Failure) ->
  Forall (fun r => row_article r = failed_article) results ->
  let out := process_groups groups max results s in
  Forall (fun r => row_article r = failed_article) (fst out)
  /\ (fetches (log (snd out)) + 3 * List.length results
      = fetches (log s) + 3 * List.length (fst out))%nat.
Proof.
  induction groups as [|[date_str urls] rest IH]; intros results s H F.
  - simpl. split; [exact F|lia].
  - cbn [process_groups].
    pose proof (@process_date_unreachable date_str (slice_to max urls)
                  results s H F) as [F1 Hf1].
    pose proof (process_date_rows date_str (slice_to max urls) results s)
      as Hr.
    destruct (process_date date_str (slice_to max urls) results s)
      as [results1 s1].
    cbn [fst snd] in *.
    destruct (@IH results1 s1 H F1) as [F2 Hf2].
    cbv zeta. split; [exact F2|].
    apply (f_equal (@List.length _)) in Hr.
    rewrite length_app, !length_map in Hr. lia.
Qed.

(** X24: [process_urls_to_articles] writes one row for every address
    it takes, whether the article could be downloaded or not.  From
    the groups by date, the rows are, group after group, the first
    [max_articles_per_date] addresses of each date in their order
    (all but the last ones, for a negative number); no address is
    dropped because of an error.  On a site that never delivers,
    every address is requested three times and still gets its row,
    with ['取得失敗'] as title, author, content and date. *)
Theorem every_address_gets_a_row date_groups (max_articles_per_date : Z) s :
  let out := process_urls_to_articles date_groups max_articles_per_date s in
  map (fun r => (row_date r, bloomberg_url r)) (fst out)
  = flat_map
      (fun g => map (pair (fst g)) (slice_to max_articles_per_date (snd g)))
      date_groups
  /\ ((forall st u, fst (fetch_bloomberg_article st u) = Failure) ->
      Forall (fun r => row_article r = failed_article) (fst out)
      /\ fetches (log (snd out))
         = (fetches (log s) + 3 * List.length (fst out))%nat).
Proof.
  intros out. unfold out, process_urls_to_articles. split.
  - now rewrite process_groups_rows.
  - intros H.
    destruct (@process_groups_unreachable date_groups max_articles_per_date
                [] s H (Forall_nil _)) as [F Hf].
    split; [exact F|]. simpl in Hf. lia.
Qed.

End ArticleRows.

(** ** csv_url_extractor.py and bloomberg_scraper_main.py: the limits *)

Section Limits.
Import Sitemaps.
Context {feed : Feed}.

Lemma extractor_entries_bound target max_urls entries : forall urls,
  (len urls < max_urls \/ len urls = 0)%Z ->
  match CsvUrlExtractor.scan_entries target max_urls entries urls with
  | Returned urls' => (len urls' <= Z.max 1 max_urls)%Z
  | ValueError => False
  | AttributeError => True
  end.
Proof.
  induction entries as [|e rest IH]; intros urls Hp.
  - simpl. lia.
  - cbn [CsvUrlExtractor.scan_entries].
    destruct (lastmod e) as [text|]; [|now apply IH].
    destruct (startswith text target); [|now apply IH].
    destruct (loc e) as [article_url|]; [|exact I].
    assert (Hl : len (urls ++ [article_url]) = (len urls + 1)%Z).
    { unfold len. rewrite length_app. simpl. lia. }
    destruct (Z.geb_spec (len (urls ++ [article_url])) max_urls).
    + lia.
    + apply IH. lia.
Qed.

Lemma extractor_sitemaps_bound target ym max_urls locs : forall urls s,
  (len urls < max_urls \/ len urls = 0)%Z ->
  match fst (CsvUrlExtractor.scan_sitemaps target ym max_urls locs urls s)
  with
  | Returned urls' => (len urls' <= Z.max 1 max_urls)%Z
  | ValueError => False
  | AttributeError => True
  end.
Proof.
  induction locs as [|sitemap_url rest IH]; intros urls s Hp.
  - simpl. lia.
  - cbn [CsvUrlExtractor.scan_sitemaps].
    destruct (wanted ym sitemap_url); [|now apply IH].
    destruct (get_soup (state s) sitemap_url) as [[article_soup|] st];
      [|now apply IH].
    pose proof (@extractor_entries_bound target max_urls
                  (find_all_url article_soup) urls Hp) as He.
    destruct (CsvUrlExtractor.scan_entries target max_urls
                (find_all_url article_soup) urls) as [urls'| |];
      try exact He.
    destruct (Z.geb_spec (len urls') max_urls).
    + exact He.
    + apply IH. lia.
Qed.

Lemma extractor_result_bound target max_urls s :
  match fst (CsvUrlExtractor.get_bloomberg_urls_for_date target max_urls s)
  with
  | Returned urls => (len urls <= Z.max 1 max_urls)%Z
  | _ => True
  end.
Proof.
  unfold CsvUrlExtractor.get_bloomberg_urls_for_date.
  destruct (get_soup (state s) sitemap_index_url) as [[index_soup|] st].
  - destruct (strptime target) as [[year month]|]; [|exact I].
    match goal with
    | |- context [CsvUrlExtractor.scan_sitemaps ?t ?ym ?m ?l ?u ?s0] =>
        pose proof (@extractor_sitemaps_bound t ym m l u s0) as H;
        destruct (fst (CsvUrlExtractor.scan_sitemaps t ym m l u s0))
    end; try exact I.
    apply H. right. reflexivity.
  - simpl. unfold len. simpl. lia.
Qed.

Lemma extractor_entries_raise target max_urls entries : forall urls,
  match CsvUrlExtractor.scan_entries target max_urls entries urls with
  | Returned _ => True
  | ValueError => False
  | AttributeError => exists e, In e entries /\ lacks_loc target e = true
  end.
Proof.
  induction entries as [|e rest IH]; intros urls; [exact I|].
  cbn [CsvUrlExtractor.scan_entries].
  assert (K : forall urls',
             match CsvUrlExtractor.scan_entries target max_urls rest urls'
             with
             | Returned _ => True
             | ValueError => False
             | AttributeError =>
                 exists e', In e' (e :: rest) /\ lacks_loc target e' = true
             end).
  { intros urls'. specialize (IH urls').
    destruct (CsvUrlExtractor.scan_entries target max_urls rest urls');
      try exact IH.
    destruct IH as (e' & Hin & He). exists e'. split; [now right|exact He]. }
  destruct (lastmod e) as [text|] eqn:El; [|apply K].
  destruct (startswith text target) eqn:Es; [|apply K].
  destruct (loc e) as [article_url|] eqn:Eo.
  - destruct (len (urls ++ [article_url]) >=? max_urls)%Z; [exact I|apply K].
  - exists e. split; [now left|]. unfold lacks_loc. now rewrite El, Eo.
Qed.

Lemma extractor_sitemaps_raise target ym max_urls locs : forall urls s,
  match fst (CsvUrlExtractor.scan_sitemaps target ym max_urls locs urls s)
  with
  | Returned _ => True
  | ValueError => False
  | AttributeError =>
      exists sitemap_url st article_soup e,
        In sitemap_url locs
        /\ wanted ym sitemap_url = true
        /\ fst (get_soup st sitemap_url) = Some article_soup
        /\ In e (find_all_url article_soup)
        /\ lacks_loc target e = true
  end.
Proof.
  induction locs as [|sitemap_url rest IH]; intros urls s; [exact I|].
  cbn [CsvUrlExtractor.scan_sitemaps].
  assert (K : forall urls' s',
             match fst (CsvUrlExtractor.scan_sitemaps target ym max_urls
                          rest urls' s')
             with
             | Returned _ => True
             | ValueError => False
             | AttributeError =>
                 exists sitemap_url' st article_soup e,
                   In sitemap_url' (sitemap_url :: rest)
                   /\ wanted ym sitemap_url' = true
                   /\ fst (get_soup st sitemap_url') = Some article_soup
                   /\ In e (find_all_url article_soup)
                   /\ lacks_loc target e = true
             end).
  { intros urls' s'. specialize (IH urls' s').
    destruct (fst (CsvUrlExtractor.scan_sitemaps target ym max_urls rest
                     urls' s')); try exact IH.
    destruct IH as (u & st & soup & e & Hin & H).
    exists u, st, soup, e. split; [now right|exact H]. }
  destruct (wanted ym sitemap_url) eqn:Ew; [|apply K].
  destruct (get_soup (state s) sitemap_url) as [[article_soup|] st] eqn:Eg;
    [|apply K].
  pose proof (extractor_entries_raise target max_urls
                (find_all_url article_soup) urls) as He.
  destruct (CsvUrlExtractor.scan_entries target max_urls
              (find_all_url article_soup) urls) as [urls'| |].
  - destruct (len urls' >=? max_urls)%Z; [exact I|apply K].
  - exact He.
  - destruct He as (e & Hin & He).
    exists sitemap_url, (state s), article_soup, e.
    split; [now left|]. split; [exact Ew|]. split; [now rewrite Eg|].
    split; [exact Hin|exact He].
Qed.

(** X25: [get_bloomberg_urls_for_date] of csv_url_extractor.py
    keeps to [max_urls]: it never returns more than [max_urls]
    addresses, and never more than one when [max_urls] is zero or
    less.  It raises only in two ways, both after the index of the
    sitemaps was fetched: [ValueError] for a date that [strptime]
    rejects, and [AttributeError] when a sitemap of the index that is
    read (one of the month of the date, of the recent ones or of the
    news) was fetched and holds an entry dated as asked that has no
    address.  When the index cannot be fetched it returns the empty
    list before the date is even looked at. *)
Theorem extractor_keeps_to_max_urls target max_urls s :
  match fst (CsvUrlExtractor.get_bloomberg_urls_for_date target max_urls s)
  with
  | Returned urls => (len urls <= Z.max 1 max_urls)%Z
  | ValueError =>
      strptime target = None
      /\ fst (get_soup (state s) sitemap_index_url) <> None
  | AttributeError =>
      exists year month index_soup sitemap_url st article_soup e,
        strptime target = Some (year, month)
        /\ fst (get_soup (state s) sitemap_index_url) = Some index_soup
        /\ In sitemap_url (find_all_loc index_soup)
        /\ wanted (sitemap_of_month year month) sitemap_url = true
        /\ fst (get_soup st sitemap_url) = Some article_soup
        /\ In e (find_all_url article_soup)
        /\ lacks_loc target e = true
  end
  /\ (fst (get_soup (state s) sitemap_index_url) = None ->
      fst (CsvUrlExtractor.get_bloomberg_urls_for_date target max_urls s)
      = Returned []).
Proof.
  unfold CsvUrlExtractor.get_bloomberg_urls_for_date.
  destruct (get_soup (state s) sitemap_index_url) as [[index_soup|] st].
  - split; [|discriminate].
    destruct (strptime target) as [[year month]|] eqn:Ed;
      [|split; [reflexivity|discriminate]].
    match goal with
    | |- context [CsvUrlExtractor.scan_sitemaps ?t ?ym ?m ?l ?u ?s0] =>
        pose proof (@extractor_sitemaps_bound t ym m l u s0) as H;
        pose proof (@extractor_sitemaps_raise t ym m l u s0) as G;
        destruct (fst (CsvUrlExtractor.scan_sitemaps t ym m l u s0))
    end.
    + apply H. right. reflexivity.
    + exfalso. exact G.
    + destruct G as (u & st' & soup & e & G).
      exists year, month, index_soup, u, st', soup, e.
      split; [reflexivity|]. split; [reflexivity|]. exact G.
  - split; [|reflexivity]. simpl. unfold len. simpl. lia.
Qed.

End Limits.

(** On a sitemap whose first entry of the day has no address the search
    raises, whatever the limit. *)
Lemma entry_without_loc_raises max_urls :
  fst (CsvUrlExtractor.get_bloomberg_urls_for_date
         (feed := Stub.single_sitemap Stub.loc_missing)
         (lit "2025-09-24") max_urls
         (Sitemaps.Session (feed := Stub.single_sitemap Stub.loc_missing)
            tt []))
  = Sitemaps.AttributeError.
Proof. reflexivity. Qed.

Section WholeSitemap.
Import Sitemaps.

Lemma main_entries_all target entries : forall urls,
  forallb (dated target) entries = true ->
  BloombergScraperMain.scan_entries target entries urls
  = Returned (urls ++ map address entries).
Proof.
  induction entries as [|e rest IH]; intros urls H.
  - simpl. now rewrite app_nil_r.
  - simpl in H. apply andb_true_iff in H. destruct H as [He Hr].
    cbn [BloombergScraperMain.scan_entries map].
    unfold dated, address in *.
    destruct (lastmod e) as [text|]; [|discriminate].
    destruct (loc e) as [url|]; [|discriminate]. rewrite He.
    rewrite IH by exact Hr. now rewrite <- app_assoc.
Qed.

Lemma extractor_entries_first target max_urls entries : forall urls,
  forallb (dated target) entries = true ->
  (len urls < max_urls)%Z ->
  CsvUrlExtractor.scan_entries target max_urls entries urls
  = Returned
      (urls ++ firstn (Z.to_nat (max_urls - len urls)) (map address entries)).
Proof.
  induction entries as [|e rest IH]; intros urls H Hl.
  - simpl. now rewrite firstn_nil, app_nil_r.
  - simpl in H. apply andb_true_iff in H. destruct H as [He Hr].
    cbn [CsvUrlExtractor.scan_entries map].
    unfold dated in He. unfold address at 1.
    destruct (lastmod e) as [text|]; [|discriminate].
    destruct (loc e) as [url|]; [|discriminate]. rewrite He.
    assert (Hn : len (urls ++ [url]) = (len urls + 1)%Z).
    { unfold len. rewrite length_app. simpl. lia. }
    replace (Z.to_nat (max_urls - len urls))
      with (S (Z.to_nat (max_urls - len (urls ++ [url])))) by lia.
    cbn [firstn].
    destruct (Z.geb_spec (len (urls ++ [url])) max_urls).
    + replace (Z.to_nat (max_urls - len (urls ++ [url]))) with 0%nat by lia.
      reflexivity.
    + rewrite IH by (try exact Hr; lia). now rewrite <- app_assoc.
Qed.

(** X26: the limit of 20 of bloomberg_scraper_main.py holds between
    sitemaps only.  From a feed whose index names one sitemap of news,
    [get_bloomberg_urls_for_date] of that file returns the address of
    every entry of the day, however many there are, where the one of
    csv_url_extractor.py asked for 20 returns the first 20. *)
Theorem main_returns_whole_sitemap entries target
  (s : session (feed := Stub.single_sitemap entries)) :
  forallb (dated target) entries = true ->
  fst (BloombergScraperMain.get_bloomberg_urls_for_date target s)
  = Returned (map address entries)
  /\ fst (CsvUrlExtractor.get_bloomberg_urls_for_date target 20 s)
     = Returned (firstn 20 (map address entries)).
Proof.
  intros H. split.
  - unfold BloombergScraperMain.get_bloomberg_urls_for_date.
    cbn [get_soup strptime Stub.single_sitemap find_all_loc].
    assert (E : str_eqb sitemap_index_url sitemap_index_url = true)
      by now apply str_eqb_true.
    rewrite E. cbn [find_all_loc BloombergScraperMain.scan_sitemaps].
    change (wanted _ (lit "sitemap_news.xml")) with true.
    cbn [state get_soup Stub.single_sitemap].
    change (str_eqb (lit "sitemap_news.xml") sitemap_index_url) with false.
    cbn [find_all_url]. rewrite (main_entries_all _ _ [] H). cbn [app].
    now destruct (len (map address entries) >=? 20)%Z.
  - unfold CsvUrlExtractor.get_bloomberg_urls_for_date.
    cbn [get_soup strptime Stub.single_sitemap find_all_loc].
    assert (E : str_eqb sitemap_index_url sitemap_index_url = true)
      by now apply str_eqb_true.
    rewrite E. cbn [find_all_loc CsvUrlExtractor.scan_sitemaps].
    change (wanted _ (lit "sitemap_news.xml")) with true.
    cbn [state get_soup Stub.single_sitemap].
    change (str_eqb (lit "sitemap_news.xml") sitemap_index_url) with false.
    cbn [find_all_url].
    rewrite (@extractor_entries_first target 20 entries [] H)
      by (unfold len; simpl; lia).
    cbn [app]. change (Z.to_nat (20 - len [])) with 20%nat.
    now destruct (len (firstn 20 (map address entries)) >=? 20)%Z.
Qed.

End WholeSitemap.

Lemma main_returns_whole_sitemap_witness :
  fst (BloombergScraperMain.get_bloomberg_urls_for_date
         (feed := Stub.single_sitemap Stub.busy_day) (lit "2025-09-24")
         (Sitemaps.Session (feed := Stub.single_sitemap Stub.busy_day) tt []))
  = Sitemaps.Returned (map address Stub.busy_day)
  /\ fst (CsvUrlExtractor.get_bloomberg_urls_for_date
            (feed := Stub.single_sitemap Stub.busy_day) (lit "2025-09-24") 20
            (Sitemaps.Session (feed := Stub.single_sitemap Stub.busy_day)
               tt []))
     = Sitemaps.Returned (firstn 20 (map address Stub.busy_day))
  /\ List.length (map address Stub.busy_day) = 25%nat.
Proof.
  destruct (@main_returns_whole_sitemap Stub.busy_day (lit "2025-09-24")
              (Sitemaps.Session (feed := Stub.single_sitemap Stub.busy_day)
                 tt [])
              eq_refl) as [H1 H2].
  split; [exact H1|]. split; [exact H2|reflexivity].
Defined.

(** ** What a whole run submits to the External Scorer *)

Section WholeRun.
Context {scorer : ExternalScorer}.
Context {python : Interpreter}.

Lemma base_analysis_log v w a w' :
  SentimentAnalyzer.analyze_news_titles v w = (Ok a, w') ->
  calls w' = calls w ++ items_of SentimentAnalyzer.split_titles v.
Proof.
  destruct v as [|s|z|q]; try discriminate.
  - intros H. inversion H. simpl. now rewrite app_nil_r.
  - cbn [items_of].
    destruct (SentimentAnalyzer.split_titles (split PIPE s)) as [|t ts] eqn:Et.
    + rewrite (analyze_news_titles_no_title _ _ Et). intros H.
      inversion H. now rewrite app_nil_r.
    + destruct (analyze_news_titles_scored s w) as (scores & w1 & Hs & _ & Ha).
      { rewrite Et. discriminate. }
      rewrite Ha. intros H. inversion H; subst w1. rewrite Et in Hs.
      eapply base_loop_log; [|exact Hs].
      rewrite <- Et. apply base_items_not_blank.
Qed.

Lemma correct_analysis_log v w b w' :
  CorrectSentimentAnalyzer.analyze_news_titles v w = (Ok b, w') ->
  calls w' = calls w ++ items_of CorrectSentimentAnalyzer.split_titles v.
Proof.
  destruct v as [|s|z|q]; try discriminate.
  - intros H. inversion H. simpl. now rewrite app_nil_r.
  - cbn [items_of].
    destruct (CorrectSentimentAnalyzer.split_titles (split PIPE s))
      as [|t ts] eqn:Et.
    + rewrite (correct_analyze_no_title _ _ Et). intros H.
      inversion H. now rewrite app_nil_r.
    + destruct (correct_analyze_scored s w) as (scores & w1 & Hs & _ & Ha).
      { rewrite Et. discriminate. }
      rewrite Ha. intros H. inversion H; subst w1. rewrite Et in Hs.
      eapply correct_loop_log; [|exact Hs].
      rewrite <- Et. apply strip_items_not_blank.
Qed.

Lemma fixed_analysis_log v w b w' :
  FixedSentimentAnalyzer.analyze_news_titles v w = (Ok b, w') ->
  calls w' = calls w ++ items_of FixedSentimentAnalyzer.split_titles v.
Proof.
  destruct v as [|s|z|q]; try discriminate.
  - intros H. inversion H. simpl. now rewrite app_nil_r.
  - cbn [items_of].
    destruct (FixedSentimentAnalyzer.split_titles (split PIPE s))
      as [|t ts] eqn:Et.
    + rewrite (fixed_analyze_no_title _ _ Et). intros H.
      inversion H. now rewrite app_nil_r.
    + unfold FixedSentimentAnalyzer.analyze_news_titles.
      cbn [isna strip_value split_pipe]. unfold bind at 1, ret at 1.
      destruct (str_eqb (strip s) []) eqn:Es.
      * exfalso. apply str_eqb_true, strip_nil_iff in Es.
        pose proof (strip_split_titles_blank _ Es) as Z.
        rewrite <- fixed_split_titles, Et in Z. discriminate.
      * unfold bind at 1, ret at 1. rewrite Et. cbn [truthy_list negb].
        unfold bind.
        destruct (FixedSentimentAnalyzer.score_titles (t :: ts)
                    (FixedSentimentAnalyzer.Tally [] 0 0 0) w)
          as [[tally|e] w1] eqn:Hs; [|discriminate].
        unfold ret. intros H. inversion H; subst w1.
        eapply fixed_loop_log; [|exact Hs].
        rewrite <- Et, fixed_split_titles. apply strip_items_not_blank.
Qed.

(** The log of a chain of analyses. *)
Lemma analysed_log (analyze : value -> M bundle_result)
  (items : value -> list pystr) :
  (forall v w b w',
      analyze v w = (Ok b, w') -> calls w' = calls w ++ items v) ->
  forall cells w results w',
    analysed analyze cells w results w' ->
    calls w' = calls w ++ flat_map items cells.
Proof.
  intros L cells. induction cells as [|v vs IH]; intros w results w' H.
  - destruct results; [|contradiction]. simpl in H. subst w'.
    simpl. now rewrite app_nil_r.
  - destruct results as [|b bs]; [contradiction|].
    destruct H as (w1 & Hv & Hvs).
    rewrite (IH _ _ _ Hvs), (L _ _ _ _ Hv). simpl. now rewrite app_assoc.
Qed.

(** What is printed after the file is written calls nothing. *)
Lemma bind_quiet {A B} (m : M A) (k : A -> M B) :
  (forall w, snd (m w) = w) -> (forall a w, snd (k a w) = w) ->
  forall w, snd (bind m k w) = w.
Proof.
  intros Hm Hk w. unfold bind. specialize (Hm w).
  destruct (m w) as [[a|e] w1]; simpl in Hm; subst w1; [apply Hk|reflexivity].
Qed.

Lemma getitem_quiet r col w : snd (getitem r col w) = w.
Proof. unfold getitem. now destruct (lookup r col). Qed.

Lemma print_samples_quiet rows :
  forall w, snd (SentimentAnalyzer.print_samples rows w) = w.
Proof.
  induction rows as [|r rest IH]; [reflexivity|].
  cbn [SentimentAnalyzer.print_samples].
  repeat (apply bind_quiet; [intros w; try apply getitem_quiet|intros ?]);
    try exact IH.
  - unfold SentimentAnalyzer.format_4f.
    match goal with |- context [match ?v with _ => _ end] => now destruct v end.
  - unfold SentimentAnalyzer.slice_100.
    match goal with |- context [match ?v with _ => _ end] => now destruct v end.
Qed.

Lemma print_summary_quiet result_df w :
  snd (SentimentAnalyzer.print_summary result_df w) = w.
Proof.
  revert w. unfold SentimentAnalyzer.print_summary.
  repeat (apply bind_quiet; [intros w|intros ?]);
    try apply print_samples_quiet.
  - unfold SentimentAnalyzer.format_mean.
    destruct (bearing _ _) as [|[|n]]; try reflexivity.
    now destruct (forallb _ _).
  - unfold SentimentAnalyzer.format_sum. now destruct (bearing _ _).
  - unfold SentimentAnalyzer.format_sum. now destruct (bearing _ _).
  - unfold SentimentAnalyzer.format_sum. now destruct (bearing _ _).
  - unfold SentimentAnalyzer.format_sum. now destruct (bearing _ _).
Qed.

(** The loop of [process_csv_with_sentiment]: the bundles are analysed
    in the order of the rows. *)
Lemma analyze_rows_log rows : forall acc w,
  forallb readable rows = true ->
  exists results w',
    SentimentAnalyzer.analyze_rows rows acc w = (Ok results, w')
    /\ calls w'
       = calls w
         ++ flat_map
              (fun r => items_of SentimentAnalyzer.split_titles
                          (get r "news_titles" (Str [])))
              rows.
Proof.
  induction rows as [|row rest IH]; intros acc w Hr.
  - exists acc, w. simpl. now rewrite app_nil_r.
  - simpl in Hr. apply andb_true_iff in Hr. destruct Hr as [Hrow Hrest].
    unfold readable in Hrow.
    destruct (lookup row "date") as [d|] eqn:Hd; [|discriminate].
    destruct (analyze_news_titles_textual _ w Hrow) as (a & w1 & Ha).
    erewrite analyze_rows_cons_ok; [|exact Hd|exact Ha].
    destruct (IH (acc ++ [SentimentAnalyzer.fields a]) w1 Hrest)
      as (results & w' & H & Hc).
    exists results, w'. split; [exact H|].
    rewrite Hc, (base_analysis_log _ _ Ha). simpl. now rewrite app_assoc.
Qed.

(** X27: over a whole run the External Scorer receives every item of
    the file exactly once, row after row and, within a row, in the
    order of the bundle: the log of a run of each of the three row
    processors over a frame that it can read grows by the items of
    the bundles of the rows, one row after the other, and by nothing
    else.  A row without bundle contributes no call.
    [process_csv_with_sentiment] has written its file by then, and
    what it prints afterwards, whether that returns or raises, calls
    nothing more. *)
Theorem run_submits_items_in_file_order df w :
  rectangular df ->
  (forallb readable (iterrows df) = true ->
   exists ending out w',
     SentimentAnalyzer.process_csv_with_sentiment df w
     = (ending, w', Some out)
     /\ List.length (data out) = List.length (data df)
     /\ calls w'
        = calls w
          ++ flat_map (items_of SentimentAnalyzer.split_titles) (bundles df))
  /\ (forallb readable_strict (iterrows df) = true ->
      (exists out w',
          CorrectSentimentAnalyzer.process_csv df false w = (Ok out, w')
          /\ calls w'
             = calls w
               ++ flat_map (items_of CorrectSentimentAnalyzer.split_titles)
                    (bundles df))
      /\ (exists out w',
             FixedSentimentAnalyzer.process_csv df w = (Ok out, w')
             /\ calls w'
                = calls w
                  ++ flat_map (items_of FixedSentimentAnalyzer.split_titles)
                       (bundles df))).
Proof.
  intros R. split.
  - intros Hr. destruct (analyze_rows_log _ [] w Hr) as (results & w' & H & Hc).
    destruct (analyze_rows_readable _ [] w Hr) as (results' & w2 & H' & Hl & _).
    simpl in H'. rewrite H in H'. injection H' as <- <-.
    rewrite iterrows_length in Hl.
    pose proof (print_summary_quiet (concat_axis1 df (of_records results)) w')
      as Q.
    destruct (SentimentAnalyzer.print_summary
                (concat_axis1 df (of_records results)) w') as [ending w'']
      eqn:Ep.
    simpl in Q. subst w''.
    exists ending, (concat_axis1 df (of_records results)), w'. split.
    + unfold SentimentAnalyzer.process_csv_with_sentiment.
      now rewrite H, Ep.
    + split; [|rewrite Hc; unfold bundles].
      { simpl. rewrite of_records_data. apply joined_length.
        now rewrite length_map. } now rewrite flat_map_concat_map,
        (flat_map_concat_map _ (map _ _)), map_map.
  - intros Hr.
    destruct (initialised_cells R) as (R' & Hin & _ & _ & Hb).
    destruct (initialised_frame R) as [Hl Hrs].
    assert (T : forall v w0, textual v = true ->
                  exists b w1,
                    FixedSentimentAnalyzer.analyze_news_titles v w0
                    = (Ok b, w1)).
    { intros [|s|z|q] w0; try discriminate; intros _.
      - now exists zero_result, w0.
      - destruct (FixedSentimentAnalyzer.split_titles (split PIPE s))
          as [|t ts] eqn:Et.
        + exists zero_result, w0. now apply fixed_analyze_no_title.
        + destruct (fixed_analyze_scored s w0) as (scores & w1 & _ & H).
          { rewrite Et. discriminate. }
          eauto. }
    split.
    + unfold CorrectSentimentAnalyzer.process_csv.
      match goal with
      | |- context [CorrectSentimentAnalyzer.process_rows (iterrows ?d) 0 ?d w]
        => set (df' := d) in *
      end.
      destruct (@loop_cells scorer
                  CorrectSentimentAnalyzer.analyze_news_titles
                  CorrectSentimentAnalyzer.store_result
                  CorrectSentimentAnalyzer.process_rows
                  (fun _ _ _ => eq_refl) (fun _ _ => eq_refl)
                  (fun _ _ _ _ => eq_refl) correct_analyze_textual
                  (iterrows df') 0%nat df' w)
        as (out & w' & results & H & _ & _ & Ha & _).
      { exact R'. }
      { intros c Hc. apply Hin. now right. }
      { now rewrite Hrs. }
      { rewrite iterrows_length. simpl. lia. }
      exists out, w'. split; [exact H|]. rewrite Hb in Ha.
      eapply analysed_log; [|exact Ha]. apply correct_analysis_log.
    + unfold FixedSentimentAnalyzer.process_csv.
      match goal with
      | |- context [FixedSentimentAnalyzer.process_rows (iterrows ?d) 0 ?d w]
        => set (df' := d) in *
      end.
      destruct (@loop_cells scorer
                  FixedSentimentAnalyzer.analyze_news_titles
                  FixedSentimentAnalyzer.store_result
                  FixedSentimentAnalyzer.process_rows
                  (fun _ _ _ => eq_refl) (fun _ _ => eq_refl)
                  (fun _ _ _ _ => eq_refl) T
                  (iterrows df') 0%nat df' w)
        as (out & w' & results & H & _ & _ & Ha & _).
      { exact R'. }
      { intros c Hc. apply Hin. now right. }
      { now rewrite Hrs. }
      { rewrite iterrows_length. simpl. lia. }
      exists out, w'. split; [exact H|]. rewrite Hb in Ha.
      eapply analysed_log; [|exact Ha]. apply fixed_analysis_log.
Qed.

End WholeRun.

Lemma run_submits_items_in_file_order_witness :
  (exists ending out w',
      SentimentAnalyzer.process_csv_with_sentiment Stub.two_days Stub.fresh
      = (ending, w', Some out)
      /\ List.length (data out) = 2%nat
      /\ calls w' = [lit "x"; lit "y"])
  /\ (exists out w',
         CorrectSentimentAnalyzer.process_csv Stub.two_days false Stub.fresh
         = (Ok out, w')
         /\ calls w' = [lit "x"; lit "y"]).
Proof.
  assert (R : rectangular Stub.two_days) by (repeat constructor).
  destruct (@run_submits_items_in_file_order Stub.always_positive
              Stub.cpython_3_11 Stub.two_days Stub.fresh R) as [H1 [H2 _]];
    [reflexivity|].
  split; [exact (H1 eq_refl)|exact H2].
Defined.

Lemma unreachable_site_rows :
  let out :=
    UrlToText.process_urls_to_articles (site := Stub.unreachable)
      (parser := Stub.reads_empty_h1)
      [ (lit "2024-01-04", [lit "a"; lit "b"; lit "c"; lit "d"]) ] 3
      (UrlToText.Session (site := Stub.unreachable) tt []) in
  map UrlToText.bloomberg_url (fst out) = [lit "a"; lit "b"; lit "c"]
  /\ map UrlToText.row_article (fst out) = repeat failed_article 3
  /\ fetches (UrlToText.log (snd out)) = 9%nat.
Proof. repeat split. Qed.

(** ** csv_url_extractor.py: the file of addresses *)

Section AddressFile.
Import Sitemaps.
Context {feed : Feed}.

Lemma str_eqb_refl a : str_eqb a a = true.
Proof. now apply str_eqb_true. Qed.

Lemma str_eqb_false a b : str_eqb a b = false <-> a <> b.
Proof.
  unfold str_eqb. destruct (list_eq_dec N.eq_dec a b); split; congruence.
Qed.

Lemma unique_in l x : In x (CsvUrlExtractor.unique l) <-> In x l.
Proof.
  induction l as [|y l IH]; [tauto|].
  cbn [CsvUrlExtractor.unique In]. rewrite filter_In, IH.
  destruct (list_eq_dec N.eq_dec y x) as [->|Hne]; [tauto|].
  split.
  - intros [H|[H _]]; auto.
  - intros [H|H]; [contradiction|]. right. split; [exact H|].
    apply negb_true_iff, str_eqb_false. congruence.
Qed.

Lemma unique_nodup l : NoDup (CsvUrlExtractor.unique l).
Proof.
  induction l as [|y l IH]; [constructor|].
  cbn [CsvUrlExtractor.unique]. constructor.
  - rewrite filter_In. intros [_ H].
    now rewrite str_eqb_refl in H.
  - now apply NoDup_filter.
Qed.

Lemma rows_of_app date l1 l2 :
  rows_of date (l1 ++ l2) = rows_of date l1 ++ rows_of date l2.
Proof. apply filter_app. Qed.

Lemma rows_of_other date d urls :
  d <> date -> rows_of date (map (pair d) urls) = [].
Proof.
  intros H. unfold rows_of. induction urls as [|u urls IH]; [reflexivity|].
  simpl. apply str_eqb_false in H. now rewrite H.
Qed.

Lemma rows_of_same date urls :
  rows_of date (map (pair date) urls) = map (pair date) urls.
Proof.
  unfold rows_of. induction urls as [|u urls IH]; [reflexivity|].
  simpl. now rewrite str_eqb_refl, IH.
Qed.

Lemma process_dates_spec max_urls dates : forall results s,
  NoDup dates ->
  let out := CsvUrlExtractor.process_dates dates max_urls results s in
  (forall date,
      In date dates ->
      rows_of date results = [] ->
      (len (rows_of date (fst out)) <= Z.max 1 max_urls)%Z)
  /\ (forall date,
         ~ In date dates ->
         rows_of date (fst out) = rows_of date results)
  /\ (forall r,
         In r (fst out) ->
         In r results \/ (In (fst r) dates /\ strptime (fst r) <> None)).
Proof.
  induction dates as [|d rest IH]; intros results s N.
  - simpl. repeat split; auto. intros date [].
  - inversion N as [|? ? Hd Hrest]; subst.
    cbn [CsvUrlExtractor.process_dates].
    destruct (strptime d) as [ym|] eqn:Ed.
    + pose proof (@extractor_result_bound feed d max_urls s) as B.
      destruct (CsvUrlExtractor.get_bloomberg_urls_for_date d max_urls s)
        as [[urls| |] s1]; cbn [fst] in B.
      * destruct (IH (results ++ map (pair d) urls)
                    (Session (state s1) (log s1 ++ [Sleep 1])) Hrest)
          as (H1 & H2 & H3).
        cbv zeta. split; [|split].
        -- intros date [->|Hin] Hz.
           ++ rewrite (H2 date Hd), rows_of_app, Hz, rows_of_same.
              cbn [app]. unfold len in *. now rewrite length_map.
           ++ apply H1; [exact Hin|].
              rewrite rows_of_app, Hz, rows_of_other; [reflexivity|].
              intros ->. contradiction.
        -- intros date Hn. rewrite H2 by (intros Hin; apply Hn; now right).
           rewrite rows_of_app, rows_of_other, app_nil_r; [reflexivity|].
           intros ->. apply Hn. now left.
        -- intros r Hr. destruct (H3 r Hr) as [Hin|[Hin Hs]].
           ++ apply in_app_or in Hin. destruct Hin as [Hin|Hin]; [now left|].
              apply in_map_iff in Hin. destruct Hin as (u & <- & _).
              right. simpl. split; [now left|congruence].
           ++ right. split; [now right|exact Hs].
      * destruct (IH results s1 Hrest) as (H1 & H2 & H3).
        cbv zeta. split; [|split].
        -- intros date [->|Hin] Hz.
           ++ rewrite (H2 date Hd), Hz. unfold len. simpl. lia.
           ++ now apply H1.
        -- intros date Hn. apply H2. intros Hin. apply Hn. now right.
        -- intros r Hr. destruct (H3 r Hr) as [Hin|[Hin Hs]]; [now left|].
           right. split; [now right|exact Hs].
      * destruct (IH results s1 Hrest) as (H1 & H2 & H3).
        cbv zeta. split; [|split].
        -- intros date [->|Hin] Hz.
           ++ rewrite (H2 date Hd), Hz. unfold len. simpl. lia.
           ++ now apply H1.
        -- intros date Hn. apply H2. intros Hin. apply Hn. now right.
        -- intros r Hr. destruct (H3 r Hr) as [Hin|[Hin Hs]]; [now left|].
           right. split; [now right|exact Hs].
    + destruct (IH results s Hrest) as (H1 & H2 & H3).
      cbv zeta. split; [|split].
      * intros date [->|Hin] Hz.
        -- rewrite (H2 date Hd), Hz. unfold len. simpl. lia.
        -- now apply H1.
      * intros date Hn. apply H2. intros Hin. apply Hn. now right.
      * intros r Hr. destruct (H3 r Hr) as [Hin|[Hin Hs]]; [now left|].
        right. split; [now right|exact Hs].
Qed.

(** The loop over the dates, cut at any date. *)
Lemma process_dates_app max_urls l1 : forall l2 results s,
  CsvUrlExtractor.process_dates (l1 ++ l2) max_urls results s
  = CsvUrlExtractor.process_dates l2 max_urls
      (fst (CsvUrlExtractor.process_dates l1 max_urls results s))
      (snd (CsvUrlExtractor.process_dates l1 max_urls results s)).
Proof.
  induction l1 as [|d rest IH]; intros l2 results s; [reflexivity|].
  cbn [app CsvUrlExtractor.process_dates].
  destruct (strptime d); [|apply IH].
  destruct (CsvUrlExtractor.get_bloomberg_urls_for_date d max_urls s)
    as [[urls| |] s1]; apply IH.
Qed.

(** The rows that the loop adds do not depend on those it was given. *)
Lemma process_dates_acc max_urls dates : forall results s,
  CsvUrlExtractor.process_dates dates max_urls results s
  = (results ++ fst (CsvUrlExtractor.process_dates dates max_urls [] s),
     snd (CsvUrlExtractor.process_dates dates max_urls [] s)).
Proof.
  induction dates as [|d rest IH]; intros results s.
  - simpl. now rewrite app_nil_r.
  - cbn [CsvUrlExtractor.process_dates].
    destruct (strptime d); [|apply IH].
    destruct (CsvUrlExtractor.get_bloomberg_urls_for_date d max_urls s)
      as [[urls| |] s1]; try apply IH.
    match goal with
    | |- CsvUrlExtractor.process_dates rest max_urls ?r1 ?s1 = _ =>
        rewrite (IH r1 s1), (IH ([] ++ map (pair d) urls) s1)
    end.
    cbn [fst snd app]. now rewrite app_assoc.
Qed.

Lemma process_dates_absent max_urls dates date results s :
  NoDup dates -> ~ In date dates ->
  rows_of date (fst (CsvUrlExtractor.process_dates dates max_urls results s))
  = rows_of date results.
Proof.
  intros N H.
  destruct (@process_dates_spec max_urls dates results s N) as (_ & H2 & _).
  now apply H2.
Qed.

(** The rows come date after date. *)
Lemma process_dates_grouped max_urls dates : forall s,
  NoDup dates ->
  let rows := fst (CsvUrlExtractor.process_dates dates max_urls [] s) in
  rows = flat_map (fun date => rows_of date rows) dates.
Proof.
  induction dates as [|d rest IH]; intros s N; [reflexivity|].
  inversion N as [|? ? Hd Hrest]; subst.
  assert (G : forall found s1,
             (forall r, In r found -> fst r = d) ->
             let rows :=
               fst (CsvUrlExtractor.process_dates rest max_urls found s1) in
             rows = flat_map (fun date => rows_of date rows) (d :: rest)).
  { intros found s1 Hf rows. unfold rows.
    rewrite process_dates_acc. cbn [fst flat_map].
    set (R := fst (CsvUrlExtractor.process_dates rest max_urls [] s1)).
    assert (Ef : rows_of d found = found).
    { unfold rows_of. clear - Hf.
      induction found as [|r found IHf]; [reflexivity|].
      simpl. rewrite (Hf r (or_introl eq_refl)), str_eqb_refl.
      f_equal. apply IHf. intros r' Hr'. apply Hf. now right. }
    assert (Er : rows_of d R = []).
    { unfold R. now rewrite process_dates_absent. }
    rewrite rows_of_app, Ef, Er, app_nil_r. f_equal.
    pose proof (IH s1 Hrest) as E. cbv zeta in E. fold R in E.
    rewrite E at 1.
    rewrite !flat_map_concat_map. f_equal. apply map_ext_in.
    intros date Hin. rewrite rows_of_app.
    assert (En : rows_of date found = []).
    { unfold rows_of. clear - Hf Hin Hd.
      induction found as [|r found IHf]; [reflexivity|].
      simpl. rewrite (Hf r (or_introl eq_refl)).
      assert (Hne : d <> date) by (intros ->; contradiction).
      apply str_eqb_false in Hne. rewrite Hne.
      apply IHf. intros r' Hr'. apply Hf. now right. }
    now rewrite En. }
  cbn [CsvUrlExtractor.process_dates].
  destruct (strptime d).
  - destruct (CsvUrlExtractor.get_bloomberg_urls_for_date d max_urls s)
      as [[urls| |] s1].
    + apply G. intros r Hr. apply in_map_iff in Hr.
      now destruct Hr as (u & <- & _).
    + apply G. intros r [].
    + apply G. intros r [].
  - apply G. intros r [].
Qed.

(** X28: the file of addresses that [process_csv_with_urls] writes.
    Whatever the site does, the run goes through all dates, each
    distinct date once and in the order of first appearance: the rows
    of a date are exactly the addresses that its search returns,
    made in the session that the dates before it have left, whether
    their searches returned or raised; a date that [strptime] rejects
    and a date whose search raises have no row, and the dates after
    them go on.  The rows come date after date.  Every date gets at
    most [max_urls_per_date] rows (at most one when that is zero or
    less), however often it occurs in the input, and every row has
    a date of the input that [strptime] accepts. *)
Theorem address_file_rows dates max_urls_per_date s :
  let out := CsvUrlExtractor.process_csv_with_urls dates max_urls_per_date s in
  (forall date,
      (len (rows_of date (fst out)) <= Z.max 1 max_urls_per_date)%Z)
  /\ (forall r,
         In r (fst out) -> In (fst r) dates /\ strptime (fst r) <> None)
  /\ (forall before date after,
         CsvUrlExtractor.unique dates = before ++ date :: after ->
         let reached :=
           snd (CsvUrlExtractor.process_dates before max_urls_per_date [] s)
         in
         rows_of date (fst out)
         = match strptime date with
           | None => []
           | Some _ =>
               match fst (CsvUrlExtractor.get_bloomberg_urls_for_date date
                            max_urls_per_date reached) with
               | Returned urls => map (pair date) urls
               | _ => []
               end
           end)
  /\ fst out
     = flat_map (fun date => rows_of date (fst out))
         (CsvUrlExtractor.unique dates)
  /\ (forall date, ~ In date dates -> rows_of date (fst out) = []).
Proof.
  intros out. unfold out, CsvUrlExtractor.process_csv_with_urls.
  pose proof (unique_nodup dates) as N.
  destruct (@process_dates_spec max_urls_per_date
              (CsvUrlExtractor.unique dates) [] s N)
    as (H1 & H2 & H3).
  split; [|split; [|split; [|split]]].
  - intros date.
    destruct (in_dec (list_eq_dec N.eq_dec) date
                (CsvUrlExtractor.unique dates)) as [Hin|Hn].
    + now apply H1.
    + rewrite (H2 date Hn). unfold len. simpl. lia.
  - intros r Hr. destruct (H3 r Hr) as [[]|[Hin Hs]].
    split; [now apply unique_in|exact Hs].
  - intros before date after E. cbv zeta.
    rewrite E in N |- *. rewrite process_dates_app.
    apply NoDup_remove in N. destruct N as [N Hn].
    assert (Nb : NoDup before) by (now apply NoDup_app_remove_r in N).
    assert (Na : NoDup after) by (now apply NoDup_app_remove_l in N).
    assert (Hb : ~ In date before)
      by (intros Hin; apply Hn, in_or_app; now left).
    assert (Ha : ~ In date after)
      by (intros Hin; apply Hn, in_or_app; now right).
    pose proof (@process_dates_absent max_urls_per_date before date [] s
                  Nb Hb) as Eb.
    destruct (CsvUrlExtractor.process_dates before max_urls_per_date [] s)
      as [r1 s1].
    cbn [fst snd] in *. cbn [CsvUrlExtractor.process_dates].
    destruct (strptime date).
    + destruct (CsvUrlExtractor.get_bloomberg_urls_for_date date
                  max_urls_per_date s1) as [[urls| |] s2]; cbn [fst].
      * rewrite process_dates_absent by assumption.
        now rewrite rows_of_app, Eb, rows_of_same.
      * now rewrite process_dates_absent by assumption.
      * now rewrite process_dates_absent by assumption.
    + now rewrite process_dates_absent by assumption.
  - now apply process_dates_grouped.
  - intros date Hn. rewrite H2; [reflexivity|].
    intros Hin. apply Hn. now apply unique_in.
Qed.

End AddressFile.

(** A search that raises does not end the run: with a sitemap whose
    entry of the first day has no address, the file has the row of the
    second day. *)
Lemma run_goes_on_after_failure :
  fst (CsvUrlExtractor.process_csv_with_urls
         (feed := Stub.single_sitemap Stub.loc_missing)
         [ lit "2025-09-24"; lit "2025-09-25"; lit "2025-09-24" ] 5
         (Sitemaps.Session (feed := Stub.single_sitemap Stub.loc_missing)
            tt []))
  = [ (lit "2025-09-25",
       lit "https://www.bloomberg.co.jp/news/articles/y") ].
Proof. reflexivity. Qed.


(** ** BERT/BERT_main.py: the text of a page *)

Section PageText.
Import BERT_main.

Lemma lstrip_rstrip s : lstrip (rstrip s) = rstrip (lstrip s).
Proof.
  induction s as [|c s IH]; [reflexivity|].
  destruct (isspace c) eqn:E.
  - cbn [lstrip]. rewrite E. destruct (blank s) eqn:B.
    + rewrite rstrip_cons_blank by exact B. rewrite E.
      rewrite (rstrip_blank (lstrip s)) by now rewrite blank_lstrip.
      reflexivity.
    + rewrite rstrip_cons_not_blank by exact B.
      cbn [lstrip]. rewrite E. exact IH.
  - rewrite rstrip_cons_clean by exact E.
    cbn [lstrip]. rewrite E. now rewrite rstrip_cons_clean.
Qed.

Lemma lstrip_prefix s : exists w, blank w = true /\ s = w ++ lstrip s.
Proof.
  induction s as [|c s IH]; [now exists []|].
  simpl. destruct (isspace c) eqn:E.
  - destruct IH as (w & Hw & Hs). exists (c :: w). simpl.
    rewrite E, Hw. split; [reflexivity|]. now rewrite <- Hs.
  - now exists [].
Qed.

Lemma rstrip_suffix s : exists w, blank w = true /\ s = rstrip s ++ w.
Proof.
  induction s as [|c s IH]; [now exists []|].
  destruct IH as (w & Hw & Hs). destruct (blank s) eqn:B.
  - rewrite rstrip_cons_blank by exact B. destruct (isspace c) eqn:E.
    + exists (c :: s). simpl. now rewrite E, B.
    + exists s. now split.
  - rewrite rstrip_cons_not_blank by exact B.
    exists w. split; [exact Hw|]. simpl. now rewrite <- Hs.
Qed.

Lemma lstrip_app_not_blank a b :
  blank a = false -> lstrip (a ++ b) = lstrip a ++ b.
Proof.
  induction a as [|c a IH]; [discriminate|].
  simpl. destruct (isspace c); [exact IH|reflexivity].
Qed.

Lemma rstrip_app_blank a b : blank b = true -> rstrip (a ++ b) = rstrip a.
Proof.
  intros B. induction a as [|c a IH]; [now apply rstrip_blank|].
  cbn [app rstrip]. now rewrite IH.
Qed.

Lemma rstrip_app_not_blank a b :
  blank b = false -> rstrip (a ++ b) = a ++ rstrip b.
Proof.
  intros B. induction a as [|c a IH]; [reflexivity|].
  cbn [app]. rewrite rstrip_cons_not_blank; [now rewrite IH|].
  unfold blank in *. rewrite forallb_app, B. apply andb_false_r.
Qed.

(** Collapsing a text that has a run of whitespace between two parts
    with clean ends. *)
Lemma sub_spaces_blank_clean w r :
  blank w = true -> w <> [] -> starts_clean r = true -> r <> [] ->
  sub_spaces (w ++ r) = SPACE :: sub_spaces r.
Proof.
  intros Hw Hn Hr Hne. induction w as [|c w IH]; [congruence|].
  simpl in Hw. apply andb_true_iff in Hw. destruct Hw as [Hc Hw].
  destruct w as [|d w].
  - destruct r as [|e r]; [congruence|]. simpl in Hr.
    apply negb_true_iff in Hr. cbn [app].
    rewrite sub_spaces_cons_space by exact Hc. now rewrite Hr.
  - cbn [app]. rewrite sub_spaces_cons_space by exact Hc.
    simpl in Hw. apply andb_true_iff in Hw. destruct Hw as [Hd Hw].
    rewrite Hd. apply IH; [|discriminate]. simpl. now rewrite Hd, Hw.
Qed.

Lemma sub_spaces_middle y w r :
  rstrip y <> [] -> blank w = true -> w <> [] ->
  starts_clean r = true -> r <> [] ->
  sub_spaces (rstrip y ++ w ++ r)
  = sub_spaces (rstrip y) ++ SPACE :: sub_spaces r.
Proof.
  intros Hy Hw Hn Hr Hne. induction y as [|c y IH]; [now simpl in Hy|].
  destruct (blank y) eqn:B.
  - rewrite rstrip_cons_blank in * by exact B.
    destruct (isspace c) eqn:E; [congruence|].
    cbn [app]. rewrite !sub_spaces_cons_clean by exact E.
    cbn [sub_spaces app]. f_equal.
    now apply sub_spaces_blank_clean.
  - rewrite rstrip_cons_not_blank in * by exact B.
    assert (Hy' : rstrip y <> []).
    { intros H. apply rstrip_nil_iff in H. congruence. }
    specialize (IH Hy'). destruct (rstrip y) as [|d t] eqn:Ey; [congruence|].
    destruct (isspace c) eqn:E.
    + cbn [app]. rewrite !sub_spaces_cons_space by exact E.
      cbn [app] in IH. destruct (isspace d); rewrite IH; reflexivity.
    + cbn [app]. cbn [app] in IH.
      rewrite (@sub_spaces_cons_clean c (d :: t ++ w ++ r) E).
      rewrite (@sub_spaces_cons_clean c (d :: t) E).
      now rewrite IH.
Qed.

Lemma tidy_nil_iff s : tidy s = [] <-> blank s = true.
Proof. unfold tidy. now rewrite sub_spaces_nil_iff, strip_nil_iff. Qed.

Lemma glue_nil_r a : glue a [] = a.
Proof. now destruct a. Qed.

(** The tidy form of two parts with whitespace between them. *)
Lemma tidy_app a b :
  b = [] \/ starts_clean b = false ->
  tidy (a ++ b) = glue (tidy a) (tidy b).
Proof.
  intros Hb. destruct (blank a) eqn:Ba.
  - rewrite (proj2 (tidy_nil_iff a) Ba). cbn [glue]. unfold tidy, strip.
    now rewrite lstrip_blank_prefix.
  - destruct (blank b) eqn:Bb.
    + rewrite (proj2 (tidy_nil_iff b) Bb), glue_nil_r. unfold tidy, strip.
      rewrite lstrip_app_not_blank by exact Ba.
      now rewrite rstrip_app_blank.
    + destruct Hb as [->|Hs]; [discriminate|].
      assert (E : strip (a ++ b) = lstrip a ++ rstrip b).
      { unfold strip. rewrite lstrip_app_not_blank by exact Ba.
        now apply rstrip_app_not_blank. }
      destruct (rstrip_suffix (lstrip a)) as (wa & Hwa & Ea).
      destruct (lstrip_prefix (rstrip b)) as (wb & Hwb & Eb).
      assert (Na : strip a <> []).
      { intros H. apply strip_nil_iff in H. congruence. }
      assert (Nb : strip b <> []).
      { intros H. apply strip_nil_iff in H. congruence. }
      assert (Nw : wb <> []).
      { intros ->. simpl in Eb.
        assert (C : starts_clean (rstrip b) = true)
          by (rewrite Eb; apply lstrip_starts_clean).
        destruct b as [|c b]; [discriminate|]. simpl in Hs.
        apply negb_false_iff in Hs. simpl in Bb. rewrite Hs in Bb.
        simpl in Bb. rewrite rstrip_cons_not_blank in C by exact Bb.
        simpl in C. rewrite Hs in C. discriminate. }
      unfold tidy at 1. rewrite E, Ea, Eb, lstrip_rstrip.
      fold (strip a). fold (strip b).
      rewrite <- app_assoc, (app_assoc wa).
      unfold strip at 1.
      rewrite sub_spaces_middle.
      * fold (strip a). fold (tidy a). fold (tidy b). unfold glue.
        destruct (tidy a) eqn:Ta.
        { apply tidy_nil_iff in Ta. congruence. }
        destruct (tidy b) eqn:Tb.
        { apply tidy_nil_iff in Tb. congruence. }
        reflexivity.
      * exact Na.
      * unfold blank in *. rewrite forallb_app, Hwa, Hwb. reflexivity.
      * intros H. apply app_eq_nil in H. destruct H. contradiction.
      * apply strip_starts_clean.
      * exact Nb.
Qed.

Lemma tidy_cons_space c s : isspace c = true -> tidy (c :: s) = tidy s.
Proof. intros E. unfold tidy, strip. simpl. now rewrite E. Qed.

Lemma tidy_strip s : tidy (strip s) = tidy s.
Proof. unfold tidy. now rewrite strip_idem. Qed.

Lemma glue_assoc a b c : glue a (glue b c) = glue (glue a b) c.
Proof.
  destruct a as [|x a]; [reflexivity|].
  destruct b as [|y b]; [reflexivity|].
  destruct c as [|z c]; [reflexivity|].
  cbn [glue app]. f_equal. now rewrite <- !app_assoc.
Qed.

Lemma glue_all_app xs ys :
  glue_all (xs ++ ys) = glue (glue_all xs) (glue_all ys).
Proof.
  induction xs as [|x xs IH]; [reflexivity|].
  cbn [app glue_all fold_right]. fold (glue_all (xs ++ ys)).
  fold (glue_all xs). now rewrite IH, glue_assoc.
Qed.

Lemma line_boundary_space c : is_line_boundary c = true -> isspace c = true.
Proof.
  unfold is_line_boundary, isspace, in_range.
  rewrite !orb_true_iff, !andb_true_iff, !N.leb_le, !N.eqb_eq.
  intros H.
  assert (Hc : (9 <= c <= 13 \/ 28 <= c <= 32 \/ c = 133 \/ c = 8232
                \/ c = 8233)%N) by lia.
  destruct Hc as [Hc|[Hc|[Hc|[Hc|Hc]]]].
  - do 10 left. lia.
  - do 9 left. right. lia.
  - do 8 left. right. exact Hc.
  - do 4 left. right. exact Hc.
  - do 3 left. right. exact Hc.
Qed.

Lemma split_two_spaces_cons2 c d x :
  split_two_spaces (c :: d :: x)
  = if ((c =? SPACE) && (d =? SPACE))%N then [] :: split_two_spaces x
    else match split_two_spaces (d :: x) with
         | [] => [[c]]
         | phrase :: phrases => (c :: phrase) :: phrases
         end.
Proof. reflexivity. Qed.

(** The phrases of a line, and the lines of a text, are parts of it
    with whitespace between them. *)
Lemma split_two_spaces_parts n : forall x,
  (List.length x <= n)%nat ->
  exists phrase phrases rest,
    split_two_spaces x = phrase :: phrases
    /\ x = phrase ++ rest
    /\ (rest = [] \/ starts_clean rest = false)
    /\ glue_all (map tidy phrases) = tidy rest.
Proof.
  induction n as [|n IH]; intros x Hl.
  - destruct x; [|simpl in Hl; lia]. exists [], [], []. repeat split; auto.
  - destruct x as [|c [|d x]].
    + exists [], [], []. repeat split; auto.
    + exists [c], [], []. repeat split; auto.
    + rewrite split_two_spaces_cons2.
      destruct ((c =? SPACE) && (d =? SPACE))%N eqn:E.
      * apply andb_true_iff in E. destruct E as [Ec Ed].
        apply N.eqb_eq in Ec, Ed. subst c d.
        destruct (IH x) as (p & ps & rest & Hs & Hx & Hr & Hg).
        { simpl in Hl. lia. }
        exists [], (split_two_spaces x), (SPACE :: SPACE :: x).
        split; [reflexivity|]. split; [reflexivity|].
        split; [now right|].
        rewrite !tidy_cons_space by reflexivity.
        rewrite Hs. cbn [map glue_all fold_right]. fold (glue_all (map tidy ps)).
        rewrite Hg, <- (tidy_app _ Hr). now rewrite <- Hx.
      * destruct (IH (d :: x)) as (p & ps & rest & Hs & Hx & Hr & Hg).
        { simpl in Hl. simpl. lia. }
        rewrite Hs. exists (c :: p), ps, rest.
        split; [reflexivity|]. split; [now rewrite Hx at 1|]. now split.
Qed.

Lemma split_two_spaces_tidy x :
  glue_all (map tidy (split_two_spaces x)) = tidy x.
Proof.
  destruct (@split_two_spaces_parts (List.length x) x (le_n _))
    as (p & ps & rest & Hs & Hx & Hr & Hg).
  rewrite Hs. cbn [map glue_all fold_right]. fold (glue_all (map tidy ps)).
  rewrite Hg, <- (tidy_app _ Hr). now rewrite <- Hx.
Qed.

Lemma splitlines_parts n : forall t,
  (List.length t <= n)%nat ->
  (splitlines t = [] /\ t = [])
  \/ exists line lines rest,
       splitlines t = line :: lines
       /\ t = line ++ rest
       /\ (rest = [] \/ starts_clean rest = false)
       /\ glue_all (map tidy lines) = tidy rest.
Proof.
  induction n as [|n IH]; intros t Hl.
  - destruct t; [|simpl in Hl; lia]. now left.
  - destruct t as [|c s]; [now left|]. right.
    assert (G : forall u, (List.length u <= n)%nat ->
                  glue_all (map tidy (splitlines u)) = tidy u).
    { intros u Hu. destruct (IH u Hu) as [[E ->]|H]; [now rewrite E|].
      destruct H as (l & ls & rest & Hs & Hx & Hr & Hg).
      rewrite Hs. cbn [map glue_all fold_right].
      fold (glue_all (map tidy ls)).
      rewrite Hg, <- (tidy_app _ Hr). now rewrite <- Hx. }
    cbn [splitlines]. destruct (is_line_boundary c) eqn:B.
    + pose proof (line_boundary_space _ B) as Sc.
      exists [], (match s with
                  | d :: s'' =>
                      if ((c =? 13) && (d =? 10))%N then splitlines s''
                      else splitlines s
                  | [] => splitlines s
                  end), (c :: s).
      split; [reflexivity|]. split; [reflexivity|]. split.
      { right. simpl. now rewrite Sc. }
      rewrite tidy_cons_space by exact Sc.
      destruct s as [|d s'']; [reflexivity|].
      destruct ((c =? 13) && (d =? 10))%N eqn:E.
      * apply andb_true_iff in E. destruct E as [_ Ed].
        apply N.eqb_eq in Ed. subst d.
        rewrite tidy_cons_space by reflexivity.
        apply G. simpl in Hl. lia.
      * apply G. simpl in Hl. simpl. lia.
    + destruct (IH s) as [[E ->]|H]; [simpl in Hl; lia| |].
      * rewrite E. exists [c], [], []. repeat split; auto.
      * destruct H as (l & ls & rest & Hs & Hx & Hr & Hg).
        rewrite Hs. exists (c :: l), ls, rest.
        split; [reflexivity|]. split; [now rewrite Hx at 1|]. now split.
Qed.

Lemma splitlines_tidy t : glue_all (map tidy (splitlines t)) = tidy t.
Proof.
  destruct (@splitlines_parts (List.length t) t (le_n _)) as [[E ->]|H];
    [now rewrite E|].
  destruct H as (l & ls & rest & Hs & Hx & Hr & Hg).
  rewrite Hs. cbn [map glue_all fold_right]. fold (glue_all (map tidy ls)).
  rewrite Hg, <- (tidy_app _ Hr). now rewrite <- Hx.
Qed.

Lemma join_space_head chunk chunks :
  exists tail, join_space (chunk :: chunks) = chunk ++ tail.
Proof.
  destruct chunks as [|c cs].
  - exists []. simpl. now rewrite app_nil_r.
  - now exists ([SPACE] ++ join_space (c :: cs)).
Qed.

(** Joining the chunks that are not empty, and collapsing. *)
Lemma join_chunks_tidy phrases :
  sub_spaces (join_space (filter truthy (map strip phrases)))
  = glue_all (map tidy phrases).
Proof.
  induction phrases as [|v vs IH]; [reflexivity|].
  cbn [map filter glue_all fold_right]. fold (glue_all (map tidy vs)).
  destruct (truthy (strip v)) eqn:T.
  - set (chunks := filter truthy (map strip vs)) in *.
    destruct chunks as [|c cs] eqn:Ec.
    + simpl in IH. rewrite <- IH, glue_nil_r. reflexivity.
    + change (join_space (strip v :: c :: cs))
        with (strip v ++ [SPACE] ++ join_space (c :: cs)).
      assert (Hc : In c chunks) by (rewrite Ec; now left).
      unfold chunks in Hc. apply filter_In in Hc. destruct Hc as [Hin Ht].
      apply in_map_iff in Hin. destruct Hin as (v' & <- & _).
      destruct (join_space_head (strip v') cs) as (tail & Ej).
      assert (Nv : strip v <> []) by (destruct (strip v); discriminate).
      assert (Nr : join_space (strip v' :: cs) <> []).
      { rewrite Ej. destruct (strip v'); discriminate. }
      assert (Cr : starts_clean (join_space (strip v' :: cs)) = true).
      { rewrite Ej. pose proof (strip_starts_clean v') as C.
        destruct (strip v'); [discriminate|exact C]. }
      unfold strip at 1. rewrite sub_spaces_middle;
        [|exact Nv|reflexivity|discriminate|exact Cr|exact Nr].
      fold (strip v). fold (tidy v). rewrite IH. unfold glue.
      destruct (tidy v) eqn:Tv.
      { apply tidy_nil_iff, strip_nil_iff in Tv. congruence. }
      destruct (glue_all (map tidy vs)) eqn:Tg; [|reflexivity].
      apply (proj1 (sub_spaces_nil_iff _)) in IH. congruence.
  - rewrite IH. apply truthy_false in T.
    unfold tidy at 2. now rewrite T.
Qed.

Lemma flat_map_map {A B C} (f : B -> C) (g : A -> list B) l :
  flat_map (fun a => map f (g a)) l = map f (flat_map g l).
Proof.
  induction l as [|a l IH]; [reflexivity|].
  simpl. now rewrite IH, map_app.
Qed.

Lemma glue_all_flat_map {A} (g : A -> list pystr) l :
  glue_all (map tidy (flat_map g l))
  = glue_all (map (fun a => glue_all (map tidy (g a))) l).
Proof.
  induction l as [|a l IH]; [reflexivity|].
  cbn [flat_map map]. rewrite map_app, glue_all_app, IH. reflexivity.
Qed.

(** X29: the line-by-line tidying of [extract_text_from_html] does
    nothing of its own.  Splitting the text of the page into lines,
    the lines into phrases at double spaces, stripping all of them
    and joining those that are not empty with a space, and then
    collapsing the whitespace, gives exactly the text stripped and
    collapsed, whatever line ends and spaces it holds; the symbols
    are removed after that.  So [clean_text] of
    sentiment_analyzer_correct.py is this function followed by one
    more [strip]. *)
Theorem page_text_is_stripped_and_collapsed {U : UnicodeData} text :
  extract_text_from_html text = filter kept (sub_spaces (strip text))
  /\ CorrectSentimentAnalyzer.clean_text text
     = strip (extract_text_from_html text).
Proof.
  assert (E : extract_text_from_html text
              = filter kept (sub_spaces (strip text))).
  { unfold extract_text_from_html. f_equal.
    rewrite flat_map_map, join_chunks_tidy, glue_all_flat_map.
    rewrite (map_ext _ tidy) by (intros l; apply split_two_spaces_tidy).
    rewrite map_map, (map_ext _ tidy) by (intros l; apply tidy_strip).
    apply splitlines_tidy. }
  split; [exact E|].
  rewrite E. apply correct_clean_text_unfold.
Qed.

End PageText.
